(** * MindMirror: element scanners, emotion smoothing and mood playlists

    A shallow embedding of the JavaScript sources of the repository:
    - [SpotifyService.getPlaylistForEmotion]   (computer-vision/spotify-service.js)
    - [SpotifyService], token and requests     (computer-vision/spotify-service.js)
    - [MorphCastService]                       (morphcast-service.js)
    - [MoodMusicController]                    (the controller of the mood music page)
    - [SimpleDOMScanner]                       (simple-dom-scanner.js)
    - [EfficientDOMScanner]                    (efficient-dom-scanner.js)
    - [RobustDOMScanner]                       (robust-dom-scanner.js)

    How the program is rendered:
    - strings are Rocq strings, sequences of 8-bit code units; integers
      are [Z]; pixel geometry, the product [maxElements * 0.7] and the
      confidence of an element are exact rationals [Q]; the numbers of
      the emotion service are any type with the operations of
      [JSNumber];
    - a thrown exception is the [Throw] branch of the [Exc] monad, and a
      [try]/[catch] is [try_catch];
    - the mutable fields of a scanner or service object are a record
      that each method takes and returns;
    - what the browser decides is an input: the document is a tree, the
      layout, the intersection observer and the computed style are the
      fields of a [Host], the clocks are the fields of a [Clock], and
      the values of [Math.random()] are the fields of [Draws];
    - an [async] method answers an [Outcome]: fulfilled, rejected, or
      never settled; it is run in one go, and where what happens
      between its tasks matters, as for a scan of the efficient scanner
      in flight, the method is also given in two parts;
    - what the page shows is a map from element ids to contents, the
      network is a function from requests to responses, and a timer
      that has been set and has not fired is counted. *)

From Stdlib Require Import List String Ascii ZArith NArith QArith Qround Bool Lia Arith.
From Stdlib Require Import Permutation Sorted Lqa.
Import ListNotations.

Set Warnings "-register-all".
Open Scope string_scope.
Open Scope Z_scope.

(* ================================================================== *)
(** * Part I. Definitions                                              *)
(* ================================================================== *)

(** ** JavaScript basics: exceptions, values, property lookup *)

Module JS.

(** A computation either completes with a value or throws. *)
Inductive Exc (A : Type) : Type :=
| Ok (a : A)
| Throw (err : string).
Arguments Ok {A} a.
Arguments Throw {A} err.

Definition ret {A} (a : A) : Exc A := Ok a.

Definition bind {A B} (m : Exc A) (k : A -> Exc B) : Exc B :=
  match m with
  | Ok a => k a
  | Throw e => Throw e
  end.

(** [try { body } catch (e) { handler }] *)
Definition try_catch {A} (body : Exc A) (handler : string -> Exc A) : Exc A :=
  match body with
  | Ok a => Ok a
  | Throw e => handler e
  end.

Definition succeeds {A} (m : Exc A) : bool :=
  match m with Ok _ => true | Throw _ => false end.

(** The values that flow through the playlist tables. *)
Inductive value : Type :=
| VUndefined
| VString (s : string)
| VNative (name : string)                 (* a built-in function object *)
| VObjectPrototype                        (* %Object.prototype% itself  *)
| VObject (own : list (string * value)).  (* an object literal          *)

Fixpoint assoc {A} (k : string) (l : list (string * A)) : option A :=
  match l with
  | [] => None
  | (k', v) :: tl => if String.eqb k k' then Some v else assoc k tl
  end.

(** Names of the function-valued properties every object literal
    inherits from %Object.prototype%. *)
Definition objectPrototypeMethods : list string :=
  [ "constructor"; "hasOwnProperty"; "isPrototypeOf";
    "propertyIsEnumerable"; "toLocaleString"; "toString"; "valueOf";
    "__defineGetter__"; "__defineSetter__";
    "__lookupGetter__"; "__lookupSetter__" ].

Definition inb (k : string) (l : list string) : bool :=
  existsb (String.eqb k) l.

(** Property lookup on %Object.prototype%: the constructor is the
    function [Object], the accessor [__proto__] answers the receiver's
    prototype, which for an object literal is %Object.prototype%. *)
Definition objectPrototypeGet (k : string) : value :=
  if String.eqb k "constructor" then VNative "Object"
  else if inb k objectPrototypeMethods then VNative k
  else if String.eqb k "__proto__" then VObjectPrototype
  else VUndefined.

(** [o[k]] for a string key: own properties first, then the prototype
    chain; reading a property of [undefined] is a TypeError.  The
    service reads properties of object literals only; the properties of
    strings and functions are left out. *)
Definition get (o : value) (k : string) : Exc value :=
  match o with
  | VUndefined => Throw "TypeError"
  | VObject own =>
      match assoc k own with
      | Some v => Ok v
      | None => Ok (objectPrototypeGet k)
      end
  | VObjectPrototype => Ok (objectPrototypeGet k)
  | VString _ | VNative _ => Ok VUndefined
  end.

(** ToBoolean *)
Definition truthy (v : value) : bool :=
  match v with
  | VUndefined => false
  | VString s => negb (String.eqb s "")
  | _ => true
  end.

(** [a || b] *)
Definition or_else (a b : value) : value := if truthy a then a else b.

(** ToPropertyKey: what [o[v]] uses as the key when [v] is not a
    string. *)
Definition toPropertyKey (v : value) : string :=
  match v with
  | VUndefined => "undefined"
  | VString s => s
  | VNative n => "function " ++ n ++ "() { [native code] }"
  | VObjectPrototype | VObject _ => "[object Object]"
  end.

End JS.

Notation "x <- m ;; k" := (JS.bind m (fun x => k))
  (at level 61, m at next level, right associativity).

(** ** String operations of the JavaScript library *)

Module Str.

Definition code (c : ascii) : N := N_of_ascii c.

Definition between (lo hi : N) (c : ascii) : bool :=
  ((lo <=? code c) && (code c <=? hi))%N.

Definition is_digit (c : ascii) : bool := between 48 57 c.
Definition is_upper (c : ascii) : bool := between 65 90 c.
Definition is_lower (c : ascii) : bool := between 97 122 c.
Definition is_letter (c : ascii) : bool := is_upper c || is_lower c.
Definition is_hex (c : ascii) : bool :=
  is_digit c || between 65 70 c || between 97 102 c.
(** [\w] of a regular expression *)
Definition is_word (c : ascii) : bool :=
  is_letter c || is_digit c || Ascii.eqb c "_".
(** [\s] of a regular expression, and what [trim] removes: the white
    space and the line terminators of the language.  Those that are
    code units of 8 bits are U+0009 to U+000D, the space and the
    no-break space U+00A0. *)
Definition is_space (c : ascii) : bool :=
  between 9 13 c || Ascii.eqb c " " || (code c =? 160)%N.

Definition lower_char (c : ascii) : ascii :=
  if is_upper c then ascii_of_N (code c + 32) else c.
Definition upper_char (c : ascii) : ascii :=
  if is_lower c then ascii_of_N (code c - 32) else c.

Fixpoint map_chars (f : ascii -> ascii) (s : string) : string :=
  match s with
  | EmptyString => EmptyString
  | String c r => String (f c) (map_chars f r)
  end.

Definition toLowerCase : string -> string := map_chars lower_char.
Definition toUpperCase : string -> string := map_chars upper_char.

Fixpoint forallb_chars (f : ascii -> bool) (s : string) : bool :=
  match s with
  | EmptyString => true
  | String c r => f c && forallb_chars f r
  end.

Fixpoint rev_acc (s acc : string) : string :=
  match s with
  | EmptyString => acc
  | String c r => rev_acc r (String c acc)
  end.
Definition rev (s : string) : string := rev_acc s EmptyString.

Fixpoint trimStart (s : string) : string :=
  match s with
  | String c r => if is_space c then trimStart r else s
  | EmptyString => EmptyString
  end.

Definition trim (s : string) : string :=
  rev (trimStart (rev (trimStart s))).

(** [s.substring(0, n)] *)
Definition prefix_n (n : nat) (s : string) : string := String.substring 0 n s.

Fixpoint startsWith (p s : string) : bool :=
  match p, s with
  | EmptyString, _ => true
  | String a p', String b s' => Ascii.eqb a b && startsWith p' s'
  | _, _ => false
  end.

(** [s.includes(p)] *)
Fixpoint includes (p s : string) : bool :=
  startsWith p s ||
  match s with
  | EmptyString => false
  | String _ r => includes p r
  end.

Definition nonempty (s : string) : bool := negb (String.eqb s "").

(** The pieces of [s] between maximal runs of separators; a leading or
    trailing run leaves an empty piece at that end. *)
Fixpoint split_aux (sep : ascii -> bool) (s : string) (cur : string) (in_gap : bool)
  : list string :=
  match s with
  | EmptyString => [rev cur]
  | String c r =>
      if sep c then
        if in_gap then split_aux sep r cur true
        else rev cur :: split_aux sep r EmptyString true
      else split_aux sep r (String c cur) false
  end.

Definition split_by (sep : ascii -> bool) (s : string) : list string :=
  split_aux sep s EmptyString false.

(** [s.split(/\s+/)] *)
Definition split_ws (s : string) : list string := split_by is_space s.

(** [parts.join(sep)] *)
Fixpoint join (sep : string) (parts : list string) : string :=
  match parts with
  | [] => ""
  | [x] => x
  | x :: tl => x ++ sep ++ join sep tl
  end.

Definition digit_char (d : N) : ascii :=
  if (d <? 10)%N then ascii_of_N (48 + d) else ascii_of_N (87 + d).

(** [n.toString(radix)] for a non-negative integer *)
Fixpoint to_radix_aux (fuel : nat) (radix n : N) (acc : string) : string :=
  match fuel with
  | O => acc
  | S fuel' =>
      let acc' := String (digit_char (n mod radix)) acc in
      if (n / radix =? 0)%N then acc' else to_radix_aux fuel' radix (n / radix) acc'
  end.

Definition to_radix (radix n : N) : string :=
  to_radix_aux (S (N.to_nat (N.log2 n))) radix n EmptyString.

Definition of_nat (n : nat) : string := to_radix 10 (N.of_nat n).

Definition of_Z (z : Z) : string :=
  if z <? 0 then "-" ++ to_radix 10 (Z.to_N (- z)) else to_radix 10 (Z.to_N z).

End Str.

(** ** The document: a tree of elements and text *)

Module DOM.

(** An element carries its tag name in lower case, as the HTML parser
    leaves it, and its attributes in source order. *)
Inductive Node : Type :=
| Element (tag : string) (attrs : list (string * string)) (children : list Node)
| TextNode (data : string).

(** An element is referred to by the child indices that lead to it from
    the root element; two references denote the same node exactly when
    they are equal. *)
Definition NodeRef : Type := list nat.

Definition ref_eqb (a b : NodeRef) : bool :=
  if list_eq_dec Nat.eq_dec a b then true else false.

Definition mem (r : NodeRef) (l : list NodeRef) : bool := existsb (ref_eqb r) l.

Definition childNodesOf (n : Node) : list Node :=
  match n with
  | Element _ _ cs => cs
  | TextNode _ => []
  end.

Fixpoint node_at (root : Node) (r : NodeRef) : option Node :=
  match r with
  | [] => Some root
  | i :: r' =>
      match nth_error (childNodesOf root) i with
      | Some c => node_at c r'
      | None => None
      end
  end.

Definition is_element (n : Node) : bool :=
  match n with Element _ _ _ => true | TextNode _ => false end.

(** [element.localName]; HTML elements have it in lower case. *)
Definition localName (doc : Node) (r : NodeRef) : string :=
  match node_at doc r with
  | Some (Element t _ _) => t
  | _ => ""
  end.

(** [element.tagName] *)
Definition tagName (doc : Node) (r : NodeRef) : string :=
  Str.toUpperCase (localName doc r).

Definition attributes (doc : Node) (r : NodeRef) : list (string * string) :=
  match node_at doc r with
  | Some (Element _ a _) => a
  | _ => []
  end.

(** [element.getAttribute(name)]; [None] is [null]. *)
Definition getAttribute (doc : Node) (r : NodeRef) (name : string)
  : option string :=
  JS.assoc name (attributes doc r).

Definition hasAttribute (doc : Node) (r : NodeRef) (name : string) : bool :=
  match getAttribute doc r name with Some _ => true | None => false end.

(** A reflected string property such as [element.id],
    [element.className], [element.placeholder]: the attribute, or the
    empty string. *)
Definition reflected (doc : Node) (r : NodeRef) (name : string) : string :=
  match getAttribute doc r name with Some v => v | None => "" end.

(** [element.value] of a control the user has not touched: the content
    of a [textarea]; the [value] attribute of any other element; and
    without that attribute [on] for a check box or a radio button, the
    empty string otherwise.  The type of an [input] is read without
    regard to case.  What the other input types do to the attribute
    (a file input answers no value, a range or a colour a default, a
    text field drops line breaks) is left out. *)
Definition value (doc : Node) (r : NodeRef) : string :=
  match node_at doc r with
  | Some (Element t a cs) =>
      if String.eqb t "textarea"
      then (fix go (l : list Node) : string :=
              match l with
              | TextNode d :: l' => d ++ go l'
              | _ :: l' => go l'
              | [] => EmptyString
              end) cs
      else match JS.assoc "value" a with
           | Some v => v
           | None =>
               let type := match JS.assoc "type" a with
                           | Some v => Str.toLowerCase v
                           | None => EmptyString
                           end in
               if String.eqb t "input"
                  && (String.eqb type "checkbox" || String.eqb type "radio")
               then "on" else EmptyString
           end
  | _ => EmptyString
  end.

Definition id (doc : Node) (r : NodeRef) : string := reflected doc r "id".
Definition className (doc : Node) (r : NodeRef) : string := reflected doc r "class".

(** ASCII white space (Infra): tab, line feed, form feed, carriage
    return and space.  It separates the tokens of a [class] attribute
    and the words that [~=] looks for; the vertical tab and the
    no-break space, white space to JavaScript, are part of a token. *)
Definition is_ascii_whitespace (c : ascii) : bool :=
  (Str.code c =? 9)%N || (Str.code c =? 10)%N || (Str.code c =? 12)%N
  || (Str.code c =? 13)%N || (Str.code c =? 32)%N.

(** The tokens of an attribute value that is a set of
    space-separated tokens. *)
Definition tokens (value : string) : list string :=
  filter Str.nonempty (Str.split_by is_ascii_whitespace value).

(** [element.classList.contains(token)] *)
Definition classList_contains (doc : Node) (r : NodeRef) (token : string) : bool :=
  JS.inb token (tokens (className doc r)).

(** [node.textContent] *)
Fixpoint textContentOf (n : Node) : string :=
  match n with
  | TextNode d => d
  | Element _ _ cs =>
      (fix go (l : list Node) : string :=
         match l with
         | [] => ""
         | c :: l' => textContentOf c ++ go l'
         end) cs
  end.

Definition textContent (doc : Node) (r : NodeRef) : string :=
  match node_at doc r with Some n => textContentOf n | None => "" end.

(** [element.parentElement]; the root element has none. *)
Definition parentElement (r : NodeRef) : option NodeRef :=
  match r with
  | [] => None
  | _ => Some (removelast r)
  end.

(** The proper ancestors of an element, nearest first. *)
Fixpoint ancestors_rev (rev_path : list nat) : list NodeRef :=
  match rev_path with
  | [] => []
  | _ :: up => List.rev up :: ancestors_rev up
  end.

Definition ancestors (r : NodeRef) : list NodeRef := ancestors_rev (List.rev r).

Fixpoint indexed_from {A} (i : nat) (l : list A) : list (nat * A) :=
  match l with
  | [] => []
  | x :: tl => (i, x) :: indexed_from (S i) tl
  end.

(** [node.childNodes], as references *)
Definition childNodeRefs (doc : Node) (r : NodeRef) : list (NodeRef * Node) :=
  match node_at doc r with
  | Some n => map (fun ic => ((r ++ [fst ic])%list, snd ic))
                  (indexed_from 0 (childNodesOf n))
  | None => []
  end.

(** [element.children]: the child elements *)
Definition children (doc : Node) (r : NodeRef) : list NodeRef :=
  map fst (filter (fun rn => is_element (snd rn)) (childNodeRefs doc r)).

(** The elements of the subtree below [n], itself excluded, in document
    order. *)
Fixpoint descendantsOf (here : NodeRef) (n : Node) : list NodeRef :=
  match n with
  | TextNode _ => []
  | Element _ _ cs =>
      (fix go (i : nat) (l : list Node) : list NodeRef :=
         match l with
         | [] => []
         | c :: l' =>
             ((if is_element c then [(here ++ [i])%list] else [])
                ++ descendantsOf (here ++ [i])%list c ++ go (S i) l')%list
         end) 0%nat cs
  end.

Definition descendants (doc : Node) (r : NodeRef) : list NodeRef :=
  match node_at doc r with
  | Some n => descendantsOf r n
  | None => []
  end.

(** Every element of the document, in document order. *)
Definition all_elements (doc : Node) : list NodeRef :=
  if is_element doc then [] :: descendantsOf [] doc else [].

(** [document.body]: the first [body] child of the root element. *)
Definition body (doc : Node) : option NodeRef :=
  List.find (fun r => String.eqb (localName doc r) "body") (children doc []).

Definition is_body (doc : Node) (r : NodeRef) : bool :=
  match body doc with
  | Some b => ref_eqb r b
  | None => false
  end.

(** The siblings of an element that carry its tag name, itself
    included, in document order; alone when it has no parent. *)
Definition sameTypeSiblings (doc : Node) (r : NodeRef) : list NodeRef :=
  match parentElement r with
  | Some p => filter (fun c => String.eqb (tagName doc c) (tagName doc r))
                     (children doc p)
  | None => [r]
  end.

(** [array.indexOf(x)], -1 when absent *)
Fixpoint indexOf_from (i : Z) (r : NodeRef) (l : list NodeRef) : Z :=
  match l with
  | [] => -1
  | x :: tl => if ref_eqb x r then i else indexOf_from (i + 1) r tl
  end.

Definition indexOf (r : NodeRef) (l : list NodeRef) : Z := indexOf_from 0 r l.

(** The element siblings that precede an element, nearest first. *)
Definition previousSiblings (doc : Node) (r : NodeRef) : list NodeRef :=
  match parentElement r with
  | Some p =>
      List.rev (filter (fun c => (List.last c 0 <? List.last r 0)%nat) (children doc p))
  | None => []
  end.

(** *** Geometry, as the layout engine reports it *)

Record Rect : Type := mkRect {
  left : Q;
  top : Q;
  width : Q;
  height : Q
}.

(** [rect.bottom] and [rect.right]: the larger of the two edges. *)
Definition bottom (r : Rect) : Q :=
  if Qle_bool 0 (height r) then (top r + height r)%Q else top r.
Definition right (r : Rect) : Q :=
  if Qle_bool 0 (width r) then (left r + width r)%Q else left r.

(** The host page: the viewport, the layout of each element, what an
    intersection observer reports for it (nothing when the entry does
    not arrive before the time-out), and its computed cursor style. *)
Record Host : Type := mkHost {
  innerWidth : Q;
  innerHeight : Q;
  getBoundingClientRect : NodeRef -> Rect;
  isIntersecting : NodeRef -> option bool;
  cursor : NodeRef -> string
}.

Definition Qltb (a b : Q) : bool := negb (Qle_bool b a).

(** [Math.round] *)
Definition round (q : Q) : Z := Qfloor (q + (1 # 2))%Q.

End DOM.

(** ** Selectors: [CSS.escape], and how the document resolves a selector
       string

    [querySelectorAll] belongs to the browser.  The model below follows
    the CSS Syntax and Selectors specifications for the selectors the
    scanners pose and emit: type, universal, id, class and attribute
    selectors, [:not(...)] over a compound selector, [:nth-of-type(n)]
    for an integer [n], the four combinators and selector lists.

    The selector text is preprocessed as CSS Syntax has it (NUL becomes
    U+FFFD, form feed and carriage return become line feeds).  An
    attribute selector compares values case-sensitively unless it
    carries the flag [i], or names one of the attributes whose values
    HTML compares without regard to case ([type], [method], ...) and
    carries no flag [s].

    One thing is narrower than a browser.  Any other pseudo-class or
    pseudo-element is reported as a syntax error.  That is what a
    browser does with a name it does not know, such as [:btn]; a name
    it knows, such as [:hover] or [:first-child], it accepts.  The
    scanners pose no such selector.  They can only emit one where the
    efficient scanner copies an id or a class that holds a colon into
    its selector, and the statements below that depend on what such a
    selector does are about values without a colon, or about the one
    value [login:btn]. *)

Module CSS.
Import JS.

Definition dquote : ascii := ascii_of_nat 34.
Definition squote : ascii := ascii_of_nat 39.
Definition backslash : ascii := ascii_of_nat 92.
Definition newline : ascii := ascii_of_nat 10.

(** The string [s] between double quotes. *)
Definition quoted (s : string) : string :=
  String dquote EmptyString ++ s ++ String dquote EmptyString.

Definition chr (c : ascii) : string := String c EmptyString.

(** U+FFFD, which is no code unit of 8 bits: it is written as the
    three units of its UTF-8 form. *)
Definition replacement : string :=
  String (ascii_of_nat 239) (String (ascii_of_nat 191) (chr (ascii_of_nat 189))).

(** *** [CSS.escape] (CSSOM, "serialize an identifier") *)

Definition escape_as_code_point (c : ascii) : string :=
  chr backslash ++ Str.to_radix 16 (Str.code c) ++ " ".

Definition is_control (c : ascii) : bool :=
  Str.between 1 31 c || (Str.code c =? 127)%N.

Fixpoint escape_from (index : nat) (dash_first : bool) (single : bool) (s : string)
  : string :=
  match s with
  | EmptyString => EmptyString
  | String c r =>
      let piece :=
        if (Str.code c =? 0)%N then replacement
        else if is_control c then escape_as_code_point c
        else if (index =? 0)%nat && Str.is_digit c then escape_as_code_point c
        else if (index =? 1)%nat && Str.is_digit c && dash_first
             then escape_as_code_point c
        else if (index =? 0)%nat && Ascii.eqb c "-" && single
             then chr backslash ++ chr c
        else if (128 <=? Str.code c)%N || Ascii.eqb c "-" || Ascii.eqb c "_"
                || Str.is_digit c || Str.is_letter c
             then chr c
        else chr backslash ++ chr c in
      piece ++ escape_from (S index) dash_first single r
  end.

Definition escape (s : string) : string :=
  escape_from 0 (Str.startsWith "-" s) (String.length s =? 1)%nat s.

(** *** Tokens (CSS Syntax, section 4) *)

Inductive Token : Type :=
| TIdent (name : string)
| TFunction (name : string)
| THash (name : string) (is_id : bool)
| TString (s : string)
| TBadString
| TNumber (v : Z) (is_int : bool)
| TDimension
| TWhitespace
| TColon
| TComma
| TLBracket
| TRBracket
| TLParen
| TRParen
| TDelim (c : ascii).

Definition is_newline (c : ascii) : bool :=
  (Str.code c =? 10)%N || (Str.code c =? 12)%N || (Str.code c =? 13)%N.
Definition is_ws (c : ascii) : bool :=
  is_newline c || (Str.code c =? 9)%N || (Str.code c =? 32)%N.
Definition is_name_start (c : ascii) : bool :=
  Str.is_letter c || (128 <=? Str.code c)%N || Ascii.eqb c "_".
Definition is_name_char (c : ascii) : bool :=
  is_name_start c || Str.is_digit c || Ascii.eqb c "-".

Definition hex_value (c : ascii) : N :=
  if Str.is_digit c then Str.code c - 48
  else if Str.between 65 70 c then Str.code c - 55
  else Str.code c - 87.

Definition char_of (n : N) : string := chr (ascii_of_N n).

(** A code point in UTF-8. *)
Definition utf8 (cp : N) : string :=
  (if (cp =? 0) || ((55296 <=? cp) && (cp <=? 57343)) || (1114111 <? cp)
   then replacement
   else if cp <? 128 then char_of cp
   else if cp <? 2048 then
     char_of (192 + cp / 64) ++ char_of (128 + cp mod 64)
   else if cp <? 65536 then
     char_of (224 + cp / 4096) ++ char_of (128 + (cp / 64) mod 64)
       ++ char_of (128 + cp mod 64)
   else
     char_of (240 + cp / 262144) ++ char_of (128 + (cp / 4096) mod 64)
       ++ char_of (128 + (cp / 64) mod 64) ++ char_of (128 + cp mod 64))%N.

(** Up to [n] hexadecimal digits at the head of [s]. *)
Fixpoint take_hex (n : nat) (s : string) (acc : N) : N * string :=
  match n, s with
  | S n', String c r =>
      if Str.is_hex c then take_hex n' r (acc * 16 + hex_value c)%N else (acc, s)
  | _, _ => (acc, s)
  end.

(** "Consume an escaped code point": [s] is what follows the
    backslash. *)
Definition consume_escape (s : string) : string * string :=
  match s with
  | EmptyString => (replacement, EmptyString)
  | String c r =>
      if Str.is_hex c then
        let (v, rest) := take_hex 6 s 0%N in
        let rest' := match rest with
                     | String w r' => if is_ws w then r' else rest
                     | EmptyString => rest
                     end in
        (utf8 v, rest')
      else (chr c, r)
  end.

(** "Two code points are a valid escape": [s] starts at the
    backslash. *)
Definition valid_escape (s : string) : bool :=
  match s with
  | String b (String c _) => Ascii.eqb b backslash && negb (is_newline c)
  | String b EmptyString => Ascii.eqb b backslash
  | EmptyString => false
  end.

Definition starts_ident (s : string) : bool :=
  match s with
  | EmptyString => false
  | String c r =>
      if Ascii.eqb c "-" then
        match r with
        | String d _ => is_name_start d || Ascii.eqb d "-" || valid_escape r
        | EmptyString => false
        end
      else if is_name_start c then true
      else valid_escape s
  end.

Definition starts_digit (s : string) : bool :=
  match s with String c _ => Str.is_digit c | EmptyString => false end.

Definition starts_number (s : string) : bool :=
  match s with
  | EmptyString => false
  | String c r =>
      if Ascii.eqb c "+" || Ascii.eqb c "-" then
        starts_digit r ||
        match r with
        | String d r' => Ascii.eqb d "." && starts_digit r'
        | EmptyString => false
        end
      else if Ascii.eqb c "." then starts_digit r
      else Str.is_digit c
  end.

(** "Consume an ident sequence" *)
Fixpoint consume_name (fuel : nat) (s : string) (acc : string) : string * string :=
  match fuel with
  | O => (acc, s)
  | S fuel' =>
      match s with
      | EmptyString => (acc, s)
      | String c r =>
          if is_name_char c then consume_name fuel' r (acc ++ chr c)
          else if valid_escape s then
            let (e, rest) := consume_escape r in
            consume_name fuel' rest (acc ++ e)
          else (acc, s)
      end
  end.

(** "Consume a string token": [s] is what follows the opening quote. *)
Fixpoint consume_string (fuel : nat) (q : ascii) (s : string) (acc : string)
  : Token * string :=
  match fuel with
  | O => (TString acc, s)
  | S fuel' =>
      match s with
      | EmptyString => (TString acc, s)
      | String c r =>
          if Ascii.eqb c q then (TString acc, r)
          else if is_newline c then (TBadString, s)
          else if Ascii.eqb c backslash then
            match r with
            | EmptyString => consume_string fuel' q r acc
            | String d r' =>
                if is_newline d then consume_string fuel' q r' acc
                else let (e, rest) := consume_escape r in
                     consume_string fuel' q rest (acc ++ e)
            end
          else consume_string fuel' q r (acc ++ chr c)
      end
  end.

Fixpoint take_digits (s : string) (acc : Z) : Z * string :=
  match s with
  | String c r =>
      if Str.is_digit c then take_digits r (acc * 10 + Z.of_N (Str.code c - 48))
      else (acc, s)
  | EmptyString => (acc, s)
  end.

(** "Consume a numeric token" *)
Definition consume_numeric (fuel : nat) (s : string) : Token * string :=
  let '(sign, s1) :=
    match s with
    | String c r =>
        if Ascii.eqb c "-" then (-1, r)
        else if Ascii.eqb c "+" then (1, r) else (1, s)
    | EmptyString => (1, s)
    end in
  let (int_part, s2) := take_digits s1 0 in
  let '(is_int, s3) :=
    match s2 with
    | String c r =>
        if Ascii.eqb c "." && starts_digit r
        then (false, snd (take_digits r 0)) else (true, s2)
    | EmptyString => (true, s2)
    end in
  let '(is_int', s4) :=
    match s3 with
    | String c r =>
        if Ascii.eqb c "e" || Ascii.eqb c "E" then
          if starts_digit r then (false, snd (take_digits r 0))
          else match r with
               | String d r' =>
                   if (Ascii.eqb d "+" || Ascii.eqb d "-") && starts_digit r'
                   then (false, snd (take_digits r' 0)) else (is_int, s3)
               | EmptyString => (is_int, s3)
               end
        else (is_int, s3)
    | EmptyString => (is_int, s3)
    end in
  if starts_ident s4 then (TDimension, snd (consume_name fuel s4 EmptyString))
  else match s4 with
       | String c r => if Ascii.eqb c "%" then (TDimension, r)
                       else (TNumber (sign * int_part) is_int', s4)
       | EmptyString => (TNumber (sign * int_part) is_int', s4)
       end.

Definition consume_ident_like (fuel : nat) (s : string) : Token * string :=
  let (name, rest) := consume_name fuel s EmptyString in
  match rest with
  | String c r => if Ascii.eqb c "(" then (TFunction name, r) else (TIdent name, rest)
  | EmptyString => (TIdent name, rest)
  end.

Fixpoint skip_ws (s : string) : string :=
  match s with
  | String c r => if is_ws c then skip_ws r else s
  | EmptyString => s
  end.

(** The rest after the comment whose opening has been read. *)
Fixpoint skip_comment (s : string) : string :=
  match s with
  | String c r =>
      match r with
      | String d r' => if Ascii.eqb c "*" && Ascii.eqb d "/" then r' else skip_comment r
      | EmptyString => EmptyString
      end
  | EmptyString => EmptyString
  end.

Fixpoint tokens_of (fuel : nat) (s : string) : list Token :=
  match fuel with
  | O => []
  | S fuel' =>
      match s with
      | EmptyString => []
      | String c r =>
          let go (tr : Token * string) := fst tr :: tokens_of fuel' (snd tr) in
          if is_ws c then TWhitespace :: tokens_of fuel' (skip_ws r)
          else if Ascii.eqb c dquote || Ascii.eqb c squote
               then go (consume_string fuel' c r EmptyString)
          else if Ascii.eqb c "#" then
            if (match r with String d _ => is_name_char d | EmptyString => false end)
               || valid_escape r
            then let (name, rest) := consume_name fuel' r EmptyString in
                 THash name (starts_ident r) :: tokens_of fuel' rest
            else TDelim c :: tokens_of fuel' r
          else if Ascii.eqb c "(" then TLParen :: tokens_of fuel' r
          else if Ascii.eqb c ")" then TRParen :: tokens_of fuel' r
          else if Ascii.eqb c "[" then TLBracket :: tokens_of fuel' r
          else if Ascii.eqb c "]" then TRBracket :: tokens_of fuel' r
          else if Ascii.eqb c "," then TComma :: tokens_of fuel' r
          else if Ascii.eqb c ":" then TColon :: tokens_of fuel' r
          else if Ascii.eqb c "+" || Ascii.eqb c "." then
            if starts_number s then go (consume_numeric fuel' s)
            else TDelim c :: tokens_of fuel' r
          else if Ascii.eqb c "-" then
            if starts_number s then go (consume_numeric fuel' s)
            else if starts_ident s then go (consume_ident_like fuel' s)
            else TDelim c :: tokens_of fuel' r
          else if Ascii.eqb c "/" && Str.startsWith "*" r
               then tokens_of fuel' (skip_comment (String.substring 1 (String.length r) r))
          else if Str.is_digit c then go (consume_numeric fuel' s)
          else if is_name_start c then go (consume_ident_like fuel' s)
          else if Ascii.eqb c backslash then
            if valid_escape s then go (consume_ident_like fuel' s)
            else TDelim c :: tokens_of fuel' r
          else TDelim c :: tokens_of fuel' r
      end
  end.

(** "Preprocessing the input stream" (CSS Syntax, section 3.3): a
    carriage return with the line feed after it, a carriage return and
    a form feed each become a line feed, and U+0000 becomes U+FFFD. *)
Fixpoint preprocess (s : string) : string :=
  match s with
  | EmptyString => EmptyString
  | String c r =>
      if (Str.code c =? 0)%N then replacement ++ preprocess r
      else if (Str.code c =? 12)%N then String newline (preprocess r)
      else if (Str.code c =? 13)%N then
        match r with
        | String d r' =>
            if (Str.code d =? 10)%N then String newline (preprocess r')
            else String newline (preprocess r)
        | EmptyString => String newline EmptyString
        end
      else String c (preprocess r)
  end.

Definition tokenize (s : string) : list Token :=
  let input := preprocess s in tokens_of (S (String.length input)) input.

(** *** Selectors (Selectors Level 4, section 17) *)

Inductive Combinator : Type :=
| Descendant | Child | NextSibling | SubsequentSibling.

Inductive AttrMatch : Type :=
| Present
| Equals (v : string)        (* [a=v]  *)
| Includes (v : string)      (* [a~=v] *)
| DashMatch (v : string)     (* [a|=v] *)
| Prefix (v : string)        (* [a^=v] *)
| Suffix (v : string)        (* [a$=v] *)
| Substring (v : string).    (* [a*=v] *)

(** An attribute selector may end in the flag [i] or [s], which says
    how the case of the value is to be taken. *)
Inductive SimpleSel : Type :=
| SType (name : string)
| SUniversal
| SId (name : string)
| SClass (name : string)
| SAttr (name : string) (m : AttrMatch)
| SAttrFlag (name : string) (m : AttrMatch) (insensitive : bool)
| SNthOfType (n : Z)
| SNot (arg : list SimpleSel).

Definition Compound : Type := list SimpleSel.

(** A complex selector, read from its subject leftwards:
    [a > b c] has subject [c], then [(Descendant, b)], then
    [(Child, a)]. *)
Record Complex : Type := mkComplex {
  subject : Compound;
  leftward : list (Combinator * Compound)
}.

Definition syntaxError {A} : Exc A := Throw "SyntaxError".

Fixpoint drop_ws (ts : list Token) : list Token :=
  match ts with
  | TWhitespace :: r => drop_ws r
  | _ => ts
  end.

Definition parse_op (ts : list Token) : option ((string -> AttrMatch) * list Token) :=
  match ts with
  | TDelim c :: r =>
      if Ascii.eqb c "=" then Some (Equals, r)
      else match r with
           | TDelim e :: r' =>
               if negb (Ascii.eqb e "=") then None
               else if Ascii.eqb c "~" then Some (Includes, r')
               else if Ascii.eqb c "|" then Some (DashMatch, r')
               else if Ascii.eqb c "^" then Some (Prefix, r')
               else if Ascii.eqb c "$" then Some (Suffix, r')
               else if Ascii.eqb c "*" then Some (Substring, r')
               else None
           | _ => None
           end
  | _ => None
  end.

(** A block that the end of the input leaves open is closed there. *)
Definition close_with (closing : Token -> bool) (ts : list Token)
  : option (list Token) :=
  match drop_ws ts with
  | [] => Some []
  | t :: r => if closing t then Some r else None
  end.

Definition is_rbracket (t : Token) : bool :=
  match t with TRBracket => true | _ => false end.
Definition is_rparen (t : Token) : bool :=
  match t with TRParen => true | _ => false end.

(** An attribute selector; [ts] is what follows the opening bracket. *)
Definition parse_attr (ts : list Token) : Exc (SimpleSel * list Token) :=
  match drop_ws ts with
  | TIdent name :: ts1 =>
      let attr := Str.toLowerCase name in
      match close_with is_rbracket ts1 with
      | Some rest => Ok (SAttr attr Present, rest)
      | None =>
          match parse_op (drop_ws ts1) with
          | Some (mk, ts2) =>
              match drop_ws ts2 with
              | TIdent v :: ts3 | TString v :: ts3 =>
                  match close_with is_rbracket ts3 with
                  | Some rest => Ok (SAttr attr (mk v), rest)
                  | None =>
                      match drop_ws ts3 with
                      | TIdent flag :: ts4 =>
                          let f := Str.toLowerCase flag in
                          if String.eqb f "i" || String.eqb f "s" then
                            match close_with is_rbracket ts4 with
                            | Some rest =>
                                Ok (SAttrFlag attr (mk v) (String.eqb f "i"), rest)
                            | None => syntaxError
                            end
                          else syntaxError
                      | _ => syntaxError
                      end
                  end
              | _ => syntaxError
              end
          | None => syntaxError
          end
      end
  | _ => syntaxError
  end.

(** The optional type selector at the head of a compound selector. *)
Definition parse_type (ts : list Token) : Compound * list Token :=
  match ts with
  | TIdent n :: r => ([SType (Str.toLowerCase n)], r)
  | TDelim c :: r => if Ascii.eqb c "*" then ([SUniversal], r) else ([], ts)
  | _ => ([], ts)
  end.

(** The subclass selectors of a compound selector, after [acc]. *)
Fixpoint parse_subclasses (fuel : nat) (ts : list Token) (acc : Compound)
  : Exc (Compound * list Token) :=
  match fuel with
  | O => syntaxError
  | S fuel' =>
      match ts with
      | THash n true :: r => parse_subclasses fuel' r (acc ++ [SId n])%list
      | THash _ false :: _ => syntaxError
      | TDelim c :: r =>
          if Ascii.eqb c "." then
            match r with
            | TIdent n :: r' => parse_subclasses fuel' r' (acc ++ [SClass n])%list
            | _ => syntaxError
            end
          else match acc with [] => syntaxError | _ => Ok (acc, ts) end
      | TLBracket :: r =>
          a <- parse_attr r ;;
          parse_subclasses fuel' (snd a) (acc ++ [fst a])%list
      | TColon :: TFunction f :: r =>
          if String.eqb (Str.toLowerCase f) "not" then
            let (head, r1) := parse_type (drop_ws r) in
            inner <- parse_subclasses fuel' r1 head ;;
            match close_with is_rparen (snd inner) with
            | Some rest => parse_subclasses fuel' rest (acc ++ [SNot (fst inner)])%list
            | None => syntaxError
            end
          else if String.eqb (Str.toLowerCase f) "nth-of-type" then
            match drop_ws r with
            | TNumber v true :: r1 =>
                match close_with is_rparen r1 with
                | Some rest => parse_subclasses fuel' rest (acc ++ [SNthOfType v])%list
                | None => syntaxError
                end
            | _ => syntaxError
            end
          else syntaxError
      | TColon :: _ => syntaxError
      | _ => match acc with [] => syntaxError | _ => Ok (acc, ts) end
      end
  end.

Definition parse_compound (fuel : nat) (ts : list Token)
  : Exc (Compound * list Token) :=
  let (head, r) := parse_type ts in parse_subclasses fuel r head.

Definition combinator_of (c : ascii) : option Combinator :=
  if Ascii.eqb c ">" then Some Child
  else if Ascii.eqb c "+" then Some NextSibling
  else if Ascii.eqb c "~" then Some SubsequentSibling
  else None.

Definition extend (cur : Complex) (comb : Combinator) (c : Compound) : Complex :=
  mkComplex c ((comb, subject cur) :: leftward cur).

(** The combinators and compound selectors after the first one. *)
Fixpoint parse_complex_rest (fuel : nat) (cur : Complex) (ts : list Token)
  : Exc (Complex * list Token) :=
  match fuel with
  | O => syntaxError
  | S fuel' =>
      let after_ws := drop_ws ts in
      match after_ws with
      | [] => Ok (cur, [])
      | TComma :: _ => Ok (cur, after_ws)
      | TDelim c :: r =>
          match combinator_of c with
          | Some comb =>
              n <- parse_compound fuel' (drop_ws r) ;;
              parse_complex_rest fuel' (extend cur comb (fst n)) (snd n)
          | None =>
              match ts with
              | TWhitespace :: _ =>
                  n <- parse_compound fuel' after_ws ;;
                  parse_complex_rest fuel' (extend cur Descendant (fst n)) (snd n)
              | _ => syntaxError
              end
          end
      | _ =>
          match ts with
          | TWhitespace :: _ =>
              n <- parse_compound fuel' after_ws ;;
              parse_complex_rest fuel' (extend cur Descendant (fst n)) (snd n)
          | _ => syntaxError
          end
      end
  end.

Definition parse_complex (fuel : nat) (ts : list Token) : Exc (Complex * list Token) :=
  c <- parse_compound fuel (drop_ws ts) ;;
  parse_complex_rest fuel (mkComplex (fst c) []) (snd c).

Fixpoint parse_list (fuel : nat) (ts : list Token) : Exc (list Complex) :=
  match fuel with
  | O => syntaxError
  | S fuel' =>
      c <- parse_complex fuel' ts ;;
      match snd c with
      | [] => Ok [fst c]
      | TComma :: r => more <- parse_list fuel' r ;; Ok (fst c :: more)
      | _ => syntaxError
      end
  end.

(** "Parse a selector" *)
Definition parse (s : string) : Exc (list Complex) :=
  let ts := tokenize s in parse_list (2 * List.length ts + 8)%nat ts.

(** *** Matching *)

Definition attr_matches (m : AttrMatch) (value : string) : bool :=
  match m with
  | Present => true
  | Equals v => String.eqb value v
  | Includes v =>
      Str.nonempty v && Str.forallb_chars (fun c => negb (is_ws c)) v
        && inb v (Str.split_by is_ws value)
  | DashMatch v => String.eqb value v || Str.startsWith (v ++ "-") value
  | Prefix v => Str.nonempty v && Str.startsWith v value
  | Suffix v => Str.nonempty v && Str.startsWith (Str.rev v) (Str.rev value)
  | Substring v => Str.nonempty v && Str.includes v value
  end.

(** The operand of an attribute selector in lower case. *)
Definition fold_case (m : AttrMatch) : AttrMatch :=
  match m with
  | Present => Present
  | Equals v => Equals (Str.toLowerCase v)
  | Includes v => Includes (Str.toLowerCase v)
  | DashMatch v => DashMatch (Str.toLowerCase v)
  | Prefix v => Prefix (Str.toLowerCase v)
  | Suffix v => Suffix (Str.toLowerCase v)
  | Substring v => Substring (Str.toLowerCase v)
  end.

(** The attributes whose values a selector without flag compares
    without regard to case on the elements of an HTML document (HTML,
    "Matching HTML elements using selectors and CSS"). *)
Definition caseInsensitiveAttributes : list string :=
  [ "accept"; "accept-charset"; "align"; "alink"; "axis"; "bgcolor"; "charset";
    "checked"; "clear"; "codetype"; "color"; "compact"; "declare"; "defer"; "dir";
    "direction"; "disabled"; "enctype"; "face"; "frame"; "hreflang"; "http-equiv";
    "lang"; "language"; "link"; "media"; "method"; "multiple"; "nohref";
    "noresize"; "noshade"; "nowrap"; "readonly"; "rel"; "rev"; "rules"; "scope";
    "scrolling"; "selected"; "shape"; "target"; "text"; "type"; "valign";
    "valuetype"; "vlink" ].

(** An attribute selector on a value, the case taken as [insensitive]
    says. *)
Definition attr_matches_case (insensitive : bool) (m : AttrMatch) (value : string)
  : bool :=
  if insensitive then attr_matches (fold_case m) (Str.toLowerCase value)
  else attr_matches m value.

Fixpoint matches_simple (doc : DOM.Node) (r : DOM.NodeRef) (sel : SimpleSel) : bool :=
  match sel with
  | SType n => String.eqb (DOM.localName doc r) n
  | SUniversal => true
  | SId n => match DOM.getAttribute doc r "id" with
             | Some v => String.eqb v n
             | None => false
             end
  | SClass n => DOM.classList_contains doc r n
  | SAttr a m => match DOM.getAttribute doc r a with
                 | Some v => attr_matches_case (inb a caseInsensitiveAttributes) m v
                 | None => false
                 end
  | SAttrFlag a m insensitive =>
      match DOM.getAttribute doc r a with
      | Some v => attr_matches_case insensitive m v
      | None => false
      end
  | SNthOfType n => DOM.indexOf r (DOM.sameTypeSiblings doc r) + 1 =? n
  | SNot arg => negb (forallb (matches_simple doc r) arg)
  end.

Definition matches_compound (doc : DOM.Node) (r : DOM.NodeRef) (c : Compound) : bool :=
  forallb (matches_simple doc r) c.

Fixpoint matches_leftward (doc : DOM.Node) (lw : list (Combinator * Compound))
                          (r : DOM.NodeRef) : bool :=
  match lw with
  | [] => true
  | (comb, c) :: lw' =>
      let candidates :=
        match comb with
        | Child => match DOM.parentElement r with Some p => [p] | None => [] end
        | Descendant => DOM.ancestors r
        | NextSibling => firstn 1 (DOM.previousSiblings doc r)
        | SubsequentSibling => DOM.previousSiblings doc r
        end in
      existsb (fun a => matches_compound doc a c && matches_leftward doc lw' a)
              candidates
  end.

Definition matches_complex (doc : DOM.Node) (r : DOM.NodeRef) (c : Complex) : bool :=
  matches_compound doc r (subject c) && matches_leftward doc (leftward c) r.

Definition matches (doc : DOM.Node) (sel : list Complex) (r : DOM.NodeRef) : bool :=
  existsb (matches_complex doc r) sel.

(** [document.querySelectorAll(selector)]: the matching elements in
    document order, or a SyntaxError. *)
Definition querySelectorAll (doc : DOM.Node) (selector : string)
  : Exc (list DOM.NodeRef) :=
  sel <- parse selector ;;
  ret (filter (matches doc sel) (DOM.all_elements doc)).

(** [element.querySelector(selector)]: the first matching descendant. *)
Definition querySelectorWithin (doc : DOM.Node) (scope : DOM.NodeRef)
                               (selector : string) : Exc (option DOM.NodeRef) :=
  sel <- parse selector ;;
  ret (List.find (matches doc sel) (DOM.descendants doc scope)).

End CSS.

(** ** SimpleDOMScanner *)

Module Util.

(** [a || b] on strings: the empty string is falsy. *)
Definition or_str (a b : string) : string := if Str.nonempty a then a else b.

(** [a || b] where [a] may be [null]. *)
Definition or_null (a : option string) (b : option string) : option string :=
  match a with
  | Some v => if Str.nonempty v then a else b
  | None => b
  end.

(** [value || null] *)
Definition truthy_or_null (v : string) : option string :=
  if Str.nonempty v then Some v else None.

(** A string that is neither [null] nor empty. *)
Definition truthy (a : option string) : bool :=
  match a with Some v => Str.nonempty v | None => false end.

(** [table[key] || null] for an object literal of strings: the string
    under the key; for a key the literal does not have, what
    %Object.prototype% answers, the function [Object] for
    [constructor]; and [null] when that is [undefined]. *)
Definition lookup_or_null (table : list (string * string)) (key : string)
  : option JS.value :=
  match JS.get (JS.VObject (map (fun kv => (fst kv, JS.VString (snd kv))) table)) key with
  | JS.Ok v => if JS.truthy v then Some v else None
  | JS.Throw _ => None
  end.

(** [a || b] where [a] is a string or [null] and [b] any value or
    [null]. *)
Definition string_or (a : option string) (b : option JS.value) : option JS.value :=
  match a with
  | Some v => if Str.nonempty v then Some (JS.VString v) else b
  | None => b
  end.

(** ToBoolean of a value that may be [null]. *)
Definition truthy_value (a : option JS.value) : bool :=
  match a with Some v => JS.truthy v | None => false end.

(** The [roleMap] of the three scanners. *)
Definition roleMap : list (string * string) :=
  [ ("button", "button"); ("a", "link"); ("input", "textbox");
    ("select", "listbox"); ("textarea", "textbox") ].

Fixpoint mapi_from {A B} (i : nat) (f : A -> nat -> B) (l : list A) : list B :=
  match l with
  | [] => []
  | x :: tl => f x i :: mapi_from (S i) f tl
  end.

(** [array.map((x, index) => f(x, index))] *)
Definition mapi {A B} (f : A -> nat -> B) (l : list A) : list B := mapi_from 0 f l.

(** [array.filter(x => x !== null)] *)
Fixpoint non_null {A} (l : list (option A)) : list A :=
  match l with
  | [] => []
  | Some x :: tl => x :: non_null tl
  | None :: tl => non_null tl
  end.

(** [array.slice(0, n)] *)
Definition slice0 {A} (n : Z) (l : list A) : list A :=
  if n <? 0 then firstn (Z.to_nat (Z.max 0 (Z.of_nat (List.length l) + n))) l
  else firstn (Z.to_nat n) l.

Definition len {A} (l : list A) : Z := Z.of_nat (List.length l).

End Util.

Module Simple.
Import JS DOM Util.

Record Options : Type := mkOptions {
  maxElements : option Z;
  useCache : option bool
}.

Record Position : Type := mkPosition {
  x : Z; y : Z; width : Z; height : Z
}.

Record Attributes : Type := mkAttributes {
  attr_id : option string;
  attr_class : option string;
  attr_testid : option string;
  attr_ariaLabel : option string;
  attr_name : option string;
  attr_type : option string
}.

Record ElementData : Type := mkElementData {
  id : string;
  selector : string;
  text : string;
  type : string;
  role : option JS.value;
  visible : bool;
  position : Position;
  attributes : Attributes;
  domRef : NodeRef
}.

Record Scanner : Type := mkScanner {
  cache : option (list ElementData);
  cacheTime : Z
}.

Definition CACHE_LIFETIME : Z := 3000.

(** The state the constructor leaves. *)
Definition initial : Scanner := {| cache := None; cacheTime := 0 |}.

(** What [Date.now()] answers at the two places a scan reads it. *)
Record Clock : Type := mkClock {
  now_check : Z;
  now_store : Z
}.

Definition isCacheValid (s : Scanner) (now : Z) : bool :=
  match cache s with
  | Some _ => now - cacheTime s <? CACHE_LIFETIME
  | None => false
  end.

Definition clearCache (s : Scanner) : Scanner := {| cache := None; cacheTime := 0 |}.

(** [roleMap[tagName] || null] *)
Definition getImpliedRole (tagName : string) : option JS.value :=
  lookup_or_null roleMap tagName.

Definition generateId (doc : Node) (element : NodeRef) (index : nat) : string :=
  if Str.nonempty (DOM.id doc element) then "id-" ++ DOM.id doc element
  else match getAttribute doc element "data-testid" with
       | Some testId =>
           if Str.nonempty testId then "testid-" ++ testId
           else match getAttribute doc element "name" with
                | Some name =>
                    if Str.nonempty name then "name-" ++ name
                    else "elem-" ++ Str.of_nat index
                | None => "elem-" ++ Str.of_nat index
                end
       | None =>
           match getAttribute doc element "name" with
           | Some name =>
               if Str.nonempty name then "name-" ++ name
               else "elem-" ++ Str.of_nat index
           | None => "elem-" ++ Str.of_nat index
           end
       end.

(** One strategy of [generateSelector]: a [try] block that either
    returns a selector or falls through to the next strategy, with
    its [catch] doing the same. *)
Definition attempt (body : Exc (option string)) : option string :=
  match try_catch body (fun _ => ret None) with
  | Ok r => r
  | Throw _ => None
  end.

Definition first_of (attempts : list (option string)) (fallback : string) : string :=
  match List.find (fun a => match a with Some _ => true | None => false end) attempts with
  | Some (Some s) => s
  | _ => fallback
  end.

Definition generateSelector (doc : Node) (element : NodeRef) : string :=
  let tag := Str.toLowerCase (tagName doc element) in
  let byId :=
    if Str.nonempty (DOM.id doc element) then
      attempt (let escapedId := CSS.escape (DOM.id doc element) in
               let selector := "#" ++ escapedId in
               found <- CSS.querySelectorAll doc selector ;;
               ret (if (List.length found =? 1)%nat then Some selector else None))
    else None in
  let testId := getAttribute doc element "data-testid" in
  let byTestId :=
    match testId with
    | Some v => if Str.nonempty v
                then attempt (ret (Some ("[data-testid=" ++ CSS.quoted (CSS.escape v) ++ "]")))
                else None
    | None => None
    end in
  let ariaLabel := getAttribute doc element "aria-label" in
  let byAriaLabel :=
    match ariaLabel with
    | Some v => if Str.nonempty v && (String.length v <? 50)%nat
                then attempt (ret (Some (tag ++ "[aria-label=" ++ CSS.quoted (CSS.escape v) ++ "]")))
                else None
    | None => None
    end in
  let name := getAttribute doc element "name" in
  let byName :=
    match name with
    | Some v => if Str.nonempty v
                then attempt (ret (Some (tag ++ "[name=" ++ CSS.quoted (CSS.escape v) ++ "]")))
                else None
    | None => None
    end in
  let byClass :=
    if Str.nonempty (className doc element) then
      match filter Str.nonempty (Str.split_ws (className doc element)) with
      | first :: _ =>
          attempt (let escapedClass := CSS.escape first in
                   let classSelector := tag ++ "." ++ escapedClass in
                   found <- CSS.querySelectorAll doc classSelector ;;
                   ret (if (List.length found =? 1)%nat then Some classSelector else None))
      | [] => None
      end
    else None in
  let fallback :=
    match parentElement element with
    | Some parent =>
        let siblings := filter (fun child => String.eqb (tagName doc child) (tagName doc element))
                               (children doc parent) in
        let index := indexOf element siblings + 1 in
        tag ++ ":nth-of-type(" ++ Str.of_Z index ++ ")"
    | None => tag
    end in
  first_of [byId; byTestId; byAriaLabel; byName; byClass] fallback.

(** The visibility test of [extractElementData]. *)
Definition isVisible (host : Host) (rect : Rect) : bool :=
  Qltb 0 (DOM.width rect) && Qltb 0 (DOM.height rect)
    && Qltb (top rect) (innerHeight host) && Qltb 0 (bottom rect).

(** The body of the [try] block of [extractElementData]. *)
Definition extractElementData_body (doc : Node) (host : Host)
                                   (element : NodeRef) (index : nat)
  : Exc (option ElementData) :=
  let rect := getBoundingClientRect host element in
  if negb (isVisible host rect) then ret None
  else
    let text :=
      if String.eqb (tagName doc element) "INPUT"
         || String.eqb (tagName doc element) "TEXTAREA"
      then or_str (reflected doc element "placeholder")
                  (or_str (DOM.value doc element) EmptyString)
      else or_str (Str.prefix_n 100 (Str.trim (textContent doc element))) EmptyString in
    let selector := generateSelector doc element in
    let tagName := Str.toLowerCase (tagName doc element) in
    let role := string_or (getAttribute doc element "role") (getImpliedRole tagName) in
    ret (Some {| id := generateId doc element index;
                 selector := selector;
                 text := text;
                 type := tagName;
                 role := role;
                 visible := true;
                 position := {| x := round (left rect);
                                y := round (top rect);
                                width := round (DOM.width rect);
                                height := round (DOM.height rect) |};
                 attributes :=
                   {| attr_id := truthy_or_null (DOM.id doc element);
                      attr_class := truthy_or_null (className doc element);
                      attr_testid := getAttribute doc element "data-testid";
                      attr_ariaLabel := getAttribute doc element "aria-label";
                      attr_name := getAttribute doc element "name";
                      attr_type := getAttribute doc element "type" |};
                 domRef := element |}).

(** [extractElementData]: [None] is [null]. *)
Definition extractElementData (doc : Node) (host : Host)
                              (element : NodeRef) (index : nat)
  : option ElementData :=
  match try_catch (extractElementData_body doc host element index)
                  (fun _ => ret None) with
  | Ok r => r
  | Throw _ => None
  end.

Definition selectors : list string :=
  [ "button";
    "a[href]";
    "input:not([type=" ++ CSS.quoted "hidden" ++ "])";
    "select";
    "textarea";
    "[role=" ++ CSS.quoted "button" ++ "]";
    "[role=" ++ CSS.quoted "link" ++ "]";
    "[role=" ++ CSS.quoted "tab" ++ "]";
    "[onclick]" ].

(** The two collections the scan fills side by side. *)
Record Collected : Type := mkCollected {
  seenElements : list NodeRef;
  elements : list NodeRef
}.

(** The body of [found.forEach]. *)
Definition visit (maxElements : Z) (acc : Collected) (el : NodeRef) : Collected :=
  if negb (mem el (seenElements acc)) && (len (elements acc) <? maxElements)
  then {| seenElements := el :: seenElements acc;
          elements := (elements acc ++ [el])%list |}
  else acc.

(** One turn of the loop over the selectors, with its [try]. *)
Definition visit_selector (doc : Node) (maxElements : Z)
                          (acc : Collected) (selector : string) : Collected :=
  match CSS.querySelectorAll doc selector with
  | Ok found => fold_left (visit maxElements) found acc
  | Throw _ => acc
  end.

Definition collect (doc : Node) (maxElements : Z) : Collected :=
  fold_left (visit_selector doc maxElements) selectors (mkCollected [] []).

(** [options.maxElements || 100] *)
Definition effectiveMax (o : Options) : Z :=
  match maxElements o with
  | Some n => if n =? 0 then 100 else n
  | None => 100
  end.

(** [options.useCache !== false] *)
Definition cacheWanted (o : Options) : bool :=
  match useCache o with
  | Some false => false
  | _ => true
  end.

(** [keep(data)] is [data !== null && data.visible]. *)
Definition keep (data : option ElementData) : bool :=
  match data with
  | Some d => visible d
  | None => false
  end.

(** [scan(options)].  On a cache hit the array answered is the cached
    one itself. *)
Definition scan (doc : Node) (host : Host) (options : Options) (clock : Clock)
                (s : Scanner) : list ElementData * Scanner :=
  match (if cacheWanted options && isCacheValid s (now_check clock)
         then cache s else None) with
  | Some cached => (cached, s)
  | None =>
      let maxElements := effectiveMax options in
      let elements := elements (collect doc maxElements) in
      let results :=
        non_null (filter keep (mapi (extractElementData doc host) elements)) in
      (results, {| cache := Some results; cacheTime := now_store clock |})
  end.

End Simple.

(** ** EfficientDOMScanner *)

Module Efficient.
Import JS DOM Util.

(** How an asynchronous call ends: its promise is fulfilled, rejected,
    or never settled. *)
Inductive Outcome (A : Type) : Type :=
| Settled (a : A)
| Rejected (err : string)
| Pending.
Arguments Settled {A} a.
Arguments Rejected {A} err.
Arguments Pending {A}.

(** The options object; [None] is an absent property. *)
Record Options : Type := mkOptions {
  maxElements : option Z;
  useCache : option bool;
  priority : option string;
  includeInvisible : option bool;
  viewport : option string
}.

Definition noOptions : Options := mkOptions None None None None None.

Record Config : Type := mkConfig {
  cfg_maxElements : Z;
  cfg_useCache : bool;
  cfg_priority : string;
  cfg_includeInvisible : bool;
  cfg_viewport : string
}.

(** The defaults, then [...options] on top of them. *)
Definition config_of (options : Options) : Config :=
  let defaults :=
    {| cfg_maxElements := match maxElements options with
                          | Some n => if n =? 0 then 100 else n
                          | None => 100
                          end;
       cfg_useCache := match useCache options with
                       | Some false => false
                       | _ => true
                       end;
       cfg_priority := match priority options with
                       | Some p => or_str p "balanced"
                       | None => "balanced"
                       end;
       cfg_includeInvisible := match includeInvisible options with
                               | Some b => b
                               | None => false
                               end;
       cfg_viewport := match viewport options with
                       | Some v => or_str v "visible"
                       | None => "visible"
                       end |} in
  {| cfg_maxElements := match maxElements options with
                        | Some n => n
                        | None => cfg_maxElements defaults
                        end;
     cfg_useCache := match useCache options with
                     | Some b => b
                     | None => cfg_useCache defaults
                     end;
     cfg_priority := match priority options with
                     | Some p => p
                     | None => cfg_priority defaults
                     end;
     cfg_includeInvisible := match includeInvisible options with
                             | Some b => b
                             | None => cfg_includeInvisible defaults
                             end;
     cfg_viewport := match viewport options with
                     | Some v => v
                     | None => cfg_viewport defaults
                     end |}.

Record Position : Type := mkPosition {
  x : Z; y : Z; width : Z; height : Z
}.

Record Metadata : Type := mkMetadata {
  hasChildren : bool;
  isNested : bool;
  confidence : Q
}.

(** A priority: a number, or NaN. *)
Inductive Score : Type :=
| Num (n : Z)
| NaN.

Record ElementData : Type := mkElementData {
  id : string;
  selector : string;
  text : string;
  type : string;
  role : option JS.value;
  visible : bool;
  position : option Position;
  priority_score : Score;
  attributes : list (string * string);
  metadata : Metadata;
  elementRef : NodeRef
}.

Record Metrics : Type := mkMetrics {
  lastScanTime : Q;
  elementsScanned : Z;
  cacheHits : Z;
  cacheMisses : Z
}.

(** The scanner object.  Its cache is a [Map] from element id to
    element data, kept here in insertion order. *)
Record Scanner : Type := mkScanner {
  cache : list (string * ElementData);
  lastScanTimestamp : Z;
  scanVersion : Z;
  metrics : Metrics
}.

Definition initial : Scanner :=
  {| cache := [];
     lastScanTimestamp := 0;
     scanVersion := 0;
     metrics := mkMetrics 0 0 0 0 |}.

(** What the clocks answer during one scan. *)
Record Clock : Type := mkClock {
  perf_start : Q;
  now_check : Z;
  now_store : Z;
  perf_end : Q
}.

(** [map.set(key, value)]: a present key keeps its place. *)
Fixpoint map_set {V} (key : string) (v : V) (m : list (string * V))
  : list (string * V) :=
  match m with
  | [] => [(key, v)]
  | (k, v') :: tl =>
      if String.eqb k key then (k, v) :: tl else (k, v') :: map_set key v tl
  end.

(** [Array.from(map.values())] *)
Definition map_values {V} (m : list (string * V)) : list V := map snd m.

(** *** Classification of elements *)

Definition isInteractiveElement (doc : Node) (element : NodeRef) : bool :=
  let interactiveTags :=
    ["button"; "a"; "input"; "select"; "textarea"; "details"; "summary"] in
  let tagName := Str.toLowerCase (tagName doc element) in
  if inb tagName interactiveTags then true
  else if hasAttribute doc element "onclick" then true
  else
    let interactiveRoles :=
      ["button"; "link"; "tab"; "menuitem"; "option"; "switch"; "checkbox"; "radio"] in
    match getAttribute doc element "role" with
    | Some role => Str.nonempty role && inb role interactiveRoles
    | None => false
    end.

Definition isLikelyInteractive (doc : Node) (element : NodeRef) : bool :=
  let classList := className doc element in
  let patterns := ["btn"; "button"; "link"; "clickable"; "action"; "cta"] in
  if existsb (fun p => Str.includes p (Str.toLowerCase classList)) patterns then true
  else hasAttribute doc element "tabindex" || hasAttribute doc element "aria-label".

Definition interactiveChildSelector : string :=
  "button, a, input, select, textarea, [role=" ++ CSS.quoted "button" ++ "]".

Definition hasInteractiveChild (doc : Node) (element : NodeRef) : bool :=
  match CSS.querySelectorWithin doc element interactiveChildSelector with
  | Ok (Some _) => true
  | _ => false
  end.

(** The loop of [isNestedInteractive] over the parents, from the
    nearest one up to the body. *)
Fixpoint nestedIn (doc : Node) (parents : list NodeRef) : bool :=
  match parents with
  | [] => false
  | parent :: up =>
      if is_body doc parent then false
      else if isInteractiveElement doc parent then true
      else nestedIn doc up
  end.

Definition isNestedInteractive (doc : Node) (element : NodeRef) : bool :=
  nestedIn doc (ancestors element).

(** [roleMap[tagName] || null] *)
Definition inferRole (doc : Node) (element : NodeRef) : option JS.value :=
  let tagName := Str.toLowerCase (tagName doc element) in
  lookup_or_null roleMap tagName.

(** *** Text *)

(** [text.trim().substring(0, maxLength)] *)
Definition clip (maxLength : Z) (text : string) : string :=
  Str.prefix_n (Z.to_nat maxLength) (Str.trim text).

Definition strlen (s : string) : Z := Z.of_nat (String.length s).

Fixpoint extractTextOf (maxDepth : nat) (n : Node) (here : NodeRef) (doc : Node)
                       (maxLength : Z) : string :=
  match maxDepth with
  | O => EmptyString
  | S depth' =>
      if String.eqb (tagName doc here) "INPUT"
         || String.eqb (tagName doc here) "TEXTAREA"
      then or_str (DOM.value doc here) (or_str (reflected doc here "placeholder") EmptyString)
      else
        clip maxLength
          ((fix loop (i : nat) (nodes : list Node) (text : string) : string :=
              match nodes with
              | [] => text
              | node :: rest =>
                  let text' :=
                    match node with
                    | TextNode d => text ++ d
                    | Element _ _ _ =>
                        if (1 <=? depth')%nat
                        then text ++ extractTextOf depth' node (here ++ [i])%list doc
                                       (maxLength - strlen text)
                        else text
                    end in
                  if maxLength <=? strlen text' then text'
                  else loop (S i) rest text'
              end) 0%nat (childNodesOf n) EmptyString)
  end.

(** [extractTextEfficiently(element, maxLength = 100, maxDepth = 3)] *)
Definition extractTextEfficiently (doc : Node) (element : NodeRef) (maxLength : Z)
  : string :=
  match node_at doc element with
  | Some n => extractTextOf 3 n element doc maxLength
  | None => EmptyString
  end.

(** *** Identifiers *)

(** ToInt32 *)
Definition toInt32 (z : Z) : Z := (z + 2 ^ 31) mod 2 ^ 32 - 2 ^ 31.

Fixpoint hash_chars (s : string) (hash : Z) : Z :=
  match s with
  | EmptyString => hash
  | String c r =>
      let char := Z.of_N (Str.code c) in
      let h1 := toInt32 (hash * 2 ^ 5) - hash + char in
      hash_chars r (toInt32 h1)
  end.

Definition simpleHash (str : string) : string :=
  Str.to_radix 36 (Z.to_N (Z.abs (hash_chars str 0))).

Definition generateElementId (doc : Node) (element : NodeRef) : string :=
  match getAttribute doc element "data-testid" with
  | Some testId =>
      if Str.nonempty testId then "testid-" ++ testId
      else if Str.nonempty (DOM.id doc element) then "id-" ++ DOM.id doc element
      else "elem-" ++ simpleHash (tagName doc element ++ className doc element
                                    ++ extractTextEfficiently doc element 20)
  | None =>
      if Str.nonempty (DOM.id doc element) then "id-" ++ DOM.id doc element
      else "elem-" ++ simpleHash (tagName doc element ++ className doc element
                                    ++ extractTextEfficiently doc element 20)
  end.

(** *** Selectors *)

(** The loop of [getNthChildSelector]. *)
Fixpoint nthChildPath (fuel : nat) (doc : Node) (current : option NodeRef)
                      (path : list string) : list string :=
  match fuel with
  | O => path
  | S fuel' =>
      match current with
      | None => path
      | Some cur =>
          if is_body doc cur then path
          else if Str.nonempty (DOM.id doc cur) then ("#" ++ DOM.id doc cur) :: path
          else
            let tag := Str.toLowerCase (tagName doc cur) in
            let parent := parentElement cur in
            let selector :=
              match parent with
              | Some p =>
                  let siblings :=
                    filter (fun child => String.eqb (tagName doc child) (tagName doc cur))
                           (children doc p) in
                  if (1 <? List.length siblings)%nat
                  then tag ++ ":nth-of-type(" ++ Str.of_Z (indexOf cur siblings + 1) ++ ")"
                  else tag
              | None => tag
              end in
            nthChildPath fuel' doc parent (selector :: path)
      end
  end.

Definition getNthChildSelector (doc : Node) (element : NodeRef) : string :=
  Str.join " > " (nthChildPath (S (List.length element)) doc (Some element) []).

Definition getAccessibleName (doc : Node) (element : NodeRef) : string :=
  match or_null (getAttribute doc element "aria-label")
          (or_null (getAttribute doc element "aria-labelledby")
             (or_null (getAttribute doc element "title")
                (Some (Str.prefix_n 50 (Str.trim (textContent doc element)))))) with
  | Some v => v
  | None => EmptyString
  end.

(** [/^[a-zA-Z][\w-]*$/.test(id)] *)
Definition plainId (s : string) : bool :=
  match s with
  | String c r =>
      Str.is_letter c && Str.forallb_chars (fun d => Str.is_word d || Ascii.eqb d "-") r
  | EmptyString => false
  end.

(** [/^ng-|^v-|^_/.test(c)] *)
Definition frameworkClass (c : string) : bool :=
  Str.startsWith "ng-" c || Str.startsWith "v-" c || Str.startsWith "_" c.

Definition generateOptimalSelector (doc : Node) (element : NodeRef) : Exc string :=
  let tag := Str.toLowerCase (tagName doc element) in
  let testId := getAttribute doc element "data-testid" in
  if truthy testId then
    ret ("[data-testid=" ++ CSS.quoted (reflected doc element "data-testid") ++ "]")
  else if Str.nonempty (DOM.id doc element) && plainId (DOM.id doc element) then
    ret ("#" ++ DOM.id doc element)
  else
    let ariaLabel := getAttribute doc element "aria-label" in
    if truthy ariaLabel then
      ret (tag ++ "[aria-label=" ++ CSS.quoted (reflected doc element "aria-label") ++ "]")
    else
      let role := getAttribute doc element "role" in
      if truthy role then
        let name := getAccessibleName doc element in
        if Str.nonempty name then
          ret ("[role=" ++ CSS.quoted (reflected doc element "role") ++ "]"
                 ++ "[aria-label=" ++ CSS.quoted name ++ "]")
        else ret ("[role=" ++ CSS.quoted (reflected doc element "role") ++ "]")
      else
        byClass <-
          (if Str.nonempty (className doc element) then
             let classes :=
               filter (fun c => Str.nonempty c && negb (frameworkClass c))
                      (Str.split_ws (className doc element)) in
             if (0 <? List.length classes)%nat && (List.length classes <=? 3)%nat then
               let classSelector := tag ++ "." ++ Str.join "." classes in
               found <- CSS.querySelectorAll doc classSelector ;;
               ret (if (List.length found =? 1)%nat then Some classSelector else None)
             else ret None
           else ret None) ;;
        match byClass with
        | Some classSelector => ret classSelector
        | None =>
            if inb tag ["button"; "a"] then
              let text := extractTextEfficiently doc element 100 in
              if Str.nonempty text && (String.length text <? 50)%nat
                 && (2 <? String.length text)%nat
              then ret (getNthChildSelector doc element)
              else ret (getNthChildSelector doc element)
            else ret (getNthChildSelector doc element)
        end.

(** *** Ranking *)

Definition tagScores : list (string * Z) :=
  [ ("button", 10); ("a", 9); ("input", 9); ("select", 8); ("textarea", 8); ("form", 7) ].

(** [tagScores[tagName] || 3] where it is a number.  The table is an
    object literal, so for a name it does not have the lookup goes on to
    %Object.prototype%: under [constructor] and [__proto__] it finds a
    function and an object, which [||] lets through, and there is no
    number. *)
Definition tagScore (tagName : string) : option Z :=
  match JS.assoc tagName tagScores with
  | Some n => Some (if n =? 0 then 3 else n)
  | None => if JS.truthy (JS.objectPrototypeGet tagName) then None else Some 3
  end.

(** The score of [calculatePriority] before the penalty for nesting.
    Where the tag has no number, [score += ...] appends to a string from
    there on: there is no number to answer. *)
Definition scoreBeforePenalty (doc : Node) (element : NodeRef)
                              (tagName : string) (role : option JS.value) : option Z :=
  let score := 0 in
  match tagScore tagName with
  | None => None
  | Some base =>
      let score := score + base in
      let score := if truthy_value role then score + 3 else score in
      let score := if hasAttribute doc element "data-testid" then score + 5 else score in
      let score := if hasAttribute doc element "aria-label" then score + 3 else score in
      let score := if classList_contains doc element "primary"
                      || classList_contains doc element "btn-primary"
                   then score + 4 else score in
      let score := if classList_contains doc element "cta"
                      || classList_contains doc element "call-to-action"
                   then score + 4 else score in
      Some score
  end.

(** [Math.max(0, score)]: of a string that does not read as a number,
    and of the NaN that [score -= 2] leaves of it, that is NaN. *)
Definition calculatePriority (doc : Node) (element : NodeRef)
                             (tagName : string) (role : option JS.value) : Score :=
  match scoreBeforePenalty doc element tagName role with
  | Some score =>
      let score := if isNestedInteractive doc element then score - 2 else score in
      Num (Z.max 0 score)
  | None => NaN
  end.

(** [b.priority - a.priority] as [sort] reads it: a comparator that
    answers NaN counts as answering 0. *)
Definition comparePriority (a b : ElementData) : Z :=
  match priority_score b, priority_score a with
  | Num pb, Num pa => pb - pa
  | _, _ => 0
  end.

(** [elements.sort((a, b) => b.priority - a.priority)].  The language
    fixes the outcome of [sort] for a consistent comparator, which this
    one is on integer scores: the sorted order, with equal elements in
    their original order.  It is computed here by insertion from the
    right, an element going in front of the first one that does not
    outrank it.  With a NaN among the priorities the comparator is not
    consistent and the language leaves the order to the implementation;
    the insertion is then one of the orders allowed. *)
Fixpoint insert_by_priority (d : ElementData) (sorted : list ElementData)
  : list ElementData :=
  match sorted with
  | [] => [d]
  | h :: tl =>
      if comparePriority d h <=? 0 then d :: h :: tl
      else h :: insert_by_priority d tl
  end.

Definition prioritizeElements (elements : list ElementData) : list ElementData :=
  fold_right insert_by_priority [] elements.

(** *** Element data *)

Definition relevantAttrs : list string :=
  ["data-testid"; "aria-label"; "title"; "placeholder"; "alt"; "name"; "type"; "href"].

Definition getRelevantAttributes (doc : Node) (element : NodeRef)
  : list (string * string) :=
  flat_map (fun attr =>
              match getAttribute doc element attr with
              | Some v => if Str.nonempty v then [(attr, v)] else []
              | None => []
              end) relevantAttrs.

Definition calculateConfidence (doc : Node) (element : NodeRef) : Q :=
  let confidence := (5 # 10)%Q in
  let confidence := if Str.nonempty (DOM.id doc element)
                    then (confidence + (3 # 10))%Q else confidence in
  let confidence := if hasAttribute doc element "data-testid"
                    then (confidence + (2 # 10))%Q else confidence in
  let confidence := if hasAttribute doc element "aria-label"
                    then (confidence + (1 # 10))%Q else confidence in
  let confidence := if Str.nonempty (extractTextEfficiently doc element 100)
                    then (confidence + (1 # 10))%Q else confidence in
  if Qle_bool 1 confidence then 1%Q else confidence.

(** The body of the [try] block of [extractElementData]. *)
Definition extractElementData_body (doc : Node) (host : Host)
                                   (element : NodeRef) (isVisible : bool)
  : Exc ElementData :=
  let tagName := Str.toLowerCase (tagName doc element) in
  let computedRole := string_or (getAttribute doc element "role") (inferRole doc element) in
  let text := extractTextEfficiently doc element 100 in
  selector <- generateOptimalSelector doc element ;;
  let position :=
    if isVisible then
      let rect := getBoundingClientRect host element in
      Some {| x := round (left rect);
              y := round (top rect);
              width := round (DOM.width rect);
              height := round (DOM.height rect) |}
    else None in
  ret {| id := generateElementId doc element;
         selector := selector;
         text := text;
         type := tagName;
         role := computedRole;
         visible := isVisible;
         position := position;
         priority_score := calculatePriority doc element tagName computedRole;
         attributes := getRelevantAttributes doc element;
         metadata := {| hasChildren := (0 <? List.length (children doc element))%nat;
                        isNested := isNestedInteractive doc element;
                        confidence := calculateConfidence doc element |};
         elementRef := element |}.

(** [extractElementData]: [None] is [null]. *)
Definition extractElementData (doc : Node) (host : Host)
                              (element : NodeRef) (isVisible : bool)
  : option ElementData :=
  match extractElementData_body doc host element isVisible with
  | Ok data => Some data
  | Throw _ => None
  end.

(** *** Collecting candidates *)

Definition fastScan (doc : Node) (config : Config) : Exc (list NodeRef) :=
  match body doc with
  | None => Throw "TypeError"
  | Some b =>
      ret (firstn (Z.to_nat (cfg_maxElements config))
             (filter (isInteractiveElement doc) (descendants doc b)))
  end.

(** [set.add(el)] *)
Definition set_add (l : list NodeRef) (el : NodeRef) : list NodeRef :=
  if mem el l then l else (l ++ [el])%list.

Definition semanticSelectors : list string :=
  [ "button";
    "a[href]";
    "input:not([type=" ++ CSS.quoted "hidden" ++ "])";
    "select";
    "textarea";
    "[role=" ++ CSS.quoted "button" ++ "]";
    "[role=" ++ CSS.quoted "link" ++ "]";
    "[role=" ++ CSS.quoted "tab" ++ "]";
    "[role=" ++ CSS.quoted "menuitem" ++ "]";
    "[role=" ++ CSS.quoted "textbox" ++ "]";
    "[onclick]" ].

Definition commonPatterns : list string :=
  map (fun p => "[class*=" ++ CSS.quoted p ++ "]")
      ["btn"; "button"; "link"; "nav"; "menu"; "tab"; "cta"].

Definition accurateScan (doc : Node) (config : Config) : Exc (list NodeRef) :=
  let elements :=
    fold_left (fun elements selector =>
                 match CSS.querySelectorAll doc selector with
                 | Ok found => fold_left set_add found elements
                 | Throw _ => elements
                 end) semanticSelectors [] in
  ariaElements <- CSS.querySelectorAll doc "[aria-label], [aria-labelledby], [data-testid]" ;;
  let elements :=
    fold_left (fun elements el =>
                 if isInteractiveElement doc el || hasInteractiveChild doc el
                 then set_add elements el else elements) ariaElements elements in
  elements <-
    fold_left (fun acc pattern =>
                 elements <- acc ;;
                 found <- CSS.querySelectorAll doc pattern ;;
                 ret (fold_left (fun elements el =>
                                   if isLikelyInteractive doc el
                                   then set_add elements el else elements)
                                found elements))
              commonPatterns (ret elements) ;;
  ret (slice0 (cfg_maxElements config) elements).

Definition primarySelectors : string :=
  "button, a[href], input:not([type=" ++ CSS.quoted "hidden" ++ "]), select, textarea, "
    ++ "[role=" ++ CSS.quoted "button" ++ "], [role=" ++ CSS.quoted "link" ++ "]".

Definition secondarySelectors : string :=
  "[onclick], [class*=" ++ CSS.quoted "btn" ++ "], [class*=" ++ CSS.quoted "button"
    ++ "], [role=" ++ CSS.quoted "tab" ++ "], [role=" ++ CSS.quoted "menuitem" ++ "]".

Definition balancedScan (doc : Node) (config : Config) : Exc (list NodeRef) :=
  primary <- CSS.querySelectorAll doc primarySelectors ;;
  let elements := primary in
  elements <-
    (if Qltb (inject_Z (len elements)) (inject_Z (cfg_maxElements config) * (7 # 10))%Q
     then
       secondary <- CSS.querySelectorAll doc secondarySelectors ;;
       ret (fold_left (fun elements el =>
                         if negb (mem el elements) && isLikelyInteractive doc el
                         then (elements ++ [el])%list else elements)
                      secondary elements)
     else ret elements) ;;
  ret (slice0 (cfg_maxElements config) elements).

(** *** Visibility and processing *)

(** [batchVisibilityCheck]: the promise is fulfilled by the observer
    callback once it has seen as many entries as there are elements,
    or by the time-out when fewer have arrived, missing ones counting
    as not visible.  With no element neither happens. *)
Definition batchVisibilityCheck (host : Host) (elements : list NodeRef)
  : Outcome (NodeRef -> bool) :=
  match elements with
  | [] => Pending
  | _ => Settled (fun el => match isIntersecting host el with
                            | Some b => b
                            | None => false
                            end)
  end.

(** The loop of [processElements] over the elements; the chunks of 50
    only decide where it yields to the renderer. *)
Definition processOne (doc : Node) (host : Host) (config : Config)
                      (visibilityMap : NodeRef -> bool) (el : NodeRef)
  : list ElementData :=
  let isVisible := visibilityMap el in
  if negb (cfg_includeInvisible config) && negb isVisible then []
  else match extractElementData doc host el isVisible with
       | Some elementData => [elementData]
       | None => []
       end.

Definition processElements (doc : Node) (host : Host) (elements : list NodeRef)
                           (config : Config) : Outcome (list ElementData) :=
  match batchVisibilityCheck host elements with
  | Settled visibilityMap =>
      let processed := flat_map (processOne doc host config visibilityMap) elements in
      Settled (prioritizeElements processed)
  | Rejected e => Rejected e
  | Pending => Pending
  end.

(** *** The cache and the scan *)

Definition isCacheValid (s : Scanner) (now : Z) : bool :=
  let cacheLifetime := 5000 in
  (now - lastScanTimestamp s <? cacheLifetime) && (0 <? len (cache s)).

Definition updateCache (elements : list ElementData) (now : Z) (s : Scanner) : Scanner :=
  {| cache := fold_left (fun m el => map_set (id el) el m) elements [];
     lastScanTimestamp := now;
     scanVersion := scanVersion s + 1;
     metrics := metrics s |}.

Definition invalidateCache (s : Scanner) : Scanner :=
  {| cache := [];
     lastScanTimestamp := 0;
     scanVersion := scanVersion s;
     metrics := metrics s |}.

Definition with_metrics (s : Scanner) (m : Metrics) : Scanner :=
  {| cache := cache s;
     lastScanTimestamp := lastScanTimestamp s;
     scanVersion := scanVersion s;
     metrics := m |}.

Definition countHit (s : Scanner) : Scanner :=
  let m := metrics s in
  with_metrics s (mkMetrics (lastScanTime m) (elementsScanned m)
                            (cacheHits m + 1) (cacheMisses m)).

Definition countMiss (s : Scanner) : Scanner :=
  let m := metrics s in
  with_metrics s (mkMetrics (lastScanTime m) (elementsScanned m)
                            (cacheHits m) (cacheMisses m + 1)).

Definition strategy (doc : Node) (config : Config) : Exc (list NodeRef) :=
  if String.eqb (cfg_priority config) "speed" then fastScan doc config
  else if String.eqb (cfg_priority config) "accuracy" then accurateScan doc config
  else balancedScan doc config.

(** [scanPageElements(options)].  On a cache hit the values of the
    cache are answered, in the order of the map. *)
Definition scanPageElements (doc : Node) (host : Host) (options : Options)
                            (clock : Clock) (s : Scanner)
  : Outcome (list ElementData) * Scanner :=
  let config := config_of options in
  if cfg_useCache config && isCacheValid s (now_check clock) then
    (Settled (map_values (cache s)), countHit s)
  else
    let s1 := countMiss s in
    match strategy doc config with
    | Throw e => (Rejected e, s1)
    | Ok elements =>
        match processElements doc host elements config with
        | Settled processed =>
            let s2 := updateCache processed (now_store clock) s1 in
            let m := metrics s2 in
            (Settled processed,
             with_metrics s2
               (mkMetrics (perf_end clock - perf_start clock)%Q (len processed)
                          (cacheHits m) (cacheMisses m)))
        | Rejected e => (Rejected e, s1)
        | Pending => (Pending, s1)
        end
    end.

(** *** A scan in flight

    [scanPageElements] is asynchronous, and the definition above is the
    scan during which nothing else happens.  What the method does
    before its first [await] happens at the call: the cache is
    consulted, the miss is counted and the candidates are collected
    (the three strategies await nothing themselves).  The scan then
    waits for the intersection observer, and other tasks run in the
    meantime: the mutation callback, other scans.  The rest, from the
    loop of [processElements] to the metrics, reads the document and
    the scanner as they are by then.  Two things are left out: a scan
    of more than 50 elements yields again between chunks, and an
    element, named here by its path, is taken to be where it was when
    it was collected. *)
Inductive Started : Type :=
| Answered (result : Outcome (list ElementData)) (s : Scanner)
| InFlight (elements : list NodeRef) (s : Scanner).

(** [scanPageElements] up to [await this.processElements(...)]. *)
Definition beginScan (doc : Node) (options : Options) (clock : Clock) (s : Scanner)
  : Started :=
  let config := config_of options in
  if cfg_useCache config && isCacheValid s (now_check clock) then
    Answered (Settled (map_values (cache s))) (countHit s)
  else
    let s1 := countMiss s in
    match strategy doc config with
    | Throw e => Answered (Rejected e) s1
    | Ok elements => InFlight elements s1
    end.

(** [scanPageElements] from there on, on the document and the scanner
    of that later time. *)
Definition completeScan (doc : Node) (host : Host) (options : Options) (clock : Clock)
                        (elements : list NodeRef) (s : Scanner)
  : Outcome (list ElementData) * Scanner :=
  let config := config_of options in
  match processElements doc host elements config with
  | Settled processed =>
      let s2 := updateCache processed (now_store clock) s in
      let m := metrics s2 in
      (Settled processed,
       with_metrics s2
         (mkMetrics (perf_end clock - perf_start clock)%Q (len processed)
                    (cacheHits m) (cacheMisses m)))
  | Rejected e => (Rejected e, s)
  | Pending => (Pending, s)
  end.

End Efficient.

(** ** RobustDOMScanner

    The light-DOM part of the scanner: candidate collection, element
    data and selectors.  Shadow trees and frames lie outside the
    document model. *)

Module Robust.
Import JS DOM Util.

Record Position : Type := mkPosition {
  x : Z; y : Z; width : Z; height : Z
}.

Record Attributes : Type := mkAttributes {
  attr_id : option string;
  attr_class : option string;
  attr_testid : option string;
  attr_ariaLabel : option string;
  attr_ariaLabelledby : option string;
  attr_name : option string;
  attr_type : option string;
  attr_href : option string
}.

Record ElementData : Type := mkElementData {
  id : string;
  selector : string;
  text : string;
  type : string;
  role : option JS.value;
  visible : bool;
  position : Position;
  attributes : Attributes;
  domRef : NodeRef
}.

(** The longest prefix of [s] whose characters satisfy [p], and the
    rest. *)
Fixpoint span (p : ascii -> bool) (s : string) : string * string :=
  match s with
  | String c r =>
      if p c then let (a, b) := span p r in (String c a, b) else (EmptyString, s)
  | EmptyString => (EmptyString, EmptyString)
  end.

Definition is_lower_hex (c : ascii) : bool := Str.is_digit c || Str.between 97 102 c.
Definition is_alnum (c : ascii) : bool := Str.is_letter c || Str.is_digit c.

(** [\d{3,}$] *)
Definition digits3 (s : string) : bool :=
  Str.forallb_chars Str.is_digit s && (3 <=? String.length s)%nat.

Definition isStableId (id : string) : bool :=
  (* /^(react|ember|vue|ng)-/ *)
  if Str.startsWith "react-" id || Str.startsWith "ember-" id
     || Str.startsWith "vue-" id || Str.startsWith "ng-" id then false
  (* /^[a-z]+-\d{3,}$/ *)
  else if (let (letters, rest) := span Str.is_lower id in
           Str.nonempty letters &&
           match rest with
           | String c digits => Ascii.eqb c "-" && digits3 digits
           | EmptyString => false
           end) then false
  (* /^[0-9a-f]{8,}$/ *)
  else if Str.forallb_chars is_lower_hex id && (8 <=? String.length id)%nat then false
  else true.

Definition isStableClass (className : string) : bool :=
  let lower := Str.toLowerCase className in
  let tail n := String.substring n (String.length lower) lower in
  (* /^css-[a-z0-9]+$/i *)
  if Str.startsWith "css-" lower && Str.nonempty (tail 4%nat)
     && Str.forallb_chars is_alnum (tail 4%nat) then false
  (* /^_[a-z0-9]{6,}$/i *)
  else if Str.startsWith "_" lower && (6 <=? String.length (tail 1%nat))%nat
          && Str.forallb_chars is_alnum (tail 1%nat) then false
  (* /^sc-[a-z0-9]+$/i *)
  else if Str.startsWith "sc-" lower && Str.nonempty (tail 3%nat)
          && Str.forallb_chars is_alnum (tail 3%nat) then false
  (* /^[a-z]{1,2}\d{3,}$/i *)
  else if (let (letters, rest) := span Str.is_lower lower in
           (1 <=? String.length letters)%nat && (String.length letters <=? 2)%nat
           && digits3 rest) then false
  else true.

Definition getImpliedRole : string -> option JS.value := Simple.getImpliedRole.

Definition generateId (doc : Node) (element : NodeRef) (index : nat) : string :=
  if Str.nonempty (DOM.id doc element) then "id-" ++ DOM.id doc element
  else if truthy (getAttribute doc element "data-testid")
       then "testid-" ++ reflected doc element "data-testid"
  else if truthy (getAttribute doc element "name")
       then "name-" ++ reflected doc element "name"
  else "elem-" ++ Str.of_nat index.

Definition generateRobustSelector (doc : Node) (element : NodeRef) : Exc string :=
  let tag := Str.toLowerCase (tagName doc element) in
  if truthy (getAttribute doc element "data-testid") then
    ret ("[data-testid=" ++ CSS.quoted (CSS.escape (reflected doc element "data-testid")) ++ "]")
  else
    let byId :=
      if Str.nonempty (DOM.id doc element) && isStableId (DOM.id doc element) then
        Simple.attempt
          (let escaped := CSS.escape (DOM.id doc element) in
           found <- CSS.querySelectorAll doc ("#" ++ escaped) ;;
           ret (if (List.length found =? 1)%nat then Some ("#" ++ escaped) else None))
      else None in
    match byId with
    | Some selector => ret selector
    | None =>
        let ariaLabel := reflected doc element "aria-label" in
        if Str.nonempty ariaLabel && (String.length ariaLabel <? 50)%nat then
          ret (tag ++ "[aria-label=" ++ CSS.quoted (CSS.escape ariaLabel) ++ "]")
        else if truthy (getAttribute doc element "name") then
          ret (tag ++ "[name=" ++ CSS.quoted (CSS.escape (reflected doc element "name")) ++ "]")
        else
          let byClass :=
            if Str.nonempty (className doc element) then
              match filter isStableClass (Str.split_ws (className doc element)) with
              | first :: _ =>
                  let classSelector := tag ++ "." ++ CSS.escape first in
                  Simple.attempt
                    (found <- CSS.querySelectorAll doc classSelector ;;
                     ret (if (List.length found =? 1)%nat then Some classSelector else None))
              | [] => None
              end
            else None in
          match byClass with
          | Some selector => ret selector
          | None =>
              let href := reflected doc element "href" in
              if String.eqb (tagName doc element) "A" && Str.nonempty href
                 && negb (Str.startsWith "javascript:" href)
              then ret ("a[href=" ++ CSS.quoted (CSS.escape href) ++ "]")
              else ret tag
          end
    end.

(** The visibility test of [extractElementData]. *)
Definition isVisible (host : Host) (rect : Rect) : bool :=
  Qltb 0 (DOM.width rect) && Qltb 0 (DOM.height rect)
    && Qltb (top rect) (innerHeight host + 500)%Q
    && Qltb (- (500))%Q (bottom rect).

Definition extractElementData_body (doc : Node) (host : Host)
                                   (element : NodeRef) (index : nat)
  : Exc ElementData :=
  let rect := getBoundingClientRect host element in
  let isVisible := isVisible host rect in
  let text :=
    if String.eqb (tagName doc element) "INPUT"
       || String.eqb (tagName doc element) "TEXTAREA"
    then or_str (reflected doc element "placeholder")
           (or_str (DOM.value doc element)
              (or_str (reflected doc element "aria-label") EmptyString))
    else or_str (Str.prefix_n 100 (Str.trim (textContent doc element)))
           (or_str (reflected doc element "aria-label")
              (or_str (reflected doc element "title") EmptyString)) in
  selector <- generateRobustSelector doc element ;;
  let tagName := Str.toLowerCase (tagName doc element) in
  let role := string_or (getAttribute doc element "role") (getImpliedRole tagName) in
  ret {| id := generateId doc element index;
         selector := selector;
         text := text;
         type := tagName;
         role := role;
         visible := isVisible;
         position := {| x := round (left rect);
                        y := round (top rect);
                        width := round (DOM.width rect);
                        height := round (DOM.height rect) |};
         attributes :=
           {| attr_id := truthy_or_null (DOM.id doc element);
              attr_class := truthy_or_null (className doc element);
              attr_testid := getAttribute doc element "data-testid";
              attr_ariaLabel := getAttribute doc element "aria-label";
              attr_ariaLabelledby := getAttribute doc element "aria-labelledby";
              attr_name := getAttribute doc element "name";
              attr_type := getAttribute doc element "type";
              attr_href := getAttribute doc element "href" |};
         domRef := element |}.

Definition extractElementData (doc : Node) (host : Host)
                              (element : NodeRef) (index : nat)
  : option ElementData :=
  match extractElementData_body doc host element index with
  | Ok data => Some data
  | Throw _ => None
  end.

Definition looksInteractive (doc : Node) (host : Host) (element : NodeRef) : bool :=
  if hasAttribute doc element "onclick" then true
  else if String.eqb (cursor host element) "pointer" then true
  else match getAttribute doc element "role" with
       | Some role => Str.nonempty role && inb role ["button"; "link"; "tab"; "menuitem"]
       | None => false
       end.

Definition interactiveSelectors : list string :=
  [ "button";
    "a[href]";
    "input:not([type=" ++ CSS.quoted "hidden" ++ "])";
    "select";
    "textarea";
    "[role=" ++ CSS.quoted "button" ++ "]";
    "[role=" ++ CSS.quoted "link" ++ "]";
    "[role=" ++ CSS.quoted "tab" ++ "]";
    "[role=" ++ CSS.quoted "menuitem" ++ "]";
    "[role=" ++ CSS.quoted "option" ++ "]";
    "[onclick]";
    "[ng-click]";
    "[v-on:click]";
    "[data-action]" ].

Definition actionClasses : list string :=
  map (fun p => "[class*=" ++ CSS.quoted p ++ "]")
      ["btn"; "button"; "link"; "clickable"; "action"; "submit"; "cta"].

Definition scanVisibleDOM (doc : Node) (host : Host) (maxElements : Z) : list NodeRef :=
  let pass (accept : NodeRef -> bool) (acc : Simple.Collected) (selector : string) :=
    match CSS.querySelectorAll doc selector with
    | Ok found =>
        fold_left (fun acc el =>
                     if negb (mem el (Simple.seenElements acc))
                        && (len (Simple.elements acc) <? maxElements) && accept el
                     then Simple.mkCollected (el :: Simple.seenElements acc)
                                             (Simple.elements acc ++ [el])%list
                     else acc) found acc
    | Throw _ => acc
    end in
  let first := fold_left (pass (fun _ => true)) interactiveSelectors
                         (Simple.mkCollected [] []) in
  let second := fold_left (pass (looksInteractive doc host)) actionClasses first in
  Simple.elements second.

(** [deduplicateElements] *)
Definition deduplicateElements (elements : list NodeRef) : list NodeRef :=
  fold_left Efficient.set_add elements [].

End Robust.

(** ** What the properties below speak about *)

Module Props.
Import JS DOM Util.

(** The selector resolves, without throwing, to a result that includes
    the element. *)
Definition resolvesTo (doc : Node) (selector : string) (element : NodeRef) : bool :=
  match CSS.querySelectorAll doc selector with
  | Ok found => mem element found
  | Throw _ => false
  end.

(** The box overlaps the viewport, extended on every side by [margin]. *)
Definition intersectsViewport (host : Host) (margin : Q) (rect : Rect) : Prop :=
  (left rect < innerWidth host + margin
   /\ - margin < right rect
   /\ top rect < innerHeight host + margin
   /\ - margin < bottom rect)%Q.

(** Visible, in the words of the specification: positive width and
    height, and overlapping the (extended) viewport. *)
Definition specVisible (host : Host) (margin : Q) (rect : Rect) : Prop :=
  (0 < DOM.width rect)%Q /\ (0 < DOM.height rect)%Q /\ intersectsViewport host margin rect.

(** The elements an asynchronous scan answers, when it answers. *)
Definition settled {A} (o : Efficient.Outcome (list A)) : option (list A) :=
  match o with
  | Efficient.Settled l => Some l
  | _ => None
  end.

Definition refsOf (o : Efficient.Outcome (list Efficient.ElementData))
  : option (list NodeRef) :=
  option_map (map Efficient.elementRef) (settled o).

Definition selectorsOf (o : Efficient.Outcome (list Efficient.ElementData))
  : option (list string) :=
  option_map (map Efficient.selector) (settled o).

Definition prioritiesOf (o : Efficient.Outcome (list Efficient.ElementData))
  : option (list Efficient.Score) :=
  option_map (map Efficient.priority_score) (settled o).

(** A scan of the efficient scanner that is not answered from its
    cache. *)
Definition freshScan (options : Efficient.Options) (clock : Efficient.Clock)
                     (s : Efficient.Scanner) : Prop :=
  Efficient.cfg_useCache (Efficient.config_of options)
  && Efficient.isCacheValid s (Efficient.now_check clock) = false.

(** The element data of the candidates in discovery order, before
    ranking. *)
Definition inDiscoveryOrder (doc : Node) (host : Host) (options : Efficient.Options)
                            (elements : list NodeRef) : list Efficient.ElementData :=
  flat_map (Efficient.processOne doc host (Efficient.config_of options)
            (fun el => match isIntersecting host el with
                       | Some b => b
                       | None => false
                       end))
         elements.

(** [b <= a] on priorities: both are numbers, in that order. *)
Definition scoreLe (b a : Efficient.Score) : Prop :=
  match b, a with
  | Efficient.Num pb, Efficient.Num pa => pb <= pa
  | _, _ => False
  end.

(** [a] is ranked at least as high as [b]. *)
Definition ranksBefore (a b : Efficient.ElementData) : Prop :=
  scoreLe (Efficient.priority_score b) (Efficient.priority_score a).

Definition withPriority (p : Z) (d : Efficient.ElementData) : bool :=
  match Efficient.priority_score d with
  | Efficient.Num n => n =? p
  | Efficient.NaN => false
  end.

(** A sequence of scores in descending order. *)
Definition descending (scores : list Efficient.Score) : Prop :=
  StronglySorted (fun a b => scoreLe b a) scores.

(** The priority score of an element, as [extractElementData] of the
    efficient scanner computes it. *)
Definition rankOf (doc : Node) (element : NodeRef) : Efficient.Score :=
  Efficient.calculatePriority doc element
  (Str.toLowerCase (tagName doc element))
  (string_or (getAttribute doc element "role") (Efficient.inferRole doc element)).

(** The tag name, in lower case, is the name of a property that every
    object literal inherits: [constructor], [__proto__]. *)
Definition inheritedName (doc : Node) (element : NodeRef) : bool :=
  JS.truthy (JS.objectPrototypeGet (Str.toLowerCase (tagName doc element))).

(** No element of the list has such a tag name. *)
Definition tagsHaveScores (doc : Node) (elements : list NodeRef) : bool :=
  forallb (fun el => negb (inheritedName doc el)) elements.

(** The priority is a number. *)
Definition numeric (d : Efficient.ElementData) : Prop :=
  exists n, Efficient.priority_score d = Efficient.Num n.

(** The cache entry of an element: its id, and its data. *)
Definition entry (el : Efficient.ElementData) : string * Efficient.ElementData :=
  (Efficient.id el, el).

(** Two scans in a row of the efficient scanner: what the second one
    answers, and whether it was counted as a cache hit. *)
Definition secondScan (doc : Node) (host : Host) (options : Efficient.Options)
                      (first second : Efficient.Clock) (s : Efficient.Scanner)
  : Efficient.Outcome (list Efficient.ElementData)
    * Efficient.Outcome (list Efficient.ElementData) * bool :=
  let (r1, s1) := Efficient.scanPageElements doc host options first s in
  let (r2, s2) := Efficient.scanPageElements doc host options second s1 in
  (r1, r2, Efficient.cacheHits (Efficient.metrics s2)
           =? Efficient.cacheHits (Efficient.metrics s1) + 1).

End Props.

(** ** Sample pages *)

Module Examples.
Import DOM.

Definition page (content : list Node) : Node :=
  Element "html" [] [Element "head" [] []; Element "body" [] content].

Definition box : Rect := mkRect 10 10 100 30.

(** A 1024 x 768 viewport in which every element is laid out on screen. *)
Definition onScreen : Host :=
  mkHost 1024 768 (fun _ => box) (fun _ => Some true) (fun _ => "auto").

(** The same viewport with every element scrolled out of view. *)
Definition scrolledAway : Host :=
  mkHost 1024 768 (fun _ => mkRect 10 5000 100 30) (fun _ => Some false) (fun _ => "auto").

(** A box to the right of the viewport, level with it. *)
Definition farRight : Rect := mkRect 5000 10 10 10.

(** The viewport with every element laid out in that box; the
    intersection observer reports none of them as intersecting. *)
Definition besideViewport : Host :=
  mkHost 1024 768 (fun _ => farRight) (fun _ => Some false) (fun _ => "auto").

Definition simpleClock : Simple.Clock := Simple.mkClock 1000 1001.
Definition simpleClockLater : Simple.Clock := Simple.mkClock 2000 2001.
Definition clock : Efficient.Clock := Efficient.mkClock 0 1000 1001 1.
Definition clockLater : Efficient.Clock := Efficient.mkClock 2 2000 2001 3.

Definition noSimpleOptions : Simple.Options := Simple.mkOptions None None.

Definition capped (n : Z) : Efficient.Options :=
  Efficient.mkOptions (Some n) None None None None.

(** [<button id="login:btn">Login</button>] *)
Definition loginPage : Node :=
  page [Element "button" [("id", "login:btn")] [TextNode "Login"]].

Definition loginButton : NodeRef := [1; 0]%nat.

(** [<div role="button">Save</div>] *)
Definition roleButtonPage : Node :=
  page [Element "div" [("role", "button")] [TextNode "Save"]].

(** A button whose [data-testid] is [say "hi"], quotes included. *)
Definition sayHi : string :=
  "say " ++ CSS.chr CSS.dquote ++ "hi" ++ CSS.chr CSS.dquote.

Definition quotedTestIdPage : Node :=
  page [Element "button" [("data-testid", sayHi)] [TextNode "Greet"]].

(** [<button>OK</button><button>OK</button>] *)
Definition twinButtonsPage : Node :=
  page [Element "button" [] [TextNode "OK"]; Element "button" [] [TextNode "OK"]].

(** [<button><a href="#">Go</a></button>] *)
Definition nestedPage : Node :=
  page [Element "button" [] [Element "a" [("href", "#")] [TextNode "Go"]]].

Definition outerButton : NodeRef := [1; 0]%nat.
Definition innerAnchor : NodeRef := [1; 0; 0]%nat.

(** A body without any element. *)
Definition emptyPage : Node := page [].

(** A button and a select that share a test id, around a link. *)
Definition sharedTestIdPage : Node :=
  page [Element "button" [("data-testid", "x")] [TextNode "First"];
      Element "a" [("href", "#"); ("data-testid", "y")] [TextNode "Second"];
      Element "select" [("data-testid", "x")] []].

(** A link with a test id in front of a plain button. *)
Definition linkThenButtonPage : Node :=
  page [Element "a" [("href", "#"); ("data-testid", "y")] [TextNode "Second"];
      Element "button" [] [TextNode "First"]].

(** The page with the login button after a button has been added
    behind it. *)
Definition loginAndNewPage : Node :=
  page [Element "button" [("id", "login:btn")] [TextNode "Login"];
      Element "button" [] [TextNode "New"]].

(** [<button class="a b">] with a vertical tab for the space, and
    [<button class="a">]. *)
Definition verticalTabPage : Node :=
  page [Element "button" [("class", "a" ++ CSS.chr (ascii_of_nat 11) ++ "b")]
                [TextNode "One"];
      Element "button" [("class", "a")] [TextNode "Two"]].

(** A button with a class that is not a valid selector, next to a
    plain one. *)
Definition tailwindPage : Node :=
  page [Element "button" [("class", "w-1/2")] [TextNode "Half"];
      Element "button" [] [TextNode "Other"]].

(** A select, a plain button, a link with a test id and another plain
    button. *)
Definition unrankedPage : Node :=
  page [Element "select" [] [];
      Element "button" [] [TextNode "First"];
      Element "a" [("href", "#"); ("data-testid", "y")] [TextNode "Second"];
      Element "button" [] [TextNode "Third"]].

(** [<constructor role="button">] between a plain button and a button
    with a test id. *)
Definition constructorPage : Node :=
  page [Element "button" [] [TextNode "First"];
      Element "constructor" [("role", "button")] [TextNode "Second"];
      Element "button" [("data-testid", "z")] [TextNode "Third"]].

(** 150 buttons. *)
Definition manyButtonsPage : Node :=
  page (repeat (Element "button" [] [TextNode "B"]) 150).

End Examples.

(** ** SpotifyService: the playlist tables and their lookup *)

Module Spotify.
Import JS.

(** The three modes the player offers. *)
Inductive MusicMode := Match | Boost | Energy.

Definition mode_key (m : MusicMode) : string :=
  match m with
  | Match => "match"
  | Boost => "boost"
  | Energy => "energy"
  end.

Definition moodPlaylists : value :=
  VObject
    [ ("match", VObject
        [ ("happy",     VString "37i9dQZF1DXdPec7aLTmlC");
          ("sad",       VString "37i9dQZF1DX3YSRoSdA634");
          ("angry",     VString "37i9dQZF1DX1tyCD9QhIWF");
          ("surprised", VString "37i9dQZF1DX4dyzvuaRJ0n");
          ("neutral",   VString "37i9dQZF1DX4sWSpwq3LiO");
          ("excited",   VString "37i9dQZF1DX0XUsuxWHRQd") ]);
      ("boost", VObject
        [ ("happy",     VString "37i9dQZF1DX0XUsuxWHRQd");
          ("sad",       VString "37i9dQZF1DX3rxVfibe1L0");
          ("angry",     VString "37i9dQZF1DWXti3N4Wp5xy");
          ("surprised", VString "37i9dQZF1DX4sWSpwq3LiO");
          ("neutral",   VString "37i9dQZF1DX0XUsuxWHRQd");
          ("excited",   VString "37i9dQZF1DX3rxVfibe1L0") ]);
      ("energy", VObject
        [ ("high",   VString "37i9dQZF1DX76Wlfdnj7AP");
          ("medium", VString "37i9dQZF1DX2sUQwD7tbmL");
          ("low",    VString "37i9dQZF1DWZd79rJ6a7lp") ]) ].

Definition energyMap : value :=
  VObject
    [ ("happy",     VString "high");
      ("excited",   VString "high");
      ("angry",     VString "high");
      ("surprised", VString "medium");
      ("neutral",   VString "low");
      ("sad",       VString "low") ].

Definition getPlaylistForEmotion (emotion : string) (musicMode : MusicMode)
  : Exc value :=
  match musicMode with
  | Energy =>
      level <- get energyMap emotion ;;
      let energyLevel := or_else level (VString "medium") in
      table <- get moodPlaylists "energy" ;;
      get table (toPropertyKey energyLevel)
  | _ =>
      table <- get moodPlaylists (mode_key musicMode) ;;
      found <- get table emotion ;;
      matchTable <- get moodPlaylists "match" ;;
      neutral <- get matchTable "neutral" ;;
      ret (or_else found neutral)
  end.

(** The emotions the tables know about. *)
Definition knownEmotions : list string :=
  [ "happy"; "sad"; "angry"; "surprised"; "neutral"; "excited" ].

(** What the fallback is meant to answer for an emotion outside the
    tables. *)
Definition fallbackPlaylist (m : MusicMode) : value :=
  match m with
  | Energy => VString "37i9dQZF1DX2sUQwD7tbmL"
  | _ => VString "37i9dQZF1DX4sWSpwq3LiO"
  end.

(** A defined, non-empty playlist identifier. *)
Definition isPlaylistId (v : value) : bool :=
  match v with
  | VString s => negb (String.eqb s "")
  | _ => false
  end.

End Spotify.

(** ** MorphCastService: emotion readings and their smoothing *)

(** The arithmetic of JavaScript numbers the service relies on.  The
    development is parametric in it, so nothing below depends on how a
    sum or a quotient is rounded. *)
Class JSNumber (num : Type) : Type := {
  n_lit : Q -> num;               (* a numeric literal            *)
  n_of_nat : nat -> num;          (* an array length as a number  *)
  n_add : num -> num -> num;
  n_sub : num -> num -> num;
  n_mul : num -> num -> num;
  n_div : num -> num -> num;
  n_gt : num -> num -> bool;      (* [a > b]                      *)
  n_truthy : num -> bool;         (* ToBoolean                    *)
  n_floor : num -> Z              (* [Math.floor]                 *)
}.

(** Exact rational arithmetic is one such structure. *)
#[export] Instance QNumber : JSNumber Q := {
  n_lit := fun q => q;
  n_of_nat := fun n => inject_Z (Z.of_nat n);
  n_add := Qplus;
  n_sub := Qminus;
  n_mul := Qmult;
  n_div := Qdiv;
  n_gt := fun a b => negb (Qle_bool a b);
  n_truthy := fun a => negb (Qeq_bool a 0);
  n_floor := Qfloor
}.

Module MorphCast.
Section Service.
Context {num : Type} {NUM : JSNumber num}.

Definition zero : num := n_lit 0.

(** One reading.  The object the constructor creates also carries
    [fearful] and [disgusted]; the object [handleFaceLost] installs
    and the one [getSmoothedEmotions] builds do not. *)
Record Emotions : Type := mkEmotions {
  happy : num;
  sad : num;
  angry : num;
  surprised : num;
  neutral : num;
  fearful : option num;
  disgusted : option num
}.

Record SimulationState : Type := mkSimulationState {
  currentDominant : option string;
  changeCounter : Z;
  changeInterval : Z;
  transitionProgress : Z
}.

Record Service : Type := mkService {
  currentEmotions : Emotions;
  dominantEmotion : string;
  attentionScore : num;
  faceDetected : bool;
  emotionHistory : list Emotions;
  historySize : nat;
  simulationState : option SimulationState
}.

(** The state the constructor leaves. *)
Definition initial : Service :=
  {| currentEmotions :=
       mkEmotions zero zero zero zero zero (Some zero) (Some zero);
     dominantEmotion := "neutral";
     attentionScore := zero;
     faceDetected := false;
     emotionHistory := [];
     historySize := 10;
     simulationState := None |}.

(** [Object.values(emotions)], in property order. *)
Definition values (e : Emotions) : list num :=
  [happy e; sad e; angry e; surprised e; neutral e]
    ++ match fearful e with Some v => [v] | None => [] end
    ++ match disgusted e with Some v => [v] | None => [] end.

(** [Object.entries(emotions)], in property order. *)
Definition entries (e : Emotions) : list (string * num) :=
  [("happy", happy e); ("sad", sad e); ("angry", angry e);
   ("surprised", surprised e); ("neutral", neutral e)]
    ++ match fearful e with Some v => [("fearful", v)] | None => [] end
    ++ match disgusted e with Some v => [("disgusted", v)] | None => [] end.

(** [emotions[name]] for the five names the simulation writes. *)
Definition getEmotion (e : Emotions) (name : string) : num :=
  if String.eqb name "happy" then happy e
  else if String.eqb name "sad" then sad e
  else if String.eqb name "angry" then angry e
  else if String.eqb name "surprised" then surprised e
  else neutral e.

(** [emotions[name] = v] for the same five names. *)
Definition setEmotion (e : Emotions) (name : string) (v : num) : Emotions :=
  if String.eqb name "happy" then
    mkEmotions v (sad e) (angry e) (surprised e) (neutral e) (fearful e) (disgusted e)
  else if String.eqb name "sad" then
    mkEmotions (happy e) v (angry e) (surprised e) (neutral e) (fearful e) (disgusted e)
  else if String.eqb name "angry" then
    mkEmotions (happy e) (sad e) v (surprised e) (neutral e) (fearful e) (disgusted e)
  else if String.eqb name "surprised" then
    mkEmotions (happy e) (sad e) (angry e) v (neutral e) (fearful e) (disgusted e)
  else
    mkEmotions (happy e) (sad e) (angry e) (surprised e) v (fearful e) (disgusted e).

(** [smoothTransition(current, target, speed)] *)
Definition smoothTransition (current target speed : num) : num :=
  n_add current (n_mul (n_sub target current) speed).

(** The values [Math.random()] answers during one call of
    [simulateEmotions]: the two draws made when the dominant emotion
    is switched, one draw per simulated emotion, one for attention. *)
Record Draws : Type := mkDraws {
  r_pick : num;
  r_interval : num;
  r_target : string -> num;
  r_attention : num
}.

Definition simulatedNames : list string :=
  ["happy"; "sad"; "angry"; "surprised"; "neutral"].

Definition switchCandidates : list string :=
  ["happy"; "sad"; "neutral"; "surprised"; "angry"].

Definition pickEmotion (r : num) : option string :=
  let i := n_floor (n_mul r (n_of_nat (List.length switchCandidates))) in
  if i <? 0 then None else nth_error switchCandidates (Z.to_nat i).

Definition same_name (target : option string) (name : string) : bool :=
  match target with
  | Some t => String.eqb name t
  | None => false
  end.

Definition or_zero (v : num) : num := if n_truthy v then v else zero.

Definition simulateEmotions (d : Draws) (s : Service) : Service :=
  let st0 :=
    match simulationState s with
    | Some st => st
    | None => mkSimulationState (Some "happy") 0 50 0
    end in
  let st1 := mkSimulationState (currentDominant st0) (changeCounter st0 + 1)
               (changeInterval st0) (transitionProgress st0) in
  let st2 :=
    if changeInterval st1 <=? changeCounter st1 then
      mkSimulationState (pickEmotion (r_pick d)) 0
        (30 + n_floor (n_mul (r_interval d) (n_lit 40)))
        (transitionProgress st1)
    else st1 in
  let target := currentDominant st2 in
  let baseNoise := n_lit 5 in
  let update (e : Emotions) (emotion : string) : Emotions :=
    if same_name target emotion then
      let targetValue := n_add (n_lit 60) (n_mul (r_target d emotion) (n_lit 30)) in
      setEmotion e emotion
        (smoothTransition (or_zero (getEmotion e emotion)) targetValue (n_lit 0.15))
    else
      let targetValue := n_add baseNoise (n_mul (r_target d emotion) (n_lit 15)) in
      setEmotion e emotion
        (smoothTransition (or_zero (getEmotion e emotion)) targetValue (n_lit 0.1)) in
  {| currentEmotions := fold_left update simulatedNames (currentEmotions s);
     dominantEmotion := dominantEmotion s;
     attentionScore := n_add (n_lit 70) (n_mul (r_attention d) (n_lit 30));
     faceDetected := true;
     emotionHistory := emotionHistory s;
     historySize := historySize s;
     simulationState := Some st2 |}.

(** [array.push(x); if (array.length > size) array.shift()] *)
Definition pushBounded (size : nat) (h : list Emotions) (x : Emotions)
  : list Emotions :=
  let h' := (h ++ [x])%list in
  if (size <? List.length h')%nat then tl h' else h'.

Definition detectEmotions (d : Draws) (s : Service) : Service :=
  let hasRealData :=
    faceDetected s && existsb (fun v => n_gt v zero) (values (currentEmotions s)) in
  let s1 := if negb hasRealData then simulateEmotions d s else s in
  {| currentEmotions := currentEmotions s1;
     dominantEmotion := dominantEmotion s1;
     attentionScore := attentionScore s1;
     faceDetected := faceDetected s1;
     emotionHistory :=
       pushBounded (historySize s1) (emotionHistory s1) (currentEmotions s1);
     historySize := historySize s1;
     simulationState := simulationState s1 |}.

(** The payload of a [CY_FACE_EMOTION_RESULT] event: [event.output.emotion]
    when present, with each score possibly missing, and
    [event.output.attention]. *)
Record EmotionEvent : Type := mkEmotionEvent {
  ev_Happy : option num;
  ev_Sad : option num;
  ev_Angry : option num;
  ev_Surprise : option num;
  ev_Neutral : option num;
  ev_attention : option num
}.

Definition percent (v : option num) : num :=
  let x := match v with
           | Some x => if n_truthy x then x else zero
           | None => zero
           end in
  n_mul x (n_lit 100).

Definition handleMorphCastEmotion (event : option EmotionEvent) (s : Service)
  : Service :=
  match event with
  | None => s
  | Some ev =>
      let e := currentEmotions s in
      {| currentEmotions :=
           mkEmotions (percent (ev_Happy ev)) (percent (ev_Sad ev))
             (percent (ev_Angry ev)) (percent (ev_Surprise ev))
             (percent (ev_Neutral ev)) (fearful e) (disgusted e);
         dominantEmotion := dominantEmotion s;
         attentionScore :=
           match ev_attention ev with
           | Some a => if n_truthy a then n_mul a (n_lit 100) else attentionScore s
           | None => attentionScore s
           end;
         faceDetected := true;
         emotionHistory := emotionHistory s;
         historySize := historySize s;
         simulationState := simulationState s |}
  end.

Definition handleFaceLost (s : Service) : Service :=
  {| currentEmotions := mkEmotions zero zero zero zero zero None None;
     dominantEmotion := dominantEmotion s;
     attentionScore := zero;
     faceDetected := false;
     emotionHistory := emotionHistory s;
     historySize := historySize s;
     simulationState := simulationState s |}.

(** The loop of [getSmoothedEmotions]: add one reading to the running
    totals. *)
Definition accumulate (smoothed e : Emotions) : Emotions :=
  mkEmotions (n_add (happy smoothed) (happy e))
             (n_add (sad smoothed) (sad e))
             (n_add (angry smoothed) (angry e))
             (n_add (surprised smoothed) (surprised e))
             (n_add (neutral smoothed) (neutral e))
             (fearful smoothed) (disgusted smoothed).

Definition getSmoothedEmotions (s : Service) : Emotions :=
  match emotionHistory s with
  | [] => currentEmotions s
  | _ =>
      let smoothed0 := mkEmotions zero zero zero zero zero None None in
      let smoothed := fold_left accumulate (emotionHistory s) smoothed0 in
      let count := n_of_nat (List.length (emotionHistory s)) in
      mkEmotions (n_div (happy smoothed) count)
                 (n_div (sad smoothed) count)
                 (n_div (angry smoothed) count)
                 (n_div (surprised smoothed) count)
                 (n_div (neutral smoothed) count)
                 None None
  end.

Definition updateDominantEmotion (s : Service) : Service :=
  let smoothed := getSmoothedEmotions s in
  let best :=
    fold_left (fun (acc : string * num) (kv : string * num) =>
                 if n_gt (snd kv) (snd acc) then kv else acc)
              (entries smoothed) ("neutral", zero) in
  {| currentEmotions := currentEmotions s;
     dominantEmotion := if n_gt (snd best) (n_lit 20) then fst best else "neutral";
     attentionScore := attentionScore s;
     faceDetected := faceDetected s;
     emotionHistory := emotionHistory s;
     historySize := historySize s;
     simulationState := simulationState s |}.

(** What can happen to the service while it analyses: one turn of the
    analysis loop, or one of the two SDK events. *)
Inductive Event : Type :=
| Tick (d : Draws)
| EmotionResult (event : option EmotionEvent)
| FaceLost.

Definition step (s : Service) (ev : Event) : Service :=
  match ev with
  | Tick d => updateDominantEmotion (detectEmotions d s)
  | EmotionResult event => handleMorphCastEmotion event s
  | FaceLost => handleFaceLost s
  end.

Definition run (evs : list Event) : Service := fold_left step evs initial.

(** What every reachable service state satisfies. *)
Definition history_inv (s : Service) : Prop :=
historySize s = 10%nat /\ (List.length (emotionHistory s) <= 10)%nat.

(** The arithmetic mean of a sequence of numbers: their sum, taken in
    sequence order from zero, divided by how many they are. *)
Definition mean (xs : list num) : num :=
  n_div (fold_left n_add xs zero) (n_of_nat (List.length xs)).

End Service.
Arguments Emotions num : clear implicits.
  Arguments Service num : clear implicits.
Arguments Draws num : clear implicits.
Arguments EmotionEvent num : clear implicits.
Arguments Event num : clear implicits.
End MorphCast.

(** A turn of the analysis loop in which every random draw is one
    half, over the rationals. *)
Module MorphCastExamples.

Definition steadyDraws : MorphCast.Draws Q :=
  MorphCast.mkDraws (1 # 2)%Q (1 # 2)%Q (fun _ => (1 # 2)%Q) (1 # 2)%Q.

Definition twelveTurns : list (MorphCast.Event Q) :=
  repeat (MorphCast.Tick steadyDraws) 12.

End MorphCastExamples.

(** ** The scanners over time: scans, cache clearing and DOM mutations *)

Module Sessions.
Import DOM.

(** *** SimpleDOMScanner *)

(** What a caller does with a simple scanner. *)
Inductive SimpleCall : Type :=
| SimpleScan (doc : Node) (host : Host) (options : Simple.Options) (clock : Simple.Clock)
| SimpleClear.

Definition simpleStep (s : Simple.Scanner) (call : SimpleCall) : Simple.Scanner :=
  match call with
  | SimpleScan doc host options clock => snd (Simple.scan doc host options clock s)
  | SimpleClear => Simple.clearCache s
  end.

Definition simpleRun (calls : list SimpleCall) : Simple.Scanner :=
  fold_left simpleStep calls Simple.initial.

(** *** EfficientDOMScanner *)

(** A mutation record as the observer of [setupIncrementalUpdates]
    receives it; the nodes are the subtrees added or removed. *)
Record MutationRecord : Type := mkMutationRecord {
  mutation_type : string;
  addedNodes : list Node;
  removedNodes : list Node
}.

(** [node.nodeType === Node.ELEMENT_NODE && this.isInteractiveElement(node)] *)
Definition isInteractiveNode (node : Node) : bool :=
  is_element node && Efficient.isInteractiveElement node [].

(** The flag the observer callback computes. *)
Definition significantChange (mutations : list MutationRecord) : bool :=
  existsb (fun mutation =>
             String.eqb (mutation_type mutation) "childList"
             && (0 <? List.length (addedNodes mutation))%nat
             && existsb isInteractiveNode (addedNodes mutation))
          mutations.

(** The observer callback. *)
Definition onMutations (mutations : list MutationRecord) (s : Efficient.Scanner)
  : Efficient.Scanner :=
  if significantChange mutations then Efficient.invalidateCache s else s.

(** The scanner together with its observer, connected or not. *)
Record Session : Type := mkSession {
  scanner : Efficient.Scanner;
  observing : bool
}.

(** The state the constructor leaves: the observer is set up. *)
Definition created : Session := mkSession Efficient.initial true.

(** [destroy()]: the observer is disconnected and the cache cleared;
    the time stamp stays. *)
Definition destroy (x : Session) : Session :=
  {| scanner :=
       {| Efficient.cache := [];
          Efficient.lastScanTimestamp := Efficient.lastScanTimestamp (scanner x);
          Efficient.scanVersion := Efficient.scanVersion (scanner x);
          Efficient.metrics := Efficient.metrics (scanner x) |};
     observing := false |}.

Inductive Call : Type :=
| ScanPage (doc : Node) (host : Host) (options : Efficient.Options)
           (clock : Efficient.Clock)
| DomMutated (mutations : list MutationRecord)
| Destroy.

Definition step (x : Session) (call : Call) : Session :=
  match call with
  | ScanPage doc host options clock =>
      mkSession (snd (Efficient.scanPageElements doc host options clock (scanner x)))
                (observing x)
  | DomMutated mutations =>
      if observing x then mkSession (onMutations mutations (scanner x)) true else x
  | Destroy => destroy x
  end.

Definition run (calls : list Call) : Session := fold_left step calls created.

(** How many of the calls are scans. *)
Definition scansIn (calls : list Call) : Z :=
  Util.len (filter (fun call => match call with ScanPage _ _ _ _ => true | _ => false end)
                   calls).

(** A quotient of two integers as JavaScript computes it, when it is
    not [NaN]. *)
Inductive Rate : Type :=
| Finite (q : Q)
| Infinite (negative : bool).

Record MetricsReport : Type := mkMetricsReport {
  report_metrics : Efficient.Metrics;
  cacheSize : Z;
  report_scanVersion : Z;
  cacheHitRate : Rate
}.

(** [getMetrics()]; the rate is [hits / (hits + misses) || 0]. *)
Definition getMetrics (s : Efficient.Scanner) : MetricsReport :=
  let hits := Efficient.cacheHits (Efficient.metrics s) in
  let total := hits + Efficient.cacheMisses (Efficient.metrics s) in
  {| report_metrics := Efficient.metrics s;
     cacheSize := Util.len (Efficient.cache s);
     report_scanVersion := Efficient.scanVersion s;
     cacheHitRate :=
       if total =? 0 then
         if hits =? 0 then Finite 0 else Infinite (hits <? 0)
       else if hits =? 0 then Finite 0
       else Finite (inject_Z hits / inject_Z total) |}.

(** The 32-bit polynomial hash of a string: each character takes the
    hash to [31 * hash + code], wrapped to a signed 32-bit integer. *)
Fixpoint polynomialHash (s : string) (hash : Z) : Z :=
  match s with
  | EmptyString => hash
  | String c r => polynomialHash r (Efficient.toInt32 (31 * hash + Z.of_N (Str.code c)))
  end.

(** The last element of [elements] that carries the id [key]. *)
Definition lastWithId (key : string) (elements : list Efficient.ElementData)
  : option Efficient.ElementData :=
  List.find (fun d => String.eqb key (Efficient.id d)) (List.rev elements).

End Sessions.

(** Mutations and scans to try the properties on. *)
Module SessionExamples.
Import DOM.

(** A button is added inside a new [div]. *)
Definition wrappedButton : Sessions.MutationRecord :=
  Sessions.mkMutationRecord "childList"
    [Element "div" [] [Element "button" [] [TextNode "New"]]] [].

(** A button is added as such. *)
Definition bareButton : Sessions.MutationRecord :=
  Sessions.mkMutationRecord "childList" [Element "button" [] [TextNode "New"]] [].

(** The first scan of the page with the login button. *)
Definition firstScan : Efficient.Outcome (list Efficient.ElementData) * Efficient.Scanner :=
  Efficient.scanPageElements Examples.loginPage Examples.onScreen Efficient.noOptions
    Examples.clock Efficient.initial.

Definition firstReturned : list Efficient.ElementData :=
  match fst firstScan with
  | Efficient.Settled l => l
  | _ => []
  end.

(** A scan of the page with the login button has begun: the scanner
    while the scan waits for the intersection observer. *)
Definition waiting : Efficient.Scanner := Efficient.countMiss Efficient.initial.

(** That scan completes after a button has been added to the page and
    the mutation callback has run. *)
Definition lateScan : Efficient.Outcome (list Efficient.ElementData) * Efficient.Scanner :=
  Efficient.completeScan Examples.loginAndNewPage Examples.onScreen Efficient.noOptions
    Examples.clock [Examples.loginButton]
    (Sessions.onMutations [bareButton] waiting).

Definition lateReturned : list Efficient.ElementData :=
  match fst lateScan with
  | Efficient.Settled l => l
  | _ => []
  end.

End SessionExamples.

(** ** What the properties of the emotion service speak about *)

Module MoodProps.

(** The property names an emotions object of the service can carry. *)
Definition emotionNames : list string :=
  ["happy"; "sad"; "angry"; "surprised"; "neutral"; "fearful"; "disgusted"].

(** The five scores the service writes all lie between [lo] and [hi]. *)
Definition scoresWithin (lo hi : Q) (e : MorphCast.Emotions Q) : Prop :=
  (lo <= MorphCast.happy e <= hi /\ lo <= MorphCast.sad e <= hi
   /\ lo <= MorphCast.angry e <= hi /\ lo <= MorphCast.surprised e <= hi
   /\ lo <= MorphCast.neutral e <= hi)%Q.

(** Every draw of [Math.random()] lies between 0 and 1. *)
Definition unitDraws (d : MorphCast.Draws Q) : Prop :=
  (forall name, 0 <= MorphCast.r_target d name <= 1)%Q
  /\ (0 <= MorphCast.r_attention d <= 1)%Q.

(** [hasRealData] of [detectEmotions]. *)
Definition hasRealData {num : Type} {NUM : JSNumber num} (s : MorphCast.Service num)
  : bool :=
  MorphCast.faceDetected s
  && existsb (fun v => n_gt v MorphCast.zero)
             (MorphCast.values (MorphCast.currentEmotions s)).

(** The readings that the turns of the analysis loop record, in the
    order of recording, when the events [evs] reach the service in
    state [s]. *)
Fixpoint recorded {num : Type} {NUM : JSNumber num}
                  (s : MorphCast.Service num) (evs : list (MorphCast.Event num))
  : list (MorphCast.Emotions num) :=
  match evs with
  | [] => []
  | ev :: rest =>
      match ev with
      | MorphCast.Tick d =>
          MorphCast.currentEmotions (MorphCast.detectEmotions d s)
            :: recorded (MorphCast.step s ev) rest
      | _ => recorded (MorphCast.step s ev) rest
      end
  end.

(** The last [n] elements of a sequence. *)
Definition lastn {A} (n : nat) (l : list A) : list A :=
  skipn (List.length l - n) l.

(** A reading of the SDK in which happiness is one half. *)
Definition halfHappy : MorphCast.EmotionEvent Q :=
  MorphCast.mkEmotionEvent (Some (1 # 2)%Q) None None None None None.

End MoodProps.

(** ** What the properties of the generated selectors speak about *)

Module SelectorProps.

(** No NUL character: [CSS.escape] turns one into U+FFFD, and the HTML
    parser never leaves one in an attribute value. *)
Definition notNul (c : ascii) : bool := negb (Str.code c =? 0)%N.
Definition noNul (s : string) : bool := Str.forallb_chars notNul s.
(** What may follow a name without being taken for part of it. *)
Definition endsName (rest : string) : bool :=
  match rest with
  | EmptyString => true
  | String c _ => negb (CSS.is_name_char c) && negb (Ascii.eqb c CSS.backslash)
  end.
(** A character that [CSS.escape] can leave as it is. *)
Definition rawChar (c : ascii) : bool :=
  (128 <=? Str.code c)%N || Ascii.eqb c "-" || Ascii.eqb c "_"
  || Str.is_digit c || Str.is_letter c.
(** An identifier that needs no escaping: a name-start character
    followed by name characters. *)
Definition plainName (s : string) : bool :=
  match s with
  | String c r => CSS.is_name_start c && Str.forallb_chars CSS.is_name_char r
  | EmptyString => false
  end.
(** What may follow an identifier token: the end of a name that does
    not open a function. *)
Definition endsIdent (rest : string) : bool :=
  endsName rest && negb (Str.startsWith "(" rest).
(** A character of an HTML tag name. *)
Definition tagChar (c : ascii) : bool :=
  Str.is_lower c || Str.is_digit c || Ascii.eqb c "-".
(** A tag name as the HTML parser produces it for the elements of
    HTML: a lower-case letter followed by lower-case letters, digits
    and hyphens. *)
Definition plainTag (t : string) : bool :=
  match t with
  | String c r => Str.is_lower c && Str.forallb_chars tagChar r
  | EmptyString => false
  end.
(** A character that is white space to JavaScript and to the class
    tokens alike, or to neither: any but the vertical tab and the
    no-break space. *)
Definition sameSpace (c : ascii) : bool :=
  Bool.eqb (Str.is_space c) (DOM.is_ascii_whitespace c).
(** A [class] attribute that [split(/\s+/)] cuts into the tokens of
    the element. *)
Definition tokenSpaces (className : string) : bool :=
  Str.forallb_chars sameSpace className.
(** A character that the preprocessing of a selector leaves as it
    is. *)
Definition streamChar (c : ascii) : bool :=
  negb (Str.code c =? 0)%N && negb (Str.code c =? 12)%N && negb (Str.code c =? 13)%N.
Definition streamSafe (s : string) : bool := Str.forallb_chars streamChar s.
(** An element the selector theorems speak about: its tag name is
    plain, none of its attribute values holds a NUL character, which
    the HTML parser never leaves in a document, and its [class] holds
    no vertical tab and no no-break space, so that the classes the
    scanners split off are the class tokens of the element. *)
Definition scannable (doc : DOM.Node) (element : DOM.NodeRef) : bool :=
  plainTag (DOM.localName doc element)
  && forallb (fun kv => noNul (snd kv)) (DOM.attributes doc element)
  && tokenSpaces (DOM.className doc element).
(** A string that can stand between double quotes as it is: no double
    quote, no backslash, no line break. *)
Definition quoteSafe (v : string) : bool :=
  Str.forallb_chars
    (fun c => negb (Ascii.eqb c CSS.dquote) && negb (CSS.is_newline c)
              && negb (Ascii.eqb c CSS.backslash)) v.
(** The efficient scanner builds its selector from an attribute value
    that needs no escaping: a quote-safe [data-testid] without NUL, or
    else an id of letters, digits, underscores and hyphens, or else a
    quote-safe [aria-label] without NUL. *)
Definition needsNoEscaping (doc : DOM.Node) (element : DOM.NodeRef) : bool :=
  if Util.truthy (DOM.getAttribute doc element "data-testid")
  then quoteSafe (DOM.reflected doc element "data-testid")
       && noNul (DOM.reflected doc element "data-testid")
  else if Str.nonempty (DOM.id doc element) && Efficient.plainId (DOM.id doc element)
  then true
  else Util.truthy (DOM.getAttribute doc element "aria-label")
       && quoteSafe (DOM.reflected doc element "aria-label")
       && noNul (DOM.reflected doc element "aria-label").
End SelectorProps.

(** ** SpotifyService: the access token and the requests made with it *)

Module SpotifyApi.
Import JS.

(** The two keys the service keeps in [chrome.storage.local]; [None] is
    a key that is not there. *)
Record Storage : Type := mkStorage {
  spotifyToken : option string;
  stored_tokenExpiry : option Z
}.

(** The fields of the service that the token and the player touch;
    [None] is [null]. *)
Record Service : Type := mkService {
  accessToken : option string;
  tokenExpiry : option Z;
  isPlaying : bool
}.

(** The state the constructor leaves. *)
Definition initial : Service := mkService None None false.

(** [setAccessToken(token, expiresIn = 3600)], called at time [now]:
    the service and the storage it leaves. *)
Definition setAccessToken (token : string) (expiresIn : option Z) (now : Z)
                          (s : Service) : Service * Storage :=
  let seconds := match expiresIn with Some e => e | None => 3600 end in
  let expiry := now + seconds * 1000 in
  (mkService (Some token) (Some expiry) (isPlaying s),
   mkStorage (Some token) (Some expiry)).

(** [loadToken()]: what the promise is fulfilled with, and the service
    after the callback. *)
Definition loadToken (storage : Storage) (now : Z) (s : Service) : bool * Service :=
  match spotifyToken storage, stored_tokenExpiry storage with
  | Some token, Some expiry =>
      if Str.nonempty token && (now <? expiry)
      then (true, mkService (Some token) (Some expiry) (isPlaying s))
      else (false, s)
  | _, _ => (false, s)
  end.

(** [isTokenValid()], as a condition.  A [null] expiry compares as 0. *)
Definition isTokenValid (s : Service) (now : Z) : bool :=
  match accessToken s with
  | Some token =>
      Str.nonempty token
      && match tokenExpiry s with
         | Some expiry => now <? expiry
         | None => now <? 0
         end
  | None => false
  end.

(** A request as [fetch] receives it; the body is the JSON text. *)
Record Request : Type := mkRequest {
  url : string;
  method : string;
  authorization : string;
  contentType : string;
  body : option string
}.

Section Responses.
(** The values [response.json()] answers. *)
Variable J : Type.

Record Response : Type := mkResponse {
  status : Z;
  json : Exc J
}.

(** [response.ok] *)
Definition ok (response : Response) : bool :=
  (200 <=? status response) && (status response <=? 299).

(** The network: what [fetch] answers to a request, a rejection
    included. *)
Definition Network : Type := Request -> Exc Response.

(** [fetchSpotifyAPI(endpoint, method, body)] at time [now]: what the
    promise settles with ([None] is [null]) and the requests sent. *)
Definition fetchSpotifyAPI (net : Network) (endpoint method : string)
                           (body : option string) (now : Z) (s : Service)
  : Exc (option J) * list Request :=
  if negb (isTokenValid s now) then (Throw "Spotify token is invalid or expired", [])
  else
    let token := match accessToken s with Some t => t | None => "null" end in
    let request :=
      {| url := "https://api.spotify.com/" ++ endpoint;
         method := method;
         authorization := "Bearer " ++ token;
         contentType := "application/json";
         body := body |} in
    match net request with
    | Throw e => (Throw e, [request])
    | Ok response =>
        if negb (ok response) then
          if status response =? 401
          then (Throw "Token expired - please re-authenticate", [request])
          else (Throw ("Spotify API error: " ++ Str.of_Z (status response)), [request])
        else if status response =? 204 then (Ok None, [request])
        else (match json response with
              | Ok data => Ok (Some data)
              | Throw e => Throw e
              end, [request])
    end.

End Responses.

Arguments status {J} r.
Arguments json {J} r.
Arguments mkResponse {J} status json.

End SpotifyApi.

(** ** MoodMusicController: the emotion bars, the music mode and the player *)

Module Controller.
Import JS.

(** [getPlaylistForEmotion(emotion, musicMode)] with the mode as the
    string the controller holds. *)
Definition getPlaylistForEmotion (emotion musicMode : string) : Exc value :=
  if String.eqb musicMode "energy" then
    level <- get Spotify.energyMap emotion ;;
    let energyLevel := or_else level (VString "medium") in
    table <- get Spotify.moodPlaylists "energy" ;;
    get table (toPropertyKey energyLevel)
  else
    table <- get Spotify.moodPlaylists musicMode ;;
    found <- get table emotion ;;
    matchTable <- get Spotify.moodPlaylists "match" ;;
    neutral <- get matchTable "neutral" ;;
    ret (or_else found neutral).

(** The embed address of a playlist; the template turns the identifier
    into a string. *)
Definition embedUrl (playlistId : value) : string :=
  "https://open.spotify.com/embed/playlist/" ++ toPropertyKey playlistId
    ++ "?utm_source=generator&theme=0".

(** [emotion.charAt(0).toUpperCase() + emotion.slice(1)] *)
Definition capitalize (emotion : string) : string :=
  match emotion with
  | String c r => String (Str.upper_char c) r
  | EmptyString => EmptyString
  end.

(** What the page shows, by element id: the [src] of the player, the
    text of a label, the width of a bar.  An id without an entry is an
    element the page does not have. *)
Definition Shown : Type := list (string * string).

(** Assigning to the element with the given id, when there is one. *)
Fixpoint show (id content : string) (page : Shown) : Shown :=
  match page with
  | [] => []
  | (k, old) :: tl =>
      if String.eqb k id then (k, content) :: tl else (k, old) :: show id content tl
  end.

(** The controller: its fields, the page, which mode buttons carry the
    class [active], and the [musicMode] item of the local storage. *)
Record State : Type := mkState {
  currentMusicMode : string;
  lastPlayedEmotion : option string;
  shown : Shown;
  active : list (string * bool);
  savedMusicMode : option string
}.

Definition withShown (st : State) (page : Shown) : State :=
  mkState (currentMusicMode st) (lastPlayedEmotion st) page (active st)
          (savedMusicMode st).

(** [updateMusicPlayer(emotion)]: how it ends, and the state it leaves
    also when it throws. *)
Definition updateMusicPlayer (emotion : string) (st : State) : Exc unit * State :=
  let st1 := mkState (currentMusicMode st) (Some emotion) (shown st) (active st)
                     (savedMusicMode st) in
  match getPlaylistForEmotion emotion (currentMusicMode st1) with
  | Throw e => (Throw e, st1)
  | Ok playlistId =>
      match assoc "spotify-player" (shown st1) with
      | None => (Throw "TypeError", st1)
      | Some _ =>
          let st2 := withShown st1 (show "spotify-player" (embedUrl playlistId) (shown st1)) in
          match assoc "current-playlist-mood" (shown st2) with
          | None => (Throw "TypeError", st2)
          | Some _ =>
              (Ok tt, withShown st2 (show "current-playlist-mood" (capitalize emotion)
                                          (shown st2)))
          end
      end
  end.

Definition modes : list string := ["match"; "boost"; "energy"].

(** [switchMusicMode(mode)], the listener of the three mode buttons. *)
Definition switchMusicMode (mode : string) (st : State) : Exc unit * State :=
  let toggled :=
    fold_left (fun classes m => Efficient.map_set (m ++ "-mode-btn") (String.eqb mode m) classes)
              modes (active st) in
  let st1 := mkState mode (lastPlayedEmotion st) (shown st) toggled (Some mode) in
  match lastPlayedEmotion st1 with
  | Some emotion =>
      if Str.nonempty emotion then updateMusicPlayer emotion st1 else (Ok tt, st1)
  | None => (Ok tt, st1)
  end.

(** [loadSavedSettings()]; [buttons] are the elements of class
    [mood-mode-btn], each with its id and its [data-mood-mode]. *)
Definition loadSavedSettings (buttons : list (string * string)) (st : State) : State :=
  match savedMusicMode st with
  | Some savedMode =>
      if Str.nonempty savedMode then
        mkState savedMode (lastPlayedEmotion st) (shown st)
          (fold_left (fun classes btn =>
                        Efficient.map_set (fst btn) (String.eqb (snd btn) savedMode) classes)
                     buttons (active st))
          (savedMusicMode st)
      else st
  | None => st
  end.

(** The controller after its constructor, on a page that has the
    buttons the constructor attaches its listeners to. *)
Definition created (page : Shown) (classes : list (string * bool))
                   (buttons : list (string * string)) (saved : option string) : State :=
  loadSavedSettings buttons (mkState "match" None page classes saved).

Section Bars.
Context {num : Type} {NUM : JSNumber num}.
(** The text of [Math.round(x)]. *)
Variable rounded : num -> string.

(** What the analysis loop hands to [onEmotionUpdate]. *)
Record EmotionUpdate : Type := mkEmotionUpdate {
  emotions : MorphCast.Emotions num;
  dominant : string;
  attention : num;
  faceDetected : bool
}.

(** One turn of the loop over the five bars. *)
Definition showBar (data : EmotionUpdate) (page : Shown) (emotion : string) : Shown :=
  let value := rounded (MorphCast.or_zero (MorphCast.getEmotion (emotions data) emotion)) in
  match assoc ("emotion-" ++ emotion) page, assoc ("value-" ++ emotion) page with
  | Some _, Some _ =>
      show ("value-" ++ emotion) (value ++ "%")
           (show ("emotion-" ++ emotion) (value ++ "%") page)
  | _, _ => page
  end.

(** [updateEmotionUI(data)] *)
Definition updateEmotionUI (data : EmotionUpdate) (st : State) : Exc unit * State :=
  let bars := fold_left (showBar data) MorphCast.simulatedNames (shown st) in
  let page := show "dominant-emotion" (dominant data) bars in
  let st1 := withShown st page in
  if Str.nonempty (dominant data)
     && negb (match lastPlayedEmotion st1 with
              | Some last => String.eqb (dominant data) last
              | None => false
              end)
  then updateMusicPlayer (dominant data) st1
  else (Ok tt, st1).

(** What happens to the controller: an update from the analysis loop,
    or a click on one of the three mode buttons. *)
Inductive Event : Type :=
| EmotionUpdated (data : EmotionUpdate)
| ModeClicked (mode : Spotify.MusicMode).

Definition step (st : State) (ev : Event) : State :=
  match ev with
  | EmotionUpdated data => snd (updateEmotionUI data st)
  | ModeClicked mode => snd (switchMusicMode (Spotify.mode_key mode) st)
  end.

End Bars.

Arguments EmotionUpdate num : clear implicits.
Arguments Event num : clear implicits.

(** The player shows the playlist of the last played emotion in the
    current mode, and the label names that emotion. *)
Definition playerInSync (st : State) : Prop :=
  forall emotion,
    lastPlayedEmotion st = Some emotion ->
    exists playlistId,
      getPlaylistForEmotion emotion (currentMusicMode st) = Ok playlistId
      /\ assoc "spotify-player" (shown st) = Some (embedUrl playlistId)
      /\ assoc "current-playlist-mood" (shown st) = Some (capitalize emotion).

(** The page has the player and its label. *)
Definition hasPlayer (page : Shown) : bool :=
  match assoc "spotify-player" page, assoc "current-playlist-mood" page with
  | Some _, Some _ => true
  | _, _ => false
  end.

(** What the controller keeps true on a page with the player: the mode
    is one of the three, the last played emotion is not empty, and the
    player is in sync. *)
Definition settled (st : State) : Prop :=
  (exists m, currentMusicMode st = Spotify.mode_key m)
  /\ hasPlayer (shown st) = true
  /\ (forall e, lastPlayedEmotion st = Some e -> Str.nonempty e = true)
  /\ playerInSync st.

(** The local storage holds no mode, or one of the three. *)
Definition savedModeKnown (saved : option string) : bool :=
  match saved with
  | Some mode => inb mode modes
  | None => true
  end.

End Controller.

(** ** The page while it analyses: the service feeding the controller *)

Module Page.
Import JS.

Section Analysing.
Context {num : Type} {NUM : JSNumber num}.
Variable rounded : num -> string.

(** The service, the controller whose [updateEmotionUI] is its
    [onEmotionUpdate], and the flag [isAnalyzing] of the service. *)
Record State : Type := mkState {
  service : MorphCast.Service num;
  controller : Controller.State;
  isAnalyzing : bool
}.

(** The object [analysisLoop] hands to the callback. *)
Definition report (s : MorphCast.Service num) : Controller.EmotionUpdate num :=
  Controller.mkEmotionUpdate (MorphCast.currentEmotions s) (MorphCast.dominantEmotion s)
    (MorphCast.attentionScore s) (MorphCast.faceDetected s).

(** One turn of [analysisLoop] with its callback; an exception of the
    callback is caught and stops the analysis. *)
Definition analysisLoop (d : MorphCast.Draws num) (st : State) : State :=
  if negb (isAnalyzing st) then st
  else
    let s := MorphCast.step (service st) (MorphCast.Tick d) in
    match Controller.updateEmotionUI rounded (report s) (controller st) with
    | (Ok _, c) => mkState s c true
    | (Throw _, c) => mkState s c false
    end.

(** What happens on the page between a press of the Start button and
    the next press of Start or of Stop: something happens to the
    service, or a mode button is clicked.  The two buttons themselves
    are not among the events; what they do to the service is the
    subject of [Lifecycle] below. *)
Inductive Event : Type :=
| Analysis (ev : MorphCast.Event num)
| ModeClicked (mode : Spotify.MusicMode).

Definition step (st : State) (ev : Event) : State :=
  match ev with
  | Analysis (MorphCast.Tick d) => analysisLoop d st
  | Analysis ev' =>
      mkState (MorphCast.step (service st) ev') (controller st) (isAnalyzing st)
  | ModeClicked mode =>
      mkState (service st)
              (Controller.step rounded (controller st) (Controller.ModeClicked mode))
              (isAnalyzing st)
  end.

(** The page once [handleStartAnalysis] has started the analysis. *)
Definition started (c : Controller.State) : State :=
  mkState MorphCast.initial c true.

Definition run (evs : list Event) (c : Controller.State) : State :=
  fold_left step evs (started c).

Definition isTick (ev : Event) : bool :=
  match ev with
  | Analysis (MorphCast.Tick _) => true
  | _ => false
  end.

End Analysing.

Arguments State num : clear implicits.
Arguments Event num : clear implicits.

End Page.

Module PageExamples.

(** A page with the player and its label, and nothing else. *)
Definition playerPage : Controller.Shown :=
  [("spotify-player", ""); ("current-playlist-mood", "")].

(** The text of a rounded rational. *)
Definition rounded (q : Q) : string := Str.of_Z (Qfloor (q + (1 # 2))).

Definition happyUpdate : Controller.EmotionUpdate Q :=
  Controller.mkEmotionUpdate (MorphCast.currentEmotions (@MorphCast.initial Q QNumber))
    "happy" 0%Q true.

(** Two updates around a click. *)
Definition updates : list (Controller.Event Q) :=
  [Controller.EmotionUpdated happyUpdate;
   Controller.ModeClicked Spotify.Energy;
   Controller.EmotionUpdated happyUpdate].

(** A turn of the loop between two clicks. *)
Definition clicks : list (Page.Event Q) :=
  [Page.ModeClicked Spotify.Energy;
   Page.Analysis (MorphCast.Tick MorphCastExamples.steadyDraws);
   Page.ModeClicked Spotify.Boost].

End PageExamples.

(** ** MorphCastService: starting and stopping the analysis loop *)

Module Lifecycle.
Import JS.

(** The two flags of the service, the timers that [analysisLoop] has
    set and that have not fired yet, and the turns of the loop made so
    far.  Each call below is made from a task of its own, as the
    listeners of the page make them, so that a turn of the loop runs
    to its end before the next call. *)
Record State : Type := mkState {
  isInitialized : bool;
  isAnalyzing : bool;
  pendingLoops : nat;
  turns : nat
}.

(** The state the constructor leaves. *)
Definition initial : State := mkState false false 0 0.

(** [initialize(videoElement)]: [granted] says that the camera could be
    opened; otherwise the [catch] throws again. *)
Definition initialize (granted : bool) (st : State) : Exc bool * State :=
  if granted
  then (Ok true, mkState true (isAnalyzing st) (pendingLoops st) (turns st))
  else (Throw "Camera access denied or unavailable", st).

(** [stopAnalysis()] *)
Definition stopAnalysis (st : State) : State :=
  mkState (isInitialized st) false (pendingLoops st) (turns st).

(** [analysisLoop()]: [callbackThrows] says that [onEmotionUpdate]
    threw in this turn. *)
Definition analysisLoop (callbackThrows : bool) (st : State) : State :=
  if negb (isAnalyzing st) then st
  else
    let st1 := mkState (isInitialized st) (isAnalyzing st) (pendingLoops st)
                       (S (turns st)) in
    if callbackThrows then stopAnalysis st1
    else mkState (isInitialized st1) (isAnalyzing st1) (S (pendingLoops st1)) (turns st1).

(** [startAnalysis()] *)
Definition startAnalysis (callbackThrows : bool) (st : State) : Exc unit * State :=
  if negb (isInitialized st) then (Throw "MorphCast not initialized", st)
  else if isAnalyzing st then (Ok tt, st)
  else
    (Ok tt,
     analysisLoop callbackThrows
       (mkState (isInitialized st) true (pendingLoops st) (turns st))).

(** [cleanup()], as far as the flags go. *)
Definition cleanup (st : State) : State :=
  let st1 := stopAnalysis st in
  mkState false (isAnalyzing st1) (pendingLoops st1) (turns st1).

(** A timer set by [analysisLoop] fires. *)
Definition timerFires (callbackThrows : bool) (st : State) : State :=
  match pendingLoops st with
  | O => st
  | S n =>
      analysisLoop callbackThrows
        (mkState (isInitialized st) (isAnalyzing st) n (turns st))
  end.

Inductive Call : Type :=
| Initialize (granted : bool)
| StartAnalysis (callbackThrows : bool)
| StopAnalysis
| Cleanup
| TimerFires (callbackThrows : bool).

Definition step (st : State) (c : Call) : State :=
  match c with
  | Initialize granted => snd (initialize granted st)
  | StartAnalysis callbackThrows => snd (startAnalysis callbackThrows st)
  | StopAnalysis => stopAnalysis st
  | Cleanup => cleanup st
  | TimerFires callbackThrows => timerFires callbackThrows st
  end.

Definition run (calls : list Call) (st : State) : State := fold_left step calls st.

(** Stopping and starting again, [n] times over, with a callback that
    does not throw. *)
Definition restarts (n : nat) : list Call :=
  List.concat (repeat [StopAnalysis; StartAnalysis false] n).

(** As the page does it: [cleanup], [initialize], [startAnalysis]. *)
Definition pageRestarts (n : nat) : list Call :=
  List.concat (repeat [Cleanup; Initialize true; StartAnalysis false] n).

(** [m] timers fire, the callback not throwing. *)
Definition firings (m : nat) : list Call := repeat (TimerFires false) m.

End Lifecycle.

Module LifecycleExamples.

(** The service once the page has started the analysis. *)
Definition running : Lifecycle.State :=
  Lifecycle.run [Lifecycle.Initialize true; Lifecycle.StartAnalysis false]
                Lifecycle.initial.

End LifecycleExamples.

Module ElementExamples.

(** The data of the login button, scanned while visible. *)
Definition loginData : Efficient.ElementData :=
  match Efficient.extractElementData Examples.loginPage Examples.onScreen
                                     Examples.loginButton true with
  | Some data => data
  | None =>
      Efficient.mkElementData "" "" "" "" None false None (Efficient.Num 0) []
        (Efficient.mkMetadata false false 0) []
  end.

End ElementExamples.

Module TreeProps.
Import DOM.

(** The loop inside [descendantsOf]: the elements of the subtrees of
    the children [l], the first of which is child number [i] of
    [here]. *)
Definition elementsFrom (here : NodeRef) : nat -> list Node -> list NodeRef :=
  fix go (i : nat) (l : list Node) : list NodeRef :=
    match l with
    | [] => []
    | c :: l' =>
        ((if is_element c then [(here ++ [i])%list] else [])
           ++ descendantsOf (here ++ [i])%list c ++ go (S i) l')%list
    end.

(** A reference below [here], through child number [i] or a later
    one. *)
Definition below (here : NodeRef) (i : nat) (r : NodeRef) : Prop :=
  exists j rest, r = (here ++ j :: rest)%list /\ (i <= j)%nat.

End TreeProps.

Module CandidateExamples.

(** What the balanced strategy collects on the page with the login
    button. *)
Definition loginCandidates : list DOM.NodeRef :=
  match Efficient.balancedScan Examples.loginPage
                               (Efficient.config_of Efficient.noOptions) with
  | JS.Ok elements => elements
  | JS.Throw _ => []
  end.

End CandidateExamples.

(* ================================================================== *)
(** * Part II. Properties                                              *)
(* ================================================================== *)

Section SpotifyFacts.
Import JS Spotify.

(** Away from the inherited names, every emotion gets a playlist, and
    an emotion outside the tables gets the fallback of its mode. *)
Lemma getPlaylistForEmotion_plain (emotion : string) (m : MusicMode) :
  objectPrototypeGet emotion = VUndefined ->
  exists v, getPlaylistForEmotion emotion m = Ok v
         /\ isPlaylistId v = true
         /\ (inb emotion knownEmotions = false -> v = fallbackPlaylist m).
Proof.
  intros Hk.
  assert (Hcases :
    emotion = "happy" \/ emotion = "sad" \/ emotion = "angry" \/
    emotion = "surprised" \/ emotion = "neutral" \/ emotion = "excited" \/
    inb emotion knownEmotions = false).
  { unfold inb, knownEmotions; simpl.
    repeat match goal with
           | |- context [String.eqb emotion ?s] =>
               destruct (String.eqb_spec emotion s); [subst; tauto|]
           end.
    simpl. tauto. }
  destruct Hcases as [->|[->|[->|[->|[->|[->|Hun]]]]]];
    try (destruct m; eexists;
         (split; [reflexivity|split; [reflexivity|intros Hf; vm_compute in Hf; discriminate]])).
  unfold inb, knownEmotions in Hun; simpl in Hun.
  repeat rewrite orb_false_iff in Hun.
  destruct Hun as (H1 & H2 & H3 & H4 & H5 & H6 & _).
  destruct m; unfold getPlaylistForEmotion, energyMap, moodPlaylists, get at 1;
    simpl; rewrite ?H1, ?H2, ?H3, ?H4, ?H5, ?H6, ?Hk; simpl;
    eexists; (split; [reflexivity|split; [reflexivity|reflexivity]]).
Qed.

End SpotifyFacts.

(** C10 (failing input). In energy mode the emotion string
    ["constructor"] is found on the prototype of the energy table, so
    the medium fallback is not taken and the lookup of the resulting
    key in the energy playlists answers [undefined]; in match and boost
    mode the same string answers the built-in function [Object] instead
    of the neutral playlist. *)
Theorem C10_getPlaylistForEmotion_inherited_key :
  Spotify.getPlaylistForEmotion "constructor" Spotify.Energy = JS.Ok JS.VUndefined
  /\ Spotify.getPlaylistForEmotion "constructor" Spotify.Match
       = JS.Ok (JS.VNative "Object")
  /\ Spotify.getPlaylistForEmotion "constructor" Spotify.Boost
       = JS.Ok (JS.VNative "Object")
  /\ Spotify.isPlaylistId JS.VUndefined = false
  /\ Spotify.isPlaylistId (JS.VNative "Object") = false.
Proof. repeat split. Qed.

(** ** The emotion history and its smoothing *)

Section MorphCastFacts.
Import MorphCast.
Context {num : Type} {NUM : JSNumber num}.

Lemma pushBounded_length (h : list (Emotions num)) (x : Emotions num) :
  (List.length h <= 10)%nat ->
  (List.length (pushBounded 10 h x) <= 10)%nat.
Proof.
  intros Hlen. unfold pushBounded.
  destruct (Nat.ltb_spec 10 (List.length (h ++ [x])%list)) as [Hgt|Hle].
  - destruct (h ++ [x])%list eqn:E; simpl in *; [lia|].
    assert (Hl : List.length (h ++ [x])%list = S (List.length l))
      by (rewrite E; reflexivity).
    rewrite length_app in Hl; simpl in Hl. lia.
  - exact Hle.
Qed.

Lemma simulateEmotions_history (d : Draws num) (s : Service num) :
  emotionHistory (simulateEmotions d s) = emotionHistory s
  /\ historySize (simulateEmotions d s) = historySize s.
Proof. split; reflexivity. Qed.

Lemma detectEmotions_inv (d : Draws num) (s : Service num) :
  history_inv s -> history_inv (detectEmotions d s).
Proof.
  intros [Hsz Hlen]. unfold history_inv, detectEmotions. cbn [historySize emotionHistory].
  destruct (negb _); cbn [simulateEmotions historySize emotionHistory currentEmotions];
    rewrite Hsz; (split; [reflexivity|apply pushBounded_length; exact Hlen]).
Qed.

Lemma step_inv (s : Service num) (ev : Event num) :
  history_inv s -> history_inv (step s ev).
Proof.
  intros Hinv. destruct ev as [d|[ev|]|]; cbn [step].
  - apply (detectEmotions_inv d) in Hinv. exact Hinv.
  - exact Hinv.
  - exact Hinv.
  - exact Hinv.
Qed.

Lemma run_from_inv (evs : list (Event num)) :
  forall s, history_inv s -> history_inv (fold_left step evs s).
Proof.
  induction evs as [|ev evs IH]; intros s Hinv; cbn [fold_left].
  - exact Hinv.
  - apply IH, step_inv, Hinv.
Qed.

Lemma run_inv (evs : list (Event num)) : history_inv (run evs).
Proof.
  apply run_from_inv. split; [reflexivity|cbn; lia].
Qed.

(** The running totals of the smoothing loop are, field by field, the
    left-to-right sums of that field. *)
Lemma accumulate_fields (h : list (Emotions num)) :
  forall acc,
    let r := fold_left accumulate h acc in
    happy r = fold_left n_add (map happy h) (happy acc)
    /\ sad r = fold_left n_add (map sad h) (sad acc)
    /\ angry r = fold_left n_add (map angry h) (angry acc)
    /\ surprised r = fold_left n_add (map surprised h) (surprised acc)
    /\ neutral r = fold_left n_add (map neutral h) (neutral acc).
Proof.
  induction h as [|e h IH]; intros acc; cbn [fold_left map].
  - repeat split.
  - apply (IH (accumulate acc e)).
Qed.

Lemma getSmoothedEmotions_mean (s : Service num) :
  match emotionHistory s with
  | [] => getSmoothedEmotions s = currentEmotions s
  | h =>
      happy (getSmoothedEmotions s) = mean (map happy h)
      /\ sad (getSmoothedEmotions s) = mean (map sad h)
      /\ angry (getSmoothedEmotions s) = mean (map angry h)
      /\ surprised (getSmoothedEmotions s) = mean (map surprised h)
      /\ neutral (getSmoothedEmotions s) = mean (map neutral h)
  end.
Proof.
  unfold getSmoothedEmotions.
  destruct (emotionHistory s) as [|e h] eqn:E; [reflexivity|].
  pose proof (accumulate_fields (e :: h)
                (mkEmotions zero zero zero zero zero None None)) as Hacc.
  cbv zeta in Hacc. destruct Hacc as (H1 & H2 & H3 & H4 & H5).
  unfold mean. rewrite !length_map.
  cbn [happy sad angry surprised neutral] in *.
  rewrite H1, H2, H3, H4, H5. repeat split.
Qed.

End MorphCastFacts.

(** Twelve turns of the analysis loop fill the history to its bound, and
    no further. *)
Example history_full_after_twelve_turns :
  List.length (MorphCast.emotionHistory (MorphCast.run MorphCastExamples.twelveTurns))
    = 10%nat.
Proof. vm_compute. reflexivity. Qed.

(** C9. After any sequence of analysis turns and SDK events, starting
    from the state the constructor leaves, the emotion history holds at
    most 10 readings; and the smoothed emotions are the current raw
    emotions when the history is empty, and otherwise, for each of the
    five smoothed components, the arithmetic mean of that component over
    exactly the readings in the history. *)
Theorem C9_history_bounded_smoothed_is_mean :
  forall (num : Type) (NUM : JSNumber num) (evs : list (MorphCast.Event num)),
    let s := MorphCast.run evs in
    (List.length (MorphCast.emotionHistory s) <= 10)%nat
    /\ match MorphCast.emotionHistory s with
       | [] => MorphCast.getSmoothedEmotions s = MorphCast.currentEmotions s
       | h =>
           MorphCast.happy (MorphCast.getSmoothedEmotions s)
             = MorphCast.mean (map MorphCast.happy h)
           /\ MorphCast.sad (MorphCast.getSmoothedEmotions s)
             = MorphCast.mean (map MorphCast.sad h)
           /\ MorphCast.angry (MorphCast.getSmoothedEmotions s)
             = MorphCast.mean (map MorphCast.angry h)
           /\ MorphCast.surprised (MorphCast.getSmoothedEmotions s)
             = MorphCast.mean (map MorphCast.surprised h)
           /\ MorphCast.neutral (MorphCast.getSmoothedEmotions s)
             = MorphCast.mean (map MorphCast.neutral h)
       end.
Proof.
  intros num NUM evs s. split.
  - apply (run_inv evs).
  - apply getSmoothedEmotions_mean.
Qed.

(** ** Selectors the scanners emit *)

Section SelectorFacts.
Import JS DOM Props Examples.

(** The escaping scanners on the button with a colon in its id. *)
Lemma simple_scan_loginPage :
  map Simple.domRef (fst (Simple.scan loginPage onScreen noSimpleOptions simpleClock Simple.initial))
    = [loginButton]
  /\ map Simple.selector
       (fst (Simple.scan loginPage onScreen noSimpleOptions simpleClock Simple.initial))
    = ["#login\:btn"]
  /\ CSS.querySelectorAll loginPage "#login\:btn" = Ok [loginButton].
Proof. vm_compute. repeat split. Qed.

Lemma robust_selector_loginPage :
  Robust.generateRobustSelector loginPage loginButton = Ok "#login\:btn".
Proof. vm_compute. reflexivity. Qed.

End SelectorFacts.

(** C1 (failing input). The efficient scanner returns the element
    [<div role="button">Save</div>] with a selector that demands an
    [aria-label] the element does not have: the selector parses, and
    resolves to nothing.  It returns the button whose test id contains
    double quotes with a selector in which they are not escaped: using
    that selector throws. *)
Theorem C1_efficient_selector_does_not_resolve :
  let scan doc :=
    fst (Efficient.scanPageElements doc Examples.onScreen Efficient.noOptions
           Examples.clock Efficient.initial) in
  let bySaveLabel :=
    "[role=" ++ CSS.quoted "button" ++ "][aria-label=" ++ CSS.quoted "Save" ++ "]" in
  let bySayHi := "[data-testid=" ++ CSS.quoted Examples.sayHi ++ "]" in
  Props.refsOf (scan Examples.roleButtonPage) = Some [[1; 0]%nat]
  /\ Props.selectorsOf (scan Examples.roleButtonPage) = Some [bySaveLabel]
  /\ CSS.querySelectorAll Examples.roleButtonPage bySaveLabel = JS.Ok []
  /\ Props.resolvesTo Examples.roleButtonPage bySaveLabel [1; 0]%nat = false
  /\ Props.refsOf (scan Examples.quotedTestIdPage) = Some [[1; 0]%nat]
  /\ Props.selectorsOf (scan Examples.quotedTestIdPage) = Some [bySayHi]
  /\ CSS.querySelectorAll Examples.quotedTestIdPage bySayHi = JS.Throw "SyntaxError".
Proof. vm_compute. repeat split. Qed.

(** C2 (failing input). Scanning the page that holds the one button
    [<button id="login:btn">] with the efficient scanner returns exactly
    that element, with the selector [#login:btn], in which the colon is
    not escaped; querying the document with it throws. *)
Theorem C2_efficient_selector_for_colon_id_throws :
  let scan :=
    fst (Efficient.scanPageElements Examples.loginPage Examples.onScreen
           Efficient.noOptions Examples.clock Efficient.initial) in
  Props.refsOf scan = Some [Examples.loginButton]
  /\ Props.selectorsOf scan = Some ["#login:btn"]
  /\ CSS.querySelectorAll Examples.loginPage "#login:btn" = JS.Throw "SyntaxError"
  /\ Props.resolvesTo Examples.loginPage "#login:btn" Examples.loginButton = false.
Proof. vm_compute. repeat split. Qed.

(** ** Visibility *)

Section VisibilityFacts.
Import DOM.

Lemma Qltb_lt (a b : Q) : Qltb a b = true <-> (a < b)%Q.
Proof.
  unfold Qltb. rewrite negb_true_iff. split.
  - intros H. apply Qnot_le_lt. intros Hle.
    apply Qle_bool_iff in Hle. congruence.
  - intros H. destruct (Qle_bool b a) eqn:E; [|reflexivity].
    apply Qle_bool_iff in E. exfalso. exact (Qlt_not_le _ _ H E).
Qed.

Lemma simple_isVisible_iff (host : Host) (rect : Rect) :
  Simple.isVisible host rect = true
  <-> (0 < width rect /\ 0 < height rect
       /\ top rect < innerHeight host /\ 0 < bottom rect)%Q.
Proof.
  unfold Simple.isVisible. rewrite !andb_true_iff, !Qltb_lt. tauto.
Qed.

Lemma robust_isVisible_iff (host : Host) (rect : Rect) :
  Robust.isVisible host rect = true
  <-> (0 < width rect /\ 0 < height rect
       /\ top rect < innerHeight host + 500 /\ - (500) < bottom rect)%Q.
Proof.
  unfold Robust.isVisible. rewrite !andb_true_iff, !Qltb_lt. tauto.
Qed.

(** The simple scanner keeps an element exactly when that test
    succeeds. *)
Lemma simple_extract_some_iff (doc : Node) (host : Host) (el : NodeRef) (i : nat) :
  (exists d, Simple.extractElementData doc host el i = Some d
             /\ Simple.visible d = true /\ Simple.domRef d = el)
  <-> Simple.isVisible host (getBoundingClientRect host el) = true.
Proof.
  unfold Simple.extractElementData, Simple.extractElementData_body.
  destruct (Simple.isVisible host (getBoundingClientRect host el)); cbn.
  - split; [reflexivity|]. intros _. eexists. repeat split.
  - split; [intros (d & H & _); discriminate | discriminate].
Qed.

(** The robust scanner records the outcome of its test in the
    [visible] field. *)
Lemma robust_extract_visible (doc : Node) (host : Host) (el : NodeRef) (i : nat)
                             (d : Robust.ElementData) :
  Robust.extractElementData doc host el i = Some d ->
  Robust.visible d = Robust.isVisible host (getBoundingClientRect host el).
Proof.
  unfold Robust.extractElementData, Robust.extractElementData_body.
  destruct (Robust.generateRobustSelector doc el); cbn; [|discriminate].
  intros H. injection H as <-. reflexivity.
Qed.

(** The efficient scanner records what the intersection observer
    reported. *)
Lemma efficient_processOne_visible (doc : Node) (host : Host) (config : Efficient.Config)
                                   (visibilityMap : NodeRef -> bool) (el : NodeRef) :
  Forall (fun d => Efficient.visible d = visibilityMap el)
         (Efficient.processOne doc host config visibilityMap el).
Proof.
  unfold Efficient.processOne, Efficient.extractElementData,
    Efficient.extractElementData_body.
  destruct (negb _ && negb _); [constructor|].
  destruct (Efficient.generateOptimalSelector doc el); cbn; constructor;
    [reflexivity|constructor].
Qed.

End VisibilityFacts.

(** ** Ranking *)

Section RankingFacts.
Import Efficient Props.

Lemma insert_by_priority_perm (d : ElementData) (l : list ElementData) :
  Permutation (insert_by_priority d l) (d :: l).
Proof.
  induction l as [|h tl IH]; cbn.
  - apply Permutation_refl.
  - destruct (comparePriority d h <=? 0).
    + apply Permutation_refl.
    + eapply perm_trans; [apply perm_skip, IH | apply perm_swap].
Qed.

Lemma prioritizeElements_perm (l : list ElementData) :
  Permutation (prioritizeElements l) l.
Proof.
  induction l as [|d l IH]; cbn.
  - apply perm_nil.
  - eapply perm_trans; [apply insert_by_priority_perm | apply perm_skip, IH].
Qed.

Lemma numeric_permutation (l l' : list ElementData) :
  Permutation l l' -> Forall numeric l -> Forall numeric l'.
Proof. intros Hp Hn. eapply Permutation_Forall; eassumption. Qed.

Lemma insert_by_priority_sorted (d : ElementData) (l : list ElementData) :
  numeric d -> Forall numeric l ->
  StronglySorted ranksBefore l ->
  StronglySorted ranksBefore (insert_by_priority d l).
Proof.
  intros [pd Hd].
  induction l as [|h tl IH]; intros Hn Hs; cbn.
  - constructor; constructor.
  - apply StronglySorted_inv in Hs. destruct Hs as [Htl Hh].
    pose proof (Forall_inv Hn) as [ph Hph]. apply Forall_inv_tail in Hn.
    unfold comparePriority. rewrite Hph, Hd.
    destruct (Z.leb_spec (ph - pd) 0) as [Hle|Hgt].
    + constructor; [constructor; assumption|].
      constructor; [unfold ranksBefore; rewrite Hph, Hd; cbn; lia|].
      eapply Forall_impl; [|exact Hh].
      unfold ranksBefore. rewrite Hph, Hd. intros x Hx.
      destruct (priority_score x); cbn in *; [lia | contradiction].
    + constructor; [apply IH; assumption|].
      eapply Permutation_Forall;
        [apply Permutation_sym, insert_by_priority_perm|].
      constructor; [unfold ranksBefore; rewrite Hph, Hd; cbn; lia | exact Hh].
Qed.

(** Where every priority is a number, the outcome is in descending
    order. *)
Lemma prioritizeElements_sorted (l : list ElementData) :
  Forall numeric l ->
  StronglySorted ranksBefore (prioritizeElements l).
Proof.
  induction l as [|d l IH]; intros Hn; cbn.
  - constructor.
  - apply insert_by_priority_sorted.
    + exact (Forall_inv Hn).
    + eapply numeric_permutation;
        [apply Permutation_sym, prioritizeElements_perm | exact (Forall_inv_tail Hn)].
    + apply IH, (Forall_inv_tail Hn).
Qed.

(** Inserting passes over strictly higher ranks only, so within its own
    rank the inserted element stays in front. *)
Lemma insert_by_priority_class (p : Z) (d : ElementData) (l : list ElementData) :
  filter (withPriority p) (insert_by_priority d l) = filter (withPriority p) (d :: l).
Proof.
  induction l as [|h tl IH]; cbn; [reflexivity|].
  destruct (Z.leb_spec (comparePriority d h) 0) as [Hle|Hgt].
  - reflexivity.
  - cbn. rewrite IH. cbn. unfold withPriority.
    unfold comparePriority in Hgt.
    destruct (priority_score h) as [ph|], (priority_score d) as [pd|];
      try lia; try reflexivity.
    destruct (Z.eqb_spec ph p) as [Hh|Hh];
      destruct (Z.eqb_spec pd p) as [Hd|Hd];
      try reflexivity; lia.
Qed.

Lemma prioritizeElements_stable (p : Z) (l : list ElementData) :
  filter (withPriority p) (prioritizeElements l) = filter (withPriority p) l.
Proof.
  induction l as [|d l IH]; [reflexivity|].
  change (prioritizeElements (d :: l))
    with (insert_by_priority d (prioritizeElements l)).
  rewrite insert_by_priority_class. cbn [filter]. rewrite IH. reflexivity.
Qed.

(** A scan that is not answered from the cache and has candidates
    answers their data, ranked. *)
Lemma fresh_scan_settles (doc : DOM.Node) (host : DOM.Host) (options : Options)
                         (clock : Clock) (s : Scanner) (elements : list DOM.NodeRef) :
  freshScan options clock s ->
  strategy doc (config_of options) = JS.Ok elements ->
  elements <> [] ->
  fst (scanPageElements doc host options clock s)
    = Settled (prioritizeElements (inDiscoveryOrder doc host options elements)).
Proof.
  unfold freshScan, scanPageElements. intros Hfresh Hstrategy Hne.
  rewrite Hfresh, Hstrategy.
  unfold processElements, batchVisibilityCheck.
  destruct elements as [|e es]; [congruence|reflexivity].
Qed.

(** With no candidate, the visibility check never settles, and neither
    does the scan. *)
Lemma fresh_scan_without_candidates (doc : DOM.Node) (host : DOM.Host) (options : Options)
                                    (clock : Clock) (s : Scanner) :
  freshScan options clock s ->
  strategy doc (config_of options) = JS.Ok [] ->
  fst (scanPageElements doc host options clock s) = Pending.
Proof.
  unfold freshScan, scanPageElements. intros Hfresh Hstrategy.
  rewrite Hfresh, Hstrategy. reflexivity.
Qed.

(** The simple scanner returns, in the order of collection, the
    collected elements that pass its visibility test. *)
Lemma simple_results_in_collection_order (doc : DOM.Node) (host : DOM.Host)
                                         (els : list DOM.NodeRef) :
  forall i,
    map Simple.domRef
        (Util.non_null (filter Simple.keep
           (Util.mapi_from i (Simple.extractElementData doc host) els)))
      = filter (fun el => Simple.isVisible host (DOM.getBoundingClientRect host el)) els.
Proof.
  induction els as [|el els IH]; intros i; [reflexivity|].
  cbn [Util.mapi_from filter].
  destruct (Simple.isVisible host (DOM.getBoundingClientRect host el)) eqn:Hvis.
  - destruct (proj2 (simple_extract_some_iff doc host el i) Hvis) as (d & Hd & Hv & Hr).
    rewrite Hd. cbn [Simple.keep]. rewrite Hv. cbn [Util.non_null map].
    rewrite Hr, IH. reflexivity.
  - destruct (Simple.extractElementData doc host el i) as [d|] eqn:Hd.
    + unfold Simple.extractElementData, Simple.extractElementData_body in Hd.
      rewrite Hvis in Hd. discriminate.
    + cbn [Simple.keep]. apply IH.
Qed.

Lemma not_descending_increasing (a b : Z) : a < b -> ~ descending [Num a; Num b].
Proof.
  intros Hlt Hs. apply StronglySorted_inv in Hs. destruct Hs as [_ Hf].
  apply Forall_inv in Hf. cbn in Hf. lia.
Qed.

(** NaN compares with nothing: two or more scores with a NaN among them
    are in descending order in no arrangement. *)
Lemma not_descending_nan (scores : list Score) :
  In NaN scores -> (2 <= List.length scores)%nat -> ~ descending scores.
Proof.
  intros Hin Hlen Hs. destruct scores as [|a [|b rest]]; cbn in Hlen; try lia.
  apply StronglySorted_inv in Hs. destruct Hs as [_ Hf].
  rewrite Forall_forall in Hf.
  destruct Hin as [->|Hin].
  - specialize (Hf b (or_introl eq_refl)). destruct b; exact Hf.
  - specialize (Hf NaN Hin). exact Hf.
Qed.

Lemma lower_char_not_upper (c : ascii) : Str.is_upper (Str.lower_char c) = false.
Proof. destruct c as [[] [] [] [] [] [] [] []]; reflexivity. Qed.

Lemma toLowerCase_not_upper (s : string) :
  Str.forallb_chars (fun c => negb (Str.is_upper c)) (Str.toLowerCase s) = true.
Proof.
  induction s as [|c s IH]; [reflexivity|].
  cbn. rewrite lower_char_not_upper. exact IH.
Qed.

Lemma toLowerCase_differs (s name : string) :
  Str.forallb_chars (fun c => negb (Str.is_upper c)) name = false ->
  String.eqb (Str.toLowerCase s) name = false.
Proof.
  intros Hname. destruct (String.eqb_spec (Str.toLowerCase s) name) as [E|]; [|reflexivity].
  rewrite <- E, toLowerCase_not_upper in Hname. discriminate Hname.
Qed.

(** The inherited property names that a tag name in lower case can be
    are [constructor] and [__proto__]: the others hold a capital. *)
Lemma inheritedName_names (doc : DOM.Node) (el : DOM.NodeRef) :
  inheritedName doc el
  = String.eqb (Str.toLowerCase (DOM.tagName doc el)) "constructor"
    || String.eqb (Str.toLowerCase (DOM.tagName doc el)) "__proto__".
Proof.
  unfold inheritedName, JS.objectPrototypeGet, JS.objectPrototypeMethods, JS.inb.
  cbn [existsb].
  repeat match goal with
         | |- context [String.eqb (Str.toLowerCase ?t) ?name] =>
             rewrite (toLowerCase_differs t name) by reflexivity
         end.
  destruct (String.eqb _ "constructor"); [reflexivity|].
  cbn [orb]. destruct (String.eqb _ "__proto__"); reflexivity.
Qed.

Lemma tagScore_number (tag : string) :
  JS.truthy (JS.objectPrototypeGet tag) = false -> exists n, tagScore tag = Some n.
Proof.
  intros H. unfold tagScore. destruct (JS.assoc tag tagScores); [eexists; reflexivity|].
  rewrite H. eexists; reflexivity.
Qed.

(** Where the tag name is not an inherited property name, the priority
    is a number. *)
Lemma rankOf_number (doc : DOM.Node) (el : DOM.NodeRef) :
  inheritedName doc el = false ->
  exists score,
    scoreBeforePenalty doc el (Str.toLowerCase (DOM.tagName doc el))
      (Util.string_or (DOM.getAttribute doc el "role") (inferRole doc el)) = Some score
    /\ rankOf doc el
       = Num (Z.max 0 (if isNestedInteractive doc el then score - 2 else score)).
Proof.
  intros H. destruct (tagScore_number _ H) as [n Hn].
  unfold rankOf, calculatePriority, scoreBeforePenalty. rewrite Hn.
  eexists. split; reflexivity.
Qed.

Lemma processOne_rank (doc : DOM.Node) (host : DOM.Host) (config : Config)
                      (visibilityMap : DOM.NodeRef -> bool) (el : DOM.NodeRef) :
  Forall (fun d => priority_score d = rankOf doc el)
         (processOne doc host config visibilityMap el).
Proof.
  unfold processOne.
  destruct (negb (cfg_includeInvisible config) && negb (visibilityMap el));
    [constructor|].
  unfold extractElementData, extractElementData_body.
  destruct (generateOptimalSelector doc el); cbn [JS.bind JS.ret]; constructor;
    [reflexivity | constructor].
Qed.

Lemma inDiscoveryOrder_numeric (doc : DOM.Node) (host : DOM.Host) (options : Options)
                               (elements : list DOM.NodeRef) :
  tagsHaveScores doc elements = true ->
  Forall numeric (inDiscoveryOrder doc host options elements).
Proof.
  unfold tagsHaveScores, inDiscoveryOrder. intros H.
  rewrite forallb_forall in H. apply Forall_forall. intros d Hd.
  apply in_flat_map in Hd. destruct Hd as (el & Hel & Hd).
  specialize (H el Hel). apply Bool.negb_true_iff in H.
  pose proof (processOne_rank doc host (config_of options)
                (fun el => match DOM.isIntersecting host el with
                           | Some b => b
                           | None => false
                           end) el) as Hr.
  rewrite Forall_forall in Hr. specialize (Hr d Hd).
  destruct (rankOf_number doc el H) as (score & _ & Hn).
  eexists. rewrite Hr. exact Hn.
Qed.

End RankingFacts.

(** ** What the scanners record as visible *)

Section VisibilityResults.
Import DOM Efficient.

Lemma processOne_observed (doc : Node) (host : Host) (config : Config)
                          (visibilityMap : NodeRef -> bool) (el : NodeRef) :
  Forall (fun d => visible d = visibilityMap (elementRef d)
                   /\ (cfg_includeInvisible config = false -> visible d = true))
         (processOne doc host config visibilityMap el).
Proof.
  unfold processOne.
  destruct (cfg_includeInvisible config) eqn:Hinc, (visibilityMap el) eqn:Hv;
    cbn [negb andb]; try (constructor; fail);
    unfold extractElementData, extractElementData_body;
    (destruct (generateOptimalSelector doc el); cbn [JS.bind JS.ret];
     [|constructor]);
    (constructor; [|constructor]); cbn [visible elementRef]; rewrite Hv;
    (split; [reflexivity|]); intros H; try reflexivity; discriminate H.
Qed.

(** [processElements] answers, for a list of elements that is not
    empty, data whose [visible] field is what the observer reported for
    the element, an element without a report counting as not visible. *)
Lemma processElements_observed (doc : Node) (host : Host) (elements : list NodeRef)
                               (config : Config) :
  elements <> [] ->
  exists visibilityMap ranked,
    batchVisibilityCheck host elements = Settled visibilityMap
    /\ (forall e, visibilityMap e = true <-> isIntersecting host e = Some true)
    /\ processElements doc host elements config = Settled ranked
    /\ Forall (fun d => visible d = true
                        <-> isIntersecting host (elementRef d) = Some true) ranked
    /\ (cfg_includeInvisible config = false -> Forall (fun d => visible d = true) ranked).
Proof.
  intros Hne. unfold processElements, batchVisibilityCheck.
  destruct elements as [|e es]; [congruence|].
  set (observed := fun el => match isIntersecting host el with
                             | Some b => b
                             | None => false
                             end).
  assert (Hobs : forall x, observed x = true <-> isIntersecting host x = Some true).
  { intros x. unfold observed. destruct (isIntersecting host x) as [[|]|];
      split; intros H; try reflexivity; discriminate H. }
  exists observed. eexists. split; [reflexivity|]. split; [exact Hobs|].
  split; [reflexivity|].
  assert (Hall : Forall (fun d => visible d = observed (elementRef d)
                                  /\ (cfg_includeInvisible config = false
                                      -> visible d = true))
                        (flat_map (processOne doc host config observed) (e :: es))).
  { apply Forall_forall. intros d Hd. apply in_flat_map in Hd.
    destruct Hd as (el & _ & Hd).
    pose proof (processOne_observed doc host config observed el) as Hp.
    rewrite Forall_forall in Hp. exact (Hp d Hd). }
  split.
  - eapply Permutation_Forall; [apply Permutation_sym, prioritizeElements_perm|].
    eapply Forall_impl; [|exact Hall]. cbv beta. intros d [Hd _].
    rewrite Hd. apply Hobs.
  - intros Hinc.
    eapply Permutation_Forall; [apply Permutation_sym, prioritizeElements_perm|].
    eapply Forall_impl; [|exact Hall]. cbv beta. intros d [_ Hd]. exact (Hd Hinc).
Qed.

End VisibilityResults.

(** C8 (counterexample). A button of positive size that lies level with
    the viewport but 5000 pixels to its right does not intersect it,
    with or without the 500 pixel margin; [extractElementData] of the
    simple scanner and of the robust scanner record it as visible.  The
    intersection observer reporting it as not intersecting, the
    efficient scanner holds it to be invisible. *)
Lemma C8_counterexample_box_beside_viewport :
  DOM.getBoundingClientRect Examples.besideViewport Examples.loginButton = Examples.farRight
  /\ ~ Props.specVisible Examples.besideViewport 0 Examples.farRight
  /\ ~ Props.specVisible Examples.besideViewport 500 Examples.farRight
  /\ option_map Simple.visible
       (Simple.extractElementData Examples.loginPage Examples.besideViewport
          Examples.loginButton 0) = Some true
  /\ option_map Robust.visible
       (Robust.extractElementData Examples.loginPage Examples.besideViewport
          Examples.loginButton 0) = Some true
  /\ (exists visibilityMap,
        Efficient.batchVisibilityCheck Examples.besideViewport [Examples.loginButton]
          = Efficient.Settled visibilityMap
        /\ visibilityMap Examples.loginButton = false).
Proof.
  split; [reflexivity|]. split.
  - intros (_ & _ & H & _). vm_compute in H. discriminate.
  - split; [intros (_ & _ & H & _); vm_compute in H; discriminate|].
    split; [vm_compute; reflexivity|].
    split; [vm_compute; reflexivity|].
    eexists. split; reflexivity.
Qed.

(** C8 (amended). [extractElementData] of the simple scanner answers
    data for an element, and records it as visible, exactly when its
    bounding box has positive width and height and overlaps the
    vertical extent of the viewport ([top < innerHeight] and
    [bottom > 0]); [extractElementData] of the robust scanner records
    an element as visible exactly when the same holds with the extent
    widened by 500 pixels above and below.  Neither looks at the
    horizontal position.  The efficient scanner measures nothing
    itself: [batchVisibilityCheck] answers, for each element, whether
    the intersection observer reported it as intersecting, and that is
    what the data of [processElements] record; unless [includeInvisible]
    is set, only elements so reported are kept. *)
Theorem C8_visible_iff_positive_size_and_vertical_overlap :
  forall (doc : DOM.Node) (host : DOM.Host) (el : DOM.NodeRef) (index : nat),
    ((exists d, Simple.extractElementData doc host el index = Some d
                /\ Simple.visible d = true /\ Simple.domRef d = el)
     <-> (0 < DOM.width (DOM.getBoundingClientRect host el)
          /\ 0 < DOM.height (DOM.getBoundingClientRect host el)
          /\ DOM.top (DOM.getBoundingClientRect host el) < DOM.innerHeight host
          /\ 0 < DOM.bottom (DOM.getBoundingClientRect host el))%Q)
    /\ (forall d, Simple.extractElementData doc host el index = Some d ->
                  Simple.visible d = true)
    /\ (forall d, Robust.extractElementData doc host el index = Some d ->
          (Robust.visible d = true
           <-> (0 < DOM.width (DOM.getBoundingClientRect host el)
                /\ 0 < DOM.height (DOM.getBoundingClientRect host el)
                /\ DOM.top (DOM.getBoundingClientRect host el) < DOM.innerHeight host + 500
                /\ - (500) < DOM.bottom (DOM.getBoundingClientRect host el))%Q))
    /\ (forall elements config,
          elements <> [] ->
          exists visibilityMap ranked,
            Efficient.batchVisibilityCheck host elements = Efficient.Settled visibilityMap
            /\ (forall e, visibilityMap e = true <-> DOM.isIntersecting host e = Some true)
            /\ Efficient.processElements doc host elements config
               = Efficient.Settled ranked
            /\ Forall (fun d => Efficient.visible d = true
                                <-> DOM.isIntersecting host (Efficient.elementRef d)
                                    = Some true) ranked
            /\ (Efficient.cfg_includeInvisible config = false ->
                Forall (fun d => Efficient.visible d = true) ranked)).
Proof.
  intros doc host el index.
  split.
  { rewrite simple_extract_some_iff. apply simple_isVisible_iff. }
  split.
  { intros d Hd.
    destruct (Simple.isVisible host (DOM.getBoundingClientRect host el)) eqn:Hvis.
    - destruct (proj2 (simple_extract_some_iff doc host el index) Hvis)
        as (d' & Hd' & Hv & _).
      rewrite Hd in Hd'. injection Hd' as <-. exact Hv.
    - unfold Simple.extractElementData, Simple.extractElementData_body in Hd.
      rewrite Hvis in Hd. discriminate Hd. }
  split.
  { intros d Hd. rewrite (robust_extract_visible doc host el index d Hd).
    apply robust_isVisible_iff. }
  intros elements config. apply processElements_observed.
Qed.




(** ** Nested interactive elements *)

Section NestingFacts.
Import JS DOM Efficient Props.

Lemma processOne_visible (doc : Node) (host : Host) (config : Config)
                         (visibilityMap : NodeRef -> bool) (el : NodeRef)
                         (sel : string) :
  visibilityMap el = true ->
  generateOptimalSelector doc el = Ok sel ->
  exists d,
    processOne doc host config visibilityMap el = [d]
    /\ elementRef d = el
    /\ visible d = true
    /\ selector d = sel
    /\ isNested (metadata d) = isNestedInteractive doc el
    /\ priority_score d = rankOf doc el.
Proof.
  intros Hvis Hsel. unfold processOne, extractElementData, extractElementData_body.
  rewrite Hvis, Hsel, andb_false_r. cbn [bind ret].
  eexists. split; [reflexivity|]. repeat split.
Qed.

Lemma simple_results_keep (doc : Node) (host : Host) (els : list NodeRef) (el : NodeRef) :
  forall i,
    In el els ->
    Simple.isVisible host (getBoundingClientRect host el) = true ->
    In el (map Simple.domRef
             (Util.non_null (filter Simple.keep
                (Util.mapi_from i (Simple.extractElementData doc host) els)))).
Proof.
  induction els as [|e es IH]; intros i Hin Hvis; [contradiction|].
  cbn [Util.mapi_from filter].
  destruct Hin as [->|Hin].
  - destruct (proj2 (simple_extract_some_iff doc host el i) Hvis) as (d & Hd & Hv & Hr).
    rewrite Hd. cbn [Simple.keep]. rewrite Hv. cbn. left. exact Hr.
  - specialize (IH (S i) Hin Hvis).
    destruct (Simple.keep (Simple.extractElementData doc host e i)) eqn:Hk; [|exact IH].
    destruct (Simple.extractElementData doc host e i); [|discriminate].
    cbn. right. exact IH.
Qed.

End NestingFacts.




(** ** The cap on the number of elements *)

Section CapFacts.
Import JS DOM Util Props.

Lemma simple_visit_bound (cap : Z) (acc : Simple.Collected) (el : NodeRef) :
  len (Simple.elements acc) <= Z.max 0 cap ->
  len (Simple.elements (Simple.visit cap acc el)) <= Z.max 0 cap.
Proof.
  intros Hacc. unfold Simple.visit.
  destruct (negb (mem el (Simple.seenElements acc))); cbn [andb]; [|exact Hacc].
  destruct (Z.ltb_spec (len (Simple.elements acc)) cap) as [Hlt|Hge]; [|exact Hacc].
  cbn [Simple.elements]. unfold len in *. rewrite length_app. cbn [List.length]. lia.
Qed.

Lemma simple_visit_all_bound (cap : Z) (found : list NodeRef) :
  forall acc,
    len (Simple.elements acc) <= Z.max 0 cap ->
    len (Simple.elements (fold_left (Simple.visit cap) found acc)) <= Z.max 0 cap.
Proof.
  induction found as [|el found IH]; intros acc Hacc; cbn [fold_left].
  - exact Hacc.
  - apply IH, simple_visit_bound, Hacc.
Qed.

Lemma simple_collect_from_bound (doc : Node) (cap : Z) (sels : list string) :
  forall acc,
    len (Simple.elements acc) <= Z.max 0 cap ->
    len (Simple.elements (fold_left (Simple.visit_selector doc cap) sels acc))
      <= Z.max 0 cap.
Proof.
  induction sels as [|sel sels IH]; intros acc Hacc; cbn [fold_left].
  - exact Hacc.
  - apply IH. unfold Simple.visit_selector.
    destruct (CSS.querySelectorAll doc sel); [|exact Hacc].
    apply simple_visit_all_bound, Hacc.
Qed.

Lemma simple_collect_bound (doc : Node) (cap : Z) :
  len (Simple.elements (Simple.collect doc cap)) <= Z.max 0 cap.
Proof.
  apply simple_collect_from_bound. cbn. lia.
Qed.

Lemma non_null_length {A} (l : list (option A)) :
  (List.length (non_null l) <= List.length l)%nat.
Proof.
  induction l as [|[x|] l IH]; cbn; lia.
Qed.

Lemma mapi_from_length {A B} (f : A -> nat -> B) (l : list A) :
  forall i, List.length (mapi_from i f l) = List.length l.
Proof.
  induction l as [|x l IH]; intros i; cbn; [reflexivity|].
  rewrite IH. reflexivity.
Qed.

Lemma simple_results_length (doc : Node) (host : Host) (els : list NodeRef) :
  len (non_null (filter Simple.keep (mapi (Simple.extractElementData doc host) els)))
    <= len els.
Proof.
  unfold len, mapi.
  pose proof (non_null_length
                (filter Simple.keep (mapi_from 0 (Simple.extractElementData doc host) els))).
  pose proof (filter_length_le Simple.keep
                (mapi_from 0 (Simple.extractElementData doc host) els)).
  pose proof (mapi_from_length (Simple.extractElementData doc host) els 0).
  lia.
Qed.

Lemma simple_fresh_scan_bound (doc : Node) (host : Host) (o : Simple.Options)
                              (c : Simple.Clock) (s : Simple.Scanner) :
  Simple.cacheWanted o && Simple.isCacheValid s (Simple.now_check c) = false ->
  len (fst (Simple.scan doc host o c s)) <= Z.max 0 (Simple.effectiveMax o).
Proof.
  intros Hmiss. unfold Simple.scan. rewrite Hmiss. cbn [fst].
  pose proof (simple_results_length doc host
                (Simple.elements (Simple.collect doc (Simple.effectiveMax o)))).
  pose proof (simple_collect_bound doc (Simple.effectiveMax o)).
  lia.
Qed.

Lemma firstn_len {A} (n : Z) (l : list A) :
  0 <= n -> len (firstn (Z.to_nat n) l) <= n.
Proof.
  intros Hn. unfold len. pose proof (firstn_le_length (Z.to_nat n) l).
  rewrite length_firstn. lia.
Qed.

Lemma slice0_len {A} (n : Z) (l : list A) :
  0 <= n -> len (slice0 n l) <= n.
Proof.
  intros Hn. unfold slice0.
  destruct (Z.ltb_spec n 0); [lia|]. apply firstn_len, Hn.
Qed.

Lemma strategy_len (doc : Node) (options : Efficient.Options) (n : Z)
                   (elements : list NodeRef) :
  Efficient.maxElements options = Some n ->
  0 <= n ->
  Efficient.strategy doc (Efficient.config_of options) = Ok elements ->
  len elements <= n.
Proof.
  intros Hmax Hn.
  unfold Efficient.strategy.
  destruct (String.eqb _ "speed").
  - unfold Efficient.fastScan. destruct (body doc); [|discriminate].
    cbn [ret]. intros H. injection H as <-.
    cbn [Efficient.config_of Efficient.cfg_maxElements]. rewrite Hmax.
    apply firstn_len, Hn.
  - destruct (String.eqb _ "accuracy").
    + unfold Efficient.accurateScan.
      destruct (CSS.querySelectorAll doc _); cbn [bind]; [|discriminate].
      match goal with
      | |- context [bind ?m _] => destruct m; cbn [bind ret]; [|discriminate]
      end.
      intros H. injection H as <-.
      cbn [Efficient.config_of Efficient.cfg_maxElements]. rewrite Hmax.
      apply slice0_len, Hn.
    + unfold Efficient.balancedScan.
      destruct (CSS.querySelectorAll doc Efficient.primarySelectors);
        cbn [bind]; [|discriminate].
      match goal with
      | |- context [bind ?m _] => destruct m; cbn [bind ret]; [|discriminate]
      end.
      intros H. injection H as <-.
      cbn [Efficient.config_of Efficient.cfg_maxElements]. rewrite Hmax.
      apply slice0_len, Hn.
Qed.

Lemma processOne_length (doc : Node) (host : Host) (config : Efficient.Config)
                        (visibilityMap : NodeRef -> bool) (el : NodeRef) :
  (List.length (Efficient.processOne doc host config visibilityMap el) <= 1)%nat.
Proof.
  unfold Efficient.processOne.
  destruct (negb _ && negb _); [cbn; lia|].
  destruct (Efficient.extractElementData doc host el (visibilityMap el)); cbn; lia.
Qed.

Lemma inDiscoveryOrder_len (doc : Node) (host : Host) (options : Efficient.Options)
                           (elements : list NodeRef) :
  len (inDiscoveryOrder doc host options elements) <= len elements.
Proof.
  unfold inDiscoveryOrder, len.
  induction elements as [|el els IH]; cbn [flat_map List.length]; [lia|].
  rewrite length_app.
  pose proof (processOne_length doc host (Efficient.config_of options)
                (fun e => match isIntersecting host e with
                          | Some b => b
                          | None => false
                          end) el).
  lia.
Qed.

End CapFacts.

(** C4 (counterexample). Asked for [maxElements = 0], the simple scanner
    falls back to its default of 100 and returns the button of the
    page.  And a scan answered from the cache returns what the cache
    holds, whatever its own cap: after a scan of the page with 150
    buttons with [maxElements = 100], a scan of the simple scanner with
    [maxElements = 5] one second later returns 100 elements; after a
    scan of a page with four candidates, a scan of the efficient
    scanner with [maxElements = 2] one second later returns 4. *)
Lemma C4_counterexample_zero_cap_not_empty :
  Simple.effectiveMax (Simple.mkOptions (Some 0) None) = 100
  /\ map Simple.domRef
       (fst (Simple.scan Examples.loginPage Examples.onScreen
               (Simple.mkOptions (Some 0) None) Examples.simpleClock Simple.initial))
     = [Examples.loginButton]
  /\ fst (Simple.scan Examples.loginPage Examples.onScreen
            (Simple.mkOptions (Some 0) None) Examples.simpleClock Simple.initial)
     <> []
  /\ (let (first, scanner) :=
        Simple.scan Examples.manyButtonsPage Examples.onScreen
          (Simple.mkOptions (Some 100) None) Examples.simpleClock Simple.initial in
      Simple.cacheWanted (Simple.mkOptions (Some 5) None)
        && Simple.isCacheValid scanner (Simple.now_check Examples.simpleClockLater) = true
      /\ Simple.effectiveMax (Simple.mkOptions (Some 5) None) = 5
      /\ Util.len (fst (Simple.scan Examples.manyButtonsPage Examples.onScreen
                          (Simple.mkOptions (Some 5) None)
                          Examples.simpleClockLater scanner)) = 100)
  /\ (let (first, scanner) :=
        Efficient.scanPageElements Examples.unrankedPage Examples.onScreen
          (Examples.capped 100) Examples.clock Efficient.initial in
      Efficient.cfg_useCache (Efficient.config_of (Examples.capped 2))
        && Efficient.isCacheValid scanner (Efficient.now_check Examples.clockLater) = true
      /\ Efficient.maxElements (Examples.capped 2) = Some 2
      /\ option_map Util.len
           (Props.settled
              (fst (Efficient.scanPageElements Examples.unrankedPage Examples.onScreen
                      (Examples.capped 2) Examples.clockLater scanner)))
         = Some 4).
Proof. vm_compute. repeat split. intros H; discriminate H. Qed.

(** C4 (amended). A scan that is not answered from the cache returns at
    most as many elements as its cap: for the simple scanner the cap is
    [maxElements] when that is a non-zero number and 100 when it is 0
    or absent; for the efficient scanner, when candidates were found,
    it is a [maxElements] above 0.  The page with 150 buttons, all on
    screen, scanned with [maxElements = 100], yields exactly 100
    elements in both scanners. *)
Theorem C4_fresh_scan_returns_at_most_cap :
  forall (doc : DOM.Node) (host : DOM.Host)
         (simpleOptions : Simple.Options) (simpleClock : Simple.Clock)
         (simpleScanner : Simple.Scanner)
         (options : Efficient.Options) (clock : Efficient.Clock) (s : Efficient.Scanner)
         (n : Z) (elements : list DOM.NodeRef),
    Simple.cacheWanted simpleOptions
      && Simple.isCacheValid simpleScanner (Simple.now_check simpleClock) = false ->
    Efficient.maxElements options = Some n ->
    0 < n ->
    Props.freshScan options clock s ->
    Efficient.strategy doc (Efficient.config_of options) = JS.Ok elements ->
    elements <> [] ->
    Util.len (fst (Simple.scan doc host simpleOptions simpleClock simpleScanner))
      <= Z.max 0 (match Simple.maxElements simpleOptions with
                  | Some m => if m =? 0 then 100 else m
                  | None => 100
                  end)
    /\ (exists ranked,
          fst (Efficient.scanPageElements doc host options clock s)
            = Efficient.Settled ranked
          /\ Util.len ranked <= n)
    /\ Util.len (fst (Simple.scan Examples.manyButtonsPage Examples.onScreen
                        (Simple.mkOptions (Some 100) None)
                        Examples.simpleClock Simple.initial)) = 100
    /\ option_map Util.len
         (Props.settled
            (fst (Efficient.scanPageElements Examples.manyButtonsPage Examples.onScreen
                    (Examples.capped 100) Examples.clock Efficient.initial)))
       = Some 100.
Proof.
  intros doc host so sc ss options clock s n elements
         Hmiss Hmax Hn Hfresh Hstrategy Hne.
  split; [apply (simple_fresh_scan_bound doc host so sc ss Hmiss)|].
  split.
  - eexists. split;
      [apply (fresh_scan_settles doc host options clock s elements); assumption|].
    pose proof (Permutation_length
                  (prioritizeElements_perm (Props.inDiscoveryOrder doc host options elements)))
      as Hperm.
    pose proof (inDiscoveryOrder_len doc host options elements) as Hlen.
    assert (Hn' : 0 <= n) by lia.
    pose proof (strategy_len doc options n elements Hmax Hn' Hstrategy) as Hcap.
    unfold Util.len in *. lia.
  - split; vm_compute; reflexivity.
Qed.

(** The button with a link inside, two candidates, scanned with a cap
    of 1: each scanner answers the button alone. *)
Lemma C4_fresh_scan_returns_at_most_cap_witness :
  (Simple.cacheWanted (Simple.mkOptions (Some 1) None)
     && Simple.isCacheValid Simple.initial (Simple.now_check Examples.simpleClock) = false
   /\ Efficient.maxElements (Examples.capped 1) = Some 1
   /\ 0 < 1
   /\ Props.freshScan (Examples.capped 1) Examples.clock Efficient.initial
   /\ Efficient.strategy Examples.nestedPage (Efficient.config_of (Examples.capped 1))
        = JS.Ok [Examples.outerButton]
   /\ [Examples.outerButton] <> [])
  /\ (Efficient.strategy Examples.nestedPage (Efficient.config_of Efficient.noOptions)
        = JS.Ok [Examples.outerButton; Examples.innerAnchor]
      /\ Simple.elements (Simple.collect Examples.nestedPage
                            (Simple.effectiveMax Examples.noSimpleOptions))
        = [Examples.outerButton; Examples.innerAnchor]
      /\ map Simple.domRef
           (fst (Simple.scan Examples.nestedPage Examples.onScreen
                   (Simple.mkOptions (Some 1) None) Examples.simpleClock Simple.initial))
         = [Examples.outerButton]
      /\ Props.refsOf
           (fst (Efficient.scanPageElements Examples.nestedPage Examples.onScreen
                   (Examples.capped 1) Examples.clock Efficient.initial))
         = Some [Examples.outerButton])
  /\ Util.len (fst (Simple.scan Examples.nestedPage Examples.onScreen
                      (Simple.mkOptions (Some 1) None) Examples.simpleClock Simple.initial))
       <= Z.max 0 1
  /\ exists ranked,
       fst (Efficient.scanPageElements Examples.nestedPage Examples.onScreen
              (Examples.capped 1) Examples.clock Efficient.initial)
         = Efficient.Settled ranked
       /\ Util.len ranked <= 1.
Proof.
  assert (H1 : Simple.cacheWanted (Simple.mkOptions (Some 1) None)
                 && Simple.isCacheValid Simple.initial (Simple.now_check Examples.simpleClock)
               = false) by reflexivity.
  assert (H2 : Efficient.maxElements (Examples.capped 1) = Some 1) by reflexivity.
  assert (H3 : 0 < 1) by lia.
  assert (H4 : Props.freshScan (Examples.capped 1) Examples.clock Efficient.initial)
    by (vm_compute; reflexivity).
  assert (H5 : Efficient.strategy Examples.nestedPage (Efficient.config_of (Examples.capped 1))
               = JS.Ok [Examples.outerButton]) by (vm_compute; reflexivity).
  assert (H6 : [Examples.outerButton] <> []) by discriminate.
  split; [repeat split; assumption|].
  split; [vm_compute; repeat split|].
  destruct (C4_fresh_scan_returns_at_most_cap
              Examples.nestedPage Examples.onScreen
              (Simple.mkOptions (Some 1) None) Examples.simpleClock Simple.initial
              (Examples.capped 1) Examples.clock Efficient.initial
              1 [Examples.outerButton] H1 H2 H3 H4 H5 H6) as (Hsimple & Hefficient & _).
  split; [exact Hsimple | exact Hefficient].
Defined.

(** ** The cache *)

Section CacheFacts.
Import JS DOM Util Efficient Props.

Lemma map_set_fresh {V} (k : string) (v : V) (m : list (string * V)) :
  ~ In k (map fst m) -> map_set k v m = (m ++ [(k, v)])%list.
Proof.
  induction m as [|[k' v'] m IH]; intros Hfresh; cbn; [reflexivity|].
  destruct (String.eqb_spec k' k) as [->|Hne].
  - exfalso. apply Hfresh. left. reflexivity.
  - rewrite IH; [reflexivity|]. intros Hin. apply Hfresh. right. exact Hin.
Qed.

Lemma fill_cache (l : list ElementData) :
  forall acc,
    NoDup (map fst acc ++ map id l)%list ->
    fold_left (fun m el => map_set (id el) el m) l acc = (acc ++ map entry l)%list.
Proof.
  induction l as [|el l IH]; intros acc Hnd; cbn [fold_left map].
  - rewrite app_nil_r. reflexivity.
  - cbn [map] in Hnd.
    rewrite map_set_fresh.
    + rewrite IH.
      * rewrite <- app_assoc. reflexivity.
      * rewrite map_app. cbn [map fst]. rewrite <- app_assoc. exact Hnd.
    + apply NoDup_remove_2 in Hnd. intros Hin. apply Hnd.
      apply in_or_app. left. exact Hin.
Qed.

Lemma cache_of_distinct_ids (l : list ElementData) (now : Z) (s : Scanner) :
  NoDup (map id l) ->
  cache (updateCache l now s) = map entry l.
Proof.
  intros Hnd. unfold updateCache. cbn [cache].
  rewrite fill_cache; [reflexivity | exact Hnd].
Qed.

Lemma values_of_entries (l : list ElementData) : map_values (map entry l) = l.
Proof.
  unfold map_values. rewrite map_map. cbn. apply map_id.
Qed.

Lemma simple_scan_caches (doc : Node) (host : Host) (o : Simple.Options)
                         (c : Simple.Clock) (s : Simple.Scanner) :
  Simple.cache (snd (Simple.scan doc host o c s))
    = Some (fst (Simple.scan doc host o c s)).
Proof.
  unfold Simple.scan.
  destruct (Simple.cacheWanted o && Simple.isCacheValid s (Simple.now_check c)) eqn:Hhit.
  - apply andb_true_iff in Hhit. destruct Hhit as [_ Hvalid].
    unfold Simple.isCacheValid in Hvalid.
    destruct (Simple.cache s) eqn:Hc; [|discriminate].
    cbn. exact Hc.
  - reflexivity.
Qed.

Lemma simple_cache_hit (doc : Node) (host : Host) (o : Simple.Options)
                       (c : Simple.Clock) (s : Simple.Scanner)
                       (stored : list Simple.ElementData) :
  Simple.cache s = Some stored ->
  Simple.cacheWanted o = true ->
  Simple.now_check c - Simple.cacheTime s < Simple.CACHE_LIFETIME ->
  Simple.scan doc host o c s = (stored, s).
Proof.
  intros Hc Hwanted Hfresh. unfold Simple.scan, Simple.isCacheValid.
  rewrite Hwanted, Hc. cbn [andb].
  destruct (Z.ltb_spec (Simple.now_check c - Simple.cacheTime s) Simple.CACHE_LIFETIME);
    [reflexivity|lia].
Qed.

Lemma efficient_cache_hit (doc : Node) (host : Host) (o : Options)
                          (c : Clock) (s : Scanner) :
  cfg_useCache (config_of o) = true ->
  now_check c - lastScanTimestamp s < 5000 ->
  cache s <> [] ->
  scanPageElements doc host o c s = (Settled (map_values (cache s)), countHit s).
Proof.
  intros Huse Htime Hne. unfold scanPageElements, isCacheValid.
  rewrite Huse. cbn [andb].
  destruct (Z.ltb_spec (now_check c - lastScanTimestamp s) 5000); [|lia].
  cbn [andb].
  destruct (Z.ltb_spec 0 (len (cache s))) as [_|Hz]; [reflexivity|].
  destruct (cache s); [congruence|]. unfold len in Hz. cbn [List.length] in Hz. lia.
Qed.

End CacheFacts.

(** C3 (counterexample). With the efficient scanner: when the only
    candidate is scrolled out of view the first scan answers the empty
    sequence, and the second scan, within the lifetime, is not a cache
    hit; when two buttons get the same element id the first scan answers
    two elements and the second, a cache hit, answers one. *)
Lemma C3_counterexample_second_scan_differs :
  (let '(first, second, hit) :=
     Props.secondScan Examples.loginPage Examples.scrolledAway Efficient.noOptions
       Examples.clock Examples.clockLater Efficient.initial in
   Props.settled first = Some [] /\ Props.settled second = Some [] /\ hit = false)
  /\ (let '(first, second, hit) :=
        Props.secondScan Examples.twinButtonsPage Examples.onScreen Efficient.noOptions
          Examples.clock Examples.clockLater Efficient.initial in
      Props.refsOf first = Some [[1; 0]; [1; 1]]%nat
      /\ Props.refsOf second = Some [[1; 1]]%nat
      /\ Props.refsOf second <> Props.refsOf first
      /\ hit = true)
  /\ Efficient.now_check Examples.clockLater - Efficient.now_store Examples.clock < 5000.
Proof. vm_compute. repeat split; intros H; discriminate H. Qed.

(** C3 (amended). A scan with [useCache] enabled that follows another
    scan within the cache lifetime is a cache hit that returns what the
    first scan returned and leaves the cache as it was: always for the
    simple scanner; for the efficient scanner provided the first scan
    returned at least one element and the ids of its elements are
    pairwise distinct.  A cache that the efficient scanner filled with
    the empty sequence is never valid. *)
Theorem C3_second_scan_returns_stored_result :
  forall (doc : DOM.Node) (host : DOM.Host)
         (simpleFirst simpleSecond : Simple.Options)
         (simpleClock1 simpleClock2 : Simple.Clock) (simpleScanner : Simple.Scanner)
         (first second : Efficient.Options) (clock1 clock2 : Efficient.Clock)
         (s s1 : Efficient.Scanner) (returned : list Efficient.ElementData),
    Simple.cacheWanted simpleSecond = true ->
    Simple.now_check simpleClock2
      - Simple.cacheTime (snd (Simple.scan doc host simpleFirst simpleClock1 simpleScanner))
      < 3000 ->
    Efficient.scanPageElements doc host first clock1 s = (Efficient.Settled returned, s1) ->
    returned <> [] ->
    NoDup (map Efficient.id returned) ->
    Efficient.cfg_useCache (Efficient.config_of second) = true ->
    Efficient.now_check clock2 - Efficient.lastScanTimestamp s1 < 5000 ->
    Simple.scan doc host simpleSecond simpleClock2
      (snd (Simple.scan doc host simpleFirst simpleClock1 simpleScanner))
      = Simple.scan doc host simpleFirst simpleClock1 simpleScanner
    /\ Efficient.scanPageElements doc host second clock2 s1
       = (Efficient.Settled returned, Efficient.countHit s1)
    /\ (forall stored now,
          Efficient.isCacheValid (Efficient.updateCache [] stored s) now = false).
Proof.
  intros doc host so1 so2 sc1 sc2 ss first second clock1 clock2 s s1 returned
         Hwanted Hsimple Hscan Hne Hnd Huse Htime.
  split; [|split;
           [|intros stored now; unfold Efficient.isCacheValid; cbn;
             apply andb_false_r]].
  - rewrite (simple_cache_hit doc host so2 sc2 _ _
               (simple_scan_caches doc host so1 sc1 ss) Hwanted Hsimple).
    destruct (Simple.scan doc host so1 sc1 ss); reflexivity.
  - unfold Efficient.scanPageElements in Hscan.
    destruct (Efficient.cfg_useCache (Efficient.config_of first)
              && Efficient.isCacheValid s (Efficient.now_check clock1)).
    + injection Hscan as Hr Hs. subst s1.
      rewrite (efficient_cache_hit doc host second clock2 (Efficient.countHit s) Huse Htime).
      * cbn [Efficient.countHit Efficient.with_metrics Efficient.cache]. rewrite Hr. reflexivity.
      * cbn [Efficient.countHit Efficient.with_metrics Efficient.cache].
        intros Hc. apply Hne. rewrite <- Hr, Hc. reflexivity.
    + destruct (Efficient.strategy doc (Efficient.config_of first)) as [elements|];
        [|discriminate].
      destruct (Efficient.processElements doc host elements (Efficient.config_of first))
        as [processed| |]; [|discriminate|discriminate].
      injection Hscan as Hr Hs. subst processed.
      assert (Hcache : Efficient.cache s1 = map Props.entry returned).
      { subst s1. cbn [Efficient.with_metrics Efficient.cache].
        apply cache_of_distinct_ids, Hnd. }
      rewrite (efficient_cache_hit doc host second clock2 s1 Huse Htime).
      * rewrite Hcache, values_of_entries. reflexivity.
      * rewrite Hcache. destruct returned; [congruence|discriminate].
Qed.

(** Two scans of the page with the login button, to which C3 applies. *)
Lemma C3_second_scan_returns_stored_result_witness :
  let firstScan :=
    Efficient.scanPageElements Examples.loginPage Examples.onScreen Efficient.noOptions
      Examples.clock Efficient.initial in
  let simpleFirst :=
    Simple.scan Examples.loginPage Examples.onScreen Examples.noSimpleOptions
      Examples.simpleClock Simple.initial in
  (Simple.cacheWanted Examples.noSimpleOptions = true
   /\ Simple.now_check Examples.simpleClockLater - Simple.cacheTime (snd simpleFirst) < 3000
   /\ Props.settled (fst firstScan) <> Some []
   /\ option_map (fun l => map Efficient.id l) (Props.settled (fst firstScan))
      = Some ["id-login:btn"]
   /\ Efficient.cfg_useCache (Efficient.config_of Efficient.noOptions) = true
   /\ Efficient.now_check Examples.clockLater - Efficient.lastScanTimestamp (snd firstScan)
      < 5000)
  /\ Simple.scan Examples.loginPage Examples.onScreen Examples.noSimpleOptions
       Examples.simpleClockLater (snd simpleFirst) = simpleFirst
  /\ Efficient.scanPageElements Examples.loginPage Examples.onScreen Efficient.noOptions
       Examples.clockLater (snd firstScan)
     = (fst firstScan, Efficient.countHit (snd firstScan)).
Proof.
  intros firstScan simpleFirst.
  destruct firstScan as [outcome s1] eqn:Hscan.
  assert (Hsettled : exists returned, outcome = Efficient.Settled returned
                       /\ returned <> []
                       /\ map Efficient.id returned = ["id-login:btn"]).
  { assert (Ho : outcome = fst firstScan) by (subst firstScan; rewrite Hscan; reflexivity).
    subst firstScan. vm_compute in Ho. subst outcome.
    eexists. split; [reflexivity|]. split; [discriminate|reflexivity]. }
  destruct Hsettled as (returned & -> & Hne & Hids).
  assert (H1 : Simple.cacheWanted Examples.noSimpleOptions = true) by reflexivity.
  assert (H2 : Simple.now_check Examples.simpleClockLater
               - Simple.cacheTime (snd simpleFirst) < 3000)
    by (subst simpleFirst; vm_compute; reflexivity).
  assert (H5 : NoDup (map Efficient.id returned)).
  { rewrite Hids. constructor; [intros []|constructor]. }
  assert (H6 : Efficient.cfg_useCache (Efficient.config_of Efficient.noOptions) = true)
    by reflexivity.
  assert (H7 : Efficient.now_check Examples.clockLater - Efficient.lastScanTimestamp s1 < 5000).
  { assert (Hs : s1 = snd firstScan) by (subst firstScan; rewrite Hscan; reflexivity).
    subst firstScan. rewrite Hs. vm_compute. reflexivity. }
  destruct (C3_second_scan_returns_stored_result
              Examples.loginPage Examples.onScreen
              Examples.noSimpleOptions Examples.noSimpleOptions
              Examples.simpleClock Examples.simpleClockLater Simple.initial
              Efficient.noOptions Efficient.noOptions Examples.clock Examples.clockLater
              Efficient.initial s1 returned H1 H2 Hscan Hne H5 H6 H7)
    as (Hsimple & Hefficient & _).
  cbn [fst snd Props.settled option_map].
  split.
  - repeat split; try assumption.
    + intros H. injection H as H. exact (Hne H).
    + rewrite Hids. reflexivity.
  - split; [exact Hsimple | exact Hefficient].
Defined.

(** ** Elements whose data cannot be derived *)

Section FailureFacts.
Import JS DOM Util Efficient Props.

(** The efficient scanner drops an element exactly when deriving its
    data throws, and keeps the data of every other processed element. *)
Lemma processOne_spec (doc : Node) (host : Host) (config : Config)
                      (visibilityMap : NodeRef -> bool) (el : NodeRef)
                      (d : ElementData) :
  In d (processOne doc host config visibilityMap el)
  <-> (cfg_includeInvisible config || visibilityMap el = true
       /\ extractElementData_body doc host el (visibilityMap el) = Ok d).
Proof.
  unfold processOne, extractElementData.
  destruct (cfg_includeInvisible config), (visibilityMap el); cbn [negb andb orb];
    try (destruct (extractElementData_body doc host el _) as [d'|e]; cbn [In];
         split;
         [ intros [->|[]]; split; reflexivity
         | intros [_ H]; try discriminate; injection H as ->; left; reflexivity
         | intros []
         | intros [_ H]; discriminate ]).
  split; [intros [] | intros [H _]; discriminate].
Qed.

Lemma fresh_scan_members (doc : Node) (host : Host) (options : Options)
                         (clock : Clock) (s : Scanner) (elements : list NodeRef) :
  freshScan options clock s ->
  strategy doc (config_of options) = Ok elements ->
  elements <> [] ->
  exists ranked,
    fst (scanPageElements doc host options clock s) = Settled ranked
    /\ forall d,
         In d ranked
         <-> exists el,
               In el elements
               /\ In d (processOne doc host (config_of options)
                          (fun e => match isIntersecting host e with
                                    | Some b => b
                                    | None => false
                                    end) el).
Proof.
  intros Hfresh Hstrategy Hne. eexists.
  split; [apply (fresh_scan_settles doc host options clock s elements); assumption|].
  intros d. split.
  - intros Hin. apply (Permutation_in _ (prioritizeElements_perm _)) in Hin.
    apply in_flat_map in Hin. exact Hin.
  - intros Hex. apply (Permutation_in _ (Permutation_sym (prioritizeElements_perm _))).
    apply in_flat_map. exact Hex.
Qed.

(** In the simple scanner nothing thrown while a selector is tried
    leaves [extractElementData]: the element is skipped when it fails
    the visibility test, and kept otherwise. *)
Lemma simple_extract_total (doc : Node) (host : Host) (el : NodeRef) (i : nat) :
  exists r, Simple.extractElementData_body doc host el i = Ok r.
Proof.
  unfold Simple.extractElementData_body.
  destruct (negb _); eexists; reflexivity.
Qed.

(** On the page with the class [w-1/2], deriving the selector of the
    first button throws; the efficient scanner returns the second
    button alone. *)
Lemma efficient_scan_tailwindPage :
  generateOptimalSelector Examples.tailwindPage [1; 0]%nat = Throw "SyntaxError"
  /\ refsOf (fst (scanPageElements Examples.tailwindPage Examples.onScreen noOptions
                    Examples.clock initial))
     = Some [[1; 1]%nat].
Proof. vm_compute. repeat split. Qed.

End FailureFacts.

(** C7 (failing input). On a page whose body holds no element the
    efficient scanner finds no candidate, its visibility check is never
    settled, and the scan neither returns a sequence nor fails; the
    simple scanner returns the empty sequence on the same page. *)
Theorem C7_efficient_scan_of_empty_page_never_settles :
  Efficient.strategy Examples.emptyPage (Efficient.config_of Efficient.noOptions)
    = JS.Ok []
  /\ fst (Efficient.scanPageElements Examples.emptyPage Examples.onScreen
            Efficient.noOptions Examples.clock Efficient.initial)
     = Efficient.Pending
  /\ fst (Simple.scan Examples.emptyPage Examples.onScreen
            Examples.noSimpleOptions Examples.simpleClock Simple.initial)
     = [].
Proof. vm_compute. repeat split. Qed.

(** ** Collections without repetition *)

Section CollectionFacts.
Import DOM.

Lemma mem_In (x : NodeRef) (l : list NodeRef) : mem x l = true <-> In x l.
Proof.
  unfold mem. rewrite existsb_exists. split.
  - intros [y [Hy He]]. unfold ref_eqb in He.
    destruct (list_eq_dec Nat.eq_dec x y) as [->|]; [exact Hy | discriminate].
  - intros H. exists x. split; [exact H|].
    unfold ref_eqb. destruct (list_eq_dec Nat.eq_dec x x); congruence.
Qed.

Lemma NoDup_snoc {A} (l : list A) (x : A) :
  NoDup l -> ~ In x l -> NoDup (l ++ [x]).
Proof.
  intros Hnd Hx. apply NoDup_app; [exact Hnd | repeat constructor; intros [] | ].
  intros y Hy [<-|[]]. exact (Hx Hy).
Qed.

Lemma simple_visit_distinct (maxElements : Z) (acc : Simple.Collected) (el : NodeRef) :
  NoDup (Simple.elements acc) /\ incl (Simple.elements acc) (Simple.seenElements acc) ->
  NoDup (Simple.elements (Simple.visit maxElements acc el))
  /\ incl (Simple.elements (Simple.visit maxElements acc el))
          (Simple.seenElements (Simple.visit maxElements acc el)).
Proof.
  intros [Hnd Hincl]. unfold Simple.visit.
  destruct (mem el (Simple.seenElements acc)) eqn:Hmem; cbn [negb andb];
    [split; assumption|].
  destruct (Util.len (Simple.elements acc) <? maxElements); [|split; assumption].
  cbn [Simple.elements Simple.seenElements]. split.
  - apply NoDup_snoc; [exact Hnd|].
    intros Hin. apply Hincl in Hin. apply mem_In in Hin. congruence.
  - intros x Hx. apply in_app_or in Hx. destruct Hx as [Hx|[<-|[]]].
    + right. apply Hincl, Hx.
    + left. reflexivity.
Qed.

Lemma simple_collect_distinct (doc : Node) (maxElements : Z) :
  NoDup (Simple.elements (Simple.collect doc maxElements)).
Proof.
  unfold Simple.collect.
  assert (H : forall sels acc,
             NoDup (Simple.elements acc)
             /\ incl (Simple.elements acc) (Simple.seenElements acc) ->
             NoDup (Simple.elements
                      (fold_left (Simple.visit_selector doc maxElements) sels acc))
             /\ incl (Simple.elements
                        (fold_left (Simple.visit_selector doc maxElements) sels acc))
                     (Simple.seenElements
                        (fold_left (Simple.visit_selector doc maxElements) sels acc))).
  { induction sels as [|sel sels IH]; intros acc Hacc; [exact Hacc|].
    cbn [fold_left]. apply IH. unfold Simple.visit_selector.
    destruct (CSS.querySelectorAll doc sel) as [found|]; [|exact Hacc].
    revert acc Hacc. induction found as [|el found IHf]; intros acc Hacc; [exact Hacc|].
    cbn [fold_left]. apply IHf, simple_visit_distinct, Hacc. }
  apply H. cbn. split; [constructor | intros x []].
Qed.

(** A scan of the simple scanner hands its distinctness on to the
    cache it leaves. *)
Lemma simple_scan_distinct (doc : Node) (host : Host) (o : Simple.Options)
                           (c : Simple.Clock) (s : Simple.Scanner) :
  (forall l, Simple.cache s = Some l -> NoDup (map Simple.domRef l)) ->
  NoDup (map Simple.domRef (fst (Simple.scan doc host o c s)))
  /\ (forall l, Simple.cache (snd (Simple.scan doc host o c s)) = Some l ->
                NoDup (map Simple.domRef l)).
Proof.
  intros Hs.
  assert (Hfst : NoDup (map Simple.domRef (fst (Simple.scan doc host o c s)))).
  { unfold Simple.scan.
    destruct (Simple.cacheWanted o && Simple.isCacheValid s (Simple.now_check c)).
    - destruct (Simple.cache s) as [cached|] eqn:Hc.
      + cbn [fst]. apply Hs. reflexivity.
      + cbn [fst]. unfold Util.mapi. rewrite simple_results_in_collection_order.
        apply NoDup_filter, simple_collect_distinct.
    - cbn [fst]. unfold Util.mapi. rewrite simple_results_in_collection_order.
      apply NoDup_filter, simple_collect_distinct. }
  split; [exact Hfst|].
  intros l Hl. rewrite simple_scan_caches in Hl. injection Hl as <-. exact Hfst.
Qed.

Lemma simple_run_distinct (calls : list Sessions.SimpleCall) :
  forall s,
    (forall l, Simple.cache s = Some l -> NoDup (map Simple.domRef l)) ->
    forall l, Simple.cache (fold_left Sessions.simpleStep calls s) = Some l ->
              NoDup (map Simple.domRef l).
Proof.
  induction calls as [|call calls IH]; intros s Hs; [exact Hs|].
  cbn [fold_left]. apply IH. destruct call as [doc host o c|]; cbn [Sessions.simpleStep].
  - apply (simple_scan_distinct doc host o c s Hs).
  - cbn. intros l Hl. discriminate.
Qed.

Lemma set_add_fold (l : list NodeRef) :
  forall acc,
    NoDup acc ->
    NoDup (fold_left Efficient.set_add l acc)
    /\ (forall x, In x (fold_left Efficient.set_add l acc) <-> In x acc \/ In x l).
Proof.
  induction l as [|el l IH]; intros acc Hacc; cbn [fold_left].
  - split; [exact Hacc|]. intros x. split; [auto|intros [H|[]]; exact H].
  - unfold Efficient.set_add at 2 4. destruct (mem el acc) eqn:Hmem.
    + destruct (IH acc Hacc) as [Hnd Hin]. split; [exact Hnd|].
      intros x. rewrite Hin. apply mem_In in Hmem. split.
      * intros [H|H]; [left|right; right]; exact H.
      * intros [H|[<-|H]]; [left|left|right]; assumption.
    + assert (Hfresh : ~ In el acc) by (intros H; apply mem_In in H; congruence).
      destruct (IH (acc ++ [el])%list (NoDup_snoc acc el Hacc Hfresh)) as [Hnd Hin].
      split; [exact Hnd|].
      intros x. rewrite Hin. rewrite in_app_iff. cbn [In]. tauto.
Qed.

Lemma set_add_fold_distinct (l : list NodeRef) :
  forall acc, NoDup (acc ++ l) -> fold_left Efficient.set_add l acc = (acc ++ l)%list.
Proof.
  induction l as [|el l IH]; intros acc Hnd; cbn [fold_left].
  - rewrite app_nil_r. reflexivity.
  - unfold Efficient.set_add at 2.
    destruct (mem el acc) eqn:Hmem.
    + apply mem_In in Hmem. apply NoDup_remove_2 in Hnd.
      exfalso. apply Hnd. apply in_or_app. left. exact Hmem.
    + rewrite IH; rewrite <- app_assoc; [reflexivity | exact Hnd].
Qed.

End CollectionFacts.

(** X1. Whatever scans and cache clearings came before, a scan of the
    simple scanner never answers the same node twice: a node matched by
    several of its selectors is collected once, and a cached answer was
    once a fresh one. *)
Theorem simple_scan_lists_each_node_once :
  forall (calls : list Sessions.SimpleCall) (doc : DOM.Node) (host : DOM.Host)
         (options : Simple.Options) (clock : Simple.Clock),
    NoDup (map Simple.domRef
             (fst (Simple.scan doc host options clock (Sessions.simpleRun calls)))).
Proof.
  intros calls doc host options clock.
  apply simple_scan_distinct.
  unfold Sessions.simpleRun. apply simple_run_distinct.
  cbn. intros l Hl. discriminate.
Qed.

(** X2. [deduplicateElements] of the robust scanner keeps exactly the
    nodes of its input, each once, leaves a sequence without repetition
    as it is, and so changes nothing when applied a second time. *)
Theorem robust_deduplicateElements_spec :
  forall elements : list DOM.NodeRef,
    NoDup (Robust.deduplicateElements elements)
    /\ (forall el, In el (Robust.deduplicateElements elements) <-> In el elements)
    /\ (NoDup elements <-> Robust.deduplicateElements elements = elements)
    /\ Robust.deduplicateElements (Robust.deduplicateElements elements)
       = Robust.deduplicateElements elements.
Proof.
  intros elements. unfold Robust.deduplicateElements.
  destruct (set_add_fold elements [] (NoDup_nil _)) as [Hnd Hin].
  split; [exact Hnd|]. split.
  - intros el. rewrite Hin. cbn [In]. tauto.
  - split.
    + split.
      * intros H. apply (set_add_fold_distinct elements []). exact H.
      * intros H. rewrite <- H. exact Hnd.
    + apply (set_add_fold_distinct _ []). exact Hnd.
Qed.

(** ** The cache of the efficient scanner as a map *)

Section CacheMapFacts.
Import DOM Efficient.

Lemma assoc_map_set {V} (k key : string) (v : V) (m : list (string * V)) :
  JS.assoc k (map_set key v m) = if String.eqb k key then Some v else JS.assoc k m.
Proof.
  induction m as [|[k' v'] m IH]; cbn [map_set JS.assoc]; [reflexivity|].
  destruct (String.eqb_spec k' key) as [->|Hne]; cbn [JS.assoc].
  - destruct (String.eqb k key); reflexivity.
  - rewrite IH. destruct (String.eqb_spec k k') as [->|Hk]; [|reflexivity].
    destruct (String.eqb_spec k' key); [contradiction|reflexivity].
Qed.

Lemma keys_map_set {V} (key : string) (v : V) (m : list (string * V)) :
  map fst (map_set key v m)
    = if JS.inb key (map fst m) then map fst m else (map fst m ++ [key])%list.
Proof.
  induction m as [|[k' v'] m IH]; cbn [map_set map fst JS.inb existsb]; [reflexivity|].
  rewrite (String.eqb_sym key k').
  destruct (String.eqb k' key); cbn [map fst orb]; [reflexivity|].
  rewrite IH. unfold JS.inb. destruct (existsb (String.eqb key) (map fst m)); reflexivity.
Qed.

Lemma inb_In (k : string) (l : list string) : JS.inb k l = true <-> In k l.
Proof.
  unfold JS.inb. rewrite existsb_exists. split.
  - intros [y [Hy He]]. apply String.eqb_eq in He. subst. exact Hy.
  - intros H. exists k. split; [exact H | apply String.eqb_refl].
Qed.

Lemma find_app {A} (f : A -> bool) (l1 l2 : list A) :
  List.find f (l1 ++ l2)
    = match List.find f l1 with Some x => Some x | None => List.find f l2 end.
Proof.
  induction l1 as [|x l1 IH]; cbn; [reflexivity|].
  destruct (f x); [reflexivity | exact IH].
Qed.

Lemma filled_cache (l : list ElementData) :
  forall acc,
    NoDup (map fst acc) ->
    let m := fold_left (fun m el => map_set (id el) el m) l acc in
    NoDup (map fst m)
    /\ (List.length m <= List.length acc + List.length l)%nat
    /\ forall k, JS.assoc k m
                 = match Sessions.lastWithId k l with
                   | Some d => Some d
                   | None => JS.assoc k acc
                   end.
Proof.
  induction l as [|el l IH]; intros acc Hacc; cbn [fold_left].
  - cbn zeta. split; [exact Hacc|]. split; [lia|]. intros k. reflexivity.
  - assert (Hnd : NoDup (map fst (map_set (id el) el acc))).
    { rewrite keys_map_set. destruct (JS.inb (id el) (map fst acc)) eqn:Hin; [exact Hacc|].
      apply NoDup_snoc; [exact Hacc|]. intros H. apply inb_In in H. congruence. }
    assert (Hlen : (List.length (map_set (id el) el acc) <= S (List.length acc))%nat).
    { rewrite <- (length_map fst (map_set (id el) el acc)), keys_map_set.
      destruct (JS.inb (id el) (map fst acc)).
      - rewrite length_map. lia.
      - rewrite length_app, length_map. cbn. lia. }
    destruct (IH _ Hnd) as (H1 & H2 & H3).
    cbn zeta in *. split; [exact H1|]. split; [cbn [List.length]; lia|].
    intros k. rewrite H3. unfold Sessions.lastWithId. cbn [rev].
    rewrite find_app. destruct (List.find _ (rev l)); [reflexivity|].
    rewrite assoc_map_set. cbn [List.find]. destruct (String.eqb k (id el)); reflexivity.
Qed.

(** How a scan moves the two counters. *)
Lemma scan_counts (doc : Node) (host : Host) (o : Options) (c : Clock) (s : Scanner) :
  let s' := snd (scanPageElements doc host o c s) in
  (cacheHits (metrics s') = cacheHits (metrics s) + 1
   /\ cacheMisses (metrics s') = cacheMisses (metrics s))
  \/ (cacheHits (metrics s') = cacheHits (metrics s)
      /\ cacheMisses (metrics s') = cacheMisses (metrics s) + 1).
Proof.
  cbn zeta. unfold scanPageElements.
  destruct (cfg_useCache (config_of o) && isCacheValid s (now_check c)).
  - left. split; reflexivity.
  - right. destruct (strategy doc (config_of o)) as [elements|]; [|split; reflexivity].
    destruct (processElements doc host elements (config_of o)); split; reflexivity.
Qed.

Lemma session_counts (calls : list Sessions.Call) :
  forall x n,
    0 <= cacheHits (metrics (Sessions.scanner x)) ->
    0 <= cacheMisses (metrics (Sessions.scanner x)) ->
    cacheHits (metrics (Sessions.scanner x))
      + cacheMisses (metrics (Sessions.scanner x)) = n ->
    let x' := fold_left Sessions.step calls x in
    0 <= cacheHits (metrics (Sessions.scanner x'))
    /\ 0 <= cacheMisses (metrics (Sessions.scanner x'))
    /\ cacheHits (metrics (Sessions.scanner x'))
         + cacheMisses (metrics (Sessions.scanner x'))
       = n + Sessions.scansIn calls.
Proof.
  induction calls as [|call calls IH]; intros x n Hh Hm Hsum; cbn [fold_left].
  - cbn zeta. unfold Sessions.scansIn, Util.len. cbn. repeat split; lia.
  - cbn zeta.
    destruct call as [doc host o c|mutations|].
    + pose proof (scan_counts doc host o c (Sessions.scanner x)) as Hc. cbn zeta in Hc.
      specialize (IH (Sessions.step x (Sessions.ScanPage doc host o c)) (n + 1)).
      cbn [Sessions.step Sessions.scanner] in IH |- *.
      destruct IH as (H1 & H2 & H3); try lia.
      repeat split; try assumption.
      rewrite H3. unfold Sessions.scansIn, Util.len. cbn [filter List.length]. lia.
    + specialize (IH (Sessions.step x (Sessions.DomMutated mutations)) n).
      assert (Hsame : metrics (Sessions.scanner
                                 (Sessions.step x (Sessions.DomMutated mutations)))
                      = metrics (Sessions.scanner x)).
      { cbn [Sessions.step]. destruct (Sessions.observing x); [|reflexivity].
        cbn [Sessions.scanner]. unfold Sessions.onMutations.
        destruct (Sessions.significantChange mutations); reflexivity. }
      rewrite Hsame in IH. destruct (IH Hh Hm Hsum) as (H1 & H2 & H3).
      repeat split; try assumption.
    + specialize (IH (Sessions.step x Sessions.Destroy) n).
      cbn [Sessions.step Sessions.destroy Sessions.scanner metrics] in IH.
      destruct (IH Hh Hm Hsum) as (H1 & H2 & H3).
      repeat split; try assumption.
Qed.

Lemma rate_in_unit_interval (hits total : Z) :
  0 < hits -> hits <= total -> (0 <= inject_Z hits / inject_Z total <= 1)%Q.
Proof.
  intros Hh Ht.
  assert (Hpos : (0 < inject_Z total)%Q).
  { change 0%Q with (inject_Z 0). rewrite <- Zlt_Qlt. lia. }
  split.
  - apply Qle_shift_div_l; [exact Hpos|]. rewrite Qmult_0_l.
    change 0%Q with (inject_Z 0). rewrite <- Zle_Qle. lia.
  - apply Qle_shift_div_r; [exact Hpos|]. rewrite Qmult_1_l.
    rewrite <- Zle_Qle. exact Ht.
Qed.

End CacheMapFacts.

(** X3. [updateCache] leaves a map with one entry per id: for every key
    the cache answers the last of the given elements that carries that
    id, and nothing when none does; it holds no more entries than
    elements were given. *)
Theorem efficient_updateCache_keeps_last_element_per_id :
  forall (elements : list Efficient.ElementData) (now : Z) (s : Efficient.Scanner),
    NoDup (map fst (Efficient.cache (Efficient.updateCache elements now s)))
    /\ Util.len (Efficient.cache (Efficient.updateCache elements now s))
       <= Util.len elements
    /\ forall key,
         JS.assoc key (Efficient.cache (Efficient.updateCache elements now s))
           = Sessions.lastWithId key elements.
Proof.
  intros elements now s. unfold Efficient.updateCache. cbn [Efficient.cache].
  destruct (filled_cache elements [] (NoDup_nil _)) as (H1 & H2 & H3). cbn zeta in *.
  split; [exact H1|]. split.
  - unfold Util.len. cbn [List.length] in H2. lia.
  - intros key. rewrite H3. destruct (Sessions.lastWithId key elements); reflexivity.
Qed.

(** X4. Over any sequence of scans, mutations and [destroy], the two
    counters of the efficient scanner add up to the number of scans
    made, and the hit rate that [getMetrics] reports is a number between
    0 and 1, also before the first scan, when the quotient is 0/0. *)
Theorem efficient_metrics_count_every_scan :
  forall calls : list Sessions.Call,
    let s := Sessions.scanner (Sessions.run calls) in
    Efficient.cacheHits (Efficient.metrics s) + Efficient.cacheMisses (Efficient.metrics s)
      = Sessions.scansIn calls
    /\ exists q, Sessions.cacheHitRate (Sessions.getMetrics s) = Sessions.Finite q
                 /\ (0 <= q <= 1)%Q.
Proof.
  intros calls. cbn zeta. unfold Sessions.run.
  destruct (session_counts calls Sessions.created 0) as (Hh & Hm & Hsum);
    try (cbn; lia).
  cbn zeta in *. split; [lia|].
  unfold Sessions.getMetrics. cbn [Sessions.cacheHitRate].
  set (hits := Efficient.cacheHits _) in *. set (misses := Efficient.cacheMisses _) in *.
  destruct (Z.eqb_spec (hits + misses) 0) as [Hz|Hnz].
  - destruct (Z.eqb_spec hits 0); [|lia].
    exists 0%Q. split; [reflexivity|]. split; discriminate.
  - destruct (Z.eqb_spec hits 0).
    + exists 0%Q. split; [reflexivity|]. split; discriminate.
    + eexists. split; [reflexivity|]. apply rate_in_unit_interval; lia.
Qed.

(** ** Mutations between two scans *)

Section MutationFacts.
Import DOM Efficient.

(** What a scan leaves in the cache when it answers at least one
    element with pairwise distinct ids, and when it stamped it. *)
Lemma settled_scan_cache (doc : Node) (host : Host) (o : Options) (c : Clock)
                         (s s1 : Scanner) (returned : list ElementData) :
  scanPageElements doc host o c s = (Settled returned, s1) ->
  returned <> [] ->
  NoDup (map id returned) ->
  cache s1 <> [] /\ map_values (cache s1) = returned.
Proof.
  intros Hscan Hne Hnd. unfold scanPageElements in Hscan.
  destruct (cfg_useCache (config_of o) && isCacheValid s (now_check c)).
  - injection Hscan as Hr Hs. subst s1.
    cbn [countHit with_metrics cache]. split; [|exact Hr].
    intros Hc. apply Hne. rewrite <- Hr, Hc. reflexivity.
  - destruct (strategy doc (config_of o)) as [elements|]; [|discriminate].
    destruct (processElements doc host elements (config_of o)) as [processed| |];
      [|discriminate|discriminate].
    injection Hscan as Hr Hs. subst processed s1.
    cbn [with_metrics cache]. rewrite cache_of_distinct_ids by exact Hnd.
    split; [destruct returned; [congruence|discriminate] | apply values_of_entries].
Qed.

(** The scan during which nothing else happens is the scan that begins
    and completes on the same document and scanner. *)
Lemma scan_in_one_go (doc : Node) (host : Host) (o : Options) (c : Clock) (s : Scanner) :
  scanPageElements doc host o c s
  = match beginScan doc o c s with
    | Answered result s' => (result, s')
    | InFlight elements s1 => completeScan doc host o c elements s1
    end.
Proof.
  unfold scanPageElements, beginScan, completeScan.
  destruct (cfg_useCache (config_of o) && isCacheValid s (now_check c)); [reflexivity|].
  destruct (strategy doc (config_of o)); reflexivity.
Qed.

Lemma processOne_ref (doc : Node) (host : Host) (config : Config)
                     (visibilityMap : NodeRef -> bool) (el : NodeRef) :
  Forall (fun d => elementRef d = el) (processOne doc host config visibilityMap el).
Proof.
  unfold processOne, extractElementData, extractElementData_body.
  destruct (negb _ && negb _); [constructor|].
  destruct (generateOptimalSelector doc el); cbn; constructor;
    [reflexivity|constructor].
Qed.

(** What a completing scan leaves in the cache, and whose data. *)
Lemma completed_scan_cache (doc : Node) (host : Host) (o : Options) (c : Clock)
                           (elements : list NodeRef) (s after : Scanner)
                           (stored : list ElementData) :
  completeScan doc host o c elements s = (Settled stored, after) ->
  stored <> [] ->
  NoDup (map id stored) ->
  cache after <> []
  /\ map_values (cache after) = stored
  /\ lastScanTimestamp after = now_store c
  /\ Forall (fun d => In (elementRef d) elements) stored.
Proof.
  intros Hdone Hne Hnd. unfold completeScan in Hdone.
  destruct (processElements doc host elements (config_of o)) as [processed| |] eqn:Hp;
    [|discriminate|discriminate].
  injection Hdone as Hr Hs. subst processed after.
  cbn [with_metrics cache lastScanTimestamp]. rewrite cache_of_distinct_ids by exact Hnd.
  split; [destruct stored; [congruence|discriminate]|].
  split; [apply values_of_entries|].
  split; [reflexivity|].
  unfold processElements in Hp.
  destruct (batchVisibilityCheck host elements) as [visibilityMap| |];
    [|discriminate|discriminate].
  injection Hp as <-.
  eapply Permutation_Forall; [apply Permutation_sym, prioritizeElements_perm|].
  apply Forall_forall. intros d Hd. apply in_flat_map in Hd.
  destruct Hd as (el & Hel & Hd).
  pose proof (processOne_ref doc host (config_of o) visibilityMap el) as Href.
  rewrite Forall_forall in Href. rewrite (Href d Hd). exact Hel.
Qed.

(** A scan that misses the cache answers what a new scanner would. *)
Lemma miss_answers_afresh (doc : Node) (host : Host) (o : Options) (c : Clock)
                          (s : Scanner) :
  cache s = [] ->
  fst (scanPageElements doc host o c s) = fst (scanPageElements doc host o c initial)
  /\ cacheMisses (metrics (snd (scanPageElements doc host o c s)))
     = cacheMisses (metrics s) + 1.
Proof.
  intros Hc. unfold scanPageElements, isCacheValid. rewrite Hc.
  cbn [initial cache]. unfold Util.len. cbn [List.length Z.of_nat].
  change (0 <? 0) with false. rewrite !andb_false_r.
  destruct (strategy doc (config_of o)) as [elements|]; [|split; reflexivity].
  destruct (processElements doc host elements (config_of o)); split; reflexivity.
Qed.

End MutationFacts.

(** X5. The observer of the efficient scanner looks at the added nodes
    themselves only.  A batch of mutations none of which adds an
    interactive element at its top (removals, text, an interactive
    element inside a wrapper that is not one) leaves the cache alone:
    a scan of whatever the document has become, made with [useCache]
    within five seconds of the time stamp, still answers the elements of
    the scan before the change. *)
Theorem efficient_cache_survives_unnoticed_mutations :
  forall (doc doc' : DOM.Node) (host host' : DOM.Host)
         (first second : Efficient.Options) (clock1 clock2 : Efficient.Clock)
         (s s1 : Efficient.Scanner) (returned : list Efficient.ElementData)
         (mutations : list Sessions.MutationRecord),
    Efficient.scanPageElements doc host first clock1 s = (Efficient.Settled returned, s1) ->
    returned <> [] ->
    NoDup (map Efficient.id returned) ->
    Sessions.significantChange mutations = false ->
    Efficient.cfg_useCache (Efficient.config_of second) = true ->
    Efficient.now_check clock2 - Efficient.lastScanTimestamp s1 < 5000 ->
    Efficient.scanPageElements doc' host' second clock2 (Sessions.onMutations mutations s1)
      = (Efficient.Settled returned, Efficient.countHit s1).
Proof.
  intros doc doc' host host' first second clock1 clock2 s s1 returned mutations
         Hscan Hne Hnd Hsig Huse Htime.
  unfold Sessions.onMutations. rewrite Hsig.
  destruct (settled_scan_cache doc host first clock1 s s1 returned Hscan Hne Hnd)
    as [Hc Hv].
  rewrite (efficient_cache_hit doc' host' second clock2 s1 Huse Htime Hc), Hv.
  reflexivity.
Qed.

(** The login page is scanned, a button is added to it inside a new
    [div], and the page is scanned again a second later. *)
Lemma efficient_cache_survives_unnoticed_mutations_witness :
  (Efficient.scanPageElements Examples.loginPage Examples.onScreen Efficient.noOptions
     Examples.clock Efficient.initial
   = (Efficient.Settled SessionExamples.firstReturned, snd SessionExamples.firstScan)
   /\ SessionExamples.firstReturned <> []
   /\ NoDup (map Efficient.id SessionExamples.firstReturned)
   /\ Sessions.significantChange [SessionExamples.wrappedButton] = false
   /\ Efficient.cfg_useCache (Efficient.config_of Efficient.noOptions) = true
   /\ Efficient.now_check Examples.clockLater
        - Efficient.lastScanTimestamp (snd SessionExamples.firstScan) < 5000)
  /\ Efficient.scanPageElements Examples.twinButtonsPage Examples.onScreen
       Efficient.noOptions Examples.clockLater
       (Sessions.onMutations [SessionExamples.wrappedButton]
          (snd SessionExamples.firstScan))
     = (Efficient.Settled SessionExamples.firstReturned,
        Efficient.countHit (snd SessionExamples.firstScan)).
Proof.
  assert (H1 : Efficient.scanPageElements Examples.loginPage Examples.onScreen
                 Efficient.noOptions Examples.clock Efficient.initial
               = (Efficient.Settled SessionExamples.firstReturned,
                  snd SessionExamples.firstScan)) by (vm_compute; reflexivity).
  assert (H2 : SessionExamples.firstReturned <> [])
    by (vm_compute; intros H; discriminate H).
  assert (H3 : NoDup (map Efficient.id SessionExamples.firstReturned)).
  { vm_compute. constructor; [intros []|constructor]. }
  assert (H4 : Sessions.significantChange [SessionExamples.wrappedButton] = false)
    by (vm_compute; reflexivity).
  assert (H5 : Efficient.cfg_useCache (Efficient.config_of Efficient.noOptions) = true)
    by reflexivity.
  assert (H6 : Efficient.now_check Examples.clockLater
               - Efficient.lastScanTimestamp (snd SessionExamples.firstScan) < 5000)
    by (vm_compute; reflexivity).
  split; [repeat split; assumption|].
  exact (efficient_cache_survives_unnoticed_mutations
           Examples.loginPage Examples.twinButtonsPage Examples.onScreen Examples.onScreen
           Efficient.noOptions Efficient.noOptions Examples.clock Examples.clockLater
           Efficient.initial (snd SessionExamples.firstScan) SessionExamples.firstReturned
           [SessionExamples.wrappedButton] H1 H2 H3 H4 H5 H6).
Defined.



(** ** Text and identifiers *)

Section TextFacts.
Import DOM.

Lemma prefix_n_length (n : nat) (s : string) :
  (String.length (Str.prefix_n n s) <= n)%nat.
Proof.
  unfold Str.prefix_n. revert s.
  induction n as [|n IH]; intros [|c s]; cbn; try lia.
  specialize (IH s). lia.
Qed.

Lemma efficient_text_length (doc : Node) (el : NodeRef) (maxLength : Z) :
  String.eqb (tagName doc el) "INPUT" || String.eqb (tagName doc el) "TEXTAREA" = false ->
  (String.length (Efficient.extractTextEfficiently doc el maxLength)
   <= Z.to_nat maxLength)%nat.
Proof.
  intros Htag. unfold Efficient.extractTextEfficiently.
  destruct (node_at doc el) as [n|]; [|cbn; lia].
  cbn [Efficient.extractTextOf]. rewrite Htag.
  unfold Efficient.clip. apply prefix_n_length.
Qed.

Lemma toInt32_absorbs (a b : Z) :
  Efficient.toInt32 (Efficient.toInt32 a + b) = Efficient.toInt32 (a + b).
Proof.
  unfold Efficient.toInt32.
  replace ((a + 2 ^ 31) mod 2 ^ 32 - 2 ^ 31 + b + 2 ^ 31)
    with ((a + 2 ^ 31) mod 2 ^ 32 + b) by lia.
  rewrite Z.add_mod_idemp_l by (intros H; discriminate H).
  replace (a + 2 ^ 31 + b) with (a + b + 2 ^ 31) by lia. reflexivity.
Qed.

Lemma toInt32_range (z : Z) : - 2 ^ 31 <= Efficient.toInt32 z < 2 ^ 31.
Proof.
  unfold Efficient.toInt32.
  pose proof (Z.mod_pos_bound (z + 2 ^ 31) (2 ^ 32) eq_refl) as H.
  set (m := (z + 2 ^ 31) mod 2 ^ 32) in *.
  assert (E : 2 ^ 32 = 2 ^ 31 + 2 ^ 31) by reflexivity.
  rewrite E in H. lia.
Qed.

Lemma hash_chars_polynomial (s : string) :
  forall h, Efficient.hash_chars s h = Sessions.polynomialHash s h.
Proof.
  induction s as [|c s IH]; intros h; cbn [Efficient.hash_chars Sessions.polynomialHash];
    [reflexivity|].
  cbn zeta. rewrite IH. f_equal.
  replace (Efficient.toInt32 (h * 2 ^ 5) - h + Z.of_N (Str.code c))
    with (Efficient.toInt32 (h * 2 ^ 5) + (Z.of_N (Str.code c) - h)) by lia.
  rewrite toInt32_absorbs. f_equal. lia.
Qed.

Lemma polynomialHash_range (s : string) :
  forall h, - 2 ^ 31 <= h < 2 ^ 31 ->
            - 2 ^ 31 <= Sessions.polynomialHash s h < 2 ^ 31.
Proof.
  induction s as [|c s IH]; intros h Hh; cbn [Sessions.polynomialHash]; [exact Hh|].
  apply IH, toInt32_range.
Qed.

End TextFacts.

(** X7. For an element that is not an input or a text area, the text
    the efficient scanner extracts is never longer than the length it
    was asked for, and the text in the element data of the simple and
    of the efficient scanner never exceeds 100 characters. *)
Theorem scanned_text_is_clipped :
  forall (doc : DOM.Node) (host : DOM.Host) (element : DOM.NodeRef) (maxLength : Z),
    String.eqb (DOM.tagName doc element) "INPUT"
      || String.eqb (DOM.tagName doc element) "TEXTAREA" = false ->
    (String.length (Efficient.extractTextEfficiently doc element maxLength)
     <= Z.to_nat maxLength)%nat
    /\ (forall index data,
          Simple.extractElementData doc host element index = Some data ->
          (String.length (Simple.text data) <= 100)%nat)
    /\ (forall isVisible data,
          Efficient.extractElementData doc host element isVisible = Some data ->
          (String.length (Efficient.text data) <= 100)%nat).
Proof.
  intros doc host element maxLength Htag.
  split; [apply efficient_text_length, Htag|]. split.
  - intros index data. unfold Simple.extractElementData, Simple.extractElementData_body.
    destruct (negb _); cbn [JS.try_catch JS.ret]; [discriminate|].
    rewrite Htag. intros H. injection H as <-. cbn [Simple.text].
    unfold Util.or_str. destruct (Str.nonempty _); [apply prefix_n_length | cbn; lia].
  - intros isVisible data. unfold Efficient.extractElementData, Efficient.extractElementData_body.
    destruct (Efficient.generateOptimalSelector doc element); cbn [JS.bind JS.ret];
      [|discriminate].
    intros H. injection H as <-. cbn [Efficient.text].
    apply (efficient_text_length doc element 100 Htag).
Qed.

(** The login button, asked for three characters of its label. *)
Lemma scanned_text_is_clipped_witness :
  (String.eqb (DOM.tagName Examples.loginPage Examples.loginButton) "INPUT"
     || String.eqb (DOM.tagName Examples.loginPage Examples.loginButton) "TEXTAREA" = false)
  /\ (String.length (Efficient.extractTextEfficiently
                       Examples.loginPage Examples.loginButton 3) <= Z.to_nat 3)%nat.
Proof.
  assert (H : String.eqb (DOM.tagName Examples.loginPage Examples.loginButton) "INPUT"
              || String.eqb (DOM.tagName Examples.loginPage Examples.loginButton) "TEXTAREA"
              = false) by (vm_compute; reflexivity).
  split; [exact H|].
  exact (proj1 (scanned_text_is_clipped Examples.loginPage Examples.onScreen
                  Examples.loginButton 3 H)).
Defined.

(** X8. The hash behind the generated element ids is the 32-bit
    polynomial hash: the shift and subtraction of [simpleHash] take the
    hash to [31 * hash + code] wrapped to a signed 32-bit integer, and
    the hash of any string lies in the signed 32-bit range. *)
Theorem efficient_simpleHash_is_polynomial_hash :
  forall str : string,
    Efficient.hash_chars str 0 = Sessions.polynomialHash str 0
    /\ - 2 ^ 31 <= Efficient.hash_chars str 0 < 2 ^ 31
    /\ Efficient.simpleHash str
       = Str.to_radix 36 (Z.to_N (Z.abs (Sessions.polynomialHash str 0))).
Proof.
  intros str. split; [apply hash_chars_polynomial|]. split.
  - rewrite hash_chars_polynomial. apply polynomialHash_range. lia.
  - unfold Efficient.simpleHash. rewrite hash_chars_polynomial. reflexivity.
Qed.

(** ** The analysis loop of the emotion service *)

Section AnalysisFacts.
Context {num : Type} {NUM : JSNumber num}.
Import MorphCast.

Lemma tick_face (s : Service num) (d : Draws num) :
  faceDetected (step s (Tick d)) = true.
Proof.
  cbn [step updateDominantEmotion detectEmotions faceDetected].
  destruct (faceDetected s) eqn:Hface; cbn [andb negb].
  - destruct (existsb _ _); cbn [negb]; [exact Hface | reflexivity].
  - reflexivity.
Qed.

Lemma best_entry_name (l : list (string * num)) :
  forall acc : string * num,
    fst (fold_left (fun (acc : string * num) (kv : string * num) =>
                      if n_gt (snd kv) (snd acc) then kv else acc) l acc) = fst acc
    \/ In (fst (fold_left (fun (acc : string * num) (kv : string * num) =>
                             if n_gt (snd kv) (snd acc) then kv else acc) l acc))
          (map fst l).
Proof.
  induction l as [|kv l IH]; intros acc; cbn [fold_left map]; [left; reflexivity|].
  destruct (n_gt (snd kv) (snd acc)).
  - destruct (IH kv) as [H|H]; right; [left; symmetry; exact H | right; exact H].
  - destruct (IH acc) as [H|H]; [left; exact H | right; right; exact H].
Qed.

Lemma entries_names (e : Emotions num) :
  incl (map fst (entries e)) MoodProps.emotionNames.
Proof.
  unfold entries, MoodProps.emotionNames.
  destruct (fearful e), (disgusted e); cbn; intros x Hx;
    repeat (destruct Hx as [<-|Hx]; [cbn; tauto|]); destruct Hx.
Qed.

Lemma dominant_name_step (s : Service num) (ev : Event num) :
  In (dominantEmotion s) MoodProps.emotionNames ->
  In (dominantEmotion (step s ev)) MoodProps.emotionNames.
Proof.
  intros Hs. destruct ev as [d|event|]; cbn [step].
  - cbn [updateDominantEmotion dominantEmotion].
    match goal with |- In (if ?c then _ else _) _ => destruct c end;
      [|cbn; tauto].
    match goal with
    | |- In (fst (fold_left _ (entries ?e) ?acc)) _ =>
        destruct (best_entry_name (entries e) acc) as [H|H]
    end.
    + rewrite H. cbn. tauto.
    + eapply entries_names, H.
  - destruct event; cbn [handleMorphCastEmotion dominantEmotion]; exact Hs.
  - exact Hs.
Qed.

Lemma dominant_name_run (evs : list (Event num)) :
  forall s,
    In (dominantEmotion s) MoodProps.emotionNames ->
    In (dominantEmotion (fold_left step evs s)) MoodProps.emotionNames.
Proof.
  induction evs as [|ev evs IH]; intros s Hs; [exact Hs|].
  cbn [fold_left]. apply IH, dominant_name_step, Hs.
Qed.

End AnalysisFacts.

(** X9. A turn of the analysis loop always ends with a face reported:
    when the SDK has signalled that the face is lost, the next turn
    fills the emotions with simulated readings and sets [faceDetected]
    again. *)
Theorem analysis_turn_always_reports_a_face :
  forall (num : Type) (NUM : JSNumber num)
         (s : MorphCast.Service num) (d : MorphCast.Draws num),
    MorphCast.faceDetected (MorphCast.step s (MorphCast.Tick d)) = true
    /\ MorphCast.currentEmotions
         (MorphCast.step (MorphCast.handleFaceLost s) (MorphCast.Tick d))
       = MorphCast.currentEmotions
           (MorphCast.simulateEmotions d (MorphCast.handleFaceLost s)).
Proof.
  intros num NUM s d. split; [apply tick_face | reflexivity].
Qed.

(** X10. When the SDK has reported a face with at least one positive
    score, a turn of the analysis loop does not simulate: it leaves the
    readings and the simulation state untouched and appends the
    readings, as they are, to the history. *)
Theorem real_readings_are_recorded_unchanged :
  forall (num : Type) (NUM : JSNumber num)
         (evs : list (MorphCast.Event num)) (d : MorphCast.Draws num),
    MoodProps.hasRealData (MorphCast.run evs) = true ->
    let s := MorphCast.run evs in
    let s' := MorphCast.step s (MorphCast.Tick d) in
    MorphCast.currentEmotions s' = MorphCast.currentEmotions s
    /\ MorphCast.simulationState s' = MorphCast.simulationState s
    /\ exists older,
         MorphCast.emotionHistory s' = (older ++ [MorphCast.currentEmotions s])%list.
Proof.
  intros num NUM evs d Hreal. cbn zeta.
  destruct (run_inv evs) as [Hsize Hlen].
  unfold MoodProps.hasRealData in Hreal.
  cbn [MorphCast.step MorphCast.updateDominantEmotion MorphCast.detectEmotions
       MorphCast.currentEmotions MorphCast.simulationState MorphCast.emotionHistory].
  rewrite Hreal. cbn [negb MorphCast.historySize].
  split; [reflexivity|]. split; [reflexivity|].
  rewrite Hsize. unfold MorphCast.pushBounded.
  destruct (MorphCast.emotionHistory (MorphCast.run evs)) as [|e h].
  - exists []. reflexivity.
  - destruct (10 <? _)%nat; [exists h | eexists]; reflexivity.
Qed.

(** A reading of the SDK followed by a turn of the loop, over the
    rationals. *)
Lemma real_readings_are_recorded_unchanged_witness :
  MoodProps.hasRealData
    (MorphCast.run [MorphCast.EmotionResult (Some MoodProps.halfHappy)]) = true
  /\ MorphCast.currentEmotions
       (MorphCast.step
          (MorphCast.run [MorphCast.EmotionResult (Some MoodProps.halfHappy)])
          (MorphCast.Tick MorphCastExamples.steadyDraws))
     = MorphCast.currentEmotions
         (MorphCast.run [MorphCast.EmotionResult (Some MoodProps.halfHappy)]).
Proof.
  assert (H : MoodProps.hasRealData
                (MorphCast.run [MorphCast.EmotionResult (Some MoodProps.halfHappy)])
              = true) by (vm_compute; reflexivity).
  split; [exact H|].
  exact (proj1 (real_readings_are_recorded_unchanged Q QNumber
                  [MorphCast.EmotionResult (Some MoodProps.halfHappy)]
                  MorphCastExamples.steadyDraws H)).
Defined.

Section SimulationFacts.
Import MorphCast.

Lemma or_zero_within (hi v : Q) :
  (0 <= v <= hi)%Q -> (0 <= or_zero v <= hi)%Q.
Proof.
  intros Hv. unfold or_zero. destruct (n_truthy v); [exact Hv|].
  unfold zero. cbn. lra.
Qed.

Lemma dominant_target_within (cur r : Q) :
  (0 <= cur <= 100)%Q -> (0 <= r <= 1)%Q ->
  (0 <= smoothTransition cur (n_add (n_lit 60) (n_mul r (n_lit 30))) (n_lit 0.15) <= 100)%Q.
Proof. intros Hc Hr. unfold smoothTransition. cbn. lra. Qed.

Lemma noise_target_within (cur r : Q) :
  (0 <= cur <= 100)%Q -> (0 <= r <= 1)%Q ->
  (0 <= smoothTransition cur (n_add (n_lit 5) (n_mul r (n_lit 15))) (n_lit 0.1) <= 100)%Q.
Proof. intros Hc Hr. unfold smoothTransition. cbn. lra. Qed.

End SimulationFacts.

Section ScoreFacts.
Import MorphCast.

Lemma setEmotion_within (e : Emotions Q) (name : string) (v : Q) :
  MoodProps.scoresWithin 0 100 e -> (0 <= v <= 100)%Q ->
  MoodProps.scoresWithin 0 100 (setEmotion e name v).
Proof.
  intros (H1 & H2 & H3 & H4 & H5) Hv. unfold setEmotion, MoodProps.scoresWithin.
  destruct (String.eqb name "happy"); [cbn [happy sad angry surprised neutral]; tauto|].
  destruct (String.eqb name "sad"); [cbn [happy sad angry surprised neutral]; tauto|].
  destruct (String.eqb name "angry"); [cbn [happy sad angry surprised neutral]; tauto|].
  destruct (String.eqb name "surprised"); cbn [happy sad angry surprised neutral]; tauto.
Qed.

Lemma getEmotion_within (e : Emotions Q) (name : string) :
  MoodProps.scoresWithin 0 100 e -> (0 <= getEmotion e name <= 100)%Q.
Proof.
  intros (H1 & H2 & H3 & H4 & H5). unfold getEmotion.
  destruct (String.eqb name "happy"); [assumption|].
  destruct (String.eqb name "sad"); [assumption|].
  destruct (String.eqb name "angry"); [assumption|].
  destruct (String.eqb name "surprised"); assumption.
Qed.

End ScoreFacts.

(** X11. Over the rationals, with every random draw between 0 and 1, a
    round of simulation keeps the five scores between 0 and 100 when
    they were so before, and sets the attention score between 70 and
    100. *)
Theorem simulated_scores_stay_percentages :
  forall (d : MorphCast.Draws Q) (s : MorphCast.Service Q),
    MoodProps.unitDraws d ->
    MoodProps.scoresWithin 0 100 (MorphCast.currentEmotions s) ->
    MoodProps.scoresWithin 0 100
      (MorphCast.currentEmotions (MorphCast.simulateEmotions d s))
    /\ (70 <= MorphCast.attentionScore (MorphCast.simulateEmotions d s) <= 100)%Q.
Proof.
  intros d s [Ht Ha] Hs.
  unfold MorphCast.simulateEmotions.
  cbn [MorphCast.currentEmotions MorphCast.attentionScore].
  split; [|cbn; lra].
  match goal with |- context [MorphCast.same_name ?t _] => generalize t end.
  intros target. revert Hs. generalize (MorphCast.currentEmotions s).
  induction MorphCast.simulatedNames as [|name names IH]; intros e He; [exact He|].
  cbn [fold_left]. apply IH.
  pose proof (or_zero_within 100 _ (getEmotion_within e name He)) as Hcur.
  destruct (MorphCast.same_name target name); apply setEmotion_within; try exact He.
  - apply dominant_target_within; [exact Hcur | apply Ht].
  - apply noise_target_within; [exact Hcur | apply Ht].
Qed.

(** The service as constructed, and draws of one half. *)
Lemma simulated_scores_stay_percentages_witness :
  (MoodProps.unitDraws MorphCastExamples.steadyDraws
   /\ MoodProps.scoresWithin 0 100 (MorphCast.currentEmotions MorphCast.initial))
  /\ MoodProps.scoresWithin 0 100
       (MorphCast.currentEmotions
          (MorphCast.simulateEmotions MorphCastExamples.steadyDraws MorphCast.initial)).
Proof.
  assert (H1 : MoodProps.unitDraws MorphCastExamples.steadyDraws)
    by (split; [intros name|]; split; vm_compute; intros H; discriminate H).
  assert (H2 : MoodProps.scoresWithin 0 100 (MorphCast.currentEmotions MorphCast.initial))
    by (repeat split; vm_compute; intros H; discriminate H).
  split; [split; assumption|].
  exact (proj1 (simulated_scores_stay_percentages
                  MorphCastExamples.steadyDraws MorphCast.initial H1 H2)).
Defined.

(** X12. Whatever the analysis loop and the SDK events have done, the
    dominant emotion is one of the seven emotion names, and
    [getPlaylistForEmotion] answers a playlist for it in each of the
    three modes: a defined, non-empty identifier. *)
Theorem every_dominant_emotion_has_a_playlist :
  forall (num : Type) (NUM : JSNumber num)
         (evs : list (MorphCast.Event num)) (mode : Spotify.MusicMode),
    In (MorphCast.dominantEmotion (MorphCast.run evs)) MoodProps.emotionNames
    /\ exists playlist,
         Spotify.getPlaylistForEmotion (MorphCast.dominantEmotion (MorphCast.run evs)) mode
           = JS.Ok (JS.VString playlist)
         /\ playlist <> "".
Proof.
  intros num NUM evs mode.
  assert (Hin : In (MorphCast.dominantEmotion (MorphCast.run evs)) MoodProps.emotionNames).
  { unfold MorphCast.run. apply dominant_name_run. cbn. tauto. }
  split; [exact Hin|].
  unfold MoodProps.emotionNames in Hin. cbn [In] in Hin.
  repeat (destruct Hin as [<-|Hin];
          [destruct mode; eexists; (split; [vm_compute; reflexivity | discriminate])|]).
  destruct Hin.
Qed.

(** ** Selectors that resolve

    [CSS.escape] and the tokenizer are inverse to each other: the
    escape of a string is read back as that string, as a name and
    between double quotes.  On this rest the selectors of the simple
    and of the robust scanner. *)

Section StringFacts.

Lemma append_assoc (a b c : string) : ((a ++ b) ++ c = a ++ (b ++ c))%string.
Proof. induction a as [|x a IH]; cbn; [reflexivity | rewrite IH; reflexivity]. Qed.

Lemma append_nil_r (a : string) : (a ++ "" = a)%string.
Proof. induction a as [|x a IH]; cbn; [reflexivity | rewrite IH; reflexivity]. Qed.

Lemma length_append (a b : string) :
  String.length (a ++ b) = (String.length a + String.length b)%nat.
Proof. induction a as [|x a IH]; cbn; [reflexivity | rewrite IH; reflexivity]. Qed.

Lemma eqb_code (a b : ascii) : Ascii.eqb a b = (Str.code a =? Str.code b)%N.
Proof.
  destruct (Ascii.eqb_spec a b) as [->|Hne].
  - symmetry. apply N.eqb_refl.
  - symmetry. apply N.eqb_neq. intros H. apply Hne.
    rewrite <- (ascii_N_embedding a), <- (ascii_N_embedding b).
    unfold Str.code in H. rewrite H. reflexivity.
Qed.

Lemma code_bound (c : ascii) : (Str.code c < 256)%N.
Proof. apply N_ascii_bounded. Qed.

End StringFacts.

Ltac char_unfold :=
  unfold SelectorProps.streamChar, SelectorProps.sameSpace, DOM.is_ascii_whitespace,
         SelectorProps.tagChar, SelectorProps.rawChar, SelectorProps.notNul, CSS.is_name_char, CSS.is_name_start,
         CSS.is_ws, CSS.is_newline, CSS.is_control, Str.is_hex, Str.is_word,
         Str.is_letter, Str.is_upper, Str.is_lower, Str.is_digit, Str.is_space,
         Str.between, CSS.backslash, CSS.dquote, CSS.squote, CSS.newline in *.

Ltac char_arith :=
  char_unfold;
  rewrite ?eqb_code in *;
  change (Str.code (ascii_of_nat 34)) with 34%N in *;
  change (Str.code (ascii_of_nat 39)) with 39%N in *;
  change (Str.code (ascii_of_nat 92)) with 92%N in *;
  change (Str.code (ascii_of_nat 10)) with 10%N in *;
  repeat match goal with
         | H : context [Str.code (Ascii ?a ?b ?c ?d ?e ?f ?g ?h)] |- _ =>
             let v := eval vm_compute in (Str.code (Ascii a b c d e f g h)) in
             change (Str.code (Ascii a b c d e f g h)) with v in H
         | |- context [Str.code (Ascii ?a ?b ?c ?d ?e ?f ?g ?h)] =>
             let v := eval vm_compute in (Str.code (Ascii a b c d e f g h)) in
             change (Str.code (Ascii a b c d e f g h)) with v
         end;
  repeat match goal with
         | c : ascii |- _ =>
             lazymatch goal with
             | _ : (Str.code c < 256)%N |- _ => fail
             | _ => pose proof (code_bound c)
             end
         end;
  repeat match goal with
         | |- context [Str.code ?c] =>
             is_var c; let n := fresh "n" in
             generalize dependent (Str.code c); intros n; intros
         end;
  repeat (progress
            rewrite ?Bool.orb_true_iff, ?Bool.orb_false_iff, ?Bool.andb_true_iff,
                    ?Bool.andb_false_iff, ?Bool.negb_true_iff, ?Bool.negb_false_iff,
                    ?N.leb_le, ?N.leb_gt, ?N.eqb_eq, ?N.eqb_neq, ?N.ltb_lt, ?N.ltb_ge in *);
  try lia.

Section CharFacts.
Import CSS SelectorProps.

Lemma raw_is_name_char (c : ascii) : rawChar c = true -> is_name_char c = true.
Proof. intros H. char_arith. Qed.

Lemma raw_in_string (c : ascii) :
  rawChar c = true ->
  Ascii.eqb c dquote = false /\ is_newline c = false /\ Ascii.eqb c backslash = false.
Proof. intros H. char_arith. Qed.

End CharFacts.

Section EscapeFacts.
Import CSS SelectorProps.

(** The three shapes a character takes under [CSS.escape]. *)
Lemma escape_from_cons (c : ascii) (r : string) (i : nat) (d sg : bool) :
  notNul c = true ->
  (escape_from i d sg (String c r)
     = (escape_as_code_point c ++ escape_from (S i) d sg r)%string
   /\ is_control c || Str.is_digit c = true)
  \/ (escape_from i d sg (String c r) = String c (escape_from (S i) d sg r)
      /\ rawChar c = true
      /\ (Str.is_digit c = true -> (i =? 0)%nat = false /\ (i =? 1)%nat && d = false))
  \/ (escape_from i d sg (String c r)
        = String backslash (String c (escape_from (S i) d sg r))
      /\ is_control c = false /\ Str.is_digit c = false /\ Str.is_letter c = false).
Proof.
  intros Hc. cbn [escape_from]. unfold notNul in Hc.
  apply Bool.negb_true_iff in Hc. rewrite Hc.
  destruct (is_control c) eqn:Hctl; [left; split; reflexivity|].
  destruct (Str.is_digit c) eqn:Hdig.
  - destruct ((i =? 0)%nat) eqn:Hi0; cbn [andb]; [left; split; reflexivity|].
    destruct ((i =? 1)%nat && d) eqn:Hi1;
      rewrite Bool.andb_true_r, Hi1; [left; split; reflexivity|].
    right. left. split; [|split].
    + rewrite !Bool.orb_true_r. reflexivity.
    + unfold rawChar. rewrite Hdig, !Bool.orb_true_r. reflexivity.
    + intros _. split; reflexivity.
  - rewrite !Bool.andb_false_r. cbn [andb].
    destruct (Ascii.eqb_spec c "-") as [->|Hdash].
    + destruct ((i =? 0)%nat && true && sg).
      * right. right. split; [reflexivity|]. repeat split; reflexivity.
      * right. left. split; [reflexivity|]. split; [reflexivity|]. discriminate.
    + rewrite Bool.andb_false_r. cbn [andb].
      destruct ((128 <=? Str.code c)%N || false || Ascii.eqb c "_" || false
                || Str.is_letter c) eqn:Hraw.
      * right. left. split; [reflexivity|]. split; [|discriminate].
        unfold rawChar. rewrite Hdig.
        destruct (Ascii.eqb c "-"); [rewrite Bool.orb_true_r; reflexivity|]. exact Hraw.
      * right. right. split; [reflexivity|]. split; [reflexivity|]. split; [reflexivity|].
        apply Bool.orb_false_iff in Hraw. apply Hraw.
Qed.

Lemma consume_name_S (f : nat) (c : ascii) (r acc : string) :
  consume_name (S f) (String c r) acc
    = if is_name_char c then consume_name f r (acc ++ chr c)
      else if valid_escape (String c r) then
             let (e, rest) := consume_escape r in consume_name f rest (acc ++ e)
           else (acc, String c r).
Proof. reflexivity. Qed.

Lemma consume_string_S (f : nat) (q c : ascii) (r acc : string) :
  consume_string (S f) q (String c r) acc
    = if Ascii.eqb c q then (TString acc, r)
      else if is_newline c then (TBadString, String c r)
      else if Ascii.eqb c backslash then
        match r with
        | EmptyString => consume_string f q r acc
        | String d r' =>
            if is_newline d then consume_string f q r' acc
            else let (e, rest) := consume_escape r in
                 consume_string f q rest (acc ++ e)
        end
      else consume_string f q r (acc ++ chr c).
Proof. reflexivity. Qed.

(** The escape of a code point is read back as the character. *)
Lemma consume_escape_code_point (c : ascii) (tail : string) :
  is_control c || Str.is_digit c = true ->
  exists h t,
    (escape_as_code_point c ++ tail)%string = String backslash (String h t)
    /\ is_newline h = false
    /\ consume_escape (String h t) = (chr c, tail).
Proof.
  intros Hc.
  assert (Hn : exists n, c = ascii_of_N n
                         /\ ((1 <= n <= 31)%N \/ n = 127%N \/ (48 <= n <= 57)%N)).
  { exists (Str.code c). split; [symmetry; apply ascii_N_embedding|].
    char_arith. }
  destruct Hn as (n & -> & Hn).
  assert (Hcases :
            In n [1;2;3;4;5;6;7;8;9;10;11;12;13;14;15;16;17;18;19;20;21;22;23;24;25;
                  26;27;28;29;30;31;127;48;49;50;51;52;53;54;55;56;57]%N).
  { cbn [In]. lia. }
  clear Hc Hn. cbn [In] in Hcases.
  repeat (destruct Hcases as [<-|Hcases];
          [do 2 eexists; split; [reflexivity|]; split; reflexivity|]).
  destruct Hcases.
Qed.

End EscapeFacts.

Section RoundTrip.
Import CSS SelectorProps.

Lemma not_control_not_newline (c : ascii) :
  notNul c = true -> is_control c = false -> is_newline c = false.
Proof. intros H1 H2. char_arith. Qed.

Lemma not_alnum_not_hex (c : ascii) :
  Str.is_digit c = false -> Str.is_letter c = false -> Str.is_hex c = false.
Proof. intros H1 H2. char_arith. Qed.

Lemma consume_escape_plain (c : ascii) (tail : string) :
  Str.is_hex c = false -> consume_escape (String c tail) = (chr c, tail).
Proof. intros H. cbn [consume_escape]. rewrite H. reflexivity. Qed.

Lemma consume_name_piece (c : ascii) (r : string) (i : nat) (d sg : bool)
                         (rest acc : string) (f : nat) :
  notNul c = true ->
  consume_name (S f) (escape_from i d sg (String c r) ++ rest) acc
    = consume_name f (escape_from (S i) d sg r ++ rest) (acc ++ chr c).
Proof.
  intros Hc.
  destruct (escape_from_cons c r i d sg Hc) as [[-> Hx]|[(-> & Hx & _)|(-> & H1 & H2 & H3)]].
  - rewrite append_assoc.
    destruct (consume_escape_code_point c (escape_from (S i) d sg r ++ rest) Hx)
      as (h & t & -> & Hh & He).
    rewrite consume_name_S.
    change (is_name_char backslash) with false. cbn iota.
    cbn [valid_escape]. rewrite Hh. change (Ascii.eqb backslash backslash) with true.
    cbn [andb negb]. rewrite He. reflexivity.
  - cbn [append]. rewrite consume_name_S, (raw_is_name_char c Hx). reflexivity.
  - cbn [append]. rewrite consume_name_S.
    change (is_name_char backslash) with false. cbn iota.
    cbn [valid_escape]. rewrite (not_control_not_newline c Hc H1).
    change (Ascii.eqb backslash backslash) with true. cbn [andb negb].
    rewrite (consume_escape_plain c _ (not_alnum_not_hex c H2 H3)). reflexivity.
Qed.

Lemma consume_string_piece (c : ascii) (r : string) (i : nat) (d sg : bool)
                           (rest acc : string) (f : nat) :
  notNul c = true ->
  consume_string (S f) dquote (escape_from i d sg (String c r) ++ rest) acc
    = consume_string f dquote (escape_from (S i) d sg r ++ rest) (acc ++ chr c).
Proof.
  intros Hc.
  destruct (escape_from_cons c r i d sg Hc) as [[-> Hx]|[(-> & Hx & _)|(-> & H1 & H2 & H3)]].
  - rewrite append_assoc.
    destruct (consume_escape_code_point c (escape_from (S i) d sg r ++ rest) Hx)
      as (h & t & -> & Hh & He).
    rewrite consume_string_S.
    change (Ascii.eqb backslash dquote) with false.
    change (is_newline backslash) with false.
    change (Ascii.eqb backslash backslash) with true. cbn iota.
    rewrite Hh, He. reflexivity.
  - cbn [append]. rewrite consume_string_S.
    destruct (raw_in_string c Hx) as (-> & -> & ->). reflexivity.
  - cbn [append]. rewrite consume_string_S.
    change (Ascii.eqb backslash dquote) with false.
    change (is_newline backslash) with false.
    change (Ascii.eqb backslash backslash) with true. cbn iota.
    rewrite (not_control_not_newline c Hc H1).
    rewrite (consume_escape_plain c _ (not_alnum_not_hex c H2 H3)). reflexivity.
Qed.

Lemma append_chr (acc : string) (c : ascii) (s : string) :
  ((acc ++ chr c) ++ s = acc ++ String c s)%string.
Proof. rewrite append_assoc. reflexivity. Qed.

(** Reading an escaped string back as a name gives the string. *)
Lemma consume_name_escaped (s : string) :
  forall (i : nat) (d sg : bool) (rest acc : string) (f : nat),
    noNul s = true ->
    consume_name (String.length s + f) (escape_from i d sg s ++ rest) acc
      = consume_name f rest (acc ++ s).
Proof.
  induction s as [|c s IH]; intros i d sg rest acc f Hs.
  - cbn. rewrite append_nil_r. reflexivity.
  - cbn [noNul Str.forallb_chars] in Hs. apply andb_true_iff in Hs.
    destruct Hs as [Hc Hs].
    cbn [String.length Nat.add]. rewrite (consume_name_piece c s i d sg rest acc _ Hc).
    rewrite IH by exact Hs. rewrite append_chr. reflexivity.
Qed.

(** Reading an escaped string back between double quotes gives the
    string. *)
Lemma consume_string_escaped (s : string) :
  forall (i : nat) (d sg : bool) (rest acc : string) (f : nat),
    noNul s = true ->
    consume_string (String.length s + S f) dquote
                   (escape_from i d sg s ++ String dquote rest) acc
      = (TString (acc ++ s), rest).
Proof.
  induction s as [|c s IH]; intros i d sg rest acc f Hs.
  - cbn [String.length Nat.add escape_from append].
    rewrite consume_string_S. change (Ascii.eqb dquote dquote) with true.
    cbn iota. rewrite append_nil_r. reflexivity.
  - cbn [noNul Str.forallb_chars] in Hs. apply andb_true_iff in Hs.
    destruct Hs as [Hc Hs].
    cbn [String.length Nat.add].
    rewrite (consume_string_piece c s i d sg _ acc _ Hc).
    rewrite IH by exact Hs. rewrite append_chr. reflexivity.
Qed.

Lemma consume_name_stop (rest : string) (f : nat) (acc : string) :
  endsName rest = true -> consume_name f rest acc = (acc, rest).
Proof.
  intros H. destruct f as [|f]; [reflexivity|].
  destruct rest as [|c r]; [reflexivity|].
  rewrite consume_name_S. cbn [endsName] in H.
  apply andb_true_iff in H. destruct H as [H1 H2].
  apply Bool.negb_true_iff in H1, H2. rewrite H1.
  cbn [valid_escape]. destruct r; rewrite H2; reflexivity.
Qed.

End RoundTrip.

Section TokenFacts.
Import CSS SelectorProps.

Lemma tokens_of_nil (f : nat) : tokens_of f "" = [].
Proof. destruct f; reflexivity. Qed.

Lemma name_start_facts (c : ascii) :
  is_name_start c = true ->
  is_ws c = false /\ Ascii.eqb c dquote || Ascii.eqb c squote = false
  /\ Ascii.eqb c "#" = false /\ Ascii.eqb c "(" = false /\ Ascii.eqb c ")" = false
  /\ Ascii.eqb c "[" = false /\ Ascii.eqb c "]" = false /\ Ascii.eqb c "," = false
  /\ Ascii.eqb c ":" = false /\ Ascii.eqb c "+" || Ascii.eqb c "." = false
  /\ Ascii.eqb c "-" = false /\ Ascii.eqb c "/" = false /\ Str.is_digit c = false.
Proof. intros H. char_arith. Qed.

Lemma ident_dispatch (f : nat) (s : string) :
  starts_ident s = true -> starts_number s = false ->
  tokens_of (S f) s
    = fst (consume_ident_like f s) :: tokens_of f (snd (consume_ident_like f s)).
Proof.
  intros Hi Hn. destruct s as [|c r]; [discriminate|].
  cbn [tokens_of].
  destruct (Ascii.eqb_spec c "-") as [->|Hdash].
  - set (K := consume_ident_like f _). set (N := consume_numeric f _).
    rewrite Hn, Hi. reflexivity.
  - cbn [starts_ident] in Hi.
    destruct (Ascii.eqb c "-") eqn:Hd; [apply Ascii.eqb_eq in Hd; contradiction|].
    destruct (is_name_start c) eqn:Hs.
    + destruct (name_start_facts c Hs)
        as (-> & -> & -> & -> & -> & -> & -> & -> & -> & -> & _ & -> & ->).
      reflexivity.
    + assert (Hb : c = backslash).
      { destruct r; cbn [valid_escape] in Hi.
        - apply Ascii.eqb_eq, Hi.
        - apply andb_true_iff in Hi. apply Ascii.eqb_eq, Hi. }
      subst c. rewrite Hi. reflexivity.
Qed.

End TokenFacts.

Section EscapedIdent.
Import CSS SelectorProps.

Lemma raw_second_char (c : ascii) :
  rawChar c = true -> Str.is_digit c = false ->
  is_name_start c || Ascii.eqb c "-" = true /\ Ascii.eqb c "." = false.
Proof. intros H1 H2. char_arith. Qed.

Lemma raw_first_char (c : ascii) :
  rawChar c = true -> Str.is_digit c = false -> Ascii.eqb c "-" = false ->
  is_name_start c = true.
Proof. intros H1 H2 H3. char_arith. Qed.

Lemma after_backslash (h : ascii) (t : string) :
  is_newline h = false ->
  starts_ident (String backslash (String h t)) = true
  /\ starts_number (String backslash (String h t)) = false
  /\ starts_ident (String "-" (String backslash (String h t))) = true
  /\ starts_number (String "-" (String backslash (String h t))) = false.
Proof.
  intros Hh. cbn [starts_ident starts_number starts_digit valid_escape].
  rewrite Hh. repeat split; reflexivity.
Qed.

(** An escaped string starts an identifier, never a number. *)
Lemma escape_starts (s rest : string) :
  s <> "" -> noNul s = true ->
  starts_ident (escape s ++ rest) = true /\ starts_number (escape s ++ rest) = false.
Proof.
  intros Hne Hs. destruct s as [|c1 s']; [contradiction|].
  cbn [noNul Str.forallb_chars] in Hs. apply andb_true_iff in Hs. destruct Hs as [Hc1 Hs'].
  destruct (Ascii.eqb_spec c1 "-") as [->|Hd].
  - destruct s' as [|c2 s'']; [split; reflexivity|].
    cbn [noNul Str.forallb_chars] in Hs'. apply andb_true_iff in Hs'.
    destruct Hs' as [Hc2 _].
    change (escape (String "-" (String c2 s'')))
      with (String "-" (escape_from 1 true false (String c2 s''))).
    destruct (escape_from_cons c2 s'' 1 true false Hc2)
      as [[-> Hx]|[(-> & Hx & Hdig)|(-> & H1 & H2 & H3)]].
    + cbn [append]. rewrite append_assoc.
      destruct (consume_escape_code_point c2 (escape_from 2 true false s'' ++ rest) Hx)
        as (h & t & -> & Hh & _).
      destruct (after_backslash h t Hh) as (_ & _ & A & B). split; assumption.
    + assert (Hnd : Str.is_digit c2 = false).
      { destruct (Str.is_digit c2); [|reflexivity].
        destruct (Hdig eq_refl) as [_ H]. discriminate H. }
      destruct (raw_second_char c2 Hx Hnd) as [A B].
      cbn [append starts_ident starts_number starts_digit].
      change (Ascii.eqb "-" "-") with true.
      change (Ascii.eqb "-" "+" || true) with true. cbn iota.
      rewrite Hnd, B. split; [|reflexivity].
      destruct (is_name_start c2 || Ascii.eqb c2 "-"); [reflexivity|discriminate].
    + cbn [append].
      destruct (after_backslash c2 (escape_from 2 true false s'' ++ rest)
                  (not_control_not_newline c2 Hc2 H1)) as (_ & _ & A & B).
      split; assumption.
  - unfold escape.
    destruct (escape_from_cons c1 s' 0 (Str.startsWith "-" (String c1 s'))
                (String.length (String c1 s') =? 1)%nat Hc1)
      as [[-> Hx]|[(-> & Hx & Hdig)|(-> & H1 & H2 & H3)]].
    + rewrite append_assoc.
      match goal with
      | |- context [(escape_as_code_point c1 ++ ?tail)%string] =>
          destruct (consume_escape_code_point c1 tail Hx) as (h & t & -> & Hh & _)
      end.
      destruct (after_backslash h t Hh) as (A & B & _). split; assumption.
    + assert (Hnd : Str.is_digit c1 = false).
      { destruct (Str.is_digit c1); [|reflexivity].
        destruct (Hdig eq_refl) as [H _]. discriminate H. }
      assert (Hdash : Ascii.eqb c1 "-" = false) by (apply Ascii.eqb_neq, Hd).
      pose proof (raw_first_char c1 Hx Hnd Hdash) as Hstart.
      destruct (name_start_facts c1 Hstart)
        as (_ & _ & _ & _ & _ & _ & _ & _ & _ & Hplus & _ & _ & _).
      apply Bool.orb_false_iff in Hplus. destruct Hplus as [Hp Hdot].
      cbn [append starts_ident starts_number].
      rewrite Hdash, Hstart, Hp, Hdot, Hnd. split; reflexivity.
    + cbn [append].
      match goal with
      | |- context [String backslash (String c1 ?tail)] =>
          destruct (after_backslash c1 tail (not_control_not_newline c1 Hc1 H1))
            as (A & B & _)
      end.
      split; assumption.
Qed.

Lemma hash_dispatch (f : nat) (s : string) :
  starts_ident s = true ->
  tokens_of (S f) (String "#" s)
    = THash (fst (consume_name f s "")) true :: tokens_of f (snd (consume_name f s "")).
Proof.
  intros Hi. cbn [tokens_of].
  change (is_ws "#") with false.
  change (Ascii.eqb "#" dquote || Ascii.eqb "#" squote) with false.
  change (Ascii.eqb "#" "#") with true. cbn iota.
  assert (Hc : (match s with String d _ => is_name_char d | EmptyString => false end)
               || valid_escape s = true).
  { destruct s as [|c r]; [discriminate|]. cbn [starts_ident] in Hi.
    destruct (Ascii.eqb_spec c "-") as [->|_]; [reflexivity|].
    unfold is_name_char. destruct (is_name_start c); [reflexivity|].
    rewrite Hi. apply Bool.orb_true_r. }
  rewrite Hc, Hi. destruct (consume_name f s ""). reflexivity.
Qed.

End EscapedIdent.

Section TokenSteps.
Import CSS SelectorProps.

Lemma escape_length (s : string) :
  forall (i : nat) (d sg : bool),
    noNul s = true -> (String.length s <= String.length (escape_from i d sg s))%nat.
Proof.
  induction s as [|c s IH]; intros i d sg Hs; [cbn; lia|].
  cbn [noNul Str.forallb_chars] in Hs. apply andb_true_iff in Hs. destruct Hs as [Hc Hs].
  specialize (IH (S i) d sg Hs).
  destruct (escape_from_cons c s i d sg Hc) as [[-> Hx]|[(-> & _)|(-> & _)]].
  - destruct (consume_escape_code_point c (escape_from (S i) d sg s) Hx)
      as (h & t & -> & _ & He).
    cbn [consume_escape] in He.
    assert (Hlen : (String.length (escape_from (S i) d sg s) <= String.length (String h t))%nat).
    { destruct (Str.is_hex h).
      - destruct (take_hex 6 (String h t) 0) as [v rest] eqn:Ht.
        assert (Hrest : (String.length rest <= String.length (String h t))%nat).
        { clear - Ht. revert Ht. generalize 0%N. generalize (String h t). generalize 6%nat.
          induction n as [|n IHn]; intros s0 a Ht.
          - cbn in Ht. injection Ht as _ <-. lia.
          - destruct s0 as [|x s0]; cbn [take_hex] in Ht; [injection Ht as _ <-; lia|].
            destruct (Str.is_hex x); [|injection Ht as _ <-; lia].
            apply IHn in Ht. cbn [String.length]. lia. }
        destruct rest as [|w r']; injection He as _ <-; [exact Hrest|].
        destruct (is_ws w); cbn [String.length] in *; lia.
      - injection He as _ <-. cbn [String.length]. lia. }
    cbn [String.length] in *. lia.
  - cbn [String.length]. lia.
  - cbn [String.length]. lia.
Qed.

Lemma consume_name_escaped_all (s : string) (i : nat) (d sg : bool)
                               (rest acc : string) (f : nat) :
  noNul s = true -> (String.length s <= f)%nat -> endsName rest = true ->
  consume_name f (escape_from i d sg s ++ rest) acc = (acc ++ s, rest)%string.
Proof.
  intros Hs Hf Hrest.
  replace f with (String.length s + (f - String.length s))%nat by lia.
  rewrite consume_name_escaped by exact Hs. apply consume_name_stop, Hrest.
Qed.

Lemma consume_name_plain (n : string) :
  forall (rest acc : string) (f : nat),
    Str.forallb_chars is_name_char n = true ->
    consume_name (String.length n + f) (n ++ rest) acc = consume_name f rest (acc ++ n).
Proof.
  induction n as [|c n IH]; intros rest acc f Hn.
  - cbn. rewrite append_nil_r. reflexivity.
  - cbn [Str.forallb_chars] in Hn. apply andb_true_iff in Hn. destruct Hn as [Hc Hn].
    cbn [String.length Nat.add append]. rewrite consume_name_S, Hc, IH by exact Hn.
    rewrite append_chr. reflexivity.
Qed.

Lemma plainName_chars (n : string) :
  plainName n = true -> Str.forallb_chars is_name_char n = true.
Proof.
  destruct n as [|c r]; [discriminate|]. cbn [plainName Str.forallb_chars].
  intros H. apply andb_true_iff in H. destruct H as [Hc Hr].
  unfold is_name_char at 1. rewrite Hc, Hr. reflexivity.
Qed.

Lemma plainName_starts (n rest : string) :
  plainName n = true ->
  starts_ident (n ++ rest) = true /\ starts_number (n ++ rest) = false.
Proof.
  destruct n as [|c r]; [discriminate|]. cbn [plainName].
  intros H. apply andb_true_iff in H. destruct H as [Hc _].
  destruct (name_start_facts c Hc)
    as (_ & _ & _ & _ & _ & _ & _ & _ & _ & Hplus & Hdash & _ & Hdig).
  apply Bool.orb_false_iff in Hplus. destruct Hplus as [Hp Hdot].
  cbn [append starts_ident starts_number]. rewrite Hdash, Hc, Hp, Hdot, Hdig.
  split; reflexivity.
Qed.

Lemma ident_like_stop (name rest : string) :
  endsIdent rest = true ->
  (match rest with
   | String c r => if Ascii.eqb c "(" then (TFunction name, r) else (TIdent name, rest)
   | EmptyString => (TIdent name, rest)
   end) = (TIdent name, rest).
Proof.
  unfold endsIdent. intros H. apply andb_true_iff in H. destruct H as [_ H].
  destruct rest as [|c r]; [reflexivity|].
  cbn [Str.startsWith] in H. rewrite Bool.andb_true_r in H.
  apply Bool.negb_true_iff in H. rewrite Ascii.eqb_sym, H. reflexivity.
Qed.

Lemma endsIdent_name (rest : string) : endsIdent rest = true -> endsName rest = true.
Proof. unfold endsIdent. intros H. apply andb_true_iff in H. apply H. Qed.

(** An identifier that needs no escaping is one token. *)
Lemma step_ident (n rest : string) (fuel : nat) :
  plainName n = true -> endsIdent rest = true -> (String.length n < fuel)%nat ->
  tokens_of fuel (n ++ rest) = TIdent n :: tokens_of (Nat.pred fuel) rest.
Proof.
  intros Hn Hrest Hf. destruct fuel as [|f]; [lia|]. cbn [Nat.pred].
  destruct (plainName_starts n rest Hn) as [Hi Hnum].
  assert (Hc : consume_name f (n ++ rest) "" = (n, rest)).
  { replace f with (String.length n + (f - String.length n))%nat by lia.
    rewrite consume_name_plain by (apply plainName_chars, Hn).
    apply (consume_name_stop rest _ _ (endsIdent_name rest Hrest)). }
  rewrite (ident_dispatch f _ Hi Hnum). unfold consume_ident_like.
  rewrite Hc, (ident_like_stop n rest Hrest). reflexivity.
Qed.

(** A name followed by an opening parenthesis is a function token. *)
Lemma step_function (n rest : string) (fuel : nat) :
  plainName n = true -> (String.length n < fuel)%nat ->
  tokens_of fuel (n ++ String "(" rest) = TFunction n :: tokens_of (Nat.pred fuel) rest.
Proof.
  intros Hn Hf. destruct fuel as [|f]; [lia|]. cbn [Nat.pred].
  destruct (plainName_starts n (String "(" rest) Hn) as [Hi Hnum].
  assert (Hc : consume_name f (n ++ String "(" rest) "" = (n, String "(" rest)).
  { replace f with (String.length n + (f - String.length n))%nat by lia.
    rewrite consume_name_plain by (apply plainName_chars, Hn).
    apply (consume_name_stop (String "(" rest) _ _ eq_refl). }
  rewrite (ident_dispatch f _ Hi Hnum). unfold consume_ident_like.
  rewrite Hc. reflexivity.
Qed.

(** The escape of a string is one identifier token, the string. *)
Lemma step_escaped_ident (s rest : string) (fuel : nat) :
  s <> "" -> noNul s = true -> endsIdent rest = true ->
  (String.length s < fuel)%nat ->
  tokens_of fuel (escape s ++ rest) = TIdent s :: tokens_of (Nat.pred fuel) rest.
Proof.
  intros Hne Hs Hrest Hf. destruct fuel as [|f]; [lia|]. cbn [Nat.pred].
  destruct (escape_starts s rest Hne Hs) as [Hi Hnum].
  assert (Hc : consume_name f (escape s ++ rest) "" = (s, rest)).
  { unfold escape. rewrite consume_name_escaped_all;
      [reflexivity|exact Hs|lia|apply endsIdent_name, Hrest]. }
  rewrite (ident_dispatch f _ Hi Hnum). unfold consume_ident_like.
  rewrite Hc, (ident_like_stop s rest Hrest). reflexivity.
Qed.

(** [#] and the escape of a string are one hash token of type id. *)
Lemma step_hash (s rest : string) (fuel : nat) :
  s <> "" -> noNul s = true -> endsName rest = true ->
  (String.length s < fuel)%nat ->
  tokens_of fuel (String "#" (escape s ++ rest))
    = THash s true :: tokens_of (Nat.pred fuel) rest.
Proof.
  intros Hne Hs Hrest Hf. destruct fuel as [|f]; [lia|]. cbn [Nat.pred].
  destruct (escape_starts s rest Hne Hs) as [Hi _].
  assert (Hc : consume_name f (escape s ++ rest) "" = (s, rest)).
  { unfold escape. rewrite consume_name_escaped_all;
      [reflexivity|exact Hs|lia|exact Hrest]. }
  rewrite (hash_dispatch f _ Hi), Hc. reflexivity.
Qed.

(** A double-quoted escape of a string is one string token, the
    string. *)
Lemma step_string (v rest : string) (fuel : nat) :
  noNul v = true -> (String.length v + 1 < fuel)%nat ->
  tokens_of fuel (String dquote (escape v ++ String dquote rest))
    = TString v :: tokens_of (Nat.pred fuel) rest.
Proof.
  intros Hv Hf. destruct fuel as [|f]; [lia|]. cbn [Nat.pred tokens_of].
  change (is_ws dquote) with false.
  change (Ascii.eqb dquote dquote || Ascii.eqb dquote squote) with true. cbn iota.
  assert (Hc : consume_string f dquote (escape v ++ String dquote rest) ""
               = (TString v, rest)).
  { unfold escape.
    replace f with (String.length v + S (f - String.length v - 1))%nat by lia.
    rewrite consume_string_escaped by exact Hv. reflexivity. }
  rewrite Hc. reflexivity.
Qed.

End TokenSteps.

Section NumberFacts.
Import CSS SelectorProps.

Lemma digit_char_digit (d : N) :
  (d < 10)%N ->
  Str.is_digit (Str.digit_char d) = true
  /\ Z.of_N (Str.code (Str.digit_char d) - 48) = Z.of_N d.
Proof.
  intros Hd.
  assert (H : In d [0;1;2;3;4;5;6;7;8;9]%N) by (cbn [In]; lia).
  cbn [In] in H.
  repeat (destruct H as [<-|H]; [split; reflexivity|]). destruct H.
Qed.

Lemma take_digits_to_radix (fuel : nat) :
  forall (n : N) (acc rest : string),
    (n < 2 ^ N.of_nat fuel)%N ->
    take_digits (Str.to_radix_aux fuel 10 n acc ++ rest) 0
      = take_digits (acc ++ rest) (Z.of_N n).
Proof.
  induction fuel as [|f IH]; intros n acc rest Hn.
  - cbn in Hn. assert (n = 0%N) by lia. subst n. reflexivity.
  - cbn [Str.to_radix_aux].
    destruct (digit_char_digit (n mod 10)) as [Hd Hv];
      [apply N.mod_upper_bound; discriminate|].
    destruct (N.eqb_spec (n / 10) 0) as [Hz|Hnz].
    + cbn [append take_digits]. rewrite Hd, Hv. f_equal.
      pose proof (N.div_mod n 10). lia.
    + rewrite IH.
      * cbn [append take_digits]. rewrite Hd, Hv. f_equal.
        pose proof (N.div_mod n 10). lia.
      * rewrite Nat2N.inj_succ, N.pow_succ_r' in Hn.
        apply N.Div0.div_lt_upper_bound. lia.
Qed.

Lemma to_radix_aux_head (fuel : nat) :
  forall (n : N) (c : ascii) (r : string),
    Str.is_digit c = true ->
    exists c' r', Str.to_radix_aux fuel 10 n (String c r) = String c' r'
                  /\ Str.is_digit c' = true.
Proof.
  induction fuel as [|f IH]; intros n c r Hc.
  - exists c, r. split; [reflexivity | exact Hc].
  - cbn [Str.to_radix_aux].
    destruct (digit_char_digit (n mod 10)) as [Hd _];
      [apply N.mod_upper_bound; discriminate|].
    destruct (n / 10 =? 0)%N; [do 2 eexists; split; [reflexivity | exact Hd]|].
    apply IH, Hd.
Qed.

Lemma to_radix_head (n : N) :
  exists c r, Str.to_radix 10 n = String c r /\ Str.is_digit c = true.
Proof.
  unfold Str.to_radix. cbn [Str.to_radix_aux].
  destruct (digit_char_digit (n mod 10)) as [Hd _];
    [apply N.mod_upper_bound; discriminate|].
  destruct (n / 10 =? 0)%N; [do 2 eexists; split; [reflexivity | exact Hd]|].
  apply to_radix_aux_head, Hd.
Qed.

Lemma take_digits_decimal (n : N) (rest : string) :
  starts_digit rest = false ->
  take_digits (Str.to_radix 10 n ++ rest) 0 = (Z.of_N n, rest).
Proof.
  intros Hrest. unfold Str.to_radix. rewrite take_digits_to_radix.
  - cbn [append]. destruct rest as [|c r]; [reflexivity|].
    cbn [starts_digit] in Hrest. cbn [take_digits]. rewrite Hrest. reflexivity.
  - rewrite Nat2N.inj_succ, N2Nat.id.
    destruct (N.eq_dec n 0) as [->|Hpos]; [reflexivity|].
    apply N.log2_spec. lia.
Qed.

Lemma digit_facts (c : ascii) :
  Str.is_digit c = true ->
  is_ws c = false /\ Ascii.eqb c dquote || Ascii.eqb c squote = false
  /\ Ascii.eqb c "#" = false /\ Ascii.eqb c "(" = false /\ Ascii.eqb c ")" = false
  /\ Ascii.eqb c "[" = false /\ Ascii.eqb c "]" = false /\ Ascii.eqb c "," = false
  /\ Ascii.eqb c ":" = false /\ Ascii.eqb c "+" || Ascii.eqb c "." = false
  /\ Ascii.eqb c "-" = false /\ Ascii.eqb c "/" = false /\ Ascii.eqb c "+" = false.
Proof. intros H. char_arith. Qed.

(** A non-negative integer in decimal, before a closing parenthesis,
    is one integer token. *)
Lemma step_number (idx : Z) (rest : string) (fuel : nat) :
  0 <= idx -> (0 < fuel)%nat ->
  tokens_of fuel (Str.of_Z idx ++ String ")" rest)
    = TNumber idx true :: tokens_of (Nat.pred fuel) (String ")" rest).
Proof.
  intros Hidx Hf. destruct fuel as [|f]; [lia|]. cbn [Nat.pred].
  unfold Str.of_Z. destruct (Z.ltb_spec idx 0) as [|_]; [lia|].
  pose proof (take_digits_decimal (Z.to_N idx) (String ")" rest) eq_refl) as Htake.
  destruct (to_radix_head (Z.to_N idx)) as (c & r & Hs & Hc).
  rewrite Hs in *. cbn [append] in *.
  cbn [tokens_of].
  destruct (digit_facts c Hc)
    as (-> & -> & -> & -> & -> & -> & -> & -> & -> & -> & Hdash & -> & Hplus).
  rewrite Hdash, Hc. cbn [andb]. cbv iota.
  assert (Hnum : consume_numeric f (String c (r ++ String ")" rest))
                 = (TNumber idx true, String ")" rest)).
  { unfold consume_numeric. rewrite Hdash, Hplus, Htake.
    cbn. rewrite Z2N.id by exact Hidx.
    destruct rest; destruct idx; reflexivity. }
  rewrite Hnum. reflexivity.
Qed.

End NumberFacts.

Section TagFacts.
Import CSS SelectorProps.

Lemma code_of_N (n : N) : (n < 256)%N -> Str.code (ascii_of_N n) = n.
Proof. intros H. apply N_ascii_embedding, H. Qed.

Lemma tagChar_case (c : ascii) :
  tagChar c = true ->
  Str.lower_char (Str.upper_char c) = c /\ Str.lower_char c = c
  /\ is_name_char c = true.
Proof.
  intros Ht.
  assert (Hup : Str.is_upper c = false) by char_arith.
  assert (Hname : is_name_char c = true) by char_arith.
  split; [|split; [|exact Hname]].
  - unfold Str.upper_char. destruct (Str.is_lower c) eqn:Hl.
    + assert (Hc : (97 <= Str.code c <= 122)%N) by char_arith.
      unfold Str.lower_char.
      assert (Hu : Str.is_upper (ascii_of_N (Str.code c - 32)) = true).
      { unfold Str.is_upper, Str.between. rewrite code_of_N by lia.
        apply andb_true_iff. split; apply N.leb_le; lia. }
      rewrite Hu, code_of_N by lia.
      replace (Str.code c - 32 + 32)%N with (Str.code c) by lia.
      apply ascii_N_embedding.
    + unfold Str.lower_char. rewrite Hup. reflexivity.
  - unfold Str.lower_char. rewrite Hup. reflexivity.
Qed.

Lemma tagChars_case (r : string) :
  Str.forallb_chars tagChar r = true ->
  Str.toLowerCase (Str.toUpperCase r) = r /\ Str.toLowerCase r = r
  /\ Str.forallb_chars is_name_char r = true.
Proof.
  induction r as [|c r IH]; intros H; [repeat split; reflexivity|].
  cbn [Str.forallb_chars] in H. apply andb_true_iff in H. destruct H as [Hc Hr].
  destruct (tagChar_case c Hc) as (A & B & C). destruct (IH Hr) as (A' & B' & C').
  unfold Str.toLowerCase, Str.toUpperCase in *.
  cbn [Str.map_chars Str.forallb_chars]. rewrite A, B, C, A', B', C'.
  repeat split; reflexivity.
Qed.

Lemma plainTag_case (t : string) :
  plainTag t = true ->
  Str.toLowerCase (Str.toUpperCase t) = t /\ Str.toLowerCase t = t
  /\ plainName t = true.
Proof.
  destruct t as [|c r]; [discriminate|]. cbn [plainTag]. intros H.
  apply andb_true_iff in H. destruct H as [Hc Hr].
  assert (Htc : tagChar c = true) by (unfold tagChar; rewrite Hc; reflexivity).
  assert (Hs : is_name_start c = true) by char_arith.
  destruct (tagChar_case c Htc) as (A & B & _).
  destruct (tagChars_case r Hr) as (A' & B' & C').
  unfold Str.toLowerCase, Str.toUpperCase in *.
  cbn [Str.map_chars plainName]. rewrite A, B, A', B', C', Hs.
  repeat split; reflexivity.
Qed.

End TagFacts.

Section StreamFacts.
Import CSS SelectorProps.

Lemma forallb_chars_append (p : ascii -> bool) (a b : string) :
  Str.forallb_chars p (a ++ b) = Str.forallb_chars p a && Str.forallb_chars p b.
Proof.
  induction a as [|c a IH]; [reflexivity|].
  cbn [append Str.forallb_chars]. rewrite IH, Bool.andb_assoc. reflexivity.
Qed.

Lemma forallb_chars_weaken (p q : ascii -> bool) (s : string) :
  (forall c, p c = true -> q c = true) ->
  Str.forallb_chars p s = true -> Str.forallb_chars q s = true.
Proof.
  intros Hpq. induction s as [|c s IH]; [reflexivity|].
  cbn [Str.forallb_chars]. intros H. apply andb_true_iff in H. destruct H as [Hc Hs].
  rewrite (Hpq c Hc), (IH Hs). reflexivity.
Qed.

(** Preprocessing changes nothing in a text without NUL, form feed and
    carriage return. *)
Lemma preprocess_safe (s : string) : streamSafe s = true -> preprocess s = s.
Proof.
  unfold streamSafe. induction s as [|c s IH]; [reflexivity|].
  cbn [Str.forallb_chars]. intros H. apply andb_true_iff in H. destruct H as [Hc Hs].
  unfold streamChar in Hc. apply andb_true_iff in Hc. destruct Hc as [Hc H13].
  apply andb_true_iff in Hc. destruct Hc as [H0 H12].
  apply Bool.negb_true_iff in H0, H12, H13.
  cbn [preprocess]. rewrite H0, H12, H13, (IH Hs). reflexivity.
Qed.

Lemma tokenize_safe (s : string) :
  streamSafe s = true -> tokenize s = tokens_of (S (String.length s)) s.
Proof. intros H. unfold tokenize. rewrite (preprocess_safe s H). reflexivity. Qed.

Lemma name_char_stream (c : ascii) : is_name_char c = true -> streamChar c = true.
Proof. intros H. char_arith. Qed.

Lemma digit_stream (c : ascii) : Str.is_digit c = true -> streamChar c = true.
Proof. intros H. char_arith. Qed.

Lemma raw_stream (c : ascii) : rawChar c = true -> streamChar c = true.
Proof. intros H. char_arith. Qed.

Lemma visible_stream (c : ascii) :
  notNul c = true -> is_control c = false -> streamChar c = true.
Proof. intros H1 H2. char_arith. Qed.

Lemma code_point_stream (c : ascii) :
  is_control c || Str.is_digit c = true -> streamSafe (escape_as_code_point c) = true.
Proof.
  intros Hc.
  assert (Hn : exists n, c = ascii_of_N n
                         /\ ((1 <= n <= 31)%N \/ n = 127%N \/ (48 <= n <= 57)%N)).
  { exists (Str.code c). split; [symmetry; apply ascii_N_embedding|].
    char_arith. }
  destruct Hn as (n & -> & Hn).
  assert (Hcases :
            In n [1;2;3;4;5;6;7;8;9;10;11;12;13;14;15;16;17;18;19;20;21;22;23;24;25;
                  26;27;28;29;30;31;127;48;49;50;51;52;53;54;55;56;57]%N).
  { cbn [In]. lia. }
  clear Hc Hn. cbn [In] in Hcases.
  repeat (destruct Hcases as [<-|Hcases]; [reflexivity|]).
  destruct Hcases.
Qed.

(** [CSS.escape] leaves nothing for the preprocessing to change. *)
Lemma escape_stream (s : string) :
  forall (i : nat) (d sg : bool), streamSafe (escape_from i d sg s) = true.
Proof.
  unfold streamSafe. induction s as [|c s IH]; intros i d sg; [reflexivity|].
  destruct (notNul c) eqn:Hc.
  - destruct (escape_from_cons c s i d sg Hc) as [[-> Hx]|[(-> & Hx & _)|(-> & H1 & _)]].
    + rewrite forallb_chars_append, IH, Bool.andb_true_r.
      apply code_point_stream, Hx.
    + cbn [Str.forallb_chars]. rewrite IH, (raw_stream c Hx). reflexivity.
    + cbn [Str.forallb_chars]. rewrite IH, (visible_stream c Hc H1). reflexivity.
  - cbn [escape_from]. unfold notNul in Hc. apply Bool.negb_false_iff in Hc.
    rewrite Hc, forallb_chars_append, IH. reflexivity.
Qed.

Lemma plainName_stream (n : string) : plainName n = true -> streamSafe n = true.
Proof.
  intros H. apply (forallb_chars_weaken is_name_char); [apply name_char_stream|].
  apply plainName_chars, H.
Qed.

Lemma to_radix_aux_digits (fuel : nat) :
  forall (n : N) (acc : string),
    Str.forallb_chars Str.is_digit acc = true ->
    Str.forallb_chars Str.is_digit (Str.to_radix_aux fuel 10 n acc) = true.
Proof.
  induction fuel as [|f IH]; intros n acc Hacc; [exact Hacc|].
  cbn [Str.to_radix_aux].
  destruct (digit_char_digit (n mod 10)) as [Hd _];
    [apply N.mod_upper_bound; discriminate|].
  assert (Hacc' : Str.forallb_chars Str.is_digit
                    (String (Str.digit_char (n mod 10)) acc) = true)
    by (cbn [Str.forallb_chars]; rewrite Hd, Hacc; reflexivity).
  destruct (n / 10 =? 0)%N; [exact Hacc' | apply IH, Hacc'].
Qed.

Lemma decimal_stream (idx : Z) : 0 <= idx -> streamSafe (Str.of_Z idx) = true.
Proof.
  intros Hidx. unfold Str.of_Z. destruct (Z.ltb_spec idx 0) as [|_]; [lia|].
  apply (forallb_chars_weaken Str.is_digit); [apply digit_stream|].
  apply to_radix_aux_digits. reflexivity.
Qed.

Lemma quoteSafe_stream (v : string) :
  quoteSafe v = true -> noNul v = true -> streamSafe v = true.
Proof.
  unfold quoteSafe, noNul, streamSafe. induction v as [|c v IH]; [reflexivity|].
  cbn [Str.forallb_chars]. intros H1 H2.
  apply andb_true_iff in H1. destruct H1 as [Hc1 Hv1].
  apply andb_true_iff in H2. destruct H2 as [Hc2 Hv2].
  rewrite (IH Hv1 Hv2), Bool.andb_true_r. clear IH Hv1 Hv2. cbv beta in *. char_arith.
Qed.

(** Where JavaScript and the class tokens agree on the white space,
    they split alike. *)
Lemma split_same_space (s : string) :
  forall (cur : string) (gap : bool),
    tokenSpaces s = true ->
    Str.split_aux Str.is_space s cur gap
    = Str.split_aux DOM.is_ascii_whitespace s cur gap.
Proof.
  unfold tokenSpaces. induction s as [|c s IH]; intros cur gap H; [reflexivity|].
  cbn [Str.forallb_chars] in H. apply andb_true_iff in H. destruct H as [Hc Hs].
  unfold sameSpace in Hc. apply Bool.eqb_prop in Hc.
  cbn [Str.split_aux]. rewrite <- Hc, !IH by exact Hs. reflexivity.
Qed.

End StreamFacts.

(** Closes a goal that says a selector text is left alone by the
    preprocessing. *)
Ltac stream_safe :=
  unfold SelectorProps.streamSafe;
  repeat first [ rewrite forallb_chars_append
               | progress cbn [Str.forallb_chars append CSS.quoted] ];
  repeat (apply andb_true_iff; split);
  first [ reflexivity
        | assumption
        | apply escape_stream
        | apply plainName_stream; assumption
        | apply decimal_stream; assumption
        | idtac ].

Section SelectorShapes.
Import CSS SelectorProps.

Lemma tokens_of_one (fuel : nat) (c : ascii) (r : string) (t : Token) :
  (0 < fuel)%nat ->
  (forall f, tokens_of (S f) (String c r) = t :: tokens_of f r) ->
  tokens_of fuel (String c r) = t :: tokens_of (Nat.pred fuel) r.
Proof. intros Hf H. destruct fuel as [|f]; [lia | apply H]. Qed.

(** [#] followed by an escaped id parses as an id selector. *)
Lemma parse_id_selector (id : string) :
  id <> "" -> noNul id = true ->
  parse ("#" ++ escape id) = JS.Ok [mkComplex [SId id] []].
Proof.
  intros Hne Hid. unfold parse. rewrite tokenize_safe by stream_safe. cbn [append].
  rewrite <- (append_nil_r (escape id)).
  rewrite step_hash; [|exact Hne|exact Hid|reflexivity|].
  - rewrite tokens_of_nil. reflexivity.
  - pose proof (escape_length id 0 (Str.startsWith "-" id)
                  (String.length id =? 1)%nat Hid) as Hlen.
    unfold escape. rewrite append_nil_r. cbn [String.length]. lia.
Qed.

(** The tokens of [[a="..."]], for a quoted body that is read back as
    [v]. *)
Lemma tokens_attr (a v body : string) (fuel : nat) :
  plainName a = true ->
  (forall rest f,
     (String.length body + 1 < f)%nat ->
     tokens_of f (String dquote (body ++ String dquote rest))
       = TString v :: tokens_of (Nat.pred f) rest) ->
  (String.length a + String.length body + 6 <= fuel)%nat ->
  tokens_of fuel (String "[" (a ++ String "=" (String dquote (body ++ String dquote "]"))))
    = [TLBracket; TIdent a; TDelim "="; TString v; TRBracket].
Proof.
  intros Ha Hbody Hf.
  rewrite tokens_of_one with (t := TLBracket); [|lia|reflexivity].
  rewrite step_ident; [|exact Ha|reflexivity|lia].
  rewrite tokens_of_one with (t := TDelim "="); [|lia|reflexivity].
  rewrite Hbody by lia.
  rewrite tokens_of_one with (t := TRBracket); [|lia|reflexivity].
  rewrite tokens_of_nil. reflexivity.
Qed.

Lemma attr_selector_shape (prefix a body : string) :
  (prefix ++ "[" ++ a ++ "=" ++ quoted body ++ "]")%string
    = (prefix ++ String "[" (a ++ String "=" (String dquote (body ++ String dquote "]"))))%string.
Proof.
  unfold quoted. cbn [append]. rewrite !append_assoc. reflexivity.
Qed.

Lemma attr_selector_length (a body : string) :
  String.length (String "[" (a ++ String "=" (String dquote (body ++ String dquote "]"))))
    = (String.length a + String.length body + 5)%nat.
Proof.
  cbn [String.length]. rewrite length_append. cbn [String.length].
  rewrite length_append. cbn [String.length]. lia.
Qed.

(** [[a="..."]] parses as an attribute selector. *)
Lemma parse_attr_quoted (a v body : string) :
  plainName a = true ->
  streamSafe body = true ->
  (forall rest f,
     (String.length body + 1 < f)%nat ->
     tokens_of f (String dquote (body ++ String dquote rest))
       = TString v :: tokens_of (Nat.pred f) rest) ->
  parse ("[" ++ a ++ "=" ++ quoted body ++ "]")
    = JS.Ok [mkComplex [SAttr (Str.toLowerCase a) (Equals v)] []].
Proof.
  intros Ha Hsafe Hbody.
  change ("[" ++ a ++ "=" ++ quoted body ++ "]")%string
    with ("" ++ "[" ++ a ++ "=" ++ quoted body ++ "]")%string.
  rewrite attr_selector_shape. cbn [append].
  unfold parse. rewrite tokenize_safe by stream_safe. rewrite attr_selector_length.
  rewrite (tokens_attr a v body); [reflexivity|exact Ha|exact Hbody|lia].
Qed.

(** [tag[a="..."]] parses as a type selector with an attribute
    selector. *)
Lemma parse_tag_attr_quoted (tag a v body : string) :
  plainName tag = true -> plainName a = true ->
  streamSafe body = true ->
  (forall rest f,
     (String.length body + 1 < f)%nat ->
     tokens_of f (String dquote (body ++ String dquote rest))
       = TString v :: tokens_of (Nat.pred f) rest) ->
  parse (tag ++ "[" ++ a ++ "=" ++ quoted body ++ "]")
    = JS.Ok [mkComplex [SType (Str.toLowerCase tag);
                        SAttr (Str.toLowerCase a) (Equals v)] []].
Proof.
  intros Ht Ha Hsafe Hbody. rewrite attr_selector_shape.
  unfold parse. rewrite tokenize_safe by stream_safe. rewrite length_append, attr_selector_length.
  rewrite step_ident; [|exact Ht|reflexivity|lia].
  rewrite (tokens_attr a v body); [reflexivity|exact Ha|exact Hbody|].
  assert (1 <= String.length tag)%nat by (destruct tag; [discriminate|cbn; lia]).
  cbn [Nat.pred]. lia.
Qed.

Lemma escaped_body (v : string) :
  noNul v = true ->
  forall rest f,
    (String.length (escape v) + 1 < f)%nat ->
    tokens_of f (String dquote (escape v ++ String dquote rest))
      = TString v :: tokens_of (Nat.pred f) rest.
Proof.
  intros Hv rest f Hf. apply step_string; [exact Hv|].
  pose proof (escape_length v 0 (Str.startsWith "-" v) (String.length v =? 1)%nat Hv).
  unfold escape in Hf. lia.
Qed.

Lemma parse_attr_selector (a v : string) :
  plainName a = true -> noNul v = true ->
  parse ("[" ++ a ++ "=" ++ quoted (escape v) ++ "]")
    = JS.Ok [mkComplex [SAttr (Str.toLowerCase a) (Equals v)] []].
Proof.
  intros Ha Hv.
  apply parse_attr_quoted; [exact Ha | apply escape_stream | apply escaped_body, Hv].
Qed.

Lemma parse_tag_attr_selector (tag a v : string) :
  plainName tag = true -> plainName a = true -> noNul v = true ->
  parse (tag ++ "[" ++ a ++ "=" ++ quoted (escape v) ++ "]")
    = JS.Ok [mkComplex [SType (Str.toLowerCase tag);
                        SAttr (Str.toLowerCase a) (Equals v)] []].
Proof.
  intros Ht Ha Hv.
  apply parse_tag_attr_quoted;
    [exact Ht | exact Ha | apply escape_stream | apply escaped_body, Hv].
Qed.

(** A quote-safe string between double quotes is read back as it is. *)
Lemma consume_string_raw (v : string) :
  forall (rest acc : string) (f : nat),
    quoteSafe v = true ->
    consume_string (String.length v + S f) dquote (v ++ String dquote rest) acc
      = (TString (acc ++ v), rest).
Proof.
  induction v as [|c v IH]; intros rest acc f Hv.
  - cbn [String.length Nat.add append]. rewrite consume_string_S.
    change (Ascii.eqb dquote dquote) with true. cbn iota.
    rewrite append_nil_r. reflexivity.
  - cbn [quoteSafe Str.forallb_chars] in Hv. apply andb_true_iff in Hv.
    destruct Hv as [Hc Hv].
    apply andb_true_iff in Hc. destruct Hc as [Hc H3].
    apply andb_true_iff in Hc. destruct Hc as [H1 H2].
    apply Bool.negb_true_iff in H1, H2, H3.
    cbn [String.length Nat.add append]. rewrite consume_string_S, H1, H2, H3.
    rewrite (IH rest (acc ++ chr c)%string f Hv), append_chr. reflexivity.
Qed.

Lemma raw_body (v : string) :
  quoteSafe v = true ->
  forall rest f,
    (String.length v + 1 < f)%nat ->
    tokens_of f (String dquote (v ++ String dquote rest))
      = TString v :: tokens_of (Nat.pred f) rest.
Proof.
  intros Hv rest f Hf. destruct f as [|f]; [lia|]. cbn [Nat.pred tokens_of].
  change (is_ws dquote) with false.
  change (Ascii.eqb dquote dquote || Ascii.eqb dquote squote) with true. cbn iota.
  assert (Hc : consume_string f dquote (v ++ String dquote rest) "" = (TString v, rest)).
  { replace f with (String.length v + S (f - String.length v - 1))%nat by lia.
    rewrite consume_string_raw by exact Hv. reflexivity. }
  rewrite Hc. reflexivity.
Qed.

(** [#] followed by an id that needs no escaping parses as an id
    selector. *)
Lemma parse_plain_id_selector (id : string) :
  plainName id = true -> parse ("#" ++ id) = JS.Ok [mkComplex [SId id] []].
Proof.
  intros Hid. unfold parse. rewrite tokenize_safe by stream_safe. cbn [append String.length].
  destruct (plainName_starts id "" Hid) as [Hi _]. rewrite append_nil_r in Hi.
  assert (Hc : consume_name (S (String.length id)) id "" = (id, "")).
  { pose proof (consume_name_plain id "" "" 1 (plainName_chars id Hid)) as H.
    rewrite append_nil_r in H. rewrite Nat.add_1_r in H. rewrite H. reflexivity. }
  rewrite (hash_dispatch _ _ Hi), Hc. cbn [fst snd]. reflexivity.
Qed.

Lemma starts_ident_not_digit (s : string) :
  starts_ident s = true -> starts_digit s = false.
Proof.
  destruct s as [|c r]; [reflexivity|]. cbn [starts_ident starts_digit].
  destruct (Ascii.eqb_spec c "-") as [->|_]; [reflexivity|].
  destruct (is_name_start c) eqn:Hs.
  - intros _. apply (name_start_facts c Hs).
  - intros H. assert (Hb : c = backslash).
    { destruct r; cbn [valid_escape] in H.
      - apply Ascii.eqb_eq, H.
      - apply andb_true_iff in H. apply Ascii.eqb_eq, H. }
    subst c. reflexivity.
Qed.

(** [tag.class] with an escaped class parses as a type selector with a
    class selector. *)
Lemma parse_tag_class_selector (tag cls : string) :
  plainName tag = true -> cls <> "" -> noNul cls = true ->
  parse (tag ++ "." ++ escape cls)
    = JS.Ok [mkComplex [SType (Str.toLowerCase tag); SClass cls] []].
Proof.
  intros Ht Hne Hcls.
  pose proof (escape_length cls 0 (Str.startsWith "-" cls)
                (String.length cls =? 1)%nat Hcls) as Hlen.
  fold (escape cls) in Hlen.
  unfold parse. rewrite tokenize_safe by stream_safe. rewrite length_append. cbn [append String.length].
  rewrite step_ident; [|exact Ht|reflexivity|lia].
  destruct (escape_starts cls "" Hne Hcls) as [Hi _].
  rewrite append_nil_r in Hi.
  rewrite tokens_of_one with (t := TDelim ".");
    [|lia|intros f; cbn [tokens_of starts_number];
          rewrite (starts_ident_not_digit _ Hi); reflexivity].
  assert (1 <= String.length tag)%nat by (destruct tag; [discriminate|cbn; lia]).
  set (L := String.length (escape cls)) in *.
  rewrite <- (append_nil_r (escape cls)).
  rewrite step_escaped_ident; [|exact Hne|exact Hcls|reflexivity|cbn [Nat.pred]; lia].
  rewrite tokens_of_nil. reflexivity.
Qed.

(** [tag:nth-of-type(n)] parses as a type selector with the
    pseudo-class. *)
Lemma parse_tag_nth_selector (tag : string) (idx : Z) :
  plainName tag = true -> 0 <= idx ->
  parse (tag ++ ":nth-of-type(" ++ Str.of_Z idx ++ ")")
    = JS.Ok [mkComplex [SType (Str.toLowerCase tag); SNthOfType idx] []].
Proof.
  intros Ht Hidx.
  unfold parse. rewrite tokenize_safe by stream_safe. rewrite length_append.
  change (":nth-of-type(" ++ Str.of_Z idx ++ ")")%string
    with (String ":" ("nth-of-type" ++ String "(" (Str.of_Z idx ++ String ")" "")))%string.
  cbn [String.length]. rewrite length_append. cbn [String.length].
  rewrite step_ident; [|exact Ht|reflexivity|lia].
  rewrite tokens_of_one with (t := TColon); [|lia|reflexivity].
  rewrite step_function; [|reflexivity|cbn; lia].
  rewrite step_number; [|exact Hidx|cbn; lia].
  rewrite tokens_of_one with (t := TRParen); [|cbn; lia|reflexivity].
  rewrite tokens_of_nil. reflexivity.
Qed.

(** A tag name alone parses as a type selector. *)
Lemma parse_tag_selector (tag : string) :
  plainName tag = true ->
  parse tag = JS.Ok [mkComplex [SType (Str.toLowerCase tag)] []].
Proof.
  intros Ht. unfold parse. rewrite tokenize_safe by stream_safe.
  pose proof (step_ident tag "" (S (String.length tag)) Ht eq_refl (Nat.lt_succ_diag_r _))
    as Htok.
  rewrite append_nil_r, tokens_of_nil in Htok. rewrite Htok. reflexivity.
Qed.

End SelectorShapes.

Section ResolveFacts.
Import DOM CSS SelectorProps.

Lemma resolves_by_parse (doc : Node) (sel : string) (el : NodeRef) (c : Compound) :
  parse sel = JS.Ok [mkComplex c []] ->
  In el (all_elements doc) ->
  forallb (matches_simple doc el) c = true ->
  Props.resolvesTo doc sel el = true.
Proof.
  intros Hp Hin Hm. unfold Props.resolvesTo, querySelectorAll. rewrite Hp.
  cbn [JS.bind JS.ret]. apply mem_In, filter_In. split; [exact Hin|].
  unfold matches, matches_complex, matches_compound. cbn [existsb subject leftward matches_leftward].
  rewrite Hm. reflexivity.
Qed.

Lemma first_of_cases (P : string -> Prop) (attempts : list (option string))
                     (fallback : string) :
  P fallback -> (forall s, In (Some s) attempts -> P s) ->
  P (Simple.first_of attempts fallback).
Proof.
  intros Hfb Hatt. unfold Simple.first_of.
  destruct (List.find _ attempts) as [[s|]|] eqn:Hf.
  - apply Hatt. apply find_some in Hf. apply Hf.
  - apply find_some in Hf. destruct Hf as [_ Hf]. discriminate Hf.
  - exact Hfb.
Qed.

Lemma assoc_In {A} (k : string) (l : list (string * A)) (v : A) :
  JS.assoc k l = Some v -> In (k, v) l.
Proof.
  induction l as [|[k' v'] l IH]; cbn [JS.assoc]; [discriminate|].
  destruct (String.eqb_spec k k') as [->|_].
  - intros H. injection H as ->. left. reflexivity.
  - intros H. right. apply IH, H.
Qed.

Lemma scannable_parts (doc : Node) (el : NodeRef) :
  scannable doc el = true ->
  plainTag (localName doc el) = true
  /\ forallb (fun kv => noNul (snd kv)) (attributes doc el) = true
  /\ tokenSpaces (className doc el) = true.
Proof.
  unfold scannable. intros H. apply andb_true_iff in H. destruct H as [H H3].
  apply andb_true_iff in H. destruct H as [H1 H2]. repeat split; assumption.
Qed.

Lemma attribute_noNul (doc : Node) (el : NodeRef) (a v : string) :
  scannable doc el = true -> getAttribute doc el a = Some v -> noNul v = true.
Proof.
  intros H Ha. destruct (scannable_parts doc el H) as (_ & H' & _).
  rewrite forallb_forall in H'. apply (H' (a, v)). apply assoc_In, Ha.
Qed.

Lemma reflected_noNul (doc : Node) (el : NodeRef) (a : string) :
  scannable doc el = true -> noNul (reflected doc el a) = true.
Proof.
  intros H. unfold reflected. destruct (getAttribute doc el a) as [v|] eqn:Ha;
    [apply (attribute_noNul doc el a v H Ha) | reflexivity].
Qed.

Lemma nonempty_ne (s : string) : Str.nonempty s = true -> s <> "".
Proof.
  unfold Str.nonempty. intros H. apply Bool.negb_true_iff in H.
  apply String.eqb_neq, H.
Qed.

Lemma reflected_attribute (doc : Node) (el : NodeRef) (a : string) :
  Str.nonempty (reflected doc el a) = true ->
  getAttribute doc el a = Some (reflected doc el a).
Proof.
  unfold reflected. destruct (getAttribute doc el a); [reflexivity|discriminate].
Qed.

Lemma forallb_chars_rev_acc (p : ascii -> bool) (s : string) :
  forall acc,
    Str.forallb_chars p s = true -> Str.forallb_chars p acc = true ->
    Str.forallb_chars p (Str.rev_acc s acc) = true.
Proof.
  induction s as [|c s IH]; intros acc Hs Hacc; [exact Hacc|].
  cbn [Str.forallb_chars] in Hs. apply andb_true_iff in Hs. destruct Hs as [Hc Hs].
  cbn [Str.rev_acc]. apply IH; [exact Hs|]. cbn [Str.forallb_chars].
  rewrite Hc, Hacc. reflexivity.
Qed.

Lemma split_ws_chars (sep p : ascii -> bool) (s : string) :
  forall cur gap,
    Str.forallb_chars p s = true -> Str.forallb_chars p cur = true ->
    Forall (fun w => Str.forallb_chars p w = true) (Str.split_aux sep s cur gap).
Proof.
  induction s as [|c s IH]; intros cur gap Hs Hcur; cbn [Str.split_aux].
  - constructor; [|constructor]. apply forallb_chars_rev_acc; [exact Hcur|reflexivity].
  - cbn [Str.forallb_chars] in Hs. apply andb_true_iff in Hs. destruct Hs as [Hc Hs].
    destruct (sep c).
    + destruct gap; [apply IH; assumption|].
      constructor; [apply forallb_chars_rev_acc; [exact Hcur|reflexivity]|].
      apply IH; [exact Hs|reflexivity].
    + apply IH; [exact Hs|]. cbn [Str.forallb_chars]. rewrite Hc, Hcur. reflexivity.
Qed.

Lemma class_noNul (doc : Node) (el : NodeRef) (cls : string) :
  scannable doc el = true ->
  In cls (Str.split_ws (className doc el)) -> noNul cls = true.
Proof.
  intros H Hin.
  pose proof (split_ws_chars Str.is_space notNul (className doc el) "" false
                (reflected_noNul doc el "class" H) eq_refl) as Hall.
  rewrite Forall_forall in Hall. apply Hall, Hin.
Qed.

(** A class that the scanners split off is a class token of the
    element. *)
Lemma class_token (doc : Node) (el : NodeRef) (cls : string) :
  scannable doc el = true ->
  In cls (Str.split_ws (className doc el)) -> cls <> "" ->
  classList_contains doc el cls = true.
Proof.
  intros H Hin Hne. destruct (scannable_parts doc el H) as (_ & _ & Hspaces).
  unfold classList_contains, tokens, Str.split_by.
  rewrite <- (split_same_space _ "" false Hspaces).
  apply inb_In, filter_In. split; [exact Hin|].
  unfold Str.nonempty. apply Bool.negb_true_iff, String.eqb_neq, Hne.
Qed.

Lemma indexOf_from_lower (r : NodeRef) (l : list NodeRef) :
  forall i, 0 <= i -> -1 <= indexOf_from i r l.
Proof.
  induction l as [|x l IH]; intros i Hi; cbn [indexOf_from]; [lia|].
  destruct (ref_eqb x r); [lia|]. apply IH. lia.
Qed.

Lemma type_selector_matches (doc : Node) (el : NodeRef) :
  plainTag (localName doc el) = true ->
  Str.toLowerCase (tagName doc el) = localName doc el
  /\ matches_simple doc el (SType (Str.toLowerCase (localName doc el))) = true
  /\ plainName (localName doc el) = true.
Proof.
  intros Ht. destruct (plainTag_case _ Ht) as (A & B & C).
  unfold tagName. rewrite A. split; [reflexivity|]. split; [|exact C].
  cbn [matches_simple]. rewrite B. apply String.eqb_refl.
Qed.

Lemma attr_selector_matches (doc : Node) (el : NodeRef) (a v : string) :
  getAttribute doc el a = Some v ->
  matches_simple doc el (SAttr a (Equals v)) = true.
Proof.
  intros H. cbn [matches_simple]. rewrite H. unfold attr_matches_case.
  destruct (JS.inb a caseInsensitiveAttributes); cbn [fold_case attr_matches];
    apply String.eqb_refl.
Qed.

Lemma attempt_query (doc : Node) (sel s : string) :
  Simple.attempt
    (found <- querySelectorAll doc sel ;;
     JS.ret (if (List.length found =? 1)%nat then Some sel else None)) = Some s ->
  s = sel.
Proof.
  unfold Simple.attempt. destruct (querySelectorAll doc sel) as [found|];
    cbn [JS.bind JS.ret JS.try_catch]; [|discriminate].
  destruct (List.length found =? 1)%nat; [|discriminate].
  intros H. injection H as <-. reflexivity.
Qed.

End ResolveFacts.

Section SimpleSelector.
Import DOM CSS SelectorProps.

Lemma simple_selector_resolves (doc : Node) (el : NodeRef) :
  In el (all_elements doc) -> scannable doc el = true ->
  Props.resolvesTo doc (Simple.generateSelector doc el) el = true.
Proof.
  intros Hin Hsc.
  assert (Htag : plainTag (localName doc el) = true)
    by apply (scannable_parts doc el Hsc).
  destruct (type_selector_matches doc el Htag) as (Hlow & Htype & Hname).
  unfold Simple.generateSelector. cbv zeta. rewrite Hlow.
  apply first_of_cases.
  - destruct (parentElement el) as [parent|] eqn:Hp.
    + eapply resolves_by_parse; [apply parse_tag_nth_selector|exact Hin|].
      * exact Hname.
      * pose proof (indexOf_from_lower el
                      (filter (fun child => String.eqb (tagName doc child) (tagName doc el))
                              (children doc parent)) 0 (Z.le_refl 0)).
        unfold indexOf. lia.
      * cbn [forallb]. rewrite Htype. cbn [matches_simple].
        unfold sameTypeSiblings. rewrite Hp, Z.eqb_refl. reflexivity.
    + eapply resolves_by_parse; [apply parse_tag_selector, Hname|exact Hin|].
      cbn [forallb]. rewrite Htype. reflexivity.
  - intros s Hs. cbn [In] in Hs.
    destruct Hs as [H|[H|[H|[H|[H|[]]]]]].
    + (* id *)
      destruct (Str.nonempty (DOM.id doc el)) eqn:Hid; [|discriminate].
      apply attempt_query in H. subst s.
      eapply resolves_by_parse;
        [apply parse_id_selector; [apply nonempty_ne, Hid|apply reflected_noNul, Hsc]
        |exact Hin|].
      cbn [forallb matches_simple].
      rewrite (reflected_attribute doc el "id" Hid).
      unfold DOM.id. rewrite String.eqb_refl. reflexivity.
    + (* data-testid *)
      destruct (getAttribute doc el "data-testid") as [v|] eqn:Hv; [|discriminate].
      destruct (Str.nonempty v); [|discriminate].
      cbn in H. injection H as <-.
      eapply resolves_by_parse;
        [apply (parse_attr_selector "data-testid" v eq_refl
                  (attribute_noNul doc el _ v Hsc Hv))
        |exact Hin|].
      cbn [forallb]. change (Str.toLowerCase "data-testid") with "data-testid".
      rewrite (attr_selector_matches doc el _ v Hv). reflexivity.
    + (* aria-label *)
      destruct (getAttribute doc el "aria-label") as [v|] eqn:Hv; [|discriminate].
      destruct (Str.nonempty v && (String.length v <? 50)%nat); [|discriminate].
      cbn in H. injection H as <-.
      eapply resolves_by_parse;
        [apply (parse_tag_attr_selector _ "aria-label" v Hname eq_refl
                  (attribute_noNul doc el _ v Hsc Hv))
        |exact Hin|].
      cbn [forallb]. change (Str.toLowerCase "aria-label") with "aria-label".
      rewrite Htype, (attr_selector_matches doc el _ v Hv). reflexivity.
    + (* name *)
      destruct (getAttribute doc el "name") as [v|] eqn:Hv; [|discriminate].
      destruct (Str.nonempty v); [|discriminate].
      cbn in H. injection H as <-.
      eapply resolves_by_parse;
        [apply (parse_tag_attr_selector _ "name" v Hname eq_refl
                  (attribute_noNul doc el _ v Hsc Hv))
        |exact Hin|].
      cbn [forallb]. change (Str.toLowerCase "name") with "name".
      rewrite Htype, (attr_selector_matches doc el _ v Hv). reflexivity.
    + (* class *)
      destruct (Str.nonempty (className doc el)); [|discriminate].
      destruct (filter Str.nonempty (Str.split_ws (className doc el)))
        as [|first others] eqn:Hf; [discriminate|].
      apply attempt_query in H. subst s.
      assert (Hfirst : In first (filter Str.nonempty (Str.split_ws (className doc el))))
        by (rewrite Hf; left; reflexivity).
      apply filter_In in Hfirst. destruct Hfirst as [Hmem Hne].
      eapply resolves_by_parse;
        [apply (parse_tag_class_selector _ first Hname (nonempty_ne _ Hne)
                  (class_noNul doc el first Hsc Hmem))
        |exact Hin|].
      cbn [forallb]. rewrite Htype. cbn [matches_simple].
      rewrite (class_token doc el first Hsc Hmem (nonempty_ne _ Hne)). reflexivity.
Qed.

End SimpleSelector.

Section RobustSelector.
Import DOM CSS SelectorProps.

Lemma parse_tag_dot (tag : string) :
  plainName tag = true -> parse (tag ++ ".") = JS.Throw "SyntaxError".
Proof.
  intros Ht. unfold parse. rewrite tokenize_safe by stream_safe. rewrite length_append. cbn [String.length].
  rewrite step_ident; [|exact Ht|reflexivity|lia].
  rewrite tokens_of_one with (t := TDelim "."); [|lia|reflexivity].
  rewrite tokens_of_nil. reflexivity.
Qed.

Lemma truthy_attribute (doc : Node) (el : NodeRef) (a : string) :
  Util.truthy (getAttribute doc el a) = true ->
  getAttribute doc el a = Some (reflected doc el a)
  /\ Str.nonempty (reflected doc el a) = true.
Proof.
  unfold Util.truthy, reflected. destruct (getAttribute doc el a); [|discriminate].
  intros H. split; [reflexivity | exact H].
Qed.


End RobustSelector.

Section EfficientSelector.
Import DOM CSS SelectorProps.

Lemma plainId_name (id : string) : Efficient.plainId id = true -> plainName id = true.
Proof.
  destruct id as [|c r]; [discriminate|]. cbn [Efficient.plainId plainName].
  intros H. apply andb_true_iff in H. destruct H as [Hc Hr].
  assert (Hs : is_name_start c = true) by char_arith.
  rewrite Hs. cbn [andb]. clear Hc Hs.
  induction r as [|d r IH]; [reflexivity|].
  cbn [Str.forallb_chars] in *. apply andb_true_iff in Hr. destruct Hr as [Hd Hr].
  rewrite (IH Hr), Bool.andb_true_r. clear IH Hr. char_arith.
Qed.


End EfficientSelector.

Section ScanSelectors.
Import DOM CSS SelectorProps.

Lemma query_in_document (doc : Node) (sel : string) (found : list NodeRef) :
  querySelectorAll doc sel = JS.Ok found -> incl found (all_elements doc).
Proof.
  unfold querySelectorAll. destruct (parse sel) as [parsed|]; cbn [JS.bind JS.ret];
    [|discriminate].
  intros H. injection H as <-. intros x Hx. apply filter_In in Hx. apply Hx.
Qed.

Lemma simple_collect_in_document (doc : Node) (maxElements : Z) :
  incl (Simple.elements (Simple.collect doc maxElements)) (all_elements doc).
Proof.
  unfold Simple.collect.
  assert (H : forall sels acc,
             incl (Simple.elements acc) (all_elements doc) ->
             incl (Simple.elements
                     (fold_left (Simple.visit_selector doc maxElements) sels acc))
                  (all_elements doc)).
  { induction sels as [|sel sels IH]; intros acc Hacc; [exact Hacc|].
    cbn [fold_left]. apply IH. unfold Simple.visit_selector.
    destruct (querySelectorAll doc sel) as [found|] eqn:Hq; [|exact Hacc].
    pose proof (query_in_document doc sel found Hq) as Hfound.
    clear Hq. revert acc Hacc.
    induction found as [|el found IHf]; intros acc Hacc; [exact Hacc|].
    cbn [fold_left]. apply IHf.
    - intros x Hx. apply Hfound. right. exact Hx.
    - unfold Simple.visit.
      destruct (negb _ && _); [|exact Hacc].
      cbn [Simple.elements]. intros x Hx. apply in_app_or in Hx.
      destruct Hx as [Hx|[<-|[]]]; [apply Hacc, Hx | apply Hfound; left; reflexivity]. }
  apply H. intros x [].
Qed.

Lemma simple_result_origin (doc : Node) (host : Host) (els : list NodeRef)
                           (d : Simple.ElementData) :
  forall i,
    In d (Util.non_null (filter Simple.keep
            (Util.mapi_from i (Simple.extractElementData doc host) els))) ->
    exists el j, In el els /\ Simple.extractElementData doc host el j = Some d.
Proof.
  induction els as [|el els IH]; intros i Hd; [destruct Hd|].
  cbn [Util.mapi_from filter] in Hd.
  destruct (Simple.extractElementData doc host el i) as [d'|] eqn:He.
  - cbn [Simple.keep] in Hd. destruct (Simple.visible d').
    + cbn [Util.non_null In] in Hd. destruct Hd as [<-|Hd].
      * exists el, i. split; [left; reflexivity | exact He].
      * destruct (IH _ Hd) as (el' & j & Hin & Hj).
        exists el', j. split; [right; exact Hin | exact Hj].
    + destruct (IH _ Hd) as (el' & j & Hin & Hj).
      exists el', j. split; [right; exact Hin | exact Hj].
  - cbn [Simple.keep] in Hd. destruct (IH _ Hd) as (el' & j & Hin & Hj).
    exists el', j. split; [right; exact Hin | exact Hj].
Qed.

Lemma simple_extract_selector (doc : Node) (host : Host) (el : NodeRef) (i : nat)
                              (d : Simple.ElementData) :
  Simple.extractElementData doc host el i = Some d ->
  Simple.selector d = Simple.generateSelector doc el /\ Simple.domRef d = el.
Proof.
  unfold Simple.extractElementData, Simple.extractElementData_body.
  destruct (negb _); cbn [JS.try_catch JS.ret]; [discriminate|].
  intros H. injection H as <-. split; reflexivity.
Qed.

End ScanSelectors.

(** Why the [class] attributes are restricted: a vertical tab separates
    class names for [split(/\s+/)] and not for the browser.  The simple
    and the robust scanner take the first button of
    [<button class="a b">], written with a vertical tab, and
    [<button class="a">] to have the class [a] alone, and their selector
    for it finds the second button. *)
Lemma selector_of_class_with_vertical_tab :
  SelectorProps.scannable Examples.verticalTabPage [1; 0]%nat = false
  /\ DOM.classList_contains Examples.verticalTabPage [1; 0]%nat "a" = false
  /\ Simple.generateSelector Examples.verticalTabPage [1; 0]%nat = "button.a"
  /\ Robust.generateRobustSelector Examples.verticalTabPage [1; 0]%nat = JS.Ok "button.a"
  /\ CSS.querySelectorAll Examples.verticalTabPage "button.a" = JS.Ok [[1; 1]%nat]
  /\ Props.resolvesTo Examples.verticalTabPage "button.a" [1; 0]%nat = false.
Proof. vm_compute. repeat split. Qed.





(** ** The history and the dominant emotion *)

Section WindowFacts.
Context {num : Type} {NUM : JSNumber num}.
Import MorphCast.

Lemma lastn_all {A} (n : nat) (l : list A) :
  (List.length l <= n)%nat -> MoodProps.lastn n l = l.
Proof.
  intros H. unfold MoodProps.lastn.
  replace (List.length l - n)%nat with 0%nat by lia. reflexivity.
Qed.

Lemma lastn_app {A} (n : nat) (a b : list A) :
  MoodProps.lastn n (MoodProps.lastn n a ++ b) = MoodProps.lastn n (a ++ b).
Proof.
  unfold MoodProps.lastn. rewrite !length_app, length_skipn.
  rewrite !skipn_app, skipn_skipn, length_skipn.
  f_equal; f_equal; lia.
Qed.

Lemma pushBounded_window (h : list (Emotions num)) (x : Emotions num) :
  (List.length h <= 10)%nat ->
  pushBounded 10 h x = MoodProps.lastn 10 (h ++ [x]).
Proof.
  intros H. unfold pushBounded, MoodProps.lastn. rewrite length_app. cbn [List.length].
  destruct (Nat.ltb_spec 10 (List.length h + 1)) as [Hover|Hfit].
  - replace (List.length h + 1 - 10)%nat with 1%nat by lia.
    destruct (h ++ [x])%list; reflexivity.
  - replace (List.length h + 1 - 10)%nat with 0%nat by lia. reflexivity.
Qed.

Lemma history_window (evs : list (Event num)) :
  forall s,
    history_inv s ->
    emotionHistory (fold_left step evs s)
      = MoodProps.lastn 10 (emotionHistory s ++ MoodProps.recorded s evs).
Proof.
  induction evs as [|ev evs IH]; intros s Hs.
  - cbn [fold_left MoodProps.recorded]. rewrite app_nil_r.
    symmetry. apply lastn_all. apply Hs.
  - cbn [fold_left MoodProps.recorded]. rewrite (IH _ (step_inv s ev Hs)).
    destruct Hs as [Hsize Hlen].
    destruct ev as [d|event|].
    + assert (Hh : emotionHistory (step s (Tick d))
                   = MoodProps.lastn 10
                       (emotionHistory s ++ [currentEmotions (detectEmotions d s)])).
      { cbn [step updateDominantEmotion emotionHistory].
        unfold detectEmotions at 1. cbn [emotionHistory].
        assert (Hsame : forall s1, s1 = (if negb (faceDetected s
                   && existsb (fun v => n_gt v zero) (values (currentEmotions s)))
                   then simulateEmotions d s else s) ->
                 historySize s1 = 10%nat /\ emotionHistory s1 = emotionHistory s).
        { intros s1 ->. destruct (negb _); [|split; [exact Hsize|reflexivity]].
          split; [exact Hsize | reflexivity]. }
        destruct (Hsame _ eq_refl) as [H1 H2].
        rewrite H1, H2. rewrite pushBounded_window by exact Hlen.
        reflexivity. }
      rewrite Hh, lastn_app, <- app_assoc. reflexivity.
    + assert (Hh : emotionHistory (step s (EmotionResult event)) = emotionHistory s)
        by (destruct event; reflexivity).
      rewrite Hh. reflexivity.
    + reflexivity.
Qed.

End WindowFacts.

(** X16. The history of the emotion service is a sliding window: in
    every reachable state it holds, in order, the last ten of the
    readings that the turns of the analysis loop have recorded so far,
    and all of them while there are at most ten. *)
Theorem history_is_window_of_recorded_readings :
  forall (num : Type) (NUM : JSNumber num) (evs : list (MorphCast.Event num)),
    MorphCast.emotionHistory (MorphCast.run evs)
      = MoodProps.lastn 10 (MoodProps.recorded MorphCast.initial evs).
Proof.
  intros num NUM evs. unfold MorphCast.run.
  rewrite history_window; [reflexivity|].
  split; [reflexivity | cbn; lia].
Qed.

Section DominantFacts.
Import MorphCast.

Lemma gt_lt (a b : Q) : n_gt a b = true <-> (b < a)%Q.
Proof.
  cbn [n_gt QNumber]. rewrite Bool.negb_true_iff.
  split.
  - intros H. apply Qnot_le_lt. intros Hle. apply Qle_bool_iff in Hle. congruence.
  - intros H. destruct (Qle_bool a b) eqn:E; [|reflexivity].
    apply Qle_bool_iff in E. exfalso. apply (Qlt_not_le _ _ H E).
Qed.

Lemma gt_false (a b : Q) : n_gt a b = false <-> (a <= b)%Q.
Proof.
  cbn [n_gt QNumber]. rewrite Bool.negb_false_iff. apply Qle_bool_iff.
Qed.

(** The loop of [updateDominantEmotion] ends on the first entry of the
    largest value, or on its start when no value exceeds it. *)
Lemma best_entry_max (l : list (string * Q)) :
  forall acc : string * Q,
    let best := fold_left (fun (acc : string * Q) (kv : string * Q) =>
                             if n_gt (snd kv) (snd acc) then kv else acc) l acc in
    (snd acc <= snd best)%Q
    /\ (forall kv, In kv l -> (snd kv <= snd best)%Q)
    /\ (best = acc \/ In best l).
Proof.
  induction l as [|kv l IH]; intros acc; cbn [fold_left].
  - cbn zeta. split; [apply Qle_refl|]. split; [intros kv []|left; reflexivity].
  - cbn zeta. destruct (n_gt (snd kv) (snd acc)) eqn:Hgt.
    + apply gt_lt in Hgt. destruct (IH kv) as (H1 & H2 & H3). cbn zeta in *.
      split; [eapply Qle_trans; [apply Qlt_le_weak, Hgt | exact H1]|].
      split.
      * intros kv' [<-|Hin]; [exact H1 | apply H2, Hin].
      * right. destruct H3 as [->|H3]; [left; reflexivity | right; exact H3].
    + apply gt_false in Hgt. destruct (IH acc) as (H1 & H2 & H3). cbn zeta in *.
      split; [exact H1|]. split.
      * intros kv' [<-|Hin]; [eapply Qle_trans; [exact Hgt | exact H1] | apply H2, Hin].
      * destruct H3 as [H3|H3]; [left; exact H3 | right; right; exact H3].
Qed.

End DominantFacts.

(** X17. Over the rationals, [updateDominantEmotion] picks the
    emotion with the highest smoothed score, provided that score
    exceeds 20: when no smoothed score exceeds 20 the dominant emotion
    is [neutral]; when it is another emotion, that emotion has a
    smoothed score above 20 which no other smoothed score exceeds. *)
Theorem dominant_emotion_has_the_highest_smoothed_score :
  forall (s : MorphCast.Service Q),
    let smoothed := MorphCast.entries (MorphCast.getSmoothedEmotions s) in
    let dominant := MorphCast.dominantEmotion (MorphCast.updateDominantEmotion s) in
    ((forall name score, In (name, score) smoothed -> (score <= 20)%Q) ->
     dominant = "neutral")
    /\ (dominant <> "neutral" ->
        exists score,
          In (dominant, score) smoothed
          /\ (20 < score)%Q
          /\ forall name other, In (name, other) smoothed -> (other <= score)%Q).
Proof.
  intros s. cbn zeta. cbn [MorphCast.updateDominantEmotion MorphCast.dominantEmotion].
  destruct (best_entry_max (MorphCast.entries (MorphCast.getSmoothedEmotions s))
              ("neutral", MorphCast.zero)) as (H1 & H2 & H3).
  cbn zeta in *.
  set (best := fold_left _ _ _) in *.
  destruct (n_gt (snd best) (n_lit 20)) eqn:Hgt.
  - apply gt_lt in Hgt. split.
    + intros Hlow. destruct H3 as [H3|H3].
      * rewrite H3. reflexivity.
      * exfalso. destruct best as [name score]. specialize (Hlow name score H3).
        cbn [snd] in Hgt. apply (Qlt_not_le _ _ Hgt Hlow).
    + intros Hne. destruct H3 as [H3|H3].
      * exfalso. apply Hne. rewrite H3. reflexivity.
      * exists (snd best). split; [destruct best; exact H3|]. split; [exact Hgt|].
        intros name other Hin. apply (H2 (name, other) Hin).
  - split; [reflexivity|]. intros Hne. exfalso. apply Hne. reflexivity.
Qed.

(** ** The access token of the Spotify service *)

Section AccessTokenFacts.

Lemma nonempty_true (s : string) : s <> "" -> Str.nonempty s = true.
Proof.
  intros H. unfold Str.nonempty. apply Bool.negb_true_iff, String.eqb_neq, H.
Qed.

End AccessTokenFacts.

(** X18. A token set with [setAccessToken] is valid exactly until its
    expiry, the time it was set plus the given number of seconds (3600
    by default) in milliseconds.  Before the expiry [isTokenValid] holds,
    a fresh service loads the token back from the storage, and
    [fetchSpotifyAPI] sends one request, to the endpoint under
    [https://api.spotify.com/], carrying the token as bearer, whatever
    the network answers.  From the expiry on [isTokenValid] fails, a
    fresh service loads nothing, and [fetchSpotifyAPI] throws without
    sending a request. *)
Theorem spotify_token_is_valid_until_it_expires :
  forall (J : Type) (net : SpotifyApi.Network J) (token : string) (expiresIn : option Z)
         (now later : Z) (s : SpotifyApi.Service) (endpoint method : string)
         (body : option string),
    token <> "" ->
    let expiry := now + match expiresIn with Some e => e | None => 3600 end * 1000 in
    let s1 := fst (SpotifyApi.setAccessToken token expiresIn now s) in
    let storage := snd (SpotifyApi.setAccessToken token expiresIn now s) in
    (later < expiry ->
     SpotifyApi.isTokenValid s1 later = true
     /\ SpotifyApi.loadToken storage later SpotifyApi.initial
        = (true, SpotifyApi.mkService (Some token) (Some expiry) false)
     /\ snd (SpotifyApi.fetchSpotifyAPI J net endpoint method body later s1)
        = [SpotifyApi.mkRequest ("https://api.spotify.com/" ++ endpoint) method
             ("Bearer " ++ token) "application/json" body])
    /\ (expiry <= later ->
        SpotifyApi.isTokenValid s1 later = false
        /\ SpotifyApi.loadToken storage later SpotifyApi.initial
           = (false, SpotifyApi.initial)
        /\ SpotifyApi.fetchSpotifyAPI J net endpoint method body later s1
           = (JS.Throw "Spotify token is invalid or expired", [])).
Proof.
  intros J net token expiresIn now later s endpoint method body Htoken. cbn zeta.
  pose proof (nonempty_true token Htoken) as Hne.
  unfold SpotifyApi.setAccessToken. cbn [fst snd].
  set (expiry := now + _ * 1000).
  split; intros Htime.
  - assert (Hlt : (later <? expiry) = true) by (apply Z.ltb_lt, Htime).
    assert (Hvalid : SpotifyApi.isTokenValid
                       (SpotifyApi.mkService (Some token) (Some expiry)
                          (SpotifyApi.isPlaying s)) later = true).
    { unfold SpotifyApi.isTokenValid. cbn. rewrite Hne, Hlt. reflexivity. }
    split; [exact Hvalid|]. split.
    + unfold SpotifyApi.loadToken. cbn. rewrite Hne, Hlt. reflexivity.
    + unfold SpotifyApi.fetchSpotifyAPI. rewrite Hvalid. cbn [negb].
      cbn [SpotifyApi.accessToken].
      destruct (net _) as [response|e]; [|reflexivity].
      destruct (negb (SpotifyApi.ok J response)).
      * destruct (SpotifyApi.status response =? 401); reflexivity.
      * destruct (SpotifyApi.status response =? 204); reflexivity.
  - assert (Hge : (later <? expiry) = false) by (apply Z.ltb_ge, Htime).
    assert (Hvalid : SpotifyApi.isTokenValid
                       (SpotifyApi.mkService (Some token) (Some expiry)
                          (SpotifyApi.isPlaying s)) later = false).
    { unfold SpotifyApi.isTokenValid. cbn. rewrite Hge. apply Bool.andb_false_r. }
    split; [exact Hvalid|]. split.
    + unfold SpotifyApi.loadToken. cbn. rewrite Hge, Bool.andb_false_r. reflexivity.
    + unfold SpotifyApi.fetchSpotifyAPI. rewrite Hvalid. reflexivity.
Qed.

(** A token set at time 0 with the default life time, asked for a
    second later. *)
Lemma spotify_token_is_valid_until_it_expires_witness :
  "token" <> ""
  /\ SpotifyApi.isTokenValid
       (fst (SpotifyApi.setAccessToken "token" None 0 SpotifyApi.initial)) 1000 = true.
Proof.
  assert (H : "token" <> "") by (intros H; discriminate H).
  split; [exact H|].
  assert (Hlt : 1000 < 0 + 3600 * 1000) by lia.
  exact (proj1 (proj1 (spotify_token_is_valid_until_it_expires
                         unit (fun _ => JS.Throw "offline") "token" None 0 1000
                         SpotifyApi.initial "v1/me" "GET" None H) Hlt)).
Defined.

(** ** The controller of the mood music page *)

Section ControllerFacts.
Import JS Controller.

Lemma assoc_show (k id content : string) (page : Shown) :
  assoc k (show id content page)
    = if String.eqb k id
      then match assoc k page with Some _ => Some content | None => None end
      else assoc k page.
Proof.
  induction page as [|[k' old] page IH]; cbn [show assoc].
  - destruct (String.eqb k id); reflexivity.
  - destruct (String.eqb_spec k' id) as [->|Hne]; cbn [assoc].
    + destruct (String.eqb k id); reflexivity.
    + rewrite IH. destruct (String.eqb_spec k k') as [->|Hk]; [|reflexivity].
      destruct (String.eqb_spec k' id); [contradiction|reflexivity].
Qed.

Lemma get_object (own : list (string * value)) (k : string) :
  exists v, get (VObject own) k = Ok v.
Proof. cbn [get]. destruct (assoc k own); eexists; reflexivity. Qed.

Ltac table_lookup key :=
  let t := eval vm_compute in (get Spotify.moodPlaylists key) in
  change (get Spotify.moodPlaylists key) with t; cbn [bind].

Lemma playlist_defined (emotion : string) (m : Spotify.MusicMode) :
  exists v, getPlaylistForEmotion emotion (Spotify.mode_key m) = Ok v.
Proof.
  unfold getPlaylistForEmotion.
  destruct m; cbn [Spotify.mode_key];
    match goal with
    | |- context [String.eqb ?a "energy"] =>
        let b := eval vm_compute in (String.eqb a "energy") in
        change (String.eqb a "energy") with b
    end; cbv iota.
  - table_lookup "match".
    match goal with
    | |- context [get (VObject ?T) emotion] =>
        destruct (get_object T emotion) as [v Hv]; rewrite Hv
    end.
    cbn [bind ret]. eexists. reflexivity.
  - table_lookup "boost".
    match goal with
    | |- context [get (VObject ?T) emotion] =>
        destruct (get_object T emotion) as [v Hv]; rewrite Hv
    end.
    cbn [bind]. table_lookup "match". cbn [bind ret get assoc String.eqb Ascii.eqb Bool.eqb].
    eexists. reflexivity.
  - unfold Spotify.energyMap.
    match goal with
    | |- context [get (VObject ?T) emotion] =>
        destruct (get_object T emotion) as [v Hv]; rewrite Hv
    end.
    cbn [bind]. table_lookup "energy". apply get_object.
Qed.

Lemma known_mode (mode : string) :
  inb mode modes = true -> exists m, mode = Spotify.mode_key m.
Proof.
  unfold inb, modes. cbn [existsb]. intros H.
  destruct (String.eqb_spec mode "match") as [E|_]; [exists Spotify.Match; exact E|].
  destruct (String.eqb_spec mode "boost") as [E|_]; [exists Spotify.Boost; exact E|].
  destruct (String.eqb_spec mode "energy") as [E|_]; [exists Spotify.Energy; exact E|].
  discriminate H.
Qed.

(** What the controller keeps true: the mode is one of the three, the
    page has the player, the last played emotion is not empty, and the
    player is in sync. *)
Lemma updateMusicPlayer_sync (emotion : string) (st : State) :
  (exists m, currentMusicMode st = Spotify.mode_key m) ->
  hasPlayer (shown st) = true ->
  let st' := snd (updateMusicPlayer emotion st) in
  fst (updateMusicPlayer emotion st) = Ok tt
  /\ currentMusicMode st' = currentMusicMode st
  /\ lastPlayedEmotion st' = Some emotion
  /\ hasPlayer (shown st') = true
  /\ playerInSync st'.
Proof.
  intros [m Hm] Hpage. cbn zeta. unfold updateMusicPlayer.
  cbn [currentMusicMode shown].
  destruct (playlist_defined emotion m) as [v Hv]. rewrite <- Hm in Hv. rewrite Hv.
  unfold hasPlayer in Hpage.
  destruct (assoc "spotify-player" (shown st)) as [src|] eqn:Hsrc; [|discriminate].
  destruct (assoc "current-playlist-mood" (shown st)) as [label|] eqn:Hlabel;
    [|discriminate].
  cbn [withShown shown]. rewrite assoc_show, Hlabel. cbn [String.eqb Ascii.eqb Bool.eqb].
  cbn [fst snd currentMusicMode lastPlayedEmotion shown withShown].
  split; [reflexivity|]. split; [reflexivity|]. split; [reflexivity|].
  assert (Hplayer : assoc "spotify-player"
                      (show "current-playlist-mood" (capitalize emotion)
                         (show "spotify-player" (embedUrl v) (shown st)))
                    = Some (embedUrl v)).
  { rewrite !assoc_show, Hsrc. reflexivity. }
  assert (Hmood : assoc "current-playlist-mood"
                    (show "current-playlist-mood" (capitalize emotion)
                       (show "spotify-player" (embedUrl v) (shown st)))
                  = Some (capitalize emotion)).
  { rewrite !assoc_show, Hlabel. reflexivity. }
  split.
  - unfold hasPlayer. rewrite Hplayer, Hmood. reflexivity.
  - intros e He. cbn [lastPlayedEmotion] in He. injection He as <-.
    exists v. cbn [currentMusicMode shown]. repeat split; assumption.
Qed.

End ControllerFacts.

Section ControllerRun.
Context {num : Type} {NUM : JSNumber num}.
Variable rounded : num -> string.
Import JS Controller.

Lemma playlist_by_mode (emotion : string) (m : Spotify.MusicMode) :
  getPlaylistForEmotion emotion (Spotify.mode_key m)
  = Spotify.getPlaylistForEmotion emotion m.
Proof. destruct m; reflexivity. Qed.

Lemma showBar_player (data : EmotionUpdate num) (page : Shown) (emotion : string)
                     (k : string) :
  (k = "spotify-player" \/ k = "current-playlist-mood") ->
  assoc k (showBar rounded data page emotion) = assoc k page.
Proof.
  intros Hk. unfold showBar.
  destruct (assoc ("emotion-" ++ emotion) page); [|reflexivity].
  destruct (assoc ("value-" ++ emotion) page); [|reflexivity].
  rewrite !assoc_show. destruct Hk as [->| ->]; reflexivity.
Qed.

Lemma bars_player (data : EmotionUpdate num) (names : list string) (k : string) :
  (k = "spotify-player" \/ k = "current-playlist-mood") ->
  forall page, assoc k (fold_left (showBar rounded data) names page) = assoc k page.
Proof.
  intros Hk. induction names as [|name names IH]; intros page; [reflexivity|].
  cbn [fold_left]. rewrite IH. apply showBar_player, Hk.
Qed.

(** The bars and the label of the dominant emotion leave the player
    alone. *)
Lemma labels_player (data : EmotionUpdate num) (page : Shown) (k : string) :
  (k = "spotify-player" \/ k = "current-playlist-mood") ->
  assoc k (show "dominant-emotion" (dominant data)
             (fold_left (showBar rounded data) MorphCast.simulatedNames page))
  = assoc k page.
Proof.
  intros Hk. rewrite assoc_show, (bars_player data _ k Hk).
  destruct Hk as [->| ->]; reflexivity.
Qed.

Lemma updateEmotionUI_settled (data : EmotionUpdate num) (st : State) :
  settled st ->
  fst (updateEmotionUI rounded data st) = Ok tt
  /\ settled (snd (updateEmotionUI rounded data st))
  /\ currentMusicMode (snd (updateEmotionUI rounded data st)) = currentMusicMode st
  /\ (Str.nonempty (dominant data) = true ->
      lastPlayedEmotion (snd (updateEmotionUI rounded data st)) = Some (dominant data))
  /\ (Str.nonempty (dominant data) = false ->
      lastPlayedEmotion (snd (updateEmotionUI rounded data st)) = lastPlayedEmotion st).
Proof.
  intros (Hmode & Hpage & Hlast & Hsync). unfold updateEmotionUI.
  set (page := show "dominant-emotion" (dominant data)
                    (fold_left (showBar rounded data) MorphCast.simulatedNames (shown st))).
  assert (Hsame : forall k, k = "spotify-player" \/ k = "current-playlist-mood" ->
                            assoc k page = assoc k (shown st))
    by (intros k Hk; apply labels_player, Hk).
  assert (Hpage1 : hasPlayer page = true).
  { unfold hasPlayer in *. rewrite !Hsame by tauto. exact Hpage. }
  assert (Hsync1 : playerInSync (withShown st page)).
  { intros e He. destruct (Hsync e He) as (v & H1 & H2 & H3).
    exists v. cbn [withShown shown currentMusicMode]. rewrite !Hsame by tauto.
    repeat split; assumption. }
  assert (Hkeep : settled (withShown st page)) by (repeat split; assumption).
  destruct (Str.nonempty (dominant data)) eqn:Hne; cbn [andb].
  - cbn [withShown lastPlayedEmotion].
    destruct (lastPlayedEmotion st) as [last|] eqn:Hl.
    + destruct (String.eqb_spec (dominant data) last) as [E|E]; cbn [negb fst snd].
      * split; [reflexivity|]. split; [exact Hkeep|]. split; [reflexivity|].
        cbn [withShown lastPlayedEmotion]. rewrite Hl, E.
        split; [reflexivity | discriminate].
      * destruct (updateMusicPlayer_sync (dominant data) (withShown st page) Hmode Hpage1)
          as (H1 & H2 & H3 & H4 & H5). cbn zeta in *.
        split; [exact H1|]. split; [|split; [exact H2|split; [intros _; exact H3|discriminate]]].
        split; [rewrite H2; exact Hmode|]. split; [exact H4|]. split; [|exact H5].
        intros e He. rewrite H3 in He. injection He as <-. exact Hne.
    + cbn [negb].
      destruct (updateMusicPlayer_sync (dominant data) (withShown st page) Hmode Hpage1)
        as (H1 & H2 & H3 & H4 & H5). cbn zeta in *.
      split; [exact H1|]. split; [|split; [exact H2|split; [intros _; exact H3|discriminate]]].
      split; [rewrite H2; exact Hmode|]. split; [exact H4|]. split; [|exact H5].
      intros e He. rewrite H3 in He. injection He as <-. exact Hne.
  - cbn [fst snd]. split; [reflexivity|]. split; [exact Hkeep|]. split; [reflexivity|].
    split; [discriminate | reflexivity].
Qed.

Lemma switchMusicMode_settled (mode : Spotify.MusicMode) (st : State) :
  settled st ->
  fst (switchMusicMode (Spotify.mode_key mode) st) = Ok tt
  /\ settled (snd (switchMusicMode (Spotify.mode_key mode) st))
  /\ currentMusicMode (snd (switchMusicMode (Spotify.mode_key mode) st))
     = Spotify.mode_key mode
  /\ lastPlayedEmotion (snd (switchMusicMode (Spotify.mode_key mode) st))
     = lastPlayedEmotion st.
Proof.
  intros (Hmode & Hpage & Hlast & Hsync). unfold switchMusicMode. cbn [lastPlayedEmotion].
  set (st1 := mkState _ _ _ _ _).
  assert (Hmode1 : exists m, currentMusicMode st1 = Spotify.mode_key m)
    by (exists mode; reflexivity).
  destruct (lastPlayedEmotion st) as [emotion|] eqn:Hl.
  - rewrite (Hlast emotion eq_refl).
    destruct (updateMusicPlayer_sync emotion st1 Hmode1 Hpage)
      as (H1 & H2 & H3 & H4 & H5). cbn zeta in *.
    split; [exact H1|]. split; [|split; [rewrite H2; reflexivity|exact H3]].
    split; [rewrite H2; exact Hmode1|]. split; [exact H4|]. split; [|exact H5].
    intros e He. rewrite H3 in He. injection He as <-. apply Hlast. reflexivity.
  - cbn [fst snd]. split; [reflexivity|]. split; [|split; [reflexivity|]].
    + split; [exact Hmode1|]. split; [exact Hpage|].
      split; intros e He; subst st1; cbn [lastPlayedEmotion] in He; discriminate He.
    + subst st1. cbn [lastPlayedEmotion]. reflexivity.
Qed.

Lemma step_settled (st : State) (ev : Event num) :
  settled st -> settled (step rounded st ev).
Proof.
  intros H. destruct ev as [data|mode]; cbn [step].
  - apply (updateEmotionUI_settled data st H).
  - apply (switchMusicMode_settled mode st H).
Qed.

Lemma created_settled (page : Shown) (classes : list (string * bool))
                      (buttons : list (string * string)) (saved : option string) :
  hasPlayer page = true ->
  savedModeKnown saved = true ->
  settled (created page classes buttons saved)
  /\ lastPlayedEmotion (created page classes buttons saved) = None.
Proof.
  intros Hpage Hsaved.
  unfold created, loadSavedSettings. cbn [savedMusicMode].
  assert (Hfresh : forall mode classes',
             (exists m, mode = Spotify.mode_key m) ->
             settled (mkState mode None page classes' saved)).
  { intros mode classes' Hm. split; [exact Hm|]. split; [exact Hpage|].
    split; intros e He; discriminate He. }
  destruct saved as [mode|]; [destruct (Str.nonempty mode)|].
  - split; [|reflexivity]. apply Hfresh, known_mode, Hsaved.
  - split; [|reflexivity]. apply Hfresh. exists Spotify.Match. reflexivity.
  - split; [|reflexivity]. apply Hfresh. exists Spotify.Match. reflexivity.
Qed.

End ControllerRun.

(** X19. On a page that has the player and its label, and with no
    saved music mode or one of the three, the player stays in sync
    whatever emotion updates arrive and whichever mode buttons are
    clicked: once an emotion has been played, the address of the player
    is the embed address of the playlist that [getPlaylistForEmotion]
    answers for the last played emotion in the current mode, and the
    label shows that emotion with a capital. *)
Theorem player_shows_playlist_of_last_emotion_and_mode :
  forall (num : Type) (NUM : JSNumber num) (rounded : num -> string)
         (page : Controller.Shown) (classes : list (string * bool))
         (buttons : list (string * string)) (saved : option string)
         (evs : list (Controller.Event num)),
    Controller.hasPlayer page = true ->
    Controller.savedModeKnown saved = true ->
    Controller.playerInSync
      (fold_left (Controller.step rounded) evs
                 (Controller.created page classes buttons saved)).
Proof.
  intros num NUM rounded page classes buttons saved evs Hpage Hsaved.
  assert (H : forall st, Controller.settled st ->
                         Controller.settled (fold_left (Controller.step rounded) evs st)).
  { induction evs as [|ev evs IH]; intros st Hst; [exact Hst|].
    cbn [fold_left]. apply IH, step_settled, Hst. }
  apply (H _ (proj1 (created_settled page classes buttons saved Hpage Hsaved))).
Qed.

(** Two updates around a click, with the boost mode saved. *)
Lemma player_shows_playlist_of_last_emotion_and_mode_witness :
  (Controller.hasPlayer PageExamples.playerPage = true
   /\ Controller.savedModeKnown (Some "boost") = true)
  /\ Controller.playerInSync
       (fold_left (Controller.step PageExamples.rounded) PageExamples.updates
                  (Controller.created PageExamples.playerPage [] [] (Some "boost"))).
Proof.
  assert (H1 : Controller.hasPlayer PageExamples.playerPage = true)
    by (vm_compute; reflexivity).
  assert (H2 : Controller.savedModeKnown (Some "boost") = true)
    by (vm_compute; reflexivity).
  split; [split; assumption|].
  exact (player_shows_playlist_of_last_emotion_and_mode Q QNumber PageExamples.rounded
           PageExamples.playerPage [] [] (Some "boost") PageExamples.updates H1 H2).
Defined.

(** ** The page while it analyses *)

Section PageFacts.
Context {num : Type} {NUM : JSNumber num}.
Variable rounded : num -> string.
Import JS.

Lemma emotion_name_nonempty (name : string) :
  In name MoodProps.emotionNames -> Str.nonempty name = true.
Proof.
  unfold MoodProps.emotionNames. cbn [In]. intros H.
  repeat (destruct H as [<-|H]; [reflexivity|]). destruct H.
Qed.

(** What the page keeps true while it analyses on a page with the
    player; [ticked] says that a turn of the loop has been made. *)
Lemma page_step (st : Page.State num) (ev : Page.Event num) (ticked : bool) :
  Page.isAnalyzing st = true ->
  Controller.settled (Page.controller st) ->
  In (MorphCast.dominantEmotion (Page.service st)) MoodProps.emotionNames ->
  (ticked = true ->
   Controller.lastPlayedEmotion (Page.controller st)
   = Some (MorphCast.dominantEmotion (Page.service st))) ->
  Page.isAnalyzing (Page.step rounded st ev) = true
  /\ Controller.settled (Page.controller (Page.step rounded st ev))
  /\ In (MorphCast.dominantEmotion (Page.service (Page.step rounded st ev)))
        MoodProps.emotionNames
  /\ (ticked || Page.isTick ev = true ->
      Controller.lastPlayedEmotion (Page.controller (Page.step rounded st ev))
      = Some (MorphCast.dominantEmotion (Page.service (Page.step rounded st ev)))).
Proof.
  intros Hrun Hctl Hname Hlast.
  destruct ev as [[d|event|]|mode]; cbn [Page.step Page.isTick].
  - unfold Page.analysisLoop. rewrite Hrun. cbn [negb].
    set (s := MorphCast.step (Page.service st) (MorphCast.Tick d)).
    assert (Hs : In (MorphCast.dominantEmotion s) MoodProps.emotionNames)
      by (apply dominant_name_step, Hname).
    destruct (updateEmotionUI_settled rounded (Page.report s) (Page.controller st) Hctl)
      as (H1 & H2 & _ & H4 & _).
    destruct (Controller.updateEmotionUI rounded (Page.report s) (Page.controller st))
      as [[u|e] c]; cbn [fst snd] in *; [|discriminate H1].
    cbn [Page.isAnalyzing Page.controller Page.service].
    split; [reflexivity|]. split; [exact H2|]. split; [exact Hs|].
    intros _. apply H4. cbn [Page.report Controller.dominant].
    apply emotion_name_nonempty, Hs.
  - cbn [Page.isAnalyzing Page.controller Page.service].
    rewrite Bool.orb_false_r.
    split; [exact Hrun|]. split; [exact Hctl|].
    split; [apply dominant_name_step, Hname|].
    destruct event; exact Hlast.
  - cbn [Page.isAnalyzing Page.controller Page.service].
    rewrite Bool.orb_false_r.
    split; [exact Hrun|]. split; [exact Hctl|].
    split; [apply dominant_name_step, Hname|]. exact Hlast.
  - cbn [Page.isAnalyzing Page.controller Page.service Controller.step].
    rewrite Bool.orb_false_r.
    destruct (switchMusicMode_settled mode (Page.controller st) Hctl)
      as (_ & H2 & _ & H4).
    split; [exact Hrun|]. split; [exact H2|]. split; [exact Hname|].
    rewrite H4. exact Hlast.
Qed.

Lemma page_run (evs : list (Page.Event num)) :
  forall (st : Page.State num) (ticked : bool),
    Page.isAnalyzing st = true ->
    Controller.settled (Page.controller st) ->
    In (MorphCast.dominantEmotion (Page.service st)) MoodProps.emotionNames ->
    (ticked = true ->
     Controller.lastPlayedEmotion (Page.controller st)
     = Some (MorphCast.dominantEmotion (Page.service st))) ->
    Page.isAnalyzing (fold_left (Page.step rounded) evs st) = true
    /\ Controller.settled (Page.controller (fold_left (Page.step rounded) evs st))
    /\ (ticked || existsb Page.isTick evs = true ->
        Controller.lastPlayedEmotion
          (Page.controller (fold_left (Page.step rounded) evs st))
        = Some (MorphCast.dominantEmotion
                  (Page.service (fold_left (Page.step rounded) evs st)))).
Proof.
  induction evs as [|ev evs IH]; intros st ticked Hrun Hctl Hname Hlast.
  - cbn [fold_left existsb]. rewrite Bool.orb_false_r.
    split; [exact Hrun|]. split; [exact Hctl | exact Hlast].
  - cbn [fold_left existsb].
    destruct (page_step st ev ticked Hrun Hctl Hname Hlast) as (A & B & C & D).
    rewrite Bool.orb_assoc. apply IH; assumption.
Qed.

(** Without the player the first turn of the loop ends in the
    [catch]. *)
Lemma missing_player_throws (emotion : string) (st : Controller.State) :
  Controller.hasPlayer (Controller.shown st) = false ->
  exists e,
    fst (Controller.updateMusicPlayer emotion st) = Throw e
    /\ Controller.hasPlayer (Controller.shown (snd (Controller.updateMusicPlayer emotion st)))
       = false.
Proof.
  intros Hpage. unfold Controller.updateMusicPlayer.
  cbn [Controller.currentMusicMode Controller.shown].
  destruct (Controller.getPlaylistForEmotion emotion (Controller.currentMusicMode st))
    as [v|e]; [|exists e; split; [reflexivity|exact Hpage]].
  unfold Controller.hasPlayer in Hpage.
  destruct (assoc "spotify-player" (Controller.shown st)) as [src|] eqn:Hsrc.
  - destruct (assoc "current-playlist-mood" (Controller.shown st)) as [label|] eqn:Hlabel;
      [discriminate|].
    cbn [Controller.withShown Controller.shown]. rewrite assoc_show, Hlabel.
    cbn [String.eqb Ascii.eqb Bool.eqb].
    exists "TypeError". split; [reflexivity|].
    cbn [snd Controller.shown Controller.withShown].
    unfold Controller.hasPlayer. rewrite !assoc_show, Hlabel.
    cbn [String.eqb Ascii.eqb Bool.eqb]. destruct (assoc _ _); reflexivity.
  - exists "TypeError". split; [reflexivity|]. cbn [snd Controller.shown].
    unfold Controller.hasPlayer. rewrite Hsrc. reflexivity.
Qed.

Lemma stopped_stays (evs : list (Page.Event num)) :
  forall st : Page.State num,
    Page.isAnalyzing st = false ->
    Page.isAnalyzing (fold_left (Page.step rounded) evs st) = false.
Proof.
  induction evs as [|ev evs IH]; intros st Hst; [exact Hst|].
  cbn [fold_left]. apply IH.
  destruct ev as [[d|event|]|mode]; cbn [Page.step Page.isAnalyzing]; try exact Hst.
  unfold Page.analysisLoop. rewrite Hst. exact Hst.
Qed.

Lemma missing_player_run (evs : list (Page.Event num)) :
  forall st : Page.State num,
    Controller.hasPlayer (Controller.shown (Page.controller st)) = false ->
    Controller.lastPlayedEmotion (Page.controller st) = None ->
    In (MorphCast.dominantEmotion (Page.service st)) MoodProps.emotionNames ->
    existsb Page.isTick evs = true ->
    Page.isAnalyzing (fold_left (Page.step rounded) evs st) = false.
Proof.
  induction evs as [|ev evs IH]; intros st Hpage Hlast Hname Htick; [discriminate Htick|].
  cbn [fold_left existsb] in *.
  destruct ev as [[d|event|]|mode]; cbn [Page.step Page.isTick orb] in *.
  - apply stopped_stays. unfold Page.analysisLoop.
    destruct (Page.isAnalyzing st) eqn:Hrun; cbn [negb]; [|exact Hrun].
    set (s := MorphCast.step (Page.service st) (MorphCast.Tick d)).
    assert (Hs : In (MorphCast.dominantEmotion s) MoodProps.emotionNames)
      by (apply dominant_name_step, Hname).
    set (data := Page.report s).
    assert (Hne : Str.nonempty (Controller.dominant data) = true)
      by (apply emotion_name_nonempty, Hs).
    unfold Controller.updateEmotionUI.
    cbn [Controller.withShown Controller.lastPlayedEmotion].
    rewrite Hlast, Hne. cbn [andb negb].
    match goal with
    | |- context [Controller.updateMusicPlayer ?e ?c] =>
        destruct (missing_player_throws e c) as (err & Hthrow & _)
    end.
    { unfold Controller.hasPlayer in Hpage |- *.
      cbn [Controller.shown Controller.withShown].
      rewrite !(labels_player rounded) by tauto. exact Hpage. }
    destruct (Controller.updateMusicPlayer _ _) as [[u|e] c]; cbn [fst] in Hthrow;
      [discriminate Hthrow | reflexivity].
  - apply IH; cbn [Page.controller Page.service]; try assumption.
    apply dominant_name_step, Hname.
  - apply IH; cbn [Page.controller Page.service]; assumption.
  - apply IH; cbn [Page.controller Page.service Controller.step]; try assumption.
    + unfold Controller.switchMusicMode. cbn [Controller.lastPlayedEmotion].
      rewrite Hlast. exact Hpage.
    + unfold Controller.switchMusicMode. cbn [Controller.lastPlayedEmotion].
      rewrite Hlast. reflexivity.
Qed.

Lemma no_turn_keeps_flag (evs : list (Page.Event num)) :
  forall st : Page.State num,
    existsb Page.isTick evs = false ->
    Page.isAnalyzing (fold_left (Page.step rounded) evs st) = Page.isAnalyzing st.
Proof.
  induction evs as [|ev evs IH]; intros st Htick; [reflexivity|].
  cbn [fold_left existsb] in *. apply Bool.orb_false_iff in Htick.
  destruct Htick as [Hev Hevs]. rewrite (IH _ Hevs).
  destruct ev as [[d|event|]|mode]; cbn [Page.step Page.isTick Page.isAnalyzing] in *;
    try reflexivity.
  discriminate Hev.
Qed.

End PageFacts.



(** X21. On a page without the player or without its label, the
    analysis once started runs exactly until the first turn of the
    analysis loop: [updateMusicPlayer] throws inside the callback and
    the [catch] of [analysisLoop] stops the analysis.  It then stays
    stopped through every later timer, SDK event and click on a mode
    button, that is, for as long as the Start button is not pressed
    again. *)
Theorem missing_player_stops_the_analysis :
  forall (num : Type) (NUM : JSNumber num) (rounded : num -> string)
         (page : Controller.Shown) (classes : list (string * bool))
         (buttons : list (string * string)) (saved : option string)
         (evs : list (Page.Event num)),
    Controller.hasPlayer page = false ->
    Page.isAnalyzing
      (Page.run rounded evs (Controller.created page classes buttons saved))
    = negb (existsb Page.isTick evs).
Proof.
  intros num NUM rounded page classes buttons saved evs Hpage.
  unfold Page.run. destruct (existsb Page.isTick evs) eqn:Htick; cbn [negb].
  - apply missing_player_run; [| |cbn; tauto|exact Htick].
    + cbn [Page.started Page.controller].
      unfold Controller.created, Controller.loadSavedSettings.
      cbn [Controller.savedMusicMode].
      destruct saved as [mode|]; [destruct (Str.nonempty mode)|]; exact Hpage.
    + cbn [Page.started Page.controller].
      unfold Controller.created, Controller.loadSavedSettings.
      cbn [Controller.savedMusicMode].
      destruct saved as [mode|]; [destruct (Str.nonempty mode)|]; reflexivity.
  - rewrite (no_turn_keeps_flag rounded evs _ Htick). reflexivity.
Qed.

(** On an empty page: running after a click, stopped after the turn
    that follows it. *)
Lemma missing_player_stops_the_analysis_witness :
  Controller.hasPlayer [] = false
  /\ Page.isAnalyzing
       (Page.run PageExamples.rounded [Page.ModeClicked Spotify.Energy]
                 (Controller.created [] [] [] None)) = true
  /\ Page.isAnalyzing
       (Page.run PageExamples.rounded PageExamples.clicks
                 (Controller.created [] [] [] None)) = false.
Proof.
  assert (H1 : Controller.hasPlayer [] = false) by (vm_compute; reflexivity).
  split; [exact H1|].
  split.
  - exact (missing_player_stops_the_analysis Q QNumber PageExamples.rounded
             [] [] [] None [Page.ModeClicked Spotify.Energy] H1).
  - exact (missing_player_stops_the_analysis Q QNumber PageExamples.rounded
             [] [] [] None PageExamples.clicks H1).
Defined.

(** ** Starting and stopping the analysis *)

Section LifecycleFacts.
Import Lifecycle.

Lemma lifecycle_step (st : State) (c : Call) :
  (isAnalyzing st = true -> isInitialized st = true /\ (1 <= pendingLoops st)%nat) ->
  isAnalyzing (step st c) = true ->
  isInitialized (step st c) = true /\ (1 <= pendingLoops (step st c))%nat.
Proof.
  intros Hst. destruct st as [init run pending n]. cbn in Hst.
  destruct c as [granted|throws| | |throws]; cbn.
  - destruct granted; cbn; intros H; [|exact (Hst H)].
    split; [reflexivity|apply (Hst H)].
  - destruct init; cbn; [|exact Hst].
    destruct run; cbn; [exact Hst|].
    destruct throws; cbn; [discriminate|]. intros _. split; [reflexivity|lia].
  - discriminate.
  - discriminate.
  - destruct pending as [|k]; cbn; [exact Hst|].
    destruct run; cbn; [|discriminate].
    destruct throws; cbn; [discriminate|]. intros _.
    split; [apply Hst; reflexivity | lia].
Qed.

Lemma restart_adds_loop (st : State) :
  isInitialized st = true ->
  isInitialized (run [StopAnalysis; StartAnalysis false] st) = true
  /\ isAnalyzing (run [StopAnalysis; StartAnalysis false] st) = true
  /\ pendingLoops (run [StopAnalysis; StartAnalysis false] st) = S (pendingLoops st)
  /\ turns (run [StopAnalysis; StartAnalysis false] st) = S (turns st).
Proof.
  destruct st as [init run pending n]. cbn. intros ->. cbn. repeat split.
Qed.

Lemma page_restart_adds_loop (st : State) :
  isInitialized (run [Cleanup; Initialize true; StartAnalysis false] st) = true
  /\ isAnalyzing (run [Cleanup; Initialize true; StartAnalysis false] st) = true
  /\ pendingLoops (run [Cleanup; Initialize true; StartAnalysis false] st)
     = S (pendingLoops st)
  /\ turns (run [Cleanup; Initialize true; StartAnalysis false] st) = S (turns st).
Proof. destruct st as [init run pending n]. cbn. repeat split. Qed.

Lemma run_app (xs ys : list Call) (st : State) :
  run (xs ++ ys)%list st = run ys (run xs st).
Proof. apply fold_left_app. Qed.

Lemma restarts_add_loops (n : nat) :
  forall st,
    isInitialized st = true ->
    isAnalyzing st = true ->
    isInitialized (run (restarts n) st) = true
    /\ isAnalyzing (run (restarts n) st) = true
    /\ pendingLoops (run (restarts n) st) = (pendingLoops st + n)%nat
    /\ turns (run (restarts n) st) = (turns st + n)%nat.
Proof.
  induction n as [|n IH]; intros st Hinit Hrun.
  - cbn. rewrite !Nat.add_0_r. repeat split; assumption.
  - unfold restarts. cbn [repeat List.concat]. rewrite run_app.
    destruct (restart_adds_loop st Hinit) as (A & B & C & D).
    destruct (IH _ A B) as (A' & B' & C' & D'). unfold restarts in *.
    split; [exact A'|]. split; [exact B'|]. rewrite C', C, D', D. lia.
Qed.

Lemma pageRestarts_add_loops (n : nat) :
  forall st,
    isInitialized st = true ->
    isAnalyzing st = true ->
    isInitialized (run (pageRestarts n) st) = true
    /\ isAnalyzing (run (pageRestarts n) st) = true
    /\ pendingLoops (run (pageRestarts n) st) = (pendingLoops st + n)%nat
    /\ turns (run (pageRestarts n) st) = (turns st + n)%nat.
Proof.
  induction n as [|n IH]; intros st Hinit Hrun.
  - cbn. rewrite !Nat.add_0_r. repeat split; assumption.
  - unfold pageRestarts. cbn [repeat List.concat]. rewrite run_app.
    destruct (page_restart_adds_loop st) as (A & B & C & D).
    destruct (IH _ A B) as (A' & B' & C' & D').
    unfold pageRestarts in *.
    split; [exact A'|]. split; [exact B'|]. rewrite C', C, D', D. lia.
Qed.

Lemma firings_keep_loops (m : nat) :
  forall st,
    isAnalyzing st = true ->
    (1 <= pendingLoops st)%nat ->
    isAnalyzing (run (firings m) st) = true
    /\ pendingLoops (run (firings m) st) = pendingLoops st
    /\ turns (run (firings m) st) = (turns st + m)%nat.
Proof.
  induction m as [|m IH]; intros st Hrun Hpending.
  - cbn. rewrite Nat.add_0_r. repeat split; assumption.
  - unfold firings. cbn [repeat]. change (TimerFires false :: repeat (TimerFires false) m)
      with ([TimerFires false] ++ firings m)%list.
    rewrite run_app. destruct st as [init run0 pending n]. cbn in Hrun, Hpending. subst run0.
    destruct pending as [|k]; [lia|]. cbn [run fold_left step timerFires pendingLoops].
    cbn [analysisLoop isAnalyzing negb isInitialized pendingLoops turns].
    destruct (IH (mkState init true (S k) (S n)) eq_refl) as (A & B & C); [cbn; lia|].
    change (fold_left step (firings m) ?s) with (run (firings m) s).
    split; [exact A|]. split; [exact B|]. rewrite C. cbn [turns]. lia.
Qed.

End LifecycleFacts.

(** X22. While the service analyses it is initialised and at least one
    turn of the loop is pending: whatever calls are made and whichever
    turns end in an exception of the callback, the flag [isAnalyzing]
    is never left set without a timer that will run the next turn. *)
Theorem analysis_never_stalls :
  forall calls : list Lifecycle.Call,
    Lifecycle.isAnalyzing (Lifecycle.run calls Lifecycle.initial) = true ->
    Lifecycle.isInitialized (Lifecycle.run calls Lifecycle.initial) = true
    /\ (1 <= Lifecycle.pendingLoops (Lifecycle.run calls Lifecycle.initial))%nat.
Proof.
  intros calls.
  assert (H : forall st,
             (Lifecycle.isAnalyzing st = true ->
              Lifecycle.isInitialized st = true /\ (1 <= Lifecycle.pendingLoops st)%nat) ->
             Lifecycle.isAnalyzing (Lifecycle.run calls st) = true ->
             Lifecycle.isInitialized (Lifecycle.run calls st) = true
             /\ (1 <= Lifecycle.pendingLoops (Lifecycle.run calls st))%nat).
  { induction calls as [|c calls IH]; intros st Hst; [exact Hst|].
    cbn [Lifecycle.run fold_left]. apply IH. apply lifecycle_step, Hst. }
  apply H. discriminate.
Qed.

(** The service just started. *)
Lemma analysis_never_stalls_witness :
  Lifecycle.isAnalyzing
    (Lifecycle.run [Lifecycle.Initialize true; Lifecycle.StartAnalysis false]
                   Lifecycle.initial) = true
  /\ (1 <= Lifecycle.pendingLoops
             (Lifecycle.run [Lifecycle.Initialize true; Lifecycle.StartAnalysis false]
                            Lifecycle.initial))%nat.
Proof.
  assert (H : Lifecycle.isAnalyzing
                (Lifecycle.run [Lifecycle.Initialize true; Lifecycle.StartAnalysis false]
                               Lifecycle.initial) = true) by (vm_compute; reflexivity).
  split; [exact H|].
  exact (proj2 (analysis_never_stalls
                  [Lifecycle.Initialize true; Lifecycle.StartAnalysis false] H)).
Defined.

(** X23. Stopping does not cancel the pending turn of the loop: when
    the analysis is stopped and started again before the timer fires,
    the old loop goes on beside the new one.  After [n] such restarts
    of a running analysis, by [stopAnalysis] and [startAnalysis] or by
    [cleanup], [initialize] and [startAnalysis] as the page does,
    there are [n] more pending turns than before, and they stay: each
    timer that fires makes a turn and sets a timer again. *)
Theorem restart_before_timer_doubles_the_loop :
  forall (st : Lifecycle.State) (n m : nat),
    Lifecycle.isInitialized st = true ->
    Lifecycle.isAnalyzing st = true ->
    (1 <= Lifecycle.pendingLoops st)%nat ->
    let viaStop := Lifecycle.run (Lifecycle.restarts n ++ Lifecycle.firings m)%list st in
    let viaCleanup :=
      Lifecycle.run (Lifecycle.pageRestarts n ++ Lifecycle.firings m)%list st in
    Lifecycle.pendingLoops viaStop = (Lifecycle.pendingLoops st + n)%nat
    /\ Lifecycle.turns viaStop = (Lifecycle.turns st + n + m)%nat
    /\ Lifecycle.pendingLoops viaCleanup = (Lifecycle.pendingLoops st + n)%nat
    /\ Lifecycle.turns viaCleanup = (Lifecycle.turns st + n + m)%nat.
Proof.
  intros st n m Hinit Hrun Hpending. cbn zeta. rewrite !run_app.
  destruct (restarts_add_loops n st Hinit Hrun) as (A & B & C & T).
  destruct (pageRestarts_add_loops n st Hinit Hrun) as (A' & B' & C' & T').
  destruct (firings_keep_loops m _ B) as (_ & D & E); [lia|].
  destruct (firings_keep_loops m _ B') as (_ & D' & E'); [lia|].
  rewrite D, E, D', E', C, C', T, T'. repeat split.
Qed.

(** A running analysis restarted once, and three timers later. *)
Lemma restart_before_timer_doubles_the_loop_witness :
  (Lifecycle.isInitialized LifecycleExamples.running = true
   /\ Lifecycle.isAnalyzing LifecycleExamples.running = true
   /\ (1 <= Lifecycle.pendingLoops LifecycleExamples.running)%nat)
  /\ Lifecycle.pendingLoops
       (Lifecycle.run (Lifecycle.restarts 1 ++ Lifecycle.firings 3)%list
                      LifecycleExamples.running)
     = (Lifecycle.pendingLoops LifecycleExamples.running + 1)%nat.
Proof.
  assert (H1 : Lifecycle.isInitialized LifecycleExamples.running = true)
    by (vm_compute; reflexivity).
  assert (H2 : Lifecycle.isAnalyzing LifecycleExamples.running = true)
    by (vm_compute; reflexivity).
  assert (H3 : (1 <= Lifecycle.pendingLoops LifecycleExamples.running)%nat)
    by (vm_compute; lia).
  split; [repeat split; assumption|].
  exact (proj1 (restart_before_timer_doubles_the_loop
                  LifecycleExamples.running 1 3 H1 H2 H3)).
Defined.

(** ** Listeners registered more than once *)

Section ListenerFacts.
Context {num : Type} {NUM : JSNumber num}.
Import MorphCast.

Lemma handleMorphCastEmotion_twice (event : option (EmotionEvent num)) (s : Service num) :
  handleMorphCastEmotion event (handleMorphCastEmotion event s)
  = handleMorphCastEmotion event s.
Proof.
  destruct event as [ev|]; [|reflexivity].
  unfold handleMorphCastEmotion.
  cbn [currentEmotions dominantEmotion attentionScore faceDetected emotionHistory
       historySize simulationState fearful disgusted].
  f_equal. destruct (ev_attention ev) as [a|]; [|reflexivity].
  destruct (n_truthy a); reflexivity.
Qed.

Lemma handleFaceLost_twice (s : Service num) :
  handleFaceLost (handleFaceLost s) = handleFaceLost s.
Proof. reflexivity. Qed.

Lemma step_repeated (ev : Event num) (k : nat) :
  (forall s, step (step s ev) ev = step s ev) ->
  forall s, fold_left step (repeat ev (S k)) s = step s ev.
Proof.
  intros Hev. induction k as [|k IH]; intros s; [reflexivity|].
  change (repeat ev (S (S k))) with (ev :: repeat ev (S k)).
  cbn [fold_left]. rewrite IH. apply Hev.
Qed.

End ListenerFacts.

(** X24. [initialize] adds the two SDK listeners at each call and
    [cleanup] removes none, so after several starts of the analysis
    each SDK event is handled several times.  That changes nothing:
    handling an emotion result or a lost face any number of times in a
    row leaves the service as handling it once. *)
Theorem repeated_sdk_listeners_change_nothing :
  forall (num : Type) (NUM : JSNumber num) (s : MorphCast.Service num)
         (event : option (MorphCast.EmotionEvent num)) (listeners : nat),
    fold_left MorphCast.step
              (repeat (MorphCast.EmotionResult event) (S listeners)) s
    = MorphCast.handleMorphCastEmotion event s
    /\ fold_left MorphCast.step (repeat MorphCast.FaceLost (S listeners)) s
       = MorphCast.handleFaceLost s.
Proof.
  intros num NUM s event listeners. split.
  - rewrite step_repeated; [reflexivity|].
    intros s'. apply handleMorphCastEmotion_twice.
  - rewrite step_repeated; [reflexivity|].
    intros s'. apply handleFaceLost_twice.
Qed.

(** ** The element data of the efficient scanner *)

Section ElementDataFacts.
Import DOM Efficient.

Lemma confidence_range (doc : Node) (element : NodeRef) :
  ((1 # 2) <= calculateConfidence doc element <= 1)%Q.
Proof.
  unfold calculateConfidence.
  destruct (Str.nonempty (DOM.id doc element)), (hasAttribute doc element "data-testid"),
    (hasAttribute doc element "aria-label"),
    (Str.nonempty (extractTextEfficiently doc element 100));
    vm_compute; split; intros H; discriminate H.
Qed.

Lemma relevant_attributes (doc : Node) (element : NodeRef) (k v : string) :
  In (k, v) (getRelevantAttributes doc element) <->
  In k relevantAttrs /\ v <> "" /\ getAttribute doc element k = Some v.
Proof.
  unfold getRelevantAttributes. rewrite in_flat_map. split.
  - intros (attr & Hattr & Hin).
    destruct (getAttribute doc element attr) as [w|] eqn:Hw; [|destruct Hin].
    destruct (Str.nonempty w) eqn:Hne; [|destruct Hin].
    destruct Hin as [E|[]]. injection E as <- <-.
    split; [exact Hattr|]. split; [|exact Hw].
    intros ->. discriminate Hne.
  - intros (Hk & Hv & Hget). exists k. split; [exact Hk|]. rewrite Hget.
    assert (Hne : Str.nonempty v = true).
    { unfold Str.nonempty. apply Bool.negb_true_iff, String.eqb_neq, Hv. }
    rewrite Hne. left. reflexivity.
Qed.

End ElementDataFacts.

(** X25. What [extractElementData] of the efficient scanner puts into
    the data of an element: the confidence lies between 0.5 and 1; the
    attributes are exactly those of the eight relevant names that the
    element has with a value that is not empty; and the position is
    there exactly when the element was passed as visible. *)
Theorem efficient_element_data_is_well_formed :
  forall (doc : DOM.Node) (host : DOM.Host) (element : DOM.NodeRef) (isVisible : bool)
         (data : Efficient.ElementData),
    Efficient.extractElementData doc host element isVisible = Some data ->
    ((1 # 2) <= Efficient.confidence (Efficient.metadata data) <= 1)%Q
    /\ (forall k v,
          In (k, v) (Efficient.attributes data) <->
          In k Efficient.relevantAttrs /\ v <> "" /\ DOM.getAttribute doc element k = Some v)
    /\ Efficient.visible data = isVisible
    /\ (Efficient.position data <> None <-> isVisible = true).
Proof.
  intros doc host element isVisible data.
  unfold Efficient.extractElementData, Efficient.extractElementData_body.
  destruct (Efficient.generateOptimalSelector doc element); cbn [JS.bind JS.ret];
    [|discriminate].
  intros H. injection H as <-.
  cbn [Efficient.metadata Efficient.confidence Efficient.attributes Efficient.visible
       Efficient.position].
  split; [apply confidence_range|]. split; [intros k v; apply relevant_attributes|].
  split; [reflexivity|].
  destruct isVisible; split; intros H; try reflexivity; try discriminate.
  exfalso. apply H. reflexivity.
Qed.

(** The login button. *)
Lemma efficient_element_data_is_well_formed_witness :
  Efficient.extractElementData Examples.loginPage Examples.onScreen Examples.loginButton true
  = Some ElementExamples.loginData
  /\ ((1 # 2) <= Efficient.confidence (Efficient.metadata ElementExamples.loginData) <= 1)%Q.
Proof.
  assert (H : Efficient.extractElementData Examples.loginPage Examples.onScreen
                Examples.loginButton true = Some ElementExamples.loginData)
    by (vm_compute; reflexivity).
  split; [exact H|].
  exact (proj1 (efficient_element_data_is_well_formed
                  Examples.loginPage Examples.onScreen Examples.loginButton true
                  ElementExamples.loginData H)).
Defined.

(** ** The candidates of the efficient scanner *)

Section TreeFacts.
Import DOM TreeProps.

Lemma Node_children_ind (P : Node -> Prop) :
  (forall data, P (TextNode data)) ->
  (forall tag attrs cs, Forall P cs -> P (Element tag attrs cs)) ->
  forall n, P n.
Proof.
  intros Htext Helement.
  refine (fix IH (n : Node) : P n :=
            match n with
            | TextNode data => Htext data
            | Element tag attrs cs =>
                Helement tag attrs cs
                  ((fix all (l : list Node) : Forall P l :=
                      match l with
                      | [] => Forall_nil P
                      | c :: l' => Forall_cons c (IH c) (all l')
                      end) cs)
            end).
Qed.

Lemma descendantsOf_element (here : NodeRef) (tag : string)
                            (attrs : list (string * string)) (cs : list Node) :
  descendantsOf here (Element tag attrs cs) = elementsFrom here 0 cs.
Proof. reflexivity. Qed.

Lemma elementsFrom_cons (here : NodeRef) (i : nat) (c : Node) (l : list Node) :
  elementsFrom here i (c :: l)
  = ((if is_element c then [(here ++ [i])%list] else [])
       ++ descendantsOf (here ++ [i])%list c ++ elementsFrom here (S i) l)%list.
Proof. reflexivity. Qed.

Lemma below_child (here : NodeRef) (i k : nat) (r : NodeRef) :
  below (here ++ [i])%list k r -> exists j rest, r = (here ++ i :: j :: rest)%list.
Proof.
  intros (j & rest & -> & _). exists j, rest. rewrite <- app_assoc. reflexivity.
Qed.

Lemma elements_distinct (n : Node) :
  forall here,
    NoDup (descendantsOf here n)
    /\ (forall r, In r (descendantsOf here n) -> below here 0 r).
Proof.
  induction n as [data|tag attrs cs Hcs] using Node_children_ind; intros here.
  - cbn. split; [constructor | intros r []].
  - rewrite descendantsOf_element. generalize 0%nat as i.
    induction Hcs as [|c cs Hc _ IH]; intros i.
    + cbn. split; [constructor | intros r []].
    + rewrite elementsFrom_cons.
      destruct (Hc (here ++ [i])%list) as [HD HDin].
      destruct (IH (S i)) as [HG HGin].
      assert (Hhead : forall r,
                In r (if is_element c then [(here ++ [i])%list] else []) ->
                r = (here ++ [i])%list).
      { intros r Hr. destruct (is_element c); [|destruct Hr].
        destruct Hr as [<-|[]]. reflexivity. }
      split.
      * apply NoDup_app.
        -- destruct (is_element c); repeat constructor. intros [].
        -- apply NoDup_app; [exact HD | exact HG |].
           intros r Hr1 Hr2.
           destruct (below_child _ _ _ _ (HDin r Hr1)) as (j & rest & E1).
           destruct (HGin r Hr2) as (j' & rest' & E2 & Hle).
           rewrite E1 in E2. apply app_inv_head in E2. injection E2 as E2 _. lia.
        -- intros r Hr Hin. apply Hhead in Hr. subst r.
           apply in_app_or in Hin. destruct Hin as [Hin|Hin].
           ++ destruct (below_child _ _ _ _ (HDin _ Hin)) as (j & rest & E).
              apply app_inv_head in E. discriminate E.
           ++ destruct (HGin _ Hin) as (j & rest & E & Hle).
              apply app_inv_head in E. injection E as E _. lia.
      * intros r Hr. apply in_app_or in Hr. destruct Hr as [Hr|Hr].
        -- apply Hhead in Hr. exists i, []. split; [exact Hr | lia].
        -- apply in_app_or in Hr. destruct Hr as [Hr|Hr].
           ++ destruct (below_child _ _ _ _ (HDin r Hr)) as (j & rest & E).
              exists i, (j :: rest). split; [exact E | lia].
           ++ destruct (HGin r Hr) as (j & rest & E & Hle).
              exists j, rest. split; [exact E | lia].
Qed.

Lemma all_elements_distinct (doc : Node) : NoDup (all_elements doc).
Proof.
  unfold all_elements. destruct (is_element doc); [|constructor].
  destruct (elements_distinct doc []) as [Hnd Hin].
  constructor; [|exact Hnd].
  intros H. destruct (Hin _ H) as (j & rest & E & _). discriminate E.
Qed.

Lemma querySelectorAll_distinct (doc : Node) (selector : string) (found : list NodeRef) :
  CSS.querySelectorAll doc selector = JS.Ok found -> NoDup found.
Proof.
  unfold CSS.querySelectorAll. destruct (CSS.parse selector); cbn [JS.bind JS.ret];
    [|discriminate].
  intros H. injection H as <-. apply NoDup_filter, all_elements_distinct.
Qed.

Lemma firstn_distinct {A} (n : nat) (l : list A) : NoDup l -> NoDup (firstn n l).
Proof.
  intros H. revert n. induction H as [|x l Hx Hl IH]; intros [|n]; cbn; try constructor.
  - intros Hin. apply Hx. rewrite <- (firstn_skipn n l). apply in_or_app. left. exact Hin.
  - apply IH.
Qed.

Lemma slice0_distinct {A} (n : Z) (l : list A) : NoDup l -> NoDup (Util.slice0 n l).
Proof. intros H. unfold Util.slice0. destruct (n <? 0); apply firstn_distinct, H. Qed.

Lemma slice0_length {A} (n : Z) (l : list A) :
  0 <= n -> Z.of_nat (List.length (Util.slice0 n l)) <= n.
Proof.
  intros Hn. unfold Util.slice0.
  assert (E : (n <? 0) = false) by (apply Z.ltb_ge; exact Hn). rewrite E.
  pose proof (firstn_le_length (Z.to_nat n) l). rewrite length_firstn. lia.
Qed.

Lemma set_add_distinct (l : list NodeRef) (el : NodeRef) :
  NoDup l -> NoDup (Efficient.set_add l el).
Proof.
  intros H. apply (proj1 (set_add_fold [el] l H)).
Qed.

Lemma fold_keeps {A B} (P : A -> Prop) (f : A -> B -> A) :
  (forall a b, P a -> P (f a b)) ->
  forall (l : list B) (a : A), P a -> P (fold_left f l a).
Proof.
  intros Hf l. induction l as [|b l IH]; intros a Ha; [exact Ha|].
  cbn [fold_left]. apply IH, Hf, Ha.
Qed.

End TreeFacts.

Lemma strategies_distinct :
  forall (doc : DOM.Node) (config : Efficient.Config) (elements : list DOM.NodeRef),
    Efficient.fastScan doc config = JS.Ok elements
    \/ Efficient.accurateScan doc config = JS.Ok elements
    \/ Efficient.balancedScan doc config = JS.Ok elements ->
    NoDup elements
    /\ (0 <= Efficient.cfg_maxElements config ->
        Z.of_nat (List.length elements) <= Efficient.cfg_maxElements config).
Proof.
  intros doc config elements [H|[H|H]].
  - unfold Efficient.fastScan in H. destruct (DOM.body doc) as [b|]; [|discriminate].
    cbn [JS.ret] in H. injection H as <-. split.
    + apply firstn_distinct, NoDup_filter. unfold DOM.descendants.
      destruct (DOM.node_at doc b); [apply elements_distinct | constructor].
    + intros Hmax. rewrite length_firstn. lia.
  - unfold Efficient.accurateScan in H.
    match type of H with
    | JS.bind _ (fun ariaElements => JS.bind (fold_left ?g _ (JS.ret (fold_left ?f2 _ (fold_left ?f1 _ _)))) _) = _ =>
        set (F1 := f1) in H; set (F2 := f2) in H; set (G := g) in H
    end.
    assert (H1 : NoDup (fold_left F1 Efficient.semanticSelectors [])).
    { apply fold_keeps; [|constructor]. intros l selector Hl. subst F1. cbn beta.
      destruct (CSS.querySelectorAll doc selector); [|exact Hl].
      apply (proj1 (set_add_fold _ l Hl)). }
    destruct (CSS.querySelectorAll doc _) as [aria|]; cbn [JS.bind] in H; [|discriminate].
    assert (H2 : NoDup (fold_left F2 aria (fold_left F1 Efficient.semanticSelectors []))).
    { apply fold_keeps; [|exact H1]. intros l el Hl. subst F2. cbn beta.
      destruct (_ || _); [apply set_add_distinct, Hl | exact Hl]. }
    assert (H3 : match fold_left G Efficient.commonPatterns
                         (JS.ret (fold_left F2 aria
                                    (fold_left F1 Efficient.semanticSelectors [])))
                 with JS.Ok l => NoDup l | JS.Throw _ => True end).
    { apply (fold_keeps (fun acc => match acc with JS.Ok l => NoDup l | JS.Throw _ => True end));
        [|exact H2].
      intros acc pattern Hacc. subst G. cbn beta.
      destruct acc as [l|e]; cbn [JS.bind]; [|exact I].
      destruct (CSS.querySelectorAll doc pattern) as [found|e]; cbn [JS.bind JS.ret];
        [|exact I].
      apply fold_keeps; [|exact Hacc]. intros l' el Hl'.
      destruct (Efficient.isLikelyInteractive doc el);
        [apply set_add_distinct, Hl' | exact Hl']. }
    destruct (fold_left G _ _) as [l|e]; cbn [JS.bind JS.ret] in H; [|discriminate].
    injection H as <-. split; [apply slice0_distinct, H3 | apply slice0_length].
  - unfold Efficient.balancedScan in H.
    destruct (CSS.querySelectorAll doc Efficient.primarySelectors) as [primary|] eqn:Hp;
      cbn [JS.bind] in H; [|discriminate].
    pose proof (querySelectorAll_distinct _ _ _ Hp) as Hprimary.
    destruct (DOM.Qltb _ _).
    + destruct (CSS.querySelectorAll doc Efficient.secondarySelectors) as [secondary|];
        cbn [JS.bind JS.ret] in H; [|discriminate].
      injection H as <-. split; [|apply slice0_length].
      apply slice0_distinct, fold_keeps; [|exact Hprimary].
      intros l el Hl. destruct (negb (DOM.mem el l)) eqn:Hmem; cbn [andb]; [|exact Hl].
      destruct (Efficient.isLikelyInteractive doc el); [|exact Hl].
      apply NoDup_snoc; [exact Hl|]. intros Hin.
      apply Bool.negb_true_iff in Hmem. apply mem_In in Hin. congruence.
    + cbn [JS.bind JS.ret] in H. injection H as <-.
      split; [apply slice0_distinct, Hprimary | apply slice0_length].
Qed.

(** X26. Each of the three strategies of the efficient scanner collects
    distinct elements: the tree walk of [fastScan], the set of
    [accurateScan] and the two queries of [balancedScan] never hold an
    element twice; and for a limit that is not negative they hold at
    most [maxElements] elements. *)
Theorem efficient_candidates_are_distinct :
  forall (doc : DOM.Node) (config : Efficient.Config) (elements : list DOM.NodeRef),
    Efficient.fastScan doc config = JS.Ok elements
    \/ Efficient.accurateScan doc config = JS.Ok elements
    \/ Efficient.balancedScan doc config = JS.Ok elements ->
    NoDup elements
    /\ (0 <= Efficient.cfg_maxElements config ->
        Z.of_nat (List.length elements) <= Efficient.cfg_maxElements config).
Proof. exact strategies_distinct. Qed.

(** The balanced strategy on the page with the login button. *)
Lemma efficient_candidates_are_distinct_witness :
  (Efficient.fastScan Examples.loginPage (Efficient.config_of Efficient.noOptions)
   = JS.Ok CandidateExamples.loginCandidates
   \/ Efficient.accurateScan Examples.loginPage (Efficient.config_of Efficient.noOptions)
      = JS.Ok CandidateExamples.loginCandidates
   \/ Efficient.balancedScan Examples.loginPage (Efficient.config_of Efficient.noOptions)
      = JS.Ok CandidateExamples.loginCandidates)
  /\ NoDup CandidateExamples.loginCandidates.
Proof.
  assert (H : Efficient.fastScan Examples.loginPage (Efficient.config_of Efficient.noOptions)
              = JS.Ok CandidateExamples.loginCandidates
              \/ Efficient.accurateScan Examples.loginPage
                   (Efficient.config_of Efficient.noOptions)
                 = JS.Ok CandidateExamples.loginCandidates
              \/ Efficient.balancedScan Examples.loginPage
                   (Efficient.config_of Efficient.noOptions)
                 = JS.Ok CandidateExamples.loginCandidates)
    by (right; right; vm_compute; reflexivity).
  split; [exact H|].
  exact (proj1 (efficient_candidates_are_distinct Examples.loginPage
                  (Efficient.config_of Efficient.noOptions)
                  CandidateExamples.loginCandidates H)).
Defined.

Section ReportFacts.
Import DOM Efficient.

Lemma processed_refs (doc : Node) (host : Host) (config : Config)
                     (visibilityMap : NodeRef -> bool) (elements : list NodeRef) :
  map elementRef (flat_map (processOne doc host config visibilityMap) elements)
  = filter (fun el => match processOne doc host config visibilityMap el with
                      | [] => false
                      | _ => true
                      end) elements.
Proof.
  induction elements as [|el elements IH]; [reflexivity|].
  cbn [flat_map filter]. rewrite map_app, IH.
  unfold processOne at 1 3.
  destruct (negb (cfg_includeInvisible config) && negb (visibilityMap el));
    [reflexivity|].
  unfold extractElementData, extractElementData_body.
  destruct (generateOptimalSelector doc el); cbn [JS.bind JS.ret]; reflexivity.
Qed.

End ReportFacts.

(** X27. A scan of the efficient scanner that is not answered from the
    cache reports no element twice: the data it answers refer to
    distinct elements, each of them one of the candidates of the
    strategy in use. *)
Theorem efficient_fresh_scan_reports_each_element_once :
  forall (doc : DOM.Node) (host : DOM.Host) (options : Efficient.Options)
         (clock : Efficient.Clock) (s : Efficient.Scanner)
         (processed : list Efficient.ElementData),
    Efficient.cfg_useCache (Efficient.config_of options)
      && Efficient.isCacheValid s (Efficient.now_check clock) = false ->
    fst (Efficient.scanPageElements doc host options clock s) = Efficient.Settled processed ->
    NoDup (map Efficient.elementRef processed)
    /\ exists elements,
         Efficient.strategy doc (Efficient.config_of options) = JS.Ok elements
         /\ incl (map Efficient.elementRef processed) elements.
Proof.
  intros doc host options clock s processed Hmiss.
  unfold Efficient.scanPageElements. cbn zeta. rewrite Hmiss.
  destruct (Efficient.strategy doc (Efficient.config_of options)) as [elements|e] eqn:Hs;
    [|discriminate].
  assert (Hnd : NoDup elements).
  { unfold Efficient.strategy in Hs.
    apply (strategies_distinct doc (Efficient.config_of options)).
    destruct (String.eqb _ "speed"); [left; exact Hs|].
    destruct (String.eqb _ "accuracy"); [right; left; exact Hs | right; right; exact Hs]. }
  unfold Efficient.processElements.
  destruct (Efficient.batchVisibilityCheck host elements) as [visibilityMap|e|];
    cbn [fst]; try discriminate.
  intros H. injection H as <-.
  assert (Hperm : Permutation
                    (map Efficient.elementRef
                       (Efficient.prioritizeElements
                          (flat_map (Efficient.processOne doc host (Efficient.config_of options)
                                       visibilityMap) elements)))
                    (filter (fun el =>
                               match Efficient.processOne doc host (Efficient.config_of options)
                                       visibilityMap el with
                               | [] => false
                               | _ => true
                               end) elements)).
  { rewrite <- processed_refs. apply Permutation_map, prioritizeElements_perm. }
  split.
  - eapply Permutation_NoDup; [apply Permutation_sym, Hperm|]. apply NoDup_filter, Hnd.
  - exists elements. split; [reflexivity|].
    intros r Hr. apply (Permutation_in _ Hperm) in Hr. apply filter_In in Hr. apply Hr.
Qed.

(** The first scan of the page with the login button. *)
Lemma efficient_fresh_scan_reports_each_element_once_witness :
  (Efficient.cfg_useCache (Efficient.config_of Efficient.noOptions)
     && Efficient.isCacheValid Efficient.initial (Efficient.now_check Examples.clock) = false
   /\ fst (Efficient.scanPageElements Examples.loginPage Examples.onScreen
             Efficient.noOptions Examples.clock Efficient.initial)
      = Efficient.Settled SessionExamples.firstReturned)
  /\ NoDup (map Efficient.elementRef SessionExamples.firstReturned).
Proof.
  assert (H1 : Efficient.cfg_useCache (Efficient.config_of Efficient.noOptions)
                 && Efficient.isCacheValid Efficient.initial
                      (Efficient.now_check Examples.clock) = false)
    by (vm_compute; reflexivity).
  assert (H2 : fst (Efficient.scanPageElements Examples.loginPage Examples.onScreen
                      Efficient.noOptions Examples.clock Efficient.initial)
               = Efficient.Settled SessionExamples.firstReturned)
    by (vm_compute; reflexivity).
  split; [split; assumption|].
  exact (proj1 (efficient_fresh_scan_reports_each_element_once
                  Examples.loginPage Examples.onScreen Efficient.noOptions Examples.clock
                  Efficient.initial SessionExamples.firstReturned H1 H2)).
Defined.
